(* ===== verification/_CoqProject ===== *)
-Q . S2P
Prelude.v
Platform.v
Types.v
CacheKey.v
CacheSpec.v
CacheL1.v
CacheL2.v
Stats.v
Cache.v
SlotQueue.v
SlotPool.v
Channel.v
SqlFuncs.v
ColdCache.v
ChannelShmem.v
Config.v
ChannelFactory.v
Client.v
Processor.v
Protocol.v
Frames.v
Service.v
Ledger.v
Refinement.v
Effects.v
Races.v
Worker.v
State.v
Fdw.v
Payload.v
EndToEnd.v
Calls.v
Fairness.v
Capacity.v
Wakeup.v
Concurrent.v
Hazards.v
Relation.v
Util.v
