(* ===== verification/Prelude.v ===== *)
(** * PostFGA: a verification library for the postfga PostgreSQL extension

    postfga lets SQL ask an OpenFGA server for authorization decisions.  A
    backend process runs a SQL function, looks the decision up in a two-tier
    cache, and otherwise hands the request to a background worker through a
    pool of request slots and a queue of slot numbers in shared memory; the
    worker turns requests into asynchronous gRPC calls, and the reply wakes the
    waiting backend.

    ** The parts and their files

    - [Platform]: interfaces to code outside the repository, each a class of
      operations and a class of laws with a concrete instance: [XXHash] (the
      digests, no law), [Dynahash]/[DynahashLaws] (PostgreSQL's shared hash
      table), [SList]/[SListLaws] (its intrusive list), [PgMem]/[PgMemLaws]
      (MAXALIGN and the overflow-checked sizes).
    - [Types]: postfga.h, payload.h, config.h and the layout of C structs.
    - [CacheKey] (cache_key.h): the cache key.  [CacheSpec]: what a cache of
      decisions promises.  [CacheL1] (cache_l1.h): the set-associative cache of
      one backend.  [CacheL2] (cache_l2.h): the shared array with its clock
      sweep.  [Stats] (stats.c, func_stats.c): the counters.  [Cache] (cache.c):
      both tiers together, and histories of all backends.
    - [SlotQueue], [SlotPool] (channel_slot.h): the ring of slot numbers and the
      freelist.  [Channel] (channel.c): acquire, enqueue, wait, release.
      [ChannelShmem] (channel_shmem.c): their memory.
    - [SqlFuncs] (func_fga.c): the five SQL functions.
    - [Config] (guc.c, config/): the settings.  [ChannelFactory]
      (client/channel_factory.cpp): the gRPC channel.  [Client] (client/): calls
      and completion callbacks, over the interface [CompletionEnv] that the
      worker implements.
    - [Processor] (bgw/processor.cpp): one turn of the worker.  [Protocol]: all
      backends, the worker and the gRPC threads as one step function over
      labels, with reachability by runs and an invariant that gives each slot
      one role.  [Races]: executions at a finer granularity.  [Worker]
      (bgw/worker.cpp, bgw/bgw.c): signals, reloads and the main loop.
    - [State] (state.c, init.c): the shared segment and the module hooks.
    - [EndToEnd]: SQL function, worker and server composed.
    - [Frames], [Service], [Ledger], [Refinement]: the system as an
      implementation of a question-answer service.  [Service] is the
      specification (ask, decide, tell); [Frames] says which parts of a step's
      state no other process touches; [Ledger] is what the run of the system
      records about each request; [Refinement] maps runs of [Protocol] to runs of
      [Service], with a server as a class [CheckServer] of two instances.
      [Effects]: how often a request reaches the server.
    - [Calls]: the C code of a SQL function cut at its waits into labels of
      [Protocol].  [Fairness]: how long a request waits when the worker keeps
      turning and every call comes to its reply.  [Capacity]: when the queue has
      room for every slot.  [Wakeup]: the same when the worker turns only on its
      latch.  [Concurrent]: what the SQL functions return when all other
      processes run meanwhile.  [ColdCache]: the cache under the SQL functions.
    - [Hazards]: two writes, of which the first is interrupted.
    - [Fdw] (fdw/): the foreign data wrapper, with the statements of handler.c
      and its copy in schema.c, and the callbacks the handler registers.
    - [Payload]: the typing of the shared requests and responses.
    - [Relation] (relation.c): the relation list.  [Util] (util/,
      bgw/task_slot.hpp): the limiter of calls, a pool of call slots, log levels.

    A definition has the name of the C or C++ function it translates where that
    name is free.  Functions return an [outcome]: a value, a PostgreSQL error
    that unwinds the stack, or [Undefined] where C gives the run no meaning
    (out-of-bounds access, failed assertion, uninitialised read) or the process
    waits forever.  State is threaded through the monad [CM]; an error keeps the
    writes made before it.  Unsigned integers are wrapped at their width.
    Functions with assertions take the build flag [use_asserts].

    ** What the theorems show

    - Cache: no decision is answered that was not stored for the same key before
      its expiry, a store is seen by every backend, and the statistics count the
      events; the structures of L1 and L2 keep their invariants under every
      operation, the victim search ends, the key identifies the request.
    - End to end: [fga_check] returns what the server decides for the configured
      store and model and the tuple of its arguments; a write or delete asks any
      server for exactly its tuple and reports the server's verdict; a created
      store's id and name come back as the server gave them, a deleted store is
      the one named.
    - Concurrency: every run of backends, worker and gRPC threads is a run of the
      service, in which the server decides each question once, between its being
      asked and its being told; a SQL function's execution is a run of the system
      whatever the others do; so a check returns what the server decides for its
      own question in a state it has during the call, a write, deletion or store
      function that returns took effect during the call, a confirmed change is
      seen by every later check, and no change is sent more often than asked.
    - Liveness: when the worker keeps turning and every gRPC call in flight comes
      to its reply, a request is answered after one round per fifty requests
      queued before it and three more, whatever the other backends do; so every
      SQL function comes to an end, with the answer or an error that says why.
      That the worker keeps turning is what its latch should see to: driven by
      the latch alone, the same holds in twice the rounds unless requests get
      stranded, and a turn strands requests exactly when the fifty it takes have
      all been given up.
    - As programmed, no SQL function stores a decision: no check is answered from
      the cache.
    - Request hand-over: the queue refines a bounded FIFO, the pool gives a slot
      to one owner; in every run of the system each slot is free, owned or in the
      pipeline, and nothing undefined happens; the queue of the initialised
      channel has room for every slot unless their number is a power of two; the
      SQL functions return the server's answer and give the slot back.
    - Client: each request leads to one call and one answer, batching changes
      nothing for the checks of one store, and the tuple key is injective.
    - Memory: the parts of the segment fit it, startup happens once, every write
      to a payload keeps its strings inside their arrays.
    - Configuration, foreign data wrapper, limiter, slot pool and list parser:
      ranges, options, scans, permits, ownership, and equality with a reference
      parser.
    - Defects: a group of theorems shows by executions or for all inputs what
      goes wrong: a leaked slot when no store is configured, a freed slot that is
      still queued, a write confirmed by the answer to another, a jump to a dead frame, key collisions and split entries,
      checks decided in another session's store, requests lost by a reload,
      requests stranded behind fifty that were given up, and interrupts that race
      with the worker.

    ** Atomicity, bounds and fuel

    Operations under a lock are single steps; the operations of different
    processes interleave.  [Protocol] runs the error handler of the wait loop
    and the worker's response handler without each other in between, which the
    code assumes and does not enforce; [Races] lifts this.  An interrupted
    backend, and one that finds the queue full, leaves its slot as channel.c
    does, which is all [fga_check] does; the handlers of the four other functions
    release it once more, which the system leaves out and [Hazards] shows to hand
    the answer to one backend's write to another.  The wait loop has one
    turn per wake-up given to it, and waits forever when they end.  The victim
    search has fuel 255 times the number of entries plus one, enough since each
    turn that goes on lowers one usage count, a byte ([l2_victim_search] shows it
    ends with a victim).  Runs of the system are finite lists of labels; the fair
    rounds of [Fairness] and [Wakeup] are a hypothesis on such lists: the deadline
    of every call (client/) makes its reply come, the loop of worker.cpp makes a
    set latch lead to a turn; concrete runs show that they can hold.  The
    relation list uses its length, since each token shortens it.  Other loops are
    structural.

    ** Not modelled

    Output to the log beyond what a theorem needs; gRPC and protobuf objects
    other than the fields the code sets; memory contexts and palloc failures;
    PostgreSQL's planner and executor around the callbacks of the foreign data
    wrapper; backend_request.c (commented out), client/openfga_util.cpp and
    bgw/queue.hpp (without a user); the generated API, SQL scripts, tests and build files.
    Memory is sequentially consistent: the barriers of the code are not
    distinguished. *)
From stdpp Require Export prelude gmap list strings.
From Stdlib Require Export Ascii ZArith Lia.

#[global] Open Scope Z_scope.

(** ** Machine integers

    A w-bit unsigned C integer is a [Z]; every operation that can leave the
    range is written with the conversion the C code performs. *)
Definition wrap (w z : Z) : Z := z mod 2 ^ w.
Definition u8 (z : Z) : Z := wrap 8 z.
Definition u16 (z : Z) : Z := wrap 16 z.
Definition u32 (z : Z) : Z := wrap 32 z.
Definition u64 (z : Z) : Z := wrap 64 z.

#[global] Arguments u16 : simpl never.
#[global] Arguments u32 : simpl never.
#[global] Arguments u64 : simpl never.

(** Conversion to a signed 64-bit integer (two's complement). *)
Definition s64 (z : Z) : Z := (z + 2 ^ 63) mod 2 ^ 64 - 2 ^ 63.

Definition UINT32_MAX : Z := 2 ^ 32 - 1.

Lemma wrap_range w z : 0 <= w -> 0 <= wrap w z < 2 ^ w.
Proof. intros Hw. apply Z.mod_pos_bound, Z.pow_pos_nonneg; lia. Qed.

Lemma wrap_small w z : 0 <= z < 2 ^ w -> wrap w z = z.
Proof. apply Z.mod_small. Qed.

Lemma u16_range z : 0 <= u16 z < 65536.
Proof. by apply (wrap_range 16). Qed.
Lemma u32_range z : 0 <= u32 z < 4294967296.
Proof. by apply (wrap_range 32). Qed.
Lemma u64_range z : 0 <= u64 z < 18446744073709551616.
Proof. by apply (wrap_range 64). Qed.
Lemma u8_small z : 0 <= z < 256 -> u8 z = z.
Proof. apply (wrap_small 8). Qed.
Lemma u16_small z : 0 <= z < 65536 -> u16 z = z.
Proof. apply (wrap_small 16). Qed.
Lemma u32_small z : 0 <= z < 4294967296 -> u32 z = z.
Proof. apply (wrap_small 32). Qed.
Lemma u64_small z : 0 <= z < 18446744073709551616 -> u64 z = z.
Proof. apply (wrap_small 64). Qed.

Lemma wrap_add_l w a b : wrap w (wrap w a + b) = wrap w (a + b).
Proof. apply Zplus_mod_idemp_l. Qed.
Lemma wrap_add_r w a b : wrap w (a + wrap w b) = wrap w (a + b).
Proof. apply Zplus_mod_idemp_r. Qed.

(** The mask operation of a power-of-two ring. *)
Lemma land_mask z k : 0 <= k -> Z.land z (2 ^ k - 1) = z mod 2 ^ k.
Proof.
  intros Hk. rewrite <- Z.land_ones by done.
  by rewrite Z.ones_equiv, Z.sub_1_r.
Qed.

(** Reducing a 16-bit wrapped value modulo a smaller power of two. *)
Lemma mod_wrap z k w : 0 <= k <= w -> wrap w z mod 2 ^ k = z mod 2 ^ k.
Proof.
  intros Hk. unfold wrap. apply Z.mod_mod_divide.
  exists (2 ^ (w - k)). rewrite <- Z.pow_add_r by lia. f_equal; lia.
Qed.

(** ** Outcomes of a C function

    [Done a] is a normal return, [Error e] a PostgreSQL [ereport(ERROR)] that
    unwinds the stack, [Undefined u] a run that has no result: behaviour that C
    leaves undefined, a failed [Assert], or a process that waits forever.  The
    model stops there instead of inventing a value. *)
Inductive ub : Type :=
  | OutOfBounds
  | AssertFailed
  | DivByZero
  | NullDeref
  | UninitializedRead
  | SelfDeadlock
  | WaitsForever
  | IntOverflow
  | DeadFrameJump
  | UseAfterFree
  | OutOfFuel.

(** The message is the literal of the source; an error carries its SQLSTATE
    macro's name. *)
Record pg_error : Type := PgError { err_code : string; err_msg : string }.

Inductive outcome (A : Type) : Type :=
  | Done (a : A)
  | Error (e : pg_error)
  | Undefined (u : ub).
Arguments Done {A} a.
Arguments Error {A} e.
Arguments Undefined {A} u.

#[export] Instance ub_eq_dec : EqDecision ub.
Proof. solve_decision. Defined.
#[export] Instance pg_error_eq_dec : EqDecision pg_error.
Proof. solve_decision. Defined.
#[export] Instance outcome_eq_dec {A} `{EqDecision A} : EqDecision (outcome A).
Proof. solve_decision. Defined.

#[export] Instance outcome_ret : MRet outcome := @Done.
#[export] Instance outcome_bind : MBind outcome := fun A B f m =>
  match m with
  | Done a => f a
  | Error e => Error e
  | Undefined u => Undefined u
  end.
#[export] Instance outcome_fmap : FMap outcome := fun A B f m =>
  match m with
  | Done a => Done (f a)
  | Error e => Error e
  | Undefined u => Undefined u
  end.

(** [Assert(c)]: checked in an assert-enabled build, nothing in the others. *)
Definition c_assert (use_asserts c : bool) : outcome unit :=
  if use_asserts && negb c then Undefined AssertFailed else Done tt.

(** Stateful functions: the state is threaded through every outcome, since
    [ereport(ERROR)] keeps the writes to shared memory made before it. *)
Definition CM (S A : Type) : Type := S -> outcome A * S.

#[export] Instance cm_ret {S} : MRet (CM S) := fun A a s => (Done a, s).
#[export] Instance cm_bind {S} : MBind (CM S) := fun A B f m s =>
  match m s with
  | (Done a, s') => f a s'
  | (Error e, s') => (Error e, s')
  | (Undefined u, s') => (Undefined u, s')
  end.

Definition cm_get {S} : CM S S := fun s => (Done s, s).
Definition cm_put {S} (s : S) : CM S unit := fun _ => (Done tt, s).
Definition cm_modify {S} (f : S -> S) : CM S unit := fun s => (Done tt, f s).
Definition cm_lift {S A} (o : outcome A) : CM S A := fun s => (o, s).
Definition ereport {S A} (code msg : string) : CM S A :=
  fun s => (Error (PgError code msg), s).

(** [PG_TRY() { body } PG_CATCH() { handler; PG_RE_THROW(); } PG_END_TRY()]:
    the handler runs on the state the error left, then the error goes on. *)
Definition pg_try {S A} (body : CM S A) (handler : CM S unit) : CM S A :=
  fun s =>
    match body s with
    | (Error e, s') =>
        match handler s' with
        | (Done _, s'') => (Error e, s'')
        | (Error e', s'') => (Error e', s'')
        | (Undefined u, s'') => (Undefined u, s'')
        end
    | r => r
    end.

(** [m] relates the state it is started in to the one it leaves, whatever its
    outcome: what a function leaves alone. *)
Definition keeps {S A} (R : S -> S -> Prop) (m : CM S A) : Prop := forall s, R s (m s).2.

Create HintDb keeps.

Section Keeps.
Context {S : Type} (R : S -> S -> Prop) `{!PreOrder R}.

Lemma keeps_ret {A} (a : A) : keeps R (mret a).
Proof. intros s. reflexivity. Qed.

Lemma keeps_bind {A B} (m : CM S A) (f : A -> CM S B) :
  keeps R m -> (forall a, keeps R (f a)) -> keeps R (m ≫= f).
Proof.
  intros Hm Hf s. specialize (Hm s). unfold mbind, cm_bind.
  destruct (m s) as [[a|e|u] s1]; cbn in *; [|done..]. etransitivity; [exact Hm|apply Hf].
Qed.

Lemma keeps_lift {A} (o : outcome A) : keeps R (cm_lift (S := S) o).
Proof. intros s. reflexivity. Qed.

Lemma keeps_get : keeps R (cm_get (S := S)).
Proof. intros s. reflexivity. Qed.

Lemma keeps_ereport {A} code msg : keeps R (ereport (S := S) (A := A) code msg).
Proof. intros s. reflexivity. Qed.

Lemma keeps_modify f : (forall s, R s (f s)) -> keeps R (cm_modify f).
Proof. intros Hf s. apply Hf. Qed.

(** A step of which only the start state is known. *)
Lemma keeps_done {A} (m : CM S A) s r s' : keeps R m -> m s = (r, s') -> R s s'.
Proof. intros Hm Heq. specialize (Hm s). by rewrite Heq in Hm. Qed.
End Keeps.

#[export] Hint Resolve keeps_ret keeps_bind keeps_lift keeps_get keeps_ereport : keeps.

(** ** Bytes and C strings *)
Definition byte_of_Z (z : Z) : ascii := ascii_of_N (Z.to_N (u8 z)).
Definition Z_of_byte (b : ascii) : Z := Z.of_N (N_of_ascii b).
Definition NUL : ascii := ascii_of_N 0.

(** The bytes of a string literal. *)
Definition str (s : string) : list ascii := String.list_ascii_of_string s.

Lemma Z_of_byte_of_Z z : Z_of_byte (byte_of_Z z) = u8 z.
Proof.
  unfold Z_of_byte, byte_of_Z.
  pose proof (wrap_range 8 z ltac:(lia)) as Hr. fold (u8 z) in Hr.
  rewrite N_ascii_embedding by lia. lia.
Qed.

(** The C string held in a char array: the bytes before the first NUL. *)
Fixpoint c_str (buf : list ascii) : list ascii :=
  match buf with
  | [] => []
  | b :: bs => if decide (b = NUL) then [] else b :: c_str bs
  end.

Definition no_nul (s : list ascii) : Prop := NUL ∉ s.

#[export] Instance no_nul_dec s : Decision (no_nul s).
Proof. unfold no_nul. apply _. Defined.

(** [memset(buf, 0, n)] *)
Definition zeros (n : nat) : list ascii := replicate n NUL.

(** [strlcpy(dst, src, size)] with [dst] an array of at least [size] bytes:
    at most [size - 1] bytes of the string, a NUL, the rest of [dst] kept. *)
Definition strlcpy (dst src : list ascii) (size : nat) : list ascii :=
  match size with
  | O => dst
  | S n => let w := take n (c_str src) ++ [NUL] in w ++ drop (length w) dst
  end.

Lemma no_nul_nil : no_nul [].
Proof. apply not_elem_of_nil. Qed.

Lemma no_nul_cons b s : no_nul (b :: s) <-> b <> NUL /\ no_nul s.
Proof. unfold no_nul. rewrite not_elem_of_cons. naive_solver. Qed.

Lemma c_str_no_nul buf : no_nul (c_str buf).
Proof.
  induction buf as [|b bs IH]; cbn [c_str app]; [apply no_nul_nil|].
  case_decide; [apply no_nul_nil|]. by apply no_nul_cons.
Qed.

Lemma c_str_app_nul s rest : no_nul s -> c_str (s ++ NUL :: rest) = s.
Proof.
  induction s as [|b bs IH]; cbn [c_str app]; intros Hn.
  - by rewrite decide_True.
  - apply no_nul_cons in Hn as [Hb Hn].
    rewrite decide_False by done. by rewrite IH.
Qed.

Lemma c_str_id s : no_nul s -> c_str s = s.
Proof.
  induction s as [|b bs IH]; cbn [c_str app]; intros Hn; [done|].
  apply no_nul_cons in Hn as [Hb Hn].
  rewrite decide_False by done. by rewrite IH.
Qed.

Lemma no_nul_take n s : no_nul s -> no_nul (take n s).
Proof. unfold no_nul. intros Hn Hin. apply Hn.
  rewrite <- (take_drop n s). apply elem_of_app. by left. Qed.

Lemma c_str_zeros n : c_str (zeros n) = [].
Proof. by destruct n. Qed.

(** The string read back from a [strlcpy]ed array is the source string cut at
    [size - 1] bytes. *)
Lemma c_str_strlcpy dst src size :
  (0 < size)%nat -> c_str (strlcpy dst src size) = take (size - 1) (c_str src).
Proof.
  intros Hs. destruct size as [|n]; [lia|]. simpl.
  rewrite <- app_assoc. simpl. rewrite Nat.sub_0_r.
  apply c_str_app_nul, no_nul_take, c_str_no_nul.
Qed.

Lemma length_strlcpy dst src size :
  (size <= length dst)%nat -> length (strlcpy dst src size) = length dst.
Proof.
  intros Hs. destruct size as [|n]; cbn [strlcpy]; [done|].
  rewrite length_app, length_drop, length_app, length_take. cbn [length]. lia.
Qed.

(** ** Lists *)

(** A list indexed by a machine integer. *)
Definition zlookup {A} (l : list A) (i : Z) : option A :=
  if decide (0 <= i) then l !! Z.to_nat i else None.

Lemma zlookup_nat {A} (l : list A) (i : nat) : zlookup l (Z.of_nat i) = l !! i.
Proof. unfold zlookup. rewrite decide_True by lia. by rewrite Nat2Z.id. Qed.

Lemma list_lookup_total_insert_eq {A} `{Inhabited A} (l : list A) i x :
  (i < length l)%nat -> <[i := x]> l !!! i = x.
Proof. intros Hi. by apply list_lookup_total_correct, list_lookup_insert_eq. Qed.

Lemma list_lookup_total_insert_ne' {A} `{Inhabited A} (l : list A) i j x :
  i <> j -> <[i := x]> l !!! j = l !!! j.
Proof. intros Hij. rewrite !list_lookup_total_alt. by rewrite list_lookup_insert_ne. Qed.

Lemma lookup_total_fmap_lt {A} `{Inhabited A} (f : A -> A) (l : list A) i :
  (i < length l)%nat -> (f <$> l) !!! i = f (l !!! i).
Proof. intros Hi. by rewrite (list_lookup_total_fmap f). Qed.

(** Replacing one element changes a sum by the difference of the two. *)
Lemma sum_list_fmap_insert {A} (f : A -> nat) (l : list A) i x y :
  l !! i = Some y ->
  (sum_list (f <$> <[i := x]> l) + f y = sum_list (f <$> l) + f x)%nat.
Proof.
  revert i. induction l as [|z l IH]; intros [|i] Hi; try done.
  - injection Hi as ->. csimpl. lia.
  - specialize (IH i Hi). csimpl. lia.
Qed.

Lemma sum_list_fmap_ext {A} (f g : A -> nat) (l : list A) :
  (forall x, x ∈ l -> f x = g x) -> sum_list (f <$> l) = sum_list (g <$> l).
Proof.
  induction l as [|z l IH]; simpl; [done|]. intros Hfg.
  rewrite Hfg by set_solver. f_equal. apply IH. set_solver.
Qed.

Lemma sum_list_fmap_le {A} (f : A -> nat) (l : list A) n :
  (forall x, x ∈ l -> f x <= n)%nat -> (sum_list (f <$> l) <= length l * n)%nat.
Proof.
  induction l as [|z l IH]; csimpl; [lia|]. intros Hf.
  assert (f z <= n)%nat by (apply Hf; set_solver).
  assert (sum_list (f <$> l) <= length l * n)%nat by (apply IH; set_solver). lia.
Qed.

(** ** Automation *)
Create HintDb fga.
#[export] Hint Resolve u16_range u32_range u64_range : fga.
Create HintDb fga_len.
#[export] Hint Rewrite @length_insert @length_app @length_replicate @length_take
  @length_drop @length_fmap : fga_len.

(** Decide a closed proposition by evaluation. *)
Ltac decide_now :=
  match goal with |- ?P => apply (bool_decide_eq_true_1 P); vm_compute; reflexivity end.

(** Split every boolean guard of the goal and of the hypotheses. *)
Ltac split_guards :=
  repeat match goal with
  | H : _ && _ = true |- _ => apply andb_true_iff in H as [? ?]
  | H : _ && _ = false |- _ => apply andb_false_iff in H
  | H : _ || _ = false |- _ => apply orb_false_iff in H as [? ?]
  | H : negb _ = true |- _ => apply negb_true_iff in H
  | H : negb _ = false |- _ => apply negb_false_iff in H
  | H : bool_decide _ = true |- _ => apply bool_decide_eq_true in H
  | H : bool_decide _ = false |- _ => apply bool_decide_eq_false in H
  | H : (_ <=? _) = true |- _ => apply Z.leb_le in H
  | H : (_ <=? _) = false |- _ => apply Z.leb_gt in H
  | H : (_ <? _) = true |- _ => apply Z.ltb_lt in H
  | H : (_ <? _) = false |- _ => apply Z.ltb_ge in H
  | H : (_ =? _) = true |- _ => apply Z.eqb_eq in H
  | H : (_ =? _) = false |- _ => apply Z.eqb_neq in H
  end.
