(* ===== verification/Platform.v ===== *)
(** * Interfaces to the code outside the repository

    postfga calls PostgreSQL and xxHash through small interfaces.  Each one is
    a typeclass of operations, its documented behaviour a second class of
    laws; the components are modelled over the operations and proved from the
    laws.  An instance follows each interface, so that every theorem that uses
    it can be applied to concrete data. *)
From S2P Require Import Prelude.

(** ** xxHash: the two digests of a byte buffer (no law is assumed). *)
Class XXHash : Type := {
  XXH3_64bits : list ascii -> Z;
  XXH3_128bits : list ascii -> Z * Z;   (* (low64, high64) *)
}.

(** A concrete digest for the examples (not xxHash's function): the bytes as
    digits in base 257, reduced to the digest's width. *)
Definition digits_hash (buf : list ascii) : Z :=
  foldl (fun h b => 257 * h + Z_of_byte b + 1) 0 buf.
Definition example_hash : XXHash := {|
  XXH3_64bits buf := u64 (digits_hash buf);
  XXH3_128bits buf := (u64 (digits_hash buf), u64 (digits_hash buf / 2 ^ 64));
|}.

(** ** dynahash: the shared hash table behind [hash_search]

    [HASH_FIND], [HASH_ENTER] (which also fills the value the caller writes
    through the returned pointer; [None] is the NULL return) and
    [HASH_REMOVE].  [ShmemInitHash] creates an empty table (for a process
    that finds the name registered it attaches to the table of the creator). *)
Class Dynahash (K V H : Type) : Type := {
  hash_find : H -> K -> option V;
  hash_enter : H -> K -> V -> option H;
  hash_remove : H -> K -> H;
  hash_get_num_entries : H -> nat;
  hash_max_entries : H -> nat;
  ShmemInitHash : Z -> Z -> H;   (* init_size, max_size *)
}.

Class DynahashLaws (K V H : Type) `{Dynahash K V H} : Prop := {
  find_enter_eq h h' k v :
    hash_enter h k v = Some h' -> hash_find h' k = Some v;
  find_enter_ne h h' k k' v :
    hash_enter h k v = Some h' -> k <> k' -> hash_find h' k' = hash_find h k';
  find_remove_eq h k : hash_find (hash_remove h k) k = None;
  find_remove_ne h k k' :
    k <> k' -> hash_find (hash_remove h k) k' = hash_find h k';
  num_enter h h' k v :
    hash_find h k = None -> hash_enter h k v = Some h' ->
    hash_get_num_entries h' = S (hash_get_num_entries h);
  num_remove h k v :
    hash_find h k = Some v ->
    hash_get_num_entries h = S (hash_get_num_entries (hash_remove h k));
  enter_room h k v :
    (hash_get_num_entries h < hash_max_entries h)%nat ->
    is_Some (hash_enter h k v);
  max_enter h h' k v :
    hash_enter h k v = Some h' -> hash_max_entries h' = hash_max_entries h;
  max_remove h k : hash_max_entries (hash_remove h k) = hash_max_entries h;
  find_init i m k : hash_find (ShmemInitHash i m) k = None;
  num_init i m : hash_get_num_entries (ShmemInitHash i m) = 0%nat;
  max_init i m : hash_max_entries (ShmemInitHash i m) = Z.to_nat m;
}.

(** A finite map with a bound is such a table. *)
Record map_table (K V : Type) `{Countable K} : Type := MapTable {
  mt_map : gmap K V;
  mt_max : nat;
}.
Arguments MapTable {K V _ _} mt_map mt_max.
Arguments mt_map {K V _ _} m.
Arguments mt_max {K V _ _} m.

Definition map_table_enter {K V} `{Countable K} (h : map_table K V) (k : K) (v : V)
  : option (map_table K V) :=
  if decide (size (mt_map h) < mt_max h)%nat
  then Some (MapTable (<[k := v]> (mt_map h)) (mt_max h))
  else match mt_map h !! k with
       | Some _ => Some (MapTable (<[k := v]> (mt_map h)) (mt_max h))
       | None => None
       end.

#[export] Instance map_dynahash {K V} `{Countable K} : Dynahash K V (map_table K V) := {
  hash_find h k := mt_map h !! k;
  hash_enter := map_table_enter;
  hash_remove h k := MapTable (delete k (mt_map h)) (mt_max h);
  hash_get_num_entries h := size (mt_map h);
  hash_max_entries := mt_max;
  ShmemInitHash _ m := MapTable ∅ (Z.to_nat m);
}.

Lemma map_table_enter_inv {K V} `{Countable K} (h h' : map_table K V) k v :
  map_table_enter h k v = Some h' -> h' = MapTable (<[k := v]> (mt_map h)) (mt_max h).
Proof. unfold map_table_enter. repeat case_match; congruence. Qed.

#[export] Instance map_dynahash_laws {K V} `{Countable K} :
  DynahashLaws K V (map_table K V).
Proof.
  split; simpl.
  - intros h h' k v ->%map_table_enter_inv. apply lookup_insert_eq.
  - intros h h' k k' v ->%map_table_enter_inv Hne. by apply lookup_insert_ne.
  - intros h k. apply lookup_delete_eq.
  - intros h k k' Hne. by apply lookup_delete_ne.
  - intros h h' k v Hk ->%map_table_enter_inv. by apply map_size_insert_None.
  - intros h k v Hk. rewrite map_size_delete, Hk.
    assert (size (mt_map h) <> 0%nat); [|lia].
    intros Hz%map_size_empty_inv. rewrite Hz in Hk. set_solver.
  - intros h k v Hlt. unfold map_table_enter. rewrite decide_True by done. eauto.
  - intros h h' k v ->%map_table_enter_inv. done.
  - done.
  - done.
  - done.
  - done.
Qed.

(** ** Lightweight locks: how the running process holds one, if it does. *)
Inductive LWLockMode : Type := LW_EXCLUSIVE | LW_SHARED.

(** ** ilist: the intrusive singly-linked list

    The links live in the nodes (here slot numbers), so pushing a node that is
    already in the list breaks the chain: the laws cover the documented use,
    where the pushed node is in no list. *)
Class SList (L : Type) : Type := {
  slist_init : L -> L;
  slist_is_empty : L -> bool;
  slist_push_head : nat -> L -> L;
  slist_pop_head_node : L -> option (nat * L);
  slist_repr : L -> list nat -> Prop;
}.

Class SListLaws (L : Type) `{SList L} : Prop := {
  repr_init l : slist_repr (slist_init l) [];
  repr_is_empty l xs :
    slist_repr l xs -> slist_is_empty l = bool_decide (xs = []);
  repr_push l xs n :
    slist_repr l xs -> n ∉ xs -> slist_repr (slist_push_head n l) (n :: xs);
  repr_pop l xs n :
    slist_repr l (n :: xs) ->
    exists l', slist_pop_head_node l = Some (n, l') /\ slist_repr l' xs;
}.

(** The linked representation: a head pointer and a [next] pointer per node. *)
Record linked : Type := Linked {
  ln_head : option nat;
  ln_next : gmap nat (option nat);
}.

Fixpoint chain (next : gmap nat (option nat)) (p : option nat) (xs : list nat) : Prop :=
  match xs with
  | [] => p = None
  | x :: xs' => p = Some x /\ exists q, next !! x = Some q /\ chain next q xs'
  end.

#[export] Instance linked_slist : SList linked := {
  slist_init l := Linked None (ln_next l);
  slist_is_empty l := bool_decide (ln_head l = None);
  slist_push_head n l := Linked (Some n) (<[n := ln_head l]> (ln_next l));
  slist_pop_head_node l :=
    match ln_head l with
    | Some n => match ln_next l !! n with
                | Some q => Some (n, Linked q (ln_next l))
                | None => None
                end
    | None => None
    end;
  slist_repr l xs := chain (ln_next l) (ln_head l) xs;
}.

Lemma chain_insert next p xs n q :
  n ∉ xs -> chain next p xs -> chain (<[n := q]> next) p xs.
Proof.
  revert p. induction xs as [|x xs IH]; intros p Hn; simpl; [done|].
  apply not_elem_of_cons in Hn as [Hnx Hn].
  intros [-> (r & Hr & Hc)]. split; [done|]. exists r.
  rewrite lookup_insert_ne by done. auto.
Qed.

#[export] Instance linked_slist_laws : SListLaws linked.
Proof.
  split.
  - done.
  - intros l [|x xs]; simpl; [by intros ->|]. intros [-> _]. done.
  - intros l xs n Hc Hn. simpl in *. split; [done|].
    exists (ln_head l). rewrite lookup_insert_eq. split; [done|].
    by apply chain_insert.
  - intros l xs n [Hh (q & Hq & Hc)]. simpl. rewrite Hh, Hq. eauto.
Qed.

(** ** Size arithmetic of the shared memory allocator

    [MAXALIGN] rounds up to the platform's largest alignment (8 bytes);
    [add_size] and [mul_size] are the overflow-checked operations. *)
Class PgMem : Type := {
  MAXALIGN : Z -> Z;
  add_size : Z -> Z -> outcome Z;
  mul_size : Z -> Z -> outcome Z;
}.

Class PgMemLaws `{PgMem} : Prop := {
  maxalign_ge x : 0 <= x -> x <= MAXALIGN x < x + 8;
  maxalign_aligned x : (8 | MAXALIGN x);
  add_size_done a b :
    0 <= a -> 0 <= b -> a + b < 2 ^ 64 -> add_size a b = Done (a + b);
  mul_size_done a b :
    0 <= a -> 0 <= b -> a * b < 2 ^ 64 -> mul_size a b = Done (a * b);
}.

Definition size_overflow : pg_error :=
  PgError "ERRCODE_PROGRAM_LIMIT_EXCEEDED" "requested shared memory size overflows size_t".

#[export] Instance x86_64_mem : PgMem := {
  MAXALIGN x := (x + 7) / 8 * 8;
  add_size a b := if a + b <? 2 ^ 64 then Done (a + b) else Error size_overflow;
  mul_size a b := if a * b <? 2 ^ 64 then Done (a * b) else Error size_overflow;
}.

#[export] Instance x86_64_mem_laws : PgMemLaws.
Proof.
  split; simpl.
  - intros x Hx. pose proof (Z.div_mod (x + 7) 8 ltac:(lia)).
    pose proof (Z.mod_pos_bound (x + 7) 8 ltac:(lia)). lia.
  - intros x. exists ((x + 7) / 8). lia.
  - intros a b ?? Hlt. apply Z.ltb_lt in Hlt. by rewrite Hlt.
  - intros a b ?? Hlt. apply Z.ltb_lt in Hlt. by rewrite Hlt.
Qed.

Section MaxAlign.
Context `{PgMemLaws}.

(** Aligning an aligned size changes nothing. *)
Lemma maxalign_of_aligned x : 0 <= x -> (8 | x) -> MAXALIGN x = x.
Proof.
  intros Hx [k ->]. pose proof (maxalign_ge (k * 8) Hx) as Hb.
  destruct (maxalign_aligned (k * 8)) as [j Hj]. rewrite Hj in *. lia.
Qed.

Lemma maxalign_nonneg x : 0 <= x -> 0 <= MAXALIGN x.
Proof. intros Hx. pose proof (maxalign_ge x Hx). lia. Qed.
End MaxAlign.
