(* ===== verification/Types.v ===== *)
(** * The data exchanged between the components

    The constants of [src/postfga.h], the request and response payload of
    [src/payload.h], the configuration record of [src/config.h], and the C
    layout rule that fixes the size and the member offsets of a struct. *)
From S2P Require Import Prelude.

(** ** postfga.h *)
Definition OBJECT_TYPE_MAX_LEN : nat := 64.
Definition OBJECT_ID_MAX_LEN : nat := 64.
Definition SUBJECT_TYPE_MAX_LEN : nat := 64.
Definition SUBJECT_ID_MAX_LEN : nat := 64.
Definition RELATION_MAX_LEN : nat := 64.
Definition OPENFGA_STORE_ID_LEN : nat := 64.
Definition OPENFGA_STORE_NAME_LEN : nat := 64.
Definition OPENFGA_MODEL_ID_LEN : nat := 64.
Definition FGA_RESPONSE_ERROR_MESSAGE_LEN : nat := 128.

(** ** payload.h: tuples *)
Record FgaTuple : Type := MkTuple {
  object_type : list ascii;
  object_id : list ascii;
  subject_type : list ascii;
  subject_id : list ascii;
  relation : list ascii;
}.

#[export] Instance FgaTuple_eq_dec : EqDecision FgaTuple.
Proof. solve_decision. Defined.

(** A zeroed tuple, and the arrays' declared sizes. *)
Definition zero_tuple : FgaTuple :=
  MkTuple (zeros OBJECT_TYPE_MAX_LEN) (zeros OBJECT_ID_MAX_LEN)
    (zeros SUBJECT_TYPE_MAX_LEN) (zeros SUBJECT_ID_MAX_LEN) (zeros RELATION_MAX_LEN).

Definition tuple_wf (t : FgaTuple) : Prop :=
  length (object_type t) = OBJECT_TYPE_MAX_LEN /\
  length (object_id t) = OBJECT_ID_MAX_LEN /\
  length (subject_type t) = SUBJECT_TYPE_MAX_LEN /\
  length (subject_id t) = SUBJECT_ID_MAX_LEN /\
  length (relation t) = RELATION_MAX_LEN.

(** ** payload.h: request and response kinds *)
Inductive FgaResponseStatus : Type :=
  | FGA_RESPONSE_OK
  | FGA_RESPONSE_CLIENT_ERROR
  | FGA_RESPONSE_TRANSPORT_ERROR
  | FGA_RESPONSE_SERVER_ERROR.

#[export] Instance status_eq_dec : EqDecision FgaResponseStatus.
Proof. solve_decision. Defined.

(** The [type] field is a [uint16_t]; 0 is what a zeroed request holds. *)
Inductive FgaRequestType : Type :=
  | FGA_REQUEST_CHECK
  | FGA_REQUEST_READ
  | FGA_REQUEST_WRITE_TUPLE
  | FGA_REQUEST_DELETE_TUPLE
  | FGA_REQUEST_LIST
  | FGA_REQUEST_GET_STORE
  | FGA_REQUEST_CREATE_STORE
  | FGA_REQUEST_DELETE_STORE.

#[export] Instance request_type_eq_dec : EqDecision FgaRequestType.
Proof. solve_decision. Defined.

Definition request_type_code (t : FgaRequestType) : Z :=
  match t with
  | FGA_REQUEST_CHECK => 1
  | FGA_REQUEST_READ => 2
  | FGA_REQUEST_WRITE_TUPLE => 3
  | FGA_REQUEST_DELETE_TUPLE => 4
  | FGA_REQUEST_LIST => 5
  | FGA_REQUEST_GET_STORE => 6
  | FGA_REQUEST_CREATE_STORE => 7
  | FGA_REQUEST_DELETE_STORE => 8
  end.

(** The [body] union of a request: the member last written, [ReqZero] after
    the [MemSet] of the slot. *)
Inductive FgaRequestBody : Type :=
  | ReqZero
  | ReqCheckTuple (tuple : FgaTuple)
  | ReqWriteTuple (tuple : FgaTuple)
  | ReqDeleteTuple (tuple : FgaTuple)
  | ReqGetStore
  | ReqCreateStore (name : list ascii)
  | ReqDeleteStore.

#[export] Instance request_body_eq_dec : EqDecision FgaRequestBody.
Proof. solve_decision. Defined.

(** The tuple members share their offset and layout, so any of them reads the
    tuple another wrote. *)
Definition body_tuple (b : FgaRequestBody) : FgaTuple :=
  match b with
  | ReqCheckTuple t | ReqWriteTuple t | ReqDeleteTuple t => t
  | _ => zero_tuple
  end.

Definition body_store_name (b : FgaRequestBody) : list ascii :=
  match b with
  | ReqCreateStore n => n
  | _ => zeros OPENFGA_STORE_NAME_LEN
  end.

Record FgaRequest : Type := MkRequest {
  request_id : Z;              (* uint64_t *)
  req_type : Z;                (* uint16_t *)
  req_store_id : list ascii;
  req_model_id : list ascii;
  req_body : FgaRequestBody;
}.

#[export] Instance request_eq_dec : EqDecision FgaRequest.
Proof. solve_decision. Defined.

Definition zero_request : FgaRequest :=
  MkRequest 0 0 (zeros OPENFGA_STORE_ID_LEN) (zeros OPENFGA_MODEL_ID_LEN) ReqZero.

(** The [body] union of a response. *)
Inductive FgaResponseBody : Type :=
  | RespZero
  | RespCheckTuple (allow : bool)
  | RespWriteTuple (success : bool)
  | RespDeleteTuple (success : bool)
  | RespGetStore (found : bool) (name : list ascii)
  | RespCreateStore (id name : list ascii)
  | RespDeleteStore.

#[export] Instance response_body_eq_dec : EqDecision FgaResponseBody.
Proof. solve_decision. Defined.

(** [body.checkTuple.allow]: the flag members share the first byte. *)
Definition body_allow (b : FgaResponseBody) : bool :=
  match b with
  | RespCheckTuple a | RespWriteTuple a | RespDeleteTuple a => a
  | RespGetStore a _ => a
  | _ => false
  end.

Record FgaResponse : Type := MkResponse {
  status : FgaResponseStatus;
  error_message : list ascii;
  resp_body : FgaResponseBody;
}.

#[export] Instance response_eq_dec : EqDecision FgaResponse.
Proof. solve_decision. Defined.

Definition zero_response : FgaResponse :=
  MkResponse FGA_RESPONSE_OK (zeros FGA_RESPONSE_ERROR_MESSAGE_LEN) RespZero.

Record FgaPayload : Type := MkPayload {
  request : FgaRequest;
  response : FgaResponse;
}.

#[export] Instance payload_eq_dec : EqDecision FgaPayload.
Proof. solve_decision. Defined.

Definition zero_payload : FgaPayload := MkPayload zero_request zero_response.

(** ** config.h: a [char*] is [None] when NULL *)
Record FgaConfig : Type := MkConfig {
  endpoint : option (list ascii);
  store_id : option (list ascii);
  model_id : option (list ascii);
  fallback_to_grpc_on_miss : bool;
  cache_enabled : bool;
  cache_size : Z;      (* int, in MB *)
  cache_ttl_ms : Z;    (* int *)
  max_slots : Z;       (* int *)
  max_relations : Z;   (* int *)
}.

(** [FgaConfig fga_config_instance_ = {0};] *)
Definition zero_config : FgaConfig :=
  MkConfig None None None false false 0 0 0 0.

(** ** C struct layout

    Each member is given by its size and alignment; it is placed at the next
    multiple of its alignment, and the struct's size is rounded up to the
    largest alignment. *)
Definition align_up (n a : Z) : Z := (n + a - 1) / a * a.

Fixpoint layout_from (off : Z) (fields : list (Z * Z)) : list Z * Z :=
  match fields with
  | [] => ([], off)
  | (sz, al) :: fs =>
      let o := align_up off al in
      let '(os, e) := layout_from (o + sz) fs in (o :: os, e)
  end.

Definition struct_align (fields : list (Z * Z)) : Z :=
  fold_right Z.max 1 (map snd fields).
Definition struct_offsets (fields : list (Z * Z)) : list Z := (layout_from 0 fields).1.
Definition struct_size (fields : list (Z * Z)) : Z :=
  align_up (layout_from 0 fields).2 (struct_align fields).

(** Scalars of the x86-64 ABI. *)
Definition c_bool : Z * Z := (1, 1).
Definition c_uint8 : Z * Z := (1, 1).
Definition c_uint16 : Z * Z := (2, 2).
Definition c_uint32 : Z * Z := (4, 4).
Definition c_uint64 : Z * Z := (8, 8).
Definition c_ptr : Z * Z := (8, 8).
Definition c_chars (n : nat) : Z * Z := (Z.of_nat n, 1).

(** A C [union] has the size and the alignment of its largest member. *)
Definition union_of (members : list (Z * Z)) : Z * Z :=
  let al := fold_right Z.max 1 (map snd members) in
  (align_up (fold_right Z.max 0 (map fst members)) al, al).

Definition as_field (fields : list (Z * Z)) : Z * Z :=
  (struct_size fields, struct_align fields).

Definition FgaTuple_fields : list (Z * Z) :=
  [c_chars OBJECT_TYPE_MAX_LEN; c_chars OBJECT_ID_MAX_LEN;
   c_chars SUBJECT_TYPE_MAX_LEN; c_chars SUBJECT_ID_MAX_LEN;
   c_chars RELATION_MAX_LEN].

Definition FgaRequest_fields : list (Z * Z) :=
  [c_uint64; c_uint16; c_chars OPENFGA_STORE_ID_LEN; c_chars OPENFGA_MODEL_ID_LEN;
   union_of [as_field FgaTuple_fields; as_field FgaTuple_fields; as_field FgaTuple_fields;
             (0, 1); as_field [c_chars OPENFGA_STORE_NAME_LEN]; (0, 1)]].

Definition FgaResponse_fields : list (Z * Z) :=
  [c_uint16; c_chars FGA_RESPONSE_ERROR_MESSAGE_LEN;
   union_of [as_field [c_bool]; as_field [c_bool]; as_field [c_bool];
             as_field [c_bool; c_chars OPENFGA_STORE_NAME_LEN];
             as_field [c_chars OPENFGA_STORE_ID_LEN; c_chars OPENFGA_STORE_NAME_LEN];
             (0, 1)]].

Definition FgaPayload_fields : list (Z * Z) :=
  [as_field FgaRequest_fields; as_field FgaResponse_fields].

Lemma align_up_ge n a : 0 < a -> n <= align_up n a.
Proof.
  intros Ha. unfold align_up.
  pose proof (Z.div_mod (n + a - 1) a ltac:(lia)).
  pose proof (Z.mod_pos_bound (n + a - 1) a ltac:(lia)). lia.
Qed.
