(* ===== verification/CacheKey.v ===== *)
(** * Cache keys: [src/cache.h] (FgaAclCacheKey) and [src/cache_key.h]

    A key is two digests of a length-prefixed serialisation of the request.
    The buffer writes are checked against the 1024-byte array, and the
    [Assert]s against the build's [use_asserts] flag. *)
From S2P Require Import Prelude Platform Types.

(** [text*]: the payload of a varlena, [None] when NULL. *)
Abbreviation text := (option (list ascii)) (only parsing).

Record FgaAclCacheKey : Type := MkKey {
  key_low : Z;          (* uint64_t low *)
  key_high : Z;         (* uint64_t high *)
  key_object : Z;       (* uint64_t object_key *)
  key_relation_id : Z;  (* uint32_t relation_id *)
  key_pad : Z;          (* uint32_t _pad *)
}.

#[export] Instance key_eq_dec : EqDecision FgaAclCacheKey.
Proof. solve_decision. Defined.

#[export] Instance key_countable : Countable FgaAclCacheKey.
Proof.
  refine (inj_countable'
    (fun k => (key_low k, key_high k, key_object k, key_relation_id k, key_pad k))
    (fun '(a, b, c, d, e) => MkKey a b c d e) _).
  by intros [].
Defined.

#[export] Instance key_inhabited : Inhabited FgaAclCacheKey :=
  populate (MkKey 0 0 0 0 0).

(** The 128 bits that identify a request. *)
Definition key_id (k : FgaAclCacheKey) : Z * Z := (key_low k, key_high k).
#[global] Arguments key_id : simpl never.

Definition FgaAclCacheKey_fields : list (Z * Z) :=
  [c_uint64; c_uint64; c_uint64; c_uint32; c_uint32].

(** [char buf[1024]] *)
Definition KEY_BUFFER_SIZE : nat := 1024.

Section CacheKey.
Context `{XXHash}.
(** USE_ASSERT_CHECKING of the build. *)
Variable use_asserts : bool.

(** Storing [bytes] at the write pointer of the key buffer; what is already
    written is [buffer]. *)
Definition buffer_write (buffer bytes : list ascii) : outcome (list ascii) :=
  if decide (length buffer + length bytes <= KEY_BUFFER_SIZE)%nat
  then Done (buffer ++ bytes) else Undefined OutOfBounds.

Definition field_bytes (s : option (list ascii)) : list ascii :=
  match s with Some b => b | None => [] end.

Definition append_cache_key_field_text (buffer : list ascii) (s : text)
  : outcome (list ascii) :=
  let str_len := length (field_bytes s) in
  _ ← c_assert use_asserts (bool_decide (str_len <= 125)%nat);
  buffer ← buffer_write buffer [byte_of_Z (Z.of_nat str_len)];
  if (0 <? Z.of_nat str_len) then buffer_write buffer (field_bytes s) else Done buffer.

(** [strlen] stops at the first NUL. *)
Definition append_cache_key_field (buffer : list ascii) (s : option (list ascii))
  : outcome (list ascii) :=
  let bytes := c_str (field_bytes s) in
  let str_len := length bytes in
  _ ← c_assert use_asserts (bool_decide (str_len <= 128)%nat);
  buffer ← buffer_write buffer [byte_of_Z (Z.of_nat str_len)];
  if (0 <? Z.of_nat str_len) then buffer_write buffer bytes else Done buffer.

(** The caller's key object: the fields the function does not write keep
    whatever they held. *)
Definition fga_cache_key (key : FgaAclCacheKey)
    (store_id model_id : option (list ascii))
    (object_type object_id subject_type subject_id relation : text)
  : outcome FgaAclCacheKey :=
  p ← append_cache_key_field [] store_id;
  p ← append_cache_key_field p model_id;
  p ← append_cache_key_field_text p object_type;
  p ← append_cache_key_field_text p object_id;
  let object_key := XXH3_64bits p in
  p ← append_cache_key_field_text p subject_type;
  p ← append_cache_key_field_text p subject_id;
  p ← append_cache_key_field_text p relation;
  let '(low64, high64) := XXH3_128bits p in
  Done (MkKey low64 high64 object_key (key_relation_id key) (key_pad key)).

(** ** The serialisation the digests are taken of *)
Definition encode_field (b : list ascii) : list ascii :=
  byte_of_Z (Z.of_nat (length b)) :: b.
Definition encode_fields (fs : list (list ascii)) : list ascii :=
  concat (map encode_field fs).

(** The fields of a request in buffer order. *)
Definition key_fields (store_id model_id : option (list ascii))
    (object_type object_id subject_type subject_id relation : text)
  : list (list ascii) :=
  [c_str (field_bytes store_id); c_str (field_bytes model_id);
   field_bytes object_type; field_bytes object_id;
   field_bytes subject_type; field_bytes subject_id; field_bytes relation].

Definition object_fields (store_id model_id : option (list ascii))
    (object_type object_id : text) : list (list ascii) :=
  [c_str (field_bytes store_id); c_str (field_bytes model_id);
   field_bytes object_type; field_bytes object_id].

(** The limits the two [Assert]s state. *)
Definition fields_in_limits (store_id model_id : option (list ascii))
    (object_type object_id subject_type subject_id relation : text) : Prop :=
  Forall (fun s => length (c_str (field_bytes s)) <= 128)%nat [store_id; model_id] /\
  Forall (fun s => length (field_bytes s) <= 125)%nat
    [object_type; object_id; subject_type; subject_id; relation].

#[export] Instance fields_in_limits_dec sid mid ot oi st si rel :
  Decision (fields_in_limits sid mid ot oi st si rel).
Proof. unfold fields_in_limits. apply _. Defined.

(** ** Lemmas *)
Lemma buffer_write_done buffer bytes :
  (length buffer + length bytes <= KEY_BUFFER_SIZE)%nat ->
  buffer_write buffer bytes = Done (buffer ++ bytes).
Proof. intros Hl. unfold buffer_write. by rewrite decide_True. Qed.

Lemma c_assert_holds (P : Prop) `{Decision P} :
  (use_asserts = true -> P) -> c_assert use_asserts (bool_decide P) = Done tt.
Proof.
  intros HP. unfold c_assert. destruct use_asserts; [|done].
  by rewrite bool_decide_eq_true_2 by auto.
Qed.

Lemma write_field_done buffer b :
  (length buffer + S (length b) <= KEY_BUFFER_SIZE)%nat ->
  (buf ← buffer_write buffer [byte_of_Z (Z.of_nat (length b))];
   if 0 <? Z.of_nat (length b) then buffer_write buf b else Done buf)
  = Done (buffer ++ encode_field b).
Proof.
  intros Hl. rewrite buffer_write_done by (simpl; lia). cbn [mbind outcome_bind].
  destruct (0 <? _) eqn:E; split_guards.
  - rewrite buffer_write_done by (rewrite length_app; simpl; lia).
    by rewrite <- app_assoc.
  - destruct b; [done|simpl in *; lia].
Qed.

Lemma append_text_done buffer s :
  (use_asserts = true -> length (field_bytes s) <= 125)%nat ->
  (length buffer + S (length (field_bytes s)) <= KEY_BUFFER_SIZE)%nat ->
  append_cache_key_field_text buffer s = Done (buffer ++ encode_field (field_bytes s)).
Proof.
  intros Hs Hl. unfold append_cache_key_field_text.
  rewrite c_assert_holds by done. by apply write_field_done.
Qed.

Lemma append_cstr_done buffer s :
  (use_asserts = true -> length (c_str (field_bytes s)) <= 128)%nat ->
  (length buffer + S (length (c_str (field_bytes s))) <= KEY_BUFFER_SIZE)%nat ->
  append_cache_key_field buffer s
  = Done (buffer ++ encode_field (c_str (field_bytes s))).
Proof.
  intros Hs Hl. unfold append_cache_key_field.
  rewrite c_assert_holds by done. by apply write_field_done.
Qed.

Lemma length_encode_field b : length (encode_field b) = S (length b).
Proof. done. Qed.

Lemma length_encode_fields fs :
  length (encode_fields fs) = (sum_list (length <$> fs) + length fs)%nat.
Proof.
  unfold encode_fields. induction fs as [|b fs IH]; [done|].
  cbn [map concat]. rewrite length_app, length_encode_field, IH. cbn. lia.
Qed.

Ltac key_size Hlim :=
  rewrite ?length_app, ?length_encode_field; cbn [length] in *;
  first [lia | intros Ha; specialize (Hlim Ha); tauto].

(** The limits, when the build checks them. *)
Definition limits_if_checked (store_id model_id : option (list ascii))
    (object_type object_id subject_type subject_id relation : text) : Prop :=
  use_asserts = true ->
  fields_in_limits store_id model_id object_type object_id subject_type subject_id relation.

(** When the serialisation fits the buffer and no assertion fails, the key
    holds the digests of the serialisation. *)
Lemma fga_cache_key_fits key sid mid ot oi st si rel :
  limits_if_checked sid mid ot oi st si rel ->
  (length (encode_fields (key_fields sid mid ot oi st si rel)) <= KEY_BUFFER_SIZE)%nat ->
  fga_cache_key key sid mid ot oi st si rel =
    let '(lo, hi) := XXH3_128bits (encode_fields (key_fields sid mid ot oi st si rel)) in
    Done (MkKey lo hi (XXH3_64bits (encode_fields (object_fields sid mid ot oi)))
            (key_relation_id key) (key_pad key)).
Proof.
  unfold limits_if_checked, fields_in_limits. rewrite !Forall_cons.
  intros Hlim Hlen. rewrite length_encode_fields in Hlen. simpl in Hlen.
  unfold fga_cache_key.
  do 2 (rewrite append_cstr_done; [|key_size Hlim..]; cbn [mbind outcome_bind app]).
  do 5 (rewrite append_text_done; [|key_size Hlim..]; cbn [mbind outcome_bind]).
  unfold encode_fields, key_fields, object_fields.
  cbn [map concat]. rewrite !app_nil_r, <- !app_assoc. done.
Qed.

Lemma limits_length sid mid ot oi st si rel :
  fields_in_limits sid mid ot oi st si rel ->
  (length (encode_fields (key_fields sid mid ot oi st si rel)) <= 888)%nat.
Proof.
  unfold fields_in_limits. rewrite !Forall_cons. intros Hl.
  rewrite length_encode_fields. simpl. lia.
Qed.

Lemma fga_cache_key_done key sid mid ot oi st si rel :
  fields_in_limits sid mid ot oi st si rel ->
  fga_cache_key key sid mid ot oi st si rel =
    let '(lo, hi) := XXH3_128bits (encode_fields (key_fields sid mid ot oi st si rel)) in
    Done (MkKey lo hi (XXH3_64bits (encode_fields (object_fields sid mid ot oi)))
            (key_relation_id key) (key_pad key)).
Proof.
  intros Hl. apply fga_cache_key_fits; [by intros _|].
  apply limits_length in Hl. unfold KEY_BUFFER_SIZE. lia.
Qed.

Lemma byte_of_nat_inj n m :
  (n < 256)%nat -> (m < 256)%nat ->
  byte_of_Z (Z.of_nat n) = byte_of_Z (Z.of_nat m) -> n = m.
Proof.
  intros Hn Hm Heq. apply (f_equal Z_of_byte) in Heq.
  rewrite !Z_of_byte_of_Z, !u8_small in Heq by lia. lia.
Qed.

(** Length-prefixed fields of at most 255 bytes decode uniquely. *)
Lemma encode_fields_inj fs gs :
  length fs = length gs ->
  Forall (fun b => length b < 256)%nat fs ->
  Forall (fun b => length b < 256)%nat gs ->
  encode_fields fs = encode_fields gs -> fs = gs.
Proof.
  revert gs. induction fs as [|b fs IH]; intros [|c gs] Hlen; try done.
  rewrite !Forall_cons. intros [Hb Hfs] [Hc Hgs] Heq.
  unfold encode_fields, encode_field in Heq. cbn [map concat app] in Heq.
  injection Heq as Hh Ht.
  apply byte_of_nat_inj in Hh; [|done..].
  apply app_inj_1 in Ht as [-> Ht]; [|done].
  f_equal. apply IH; [simpl in Hlen; lia|done..].
Qed.

Lemma limits_lt_256 sid mid ot oi st si rel :
  fields_in_limits sid mid ot oi st si rel ->
  Forall (fun b => length b < 256)%nat (key_fields sid mid ot oi st si rel).
Proof.
  intros [Hc Ht]. rewrite !Forall_cons in Hc. rewrite !Forall_cons in Ht.
  destruct Hc as (? & ? & _), Ht as (? & ? & ? & ? & ? & _).
  unfold key_fields. repeat (constructor; [lia|]). constructor.
Qed.

Lemma key_buffer_inj sid mid ot oi st si rel sid' mid' ot' oi' st' si' rel' :
  fields_in_limits sid mid ot oi st si rel ->
  fields_in_limits sid' mid' ot' oi' st' si' rel' ->
  encode_fields (key_fields sid mid ot oi st si rel) =
    encode_fields (key_fields sid' mid' ot' oi' st' si' rel') ->
  key_fields sid mid ot oi st si rel = key_fields sid' mid' ot' oi' st' si' rel'.
Proof.
  intros H1 H2 Heq. apply encode_fields_inj in Heq; [done|done|..];
    by apply limits_lt_256.
Qed.
End CacheKey.

(** ** Properties *)
Section KeyProperties.
Context `{XXHash}.

(** C18. Two requests within the asserted limits get the same 128-bit key
    exactly when all seven fields agree (a NULL C string counting as empty),
    provided the 128-bit digest does not collide on their two
    serialisations: the length-prefixed buffer loses no information. *)
Theorem cache_key_identifies_request use_asserts k0 k0' k k'
    sid mid ot oi st si rel sid' mid' ot' oi' st' si' rel' :
  fields_in_limits sid mid ot oi st si rel ->
  fields_in_limits sid' mid' ot' oi' st' si' rel' ->
  (XXH3_128bits (encode_fields (key_fields sid mid ot oi st si rel)) =
     XXH3_128bits (encode_fields (key_fields sid' mid' ot' oi' st' si' rel')) ->
   encode_fields (key_fields sid mid ot oi st si rel) =
     encode_fields (key_fields sid' mid' ot' oi' st' si' rel')) ->
  fga_cache_key use_asserts k0 sid mid ot oi st si rel = Done k ->
  fga_cache_key use_asserts k0' sid' mid' ot' oi' st' si' rel' = Done k' ->
  key_id k = key_id k' <->
    key_fields sid mid ot oi st si rel = key_fields sid' mid' ot' oi' st' si' rel'.
Proof.
  intros Hl Hl' Hcol. rewrite !fga_cache_key_done by done.
  destruct (XXH3_128bits (encode_fields (key_fields sid _ _ _ _ _ _))) as [lo hi] eqn:E.
  destruct (XXH3_128bits (encode_fields (key_fields sid' _ _ _ _ _ _)))
    as [lo' hi'] eqn:E'.
  intros [= <-] [= <-]. unfold key_id. simpl. split.
  - intros [= -> ->]. by apply key_buffer_inj, Hcol.
  - intros Heq. rewrite Heq, E' in E. by injection E as -> ->.
Qed.

(** Within the asserted limits the key is computed without touching
    memory outside the 1024-byte buffer and without a failed assertion, in
    both builds, and the 64-bit object key depends on the store, the model
    and the object only. *)
Theorem cache_key_within_bounds use_asserts k0 sid mid ot oi st si rel :
  fields_in_limits sid mid ot oi st si rel ->
  exists k, fga_cache_key use_asserts k0 sid mid ot oi st si rel = Done k /\
    key_object k = XXH3_64bits (encode_fields (object_fields sid mid ot oi)) /\
    (length (encode_fields (key_fields sid mid ot oi st si rel)) <= 888)%nat.
Proof.
  intros Hl. rewrite fga_cache_key_done by done.
  destruct (XXH3_128bits _) as [lo hi]. eexists. split; [done|]. split; [done|].
  by apply limits_length.
Qed.
End KeyProperties.

(** Two argument lists that differ in every text field, all non-empty and
    plain ASCII; the first one's object type has 257 bytes. *)
Definition ascii_run (c : ascii) (n : nat) : list ascii := replicate n c.
Definition long_a : list ascii := ascii_run "a" 127.
Definition long_b : list ascii := ascii_run "b" 127.
Definition collide_object_type : list ascii :=
  str "d" ++ encode_field long_a ++ encode_field long_b.
Definition collide_relation : list ascii :=
  str "u" ++ encode_field long_b ++ encode_field long_a.


(** Requests that differ in the object id, computed with the example digest. *)
Definition sample_key (use_asserts : bool) (object_id : string) : outcome FgaAclCacheKey :=
  fga_cache_key (H := example_hash) use_asserts inhabitant (Some (str "store")) None
    (Some (str "doc")) (Some (str object_id)) (Some (str "user")) (Some (str "bob"))
    (Some (str "read")).
Definition sample_buffer (object_id : string) : list ascii :=
  encode_fields (key_fields (Some (str "store")) None (Some (str "doc"))
    (Some (str object_id)) (Some (str "user")) (Some (str "bob")) (Some (str "read"))).

Lemma cache_key_identifies_request_witness :
  exists k k', sample_key true "1" = Done k /\ sample_key false "2" = Done k' /\
    key_id k <> key_id k'.
Proof.
  assert (Hk : exists k, sample_key true "1" = Done k) by (eexists; vm_compute; reflexivity).
  assert (Hk' : exists k, sample_key false "2" = Done k) by (eexists; vm_compute; reflexivity).
  assert (Hd : XXH3_128bits (XXHash := example_hash) (sample_buffer "1") <>
    XXH3_128bits (XXHash := example_hash) (sample_buffer "2")) by decide_now.
  assert (Hl : fields_in_limits (Some (str "store")) None (Some (str "doc"))
    (Some (str "1")) (Some (str "user")) (Some (str "bob")) (Some (str "read"))) by decide_now.
  assert (Hl' : fields_in_limits (Some (str "store")) None (Some (str "doc"))
    (Some (str "2")) (Some (str "user")) (Some (str "bob")) (Some (str "read"))) by decide_now.
  destruct Hk as [k Hk], Hk' as [k' Hk']. exists k, k'. split; [done|]. split; [done|].
  pose proof (cache_key_identifies_request (H := example_hash) _ _ _ _ _ _ _ _ _ _ _ _ _ _
    _ _ _ _ _ Hl Hl' (fun Heq => False_ind _ (Hd Heq)) Hk Hk')
    as [Hf _].
  intros Heq. apply Hf in Heq. discriminate Heq.
Defined.

Lemma cache_key_within_bounds_witness :
  exists k, sample_key true "1" = Done k /\
    key_object k = XXH3_64bits (XXHash := example_hash)
      (encode_fields (object_fields (Some (str "store")) None (Some (str "doc"))
         (Some (str "1")))) /\
    (length (sample_buffer "1") <= 888)%nat.
Proof.
  apply (cache_key_within_bounds (H := example_hash) true). decide_now.
Defined.
