(* ===== verification/CacheSpec.v ===== *)
(** * What a cache tier promises

    The two tiers share one abstract view: a partial map from the 128-bit key
    identity to the decision stored there.  A tier may forget entries at any
    time (expiry, invalidation, eviction), but what it still shows was put
    there.  The two-tier cache and its staleness bound are proved against this
    interface; each tier proves that its operations implement it. *)
From S2P Require Import Prelude CacheKey.

Record decision : Type := MkDecision {
  d_allowed : bool;
  d_expires : Z;    (* ms *)
  d_gen : Z;        (* uint16_t *)
}.

#[export] Instance decision_eq_dec : EqDecision decision.
Proof. solve_decision. Defined.

(** [tier_view t k] is the entry a lookup of [k] would examine; two keys in
    [tier_same] share one entry (the L1 cache compares 128 bits of the key, the
    L2 cache hashes all of it). *)
Class CacheTier (T : Type) : Type := {
  tier_inv : T -> Prop;
  tier_view : T -> FgaAclCacheKey -> option decision;
  tier_same : FgaAclCacheKey -> FgaAclCacheKey -> Prop;
}.

Section Tier.
Context {T : Type} `{CacheTier T}.

(** No new entry shows up. *)
Definition tier_forgets (t t' : T) : Prop :=
  forall k d, tier_view t' k = Some d -> tier_view t k = Some d.

(** [d] is stored under [k]; nothing else appears. *)
Definition tier_puts (k : FgaAclCacheKey) (d : decision) (t t' : T) : Prop :=
  tier_view t' k = Some d /\
  forall k' d', tier_view t' k' = Some d' ->
    (~ tier_same (T := T) k' k /\ tier_view t k' = Some d') \/
    (tier_same (T := T) k' k /\ d' = d).

#[export] Instance tier_forgets_preorder : PreOrder tier_forgets.
Proof. split; unfold tier_forgets; red; eauto. Qed.

(** What holds of all visible entries survives forgetting and putting. *)
Definition tier_all (P : FgaAclCacheKey -> decision -> Prop) (t : T) : Prop :=
  forall k d, tier_view t k = Some d -> P k d.

Lemma tier_all_forgets P t t' :
  tier_forgets t t' -> tier_all P t -> tier_all P t'.
Proof. intros Hf Ha k d Hv. by apply Ha, Hf. Qed.

Lemma tier_all_puts (P Q : FgaAclCacheKey -> decision -> Prop) k d t t' :
  tier_puts k d t t' ->
  (forall k', tier_same (T := T) k' k -> Q k' d) ->
  (forall k' d', ~ tier_same (T := T) k' k -> P k' d' -> Q k' d') ->
  tier_all P t -> tier_all Q t'.
Proof.
  intros [_ Hp] Hnew Hold Ha k' d' Hv. apply Hp in Hv as [[Hs Hv]|[Hs ->]]; auto.
Qed.

Lemma tier_all_mono (P Q : FgaAclCacheKey -> decision -> Prop) t :
  (forall k d, P k d -> Q k d) -> tier_all P t -> tier_all Q t.
Proof. intros HPQ Ha k d Hv. by apply HPQ, Ha. Qed.
End Tier.
