(* ===== verification/CacheL1.v ===== *)
(** * The per-backend cache: [src/cache_l1.h]

    A 2-way set-associative array of 16384 sets with a flip-bit pseudo-LRU.
    The cache is [None] before [l1_startup] (the NULL [l1_cache] pointer). *)
From S2P Require Import Prelude CacheKey CacheSpec.

Definition FGA_L1_NUM_SETS_BITS : Z := 14.
Definition FGA_L1_NUM_SETS : Z := Z.shiftl 1 FGA_L1_NUM_SETS_BITS.
Definition FGA_L1_NUM_WAYS : nat := 2.

Record FgaL1Entry : Type := MkL1Entry {
  e_valid : bool;
  e_allowed : bool;
  e_global_gen : Z;       (* uint16_t *)
  e_expires_at_ms : Z;    (* uint64_t *)
  e_key : FgaAclCacheKey;
}.

Record FgaL1Set : Type := MkL1Set {
  ways : list FgaL1Entry;
  victim : Z;             (* uint8_t *)
}.

(** What [palloc0] leaves. *)
Definition zero_l1_entry : FgaL1Entry :=
  MkL1Entry false false 0 0 (MkKey 0 0 0 0 0).
Definition zero_l1_set : FgaL1Set :=
  MkL1Set (replicate FGA_L1_NUM_WAYS zero_l1_entry) 0.

#[export] Instance l1_entry_inhabited : Inhabited FgaL1Entry := populate zero_l1_entry.
#[export] Instance l1_set_inhabited : Inhabited FgaL1Set := populate zero_l1_set.

(** [FgaL1Cache* l1_cache] *)
Abbreviation FgaL1Cache := (option (list FgaL1Set)) (only parsing).

Definition l1_hash_to_set (key : FgaAclCacheKey) : Z :=
  u32 (Z.land (key_low key) (FGA_L1_NUM_SETS - 1)).

#[global] Arguments l1_hash_to_set : simpl never.

Definition l1_key_equals (a b : FgaAclCacheKey) : bool :=
  (key_low a =? key_low b) && (key_high a =? key_high b).

Definition l1_plru_access (set : FgaL1Set) (way : Z) : FgaL1Set :=
  MkL1Set (ways set) (u8 (Z.lxor way 1)).

Definition l1_plru_victim (set : FgaL1Set) : Z := victim set.

Definition l1_startup (c : FgaL1Cache) : FgaL1Cache :=
  match c with
  | Some _ => c
  | None => Some (replicate (Z.to_nat FGA_L1_NUM_SETS) zero_l1_set)
  end.

Definition set_way (set : FgaL1Set) (i : nat) (e : FgaL1Entry) : FgaL1Set :=
  MkL1Set (<[i := e]> (ways set)) (victim set).

Definition invalidate (e : FgaL1Entry) : FgaL1Entry :=
  MkL1Entry false (e_allowed e) (e_global_gen e) (e_expires_at_ms e) (e_key e).

(** The loop of [l1_lookup] over the ways [i, i+1, ...] of one set.  The
    comparison with [now_ms] converts the signed time to [uint64_t]. *)
Fixpoint l1_lookup_loop (n i : nat) (set : FgaL1Set) (key : FgaAclCacheKey)
    (cur_generation now_ms : Z) : FgaL1Set * option bool :=
  match n with
  | O => (set, None)
  | S n' =>
      let e := ways set !!! i in
      if negb (e_valid e) then l1_lookup_loop n' (S i) set key cur_generation now_ms
      else if negb (l1_key_equals (e_key e) key)
      then l1_lookup_loop n' (S i) set key cur_generation now_ms
      else if e_expires_at_ms e <=? u64 now_ms then (set_way set i (invalidate e), None)
      else if negb (e_global_gen e =? cur_generation)
      then (set_way set i (invalidate e), None)
      else (l1_plru_access set (Z.of_nat i), Some (e_allowed e))
  end.

(** [None]: no hit, [*allowed_out] untouched. *)
Definition l1_lookup (c : FgaL1Cache) (key : FgaAclCacheKey)
    (cur_generation now_ms : Z) : FgaL1Cache * option bool :=
  match c with
  | None => (c, None)
  | Some sets =>
      let idx := Z.to_nat (l1_hash_to_set key) in
      let '(set', r) :=
        l1_lookup_loop FGA_L1_NUM_WAYS 0 (sets !!! idx) key cur_generation now_ms in
      (Some (<[idx := set']> sets), r)
  end.

Definition l1_fill (key : FgaAclCacheKey) (generation expires_at_ms : Z)
    (allowed : bool) : FgaL1Entry :=
  MkL1Entry true allowed (u16 generation) (u64 expires_at_ms) key.

(** The update of an existing entry keeps the stored key object. *)
Definition l1_refresh (e : FgaL1Entry) (generation expires_at_ms : Z)
    (allowed : bool) : FgaL1Entry :=
  MkL1Entry (e_valid e) allowed (u16 generation) (u64 expires_at_ms) (e_key e).

(** The loop of [l1_store]: [inl set'] when an existing key was updated,
    [inr empty_slot] when the loop ran to the end ([-1] for none). *)
Fixpoint l1_store_loop (n i : nat) (set : FgaL1Set) (key : FgaAclCacheKey)
    (generation expires_at_ms : Z) (allowed : bool) (empty_slot : Z)
  : FgaL1Set + Z :=
  match n with
  | O => inr empty_slot
  | S n' =>
      let e := ways set !!! i in
      if negb (e_valid e) then
        l1_store_loop n' (S i) set key generation expires_at_ms allowed
          (if empty_slot <? 0 then Z.of_nat i else empty_slot)
      else if l1_key_equals (e_key e) key then
        inl (l1_plru_access (set_way set i (l1_refresh e generation expires_at_ms allowed))
               (Z.of_nat i))
      else l1_store_loop n' (S i) set key generation expires_at_ms allowed empty_slot
  end.

Definition l1_store_set (set : FgaL1Set) (key : FgaAclCacheKey)
    (generation expires_at_ms : Z) (allowed : bool) : FgaL1Set :=
  match l1_store_loop FGA_L1_NUM_WAYS 0 set key generation expires_at_ms allowed (-1) with
  | inl set' => set'
  | inr empty_slot =>
      let target := if 0 <=? empty_slot then empty_slot else l1_plru_victim set in
      l1_plru_access
        (set_way set (Z.to_nat target) (l1_fill key generation expires_at_ms allowed)) target
  end.

Definition l1_store (c : FgaL1Cache) (key : FgaAclCacheKey)
    (generation expires_at_ms : Z) (allowed : bool) : FgaL1Cache :=
  match c with
  | None => c
  | Some sets =>
      let set_idx := Z.to_nat (l1_hash_to_set key) in
      Some (<[set_idx := l1_store_set (sets !!! set_idx) key generation expires_at_ms
                           allowed]> sets)
  end.

Definition l1_invalidate_all (c : FgaL1Cache) : FgaL1Cache :=
  match c with
  | None => c
  | Some sets => Some ((fun set => MkL1Set (invalidate <$> ways set) 0) <$> sets)
  end.

Definition invalidate_if_gen (old_generation : Z) (e : FgaL1Entry) : FgaL1Entry :=
  if e_valid e && (e_global_gen e =? old_generation) then invalidate e else e.

Definition l1_invalidate_by_generation (c : FgaL1Cache) (old_generation : Z)
  : FgaL1Cache :=
  match c with
  | None => c
  | Some sets =>
      Some ((fun set =>
        MkL1Set (invalidate_if_gen old_generation <$> ways set) (victim set)) <$> sets)
  end.

(** ** Invariant and view *)

(** One set: two ways, a victim bit, every valid entry at home in the set, and
    no key identity twice. *)
Record l1_set_wf (idx : nat) (set : FgaL1Set) : Prop := {
  wf_victim : victim set = 0 \/ victim set = 1;
  wf_ways : exists e0 e1, ways set = [e0; e1] /\
    ~ (e_valid e0 = true /\ e_valid e1 = true /\ key_id (e_key e0) = key_id (e_key e1));
  wf_home : Forall (fun e => e_valid e = true ->
    Z.to_nat (l1_hash_to_set (e_key e)) = idx) (ways set);
}.

Definition l1_wf (c : FgaL1Cache) : Prop :=
  match c with
  | None => True
  | Some sets =>
      length sets = Z.to_nat FGA_L1_NUM_SETS /\
      forall idx set, sets !! idx = Some set -> l1_set_wf idx set
  end.

Definition entry_matches (k : FgaAclCacheKey) (e : FgaL1Entry) : bool :=
  e_valid e && bool_decide (key_id (e_key e) = key_id k).

Definition set_find (set : FgaL1Set) (k : FgaAclCacheKey) : option FgaL1Entry :=
  List.find (entry_matches k) (ways set).

Definition entry_decision (e : FgaL1Entry) : decision :=
  MkDecision (e_allowed e) (e_expires_at_ms e) (e_global_gen e).

Definition l1_view (c : FgaL1Cache) (k : FgaAclCacheKey) : option decision :=
  match c with
  | None => None
  | Some sets => entry_decision <$> set_find (sets !!! Z.to_nat (l1_hash_to_set k)) k
  end.

#[export] Instance l1_tier : CacheTier FgaL1Cache := {
  tier_inv := l1_wf;
  tier_view := l1_view;
  tier_same k k' := key_id k = key_id k';
}.

(** A decision the lookup may answer with. *)
Definition l1_fresh (cur_generation now_ms : Z) (d : decision) : bool :=
  (u64 now_ms <? d_expires d) && (d_gen d =? cur_generation).

(** ** Set-level lemmas *)
Lemma l1_key_equals_spec a b :
  l1_key_equals a b = bool_decide (key_id a = key_id b).
Proof.
  unfold l1_key_equals, key_id. apply eq_true_iff_eq.
  rewrite andb_true_iff, bool_decide_eq_true, !Z.eqb_eq.
  split; [intros [-> ->]; done | by intros [= -> ->]].
Qed.

Lemma l1_hash_key_id a b : key_id a = key_id b -> l1_hash_to_set a = l1_hash_to_set b.
Proof. unfold key_id, l1_hash_to_set. intros [= -> _]. done. Qed.

Lemma l1_hash_range k : 0 <= l1_hash_to_set k < FGA_L1_NUM_SETS.
Proof.
  unfold l1_hash_to_set, FGA_L1_NUM_SETS. rewrite Z.shiftl_1_l.
  rewrite land_mask by done.
  pose proof (Z.mod_pos_bound (key_low k) (2 ^ FGA_L1_NUM_SETS_BITS) ltac:(done)) as Hb.
  rewrite u32_small; [done|]. unfold FGA_L1_NUM_SETS_BITS in *. lia.
Qed.

(** Open the two ways of a well-formed set and decide every guard. *)
Ltac open_set Hwf :=
  let e0 := fresh "e0" in let e1 := fresh "e1" in
  let Hw := fresh "Hw" in let Hd := fresh "Hdup" in
  destruct Hwf as [Hv (e0 & e1 & Hw & Hd) Hh];
  match type of Hw with ways ?s = _ =>
    destruct s as [ws v]; cbn [ways victim] in *; subst ws end;
  destruct e0 as [[] ? ? ? ?], e1 as [[] ? ? ? ?]; destruct Hv as [-> | ->].

(** Way indices are literals. *)
Ltac way_literals :=
  change (Z.of_nat 0) with 0 in *; change (Z.of_nat 1) with 1 in *;
  change (Z.to_nat 0) with 0%nat in *; change (Z.to_nat 1) with 1%nat in *;
  change (u8 (Z.lxor 0 1)) with 1 in *; change (u8 (Z.lxor 1 1)) with 0 in *.

(** The entry a lookup of [k] finds is there but may not be used. *)
Definition set_stale (set : FgaL1Set) (k : FgaAclCacheKey) (g now : Z) : bool :=
  match set_find set k with
  | Some e => negb (l1_fresh g now (entry_decision e))
  | None => false
  end.

Ltac set_norm :=
  do 2 (cbn in *; way_literals); cbn in *; rewrite ?l1_key_equals_spec.

Ltac set_cases :=
  unfold set_find, set_stale, entry_matches, l1_fresh, entry_decision;
  set_norm;
  repeat (
    match goal with
    | |- context [bool_decide ?P] => destruct (bool_decide_reflect P)
    | H : context [bool_decide ?P] |- _ => destruct (bool_decide_reflect P)
    | |- context [if ?b then _ else _] => destruct b eqn:?
    | H : context [if ?b then _ else _] |- _ => destruct b eqn:?
    end; set_norm).

Ltac solve_set :=
  split_guards; try congruence; try lia; intuition congruence.

Lemma lookup_loop_result set k g now set' r idx :
  l1_set_wf idx set ->
  l1_lookup_loop FGA_L1_NUM_WAYS 0 set k g now = (set', r) ->
  r = match set_find set k with
      | Some e => if l1_fresh g now (entry_decision e) then Some (e_allowed e) else None
      | None => None
      end.
Proof.
  intros Hwf. open_set Hwf; set_cases; intros [= <- <-]; solve_set.
Qed.

(** A lookup shows every entry it showed before, except a stale one of its own
    key, which it invalidates. *)
Lemma lookup_loop_find set k g now set' r idx k' :
  l1_set_wf idx set ->
  l1_lookup_loop FGA_L1_NUM_WAYS 0 set k g now = (set', r) ->
  set_find set' k' =
    if bool_decide (key_id k' = key_id k) && set_stale set k g now then None
    else set_find set k'.
Proof.
  intros Hwf. open_set Hwf; set_cases; intros [= <- <-]; set_cases; solve_set.
Qed.

(** The way a hit touched is not the next victim. *)
Definition way_of (set : FgaL1Set) (k : FgaAclCacheKey) : Z :=
  match ways set with
  | e :: _ => if entry_matches k e then 0 else 1
  | [] => 0
  end.

Lemma lookup_loop_victim set k g now set' a idx :
  l1_set_wf idx set ->
  l1_lookup_loop FGA_L1_NUM_WAYS 0 set k g now = (set', Some a) ->
  victim set' = 1 - way_of set k /\ ways set' = ways set /\ is_Some (set_find set k).
Proof.
  intros Hwf. open_set Hwf; unfold way_of; set_cases; intros [= <- <-];
    cbn; eauto; solve_set.
Qed.

Lemma lookup_loop_wf set k g now set' r idx :
  l1_set_wf idx set ->
  l1_lookup_loop FGA_L1_NUM_WAYS 0 set k g now = (set', r) ->
  l1_set_wf idx set'.
Proof.
  intros Hwf. open_set Hwf; set_cases; intros [= <- <-]; split; cbn; auto;
    rewrite ?Forall_cons in *; cbn in *;
    try (eexists _, _; split; [reflexivity|]; cbn); intuition congruence.
Qed.

Lemma store_set_wf set k g exp a idx :
  Z.to_nat (l1_hash_to_set k) = idx ->
  l1_set_wf idx set -> l1_set_wf idx (l1_store_set set k g exp a).
Proof.
  intros Hk Hwf. unfold l1_store_set, l1_plru_victim.
  open_set Hwf; set_cases; split; cbn; auto;
    rewrite ?Forall_cons in *; cbn in *;
    try (eexists _, _; split; [reflexivity|]; cbn); intuition congruence.
Qed.

Lemma store_set_find_eq set k g exp a idx :
  l1_set_wf idx set ->
  entry_decision <$> set_find (l1_store_set set k g exp a) k =
    Some (MkDecision a (u64 exp) (u16 g)).
Proof.
  intros Hwf. unfold l1_store_set, l1_plru_victim.
  open_set Hwf; set_cases; solve_set.
Qed.

Definition set_full (set : FgaL1Set) : bool := forallb e_valid (ways set).

(** Another key keeps its entry, unless its way is the victim of a full set
    that does not hold [k]. *)
Lemma store_set_find_ne set k g exp a idx k' :
  l1_set_wf idx set -> key_id k' <> key_id k ->
  entry_decision <$> set_find (l1_store_set set k g exp a) k' =
    if bool_decide (set_find set k = None)
       && set_full set && (way_of set k' =? victim set)
    then None else entry_decision <$> set_find set k'.
Proof.
  intros Hwf Hne. unfold l1_store_set, l1_plru_victim, way_of, set_full.
  open_set Hwf; set_cases; solve_set.
Qed.

(** ** The whole cache *)
Definition home (k : FgaAclCacheKey) : nat := Z.to_nat (l1_hash_to_set k).

Lemma home_lt (sets : list FgaL1Set) k :
  length sets = Z.to_nat FGA_L1_NUM_SETS -> (home k < length sets)%nat.
Proof. intros ->. pose proof (l1_hash_range k). unfold home. lia. Qed.

Lemma l1_wf_set sets k :
  l1_wf (Some sets) -> l1_set_wf (home k) (sets !!! home k).
Proof.
  intros [Hlen Hwf]. apply Hwf. apply list_lookup_lookup_total_lt, home_lt, Hlen.
Qed.

Lemma l1_wf_insert sets k set' :
  l1_wf (Some sets) -> l1_set_wf (home k) set' -> l1_wf (Some (<[home k := set']> sets)).
Proof.
  intros [Hlen Hwf] Hs. split; [by rewrite length_insert|].
  intros idx set. rewrite list_lookup_insert_Some.
  intros [(<- & <- & _)|[Hne Hl]]; [done|by apply Hwf].
Qed.

Lemma l1_view_insert sets k set' k' :
  l1_wf (Some sets) ->
  l1_view (Some (<[home k := set']> sets)) k' =
    if decide (home k' = home k) then entry_decision <$> set_find set' k'
    else l1_view (Some sets) k'.
Proof.
  intros [Hlen _]. unfold l1_view. fold (home k').
  destruct (decide (home k' = home k)) as [Hh|Hh].
  - rewrite Hh, list_lookup_total_insert_eq; [done|]. by apply home_lt.
  - by rewrite list_lookup_total_insert_ne' by done.
Qed.

Lemma home_key_id k k' : key_id k' = key_id k -> home k' = home k.
Proof. intros Hk. unfold home. by rewrite (l1_hash_key_id _ _ Hk). Qed.

Lemma l1_startup_wf c : l1_wf c -> l1_wf (l1_startup c).
Proof.
  destruct c; [done|]. intros _. split.
  - apply length_replicate.
  - intros idx set [-> _]%lookup_replicate_1. split; [by left| |].
    + exists zero_l1_entry, zero_l1_entry. split; [done|]. by intros [? _].
    + by repeat constructor.
Qed.

Lemma l1_lookup_wf c k g now : l1_wf c -> l1_wf (l1_lookup c k g now).1.
Proof.
  destruct c as [sets|]; [|done]. intros Hwf. unfold l1_lookup.
  destruct (l1_lookup_loop _ _ _ _ _ _) as [set' r] eqn:E.
  apply l1_wf_insert; [done|]. eapply lookup_loop_wf, E. by apply l1_wf_set.
Qed.

Lemma l1_store_wf c k g exp a : l1_wf c -> l1_wf (l1_store c k g exp a).
Proof.
  destruct c as [sets|]; [|done]. intros Hwf.
  apply l1_wf_insert; [done|]. apply store_set_wf; [done|]. by apply l1_wf_set.
Qed.

Lemma l1_map_ways_wf (f : FgaL1Entry -> FgaL1Entry) (v : Z -> Z) sets :
  (forall e, e_key (f e) = e_key e) ->
  (forall e, e_valid (f e) = true -> e_valid e = true) ->
  (forall z, z = 0 \/ z = 1 -> v z = 0 \/ v z = 1) ->
  l1_wf (Some sets) ->
  l1_wf (Some ((fun set => MkL1Set (f <$> ways set) (v (victim set))) <$> sets)).
Proof.
  intros Hk Hval Hv [Hlen Hwf]. split; [by rewrite length_fmap|].
  intros idx set. rewrite list_lookup_fmap, fmap_Some. intros (set0 & Hl & ->).
  destruct (Hwf _ _ Hl) as [Hv0 (e0 & e1 & Hw & Hd) Hh]. split; cbn.
  - by apply Hv.
  - exists (f e0), (f e1). rewrite Hw. split; [done|]. rewrite !Hk.
    intros (H0 & H1 & Heq). apply Hd. auto.
  - rewrite Forall_fmap. eapply Forall_impl; [exact Hh|]. cbn.
    intros e He Hf. rewrite Hk. auto.
Qed.

Lemma l1_invalidate_all_wf c : l1_wf c -> l1_wf (l1_invalidate_all c).
Proof.
  destruct c as [sets|]; [|done]. by apply (l1_map_ways_wf invalidate (fun _ => 0)); auto.
Qed.

Lemma l1_invalidate_by_generation_wf c g :
  l1_wf c -> l1_wf (l1_invalidate_by_generation c g).
Proof.
  destruct c as [sets|]; [|done].
  apply (l1_map_ways_wf (invalidate_if_gen g) (fun z => z)); auto;
    intros e; unfold invalidate_if_gen; by case_match.
Qed.

#[export] Hint Resolve l1_startup_wf l1_lookup_wf l1_store_wf l1_invalidate_all_wf
  l1_invalidate_by_generation_wf : fga.

(** The answer of a lookup, from the view. *)
Lemma l1_lookup_answer c k g now :
  l1_wf c ->
  (l1_lookup c k g now).2 =
    match l1_view c k with
    | Some d => if l1_fresh g now d then Some (d_allowed d) else None
    | None => None
    end.
Proof.
  destruct c as [sets|]; [|done]. intros Hwf. unfold l1_lookup, l1_view.
  destruct (l1_lookup_loop _ _ _ _ _ _) as [set' r] eqn:E. cbn.
  rewrite (lookup_loop_result _ _ _ _ _ _ _ (l1_wf_set _ k Hwf) E).
  fold (home k). by destruct (set_find (sets !!! home k) k).
Qed.

(** Whether a lookup of [k] drops the entry it finds. *)
Definition l1_stale (c : FgaL1Cache) (k : FgaAclCacheKey) (g now : Z) : bool :=
  match l1_view c k with
  | Some d => negb (l1_fresh g now d)
  | None => false
  end.

Lemma l1_lookup_view c k g now k' :
  l1_wf c ->
  l1_view (l1_lookup c k g now).1 k' =
    if bool_decide (key_id k' = key_id k) && l1_stale c k g now then None
    else l1_view c k'.
Proof.
  destruct c as [sets|]; [|intros _; cbn; by destruct (_ && _)].
  intros Hwf. unfold l1_lookup.
  destruct (l1_lookup_loop _ _ _ _ _ _) as [set' r] eqn:E. cbn [fst].
  pose proof (lookup_loop_find _ _ _ _ _ _ _ k' (l1_wf_set _ k Hwf) E) as Hf.
  fold (home k). rewrite l1_view_insert by done. fold (home k) in E.
  assert (Hst : set_stale (sets !!! home k) k g now = l1_stale (Some sets) k g now).
  { unfold set_stale, l1_stale, l1_view. fold (home k).
    by destruct (set_find (sets !!! home k) k). }
  rewrite <- Hst. destruct (decide (home k' = home k)) as [Hh|Hh].
  - rewrite Hf. destruct (bool_decide _ && _); [done|].
    unfold l1_view. fold (home k'). by rewrite Hh.
  - rewrite bool_decide_eq_false_2; [done|]. intros Hk. by apply Hh, home_key_id.
Qed.

Lemma l1_store_view_eq c k g exp a :
  l1_wf c -> c <> None ->
  l1_view (l1_store c k g exp a) k = Some (MkDecision a (u64 exp) (u16 g)).
Proof.
  destruct c as [sets|]; [|done]. intros Hwf _. unfold l1_store. fold (home k).
  rewrite l1_view_insert, decide_True by done.
  eapply store_set_find_eq. by apply l1_wf_set.
Qed.

(** The entry of [k'] is the one a store of [k] throws out. *)
Definition l1_evicts (c : FgaL1Cache) (k k' : FgaAclCacheKey) : bool :=
  match c with
  | None => false
  | Some sets =>
      let set := sets !!! home k in
      bool_decide (home k' = home k) && bool_decide (set_find set k = None)
        && set_full set && (way_of set k' =? victim set)
  end.

Lemma l1_store_view_ne c k g exp a k' :
  l1_wf c -> key_id k' <> key_id k ->
  l1_view (l1_store c k g exp a) k' =
    if l1_evicts c k k' then None else l1_view c k'.
Proof.
  destruct c as [sets|]; [|done]. intros Hwf Hne. unfold l1_store. fold (home k).
  rewrite l1_view_insert by done. unfold l1_evicts.
  destruct (decide (home k' = home k)) as [Hh|Hh].
  - rewrite (store_set_find_ne _ _ _ _ _ _ _ (l1_wf_set _ k Hwf) Hne).
    rewrite (bool_decide_eq_true_2 (home k' = home k)) by done.
    unfold l1_view. fold (home k'). by rewrite Hh.
  - by rewrite (bool_decide_eq_false_2 (home k' = home k)).
Qed.

(** The operations implement the tier interface. *)
Lemma l1_lookup_forgets c k g now : l1_wf c -> tier_forgets c (l1_lookup c k g now).1.
Proof.
  intros Hwf k' d. cbn. rewrite l1_lookup_view by done. by case_match.
Qed.

Lemma l1_store_puts c k g exp a :
  l1_wf c -> c <> None ->
  tier_puts k (MkDecision a (u64 exp) (u16 g)) c (l1_store c k g exp a).
Proof.
  intros Hwf Hn. split; [by apply l1_store_view_eq|]. cbn. intros k' d'.
  destruct (decide (key_id k' = key_id k)) as [Heq|Hne].
  - intros Hv. right. split; [done|].
    assert (Hsame : forall c0, l1_view c0 k' = l1_view c0 k).
    { intros [sets|]; [|done]. unfold l1_view. rewrite (l1_hash_key_id _ _ Heq).
      unfold set_find, entry_matches. by rewrite Heq. }
    rewrite Hsame, l1_store_view_eq in Hv by done. congruence.
  - rewrite l1_store_view_ne by done. case_match; [done|]. auto.
Qed.

Lemma set_find_invalidate_all idx set w k :
  l1_set_wf idx set -> set_find (MkL1Set (invalidate <$> ways set) w) k = None.
Proof. intros Hwf. open_set Hwf; reflexivity. Qed.

Lemma set_find_invalidate_gen idx set g k :
  l1_set_wf idx set ->
  entry_decision <$>
    set_find (MkL1Set (invalidate_if_gen g <$> ways set) (victim set)) k =
  match entry_decision <$> set_find set k with
  | Some d => if d_gen d =? g then None else Some d
  | None => None
  end.
Proof.
  intros Hwf. unfold invalidate_if_gen. open_set Hwf; set_cases; solve_set.
Qed.

Lemma l1_invalidate_all_view c k : l1_wf c -> l1_view (l1_invalidate_all c) k = None.
Proof.
  destruct c as [sets|]; [|done]. intros Hwf. unfold l1_view, l1_invalidate_all.
  fold (home k). rewrite lookup_total_fmap_lt by (apply home_lt, Hwf).
  by rewrite (set_find_invalidate_all (home k)) by by apply l1_wf_set.
Qed.

Lemma l1_invalidate_by_generation_view c g k :
  l1_wf c ->
  l1_view (l1_invalidate_by_generation c g) k =
    match l1_view c k with
    | Some d => if d_gen d =? g then None else Some d
    | None => None
    end.
Proof.
  destruct c as [sets|]; [|done]. intros Hwf.
  unfold l1_view, l1_invalidate_by_generation.
  fold (home k). rewrite lookup_total_fmap_lt by (apply home_lt, Hwf).
  apply (set_find_invalidate_gen (home k)). by apply l1_wf_set.
Qed.

(** ** Traces of operations of one backend *)
Inductive l1_op : Type :=
  | L1Startup
  | L1Lookup (key : FgaAclCacheKey) (cur_generation now_ms : Z)
  | L1Store (key : FgaAclCacheKey) (generation expires_at_ms : Z) (allowed : bool)
  | L1InvalidateAll
  | L1InvalidateByGeneration (old_generation : Z).

Definition l1_exec (c : FgaL1Cache) (op : l1_op) : FgaL1Cache :=
  match op with
  | L1Startup => l1_startup c
  | L1Lookup k g now => (l1_lookup c k g now).1
  | L1Store k g exp a => l1_store c k g exp a
  | L1InvalidateAll => l1_invalidate_all c
  | L1InvalidateByGeneration g => l1_invalidate_by_generation c g
  end.

Definition l1_run (ops : list l1_op) : FgaL1Cache := foldl l1_exec None ops.

(** The decision the latest store of a key identity wrote. *)
Definition record_write (id : Z * Z) (acc : option decision) (op : l1_op)
  : option decision :=
  match op with
  | L1Store k g exp a =>
      if bool_decide (key_id k = id) then Some (MkDecision a (u64 exp) (u16 g)) else acc
  | _ => acc
  end.
Definition last_write (ops : list l1_op) (id : Z * Z) : option decision :=
  foldl (record_write id) None ops.

Lemma l1_exec_wf c op : l1_wf c -> l1_wf (l1_exec c op).
Proof. destruct op; simpl; auto with fga. Qed.

Lemma l1_run_wf ops : l1_wf (l1_run ops).
Proof.
  unfold l1_run. assert (Hw : l1_wf None) by done. revert Hw.
  generalize (None : FgaL1Cache). induction ops as [|op ops IH]; intros c Hw; simpl;
    auto using l1_exec_wf.
Qed.

(** Once allocated, the cache stays allocated. *)
Lemma l1_exec_started c op : c <> None -> l1_exec c op <> None.
Proof.
  destruct c as [sets|]; [|done]. intros _.
  destruct op; cbn [l1_exec]; try done. unfold l1_lookup.
  by destruct (l1_lookup_loop FGA_L1_NUM_WAYS _ _ _ _ _).
Qed.

Lemma l1_run_started ops : L1Startup ∈ ops -> l1_run ops <> None.
Proof.
  unfold l1_run. induction ops as [|op ops IH] using rev_ind; [set_solver|].
  rewrite foldl_app. cbn [foldl]. intros [Hs|Hs]%elem_of_app.
  - by apply l1_exec_started, IH.
  - apply list_elem_of_singleton in Hs as <-. by destruct (foldl _ _ _).
Qed.

(** One step keeps "what is visible is the latest write". *)
Lemma l1_exec_last_write c op id acc k d :
  l1_wf c -> key_id k = id ->
  (forall d, l1_view c k = Some d -> acc = Some d) ->
  l1_view (l1_exec c op) k = Some d -> record_write id acc op = Some d.
Proof.
  intros Hwf Hid Hacc. destruct op as [|k' g now|k' g exp a| |g]; simpl.
  - destruct c as [sets|]; [by apply Hacc|]. unfold l1_view, l1_startup.
    rewrite lookup_total_replicate_2; [done|]. pose proof (l1_hash_range k). lia.
  - intros Hv. apply Hacc. by apply (l1_lookup_forgets c k' g now Hwf).
  - destruct c as [sets|]; [|done]. intros Hv.
    destruct (l1_store_puts (Some sets) k' g exp a Hwf ltac:(done)) as [Hnew Hp].
    destruct (decide (key_id k' = id)) as [Heq|Hne].
    + rewrite bool_decide_eq_true_2 by done. cbn in Hnew, Hv.
      assert (Hs : key_id k = key_id k') by congruence.
      unfold l1_view, set_find, entry_matches in Hnew, Hv.
      rewrite (l1_hash_key_id _ _ Hs), Hs in Hv. congruence.
    + rewrite bool_decide_eq_false_2 by done. apply Hacc.
      destruct (Hp k d Hv) as [[_ ?]|[? _]]; [done|cbn in *; congruence].
  - by rewrite l1_invalidate_all_view.
  - rewrite l1_invalidate_by_generation_view by done. intros Hv. apply Hacc.
    destruct (l1_view c k) as [d0|]; [|done]. case_match; congruence.
Qed.

Lemma l1_run_last_write ops k d :
  l1_view (l1_run ops) k = Some d -> last_write ops (key_id k) = Some d.
Proof.
  revert d. induction ops as [|op ops IH] using rev_ind; [done|]. intros d.
  unfold l1_run, last_write. rewrite !foldl_app. cbn [foldl].
  apply l1_exec_last_write; [apply l1_run_wf|done|apply IH].
Qed.

(** ** Properties *)

(** C24. Whatever one backend did before, an answer of its L1 cache is the
    decision of the latest store of that key, it has not expired, and it was
    stored under the current generation: eviction, invalidation and the
    replacement policy never bring an overwritten or stale decision back. *)
Theorem l1_answers_latest_fresh_store ops k g now a :
  (l1_lookup (l1_run ops) k g now).2 = Some a ->
  exists d, last_write ops (key_id k) = Some d /\ d_allowed d = a /\
    u64 now < d_expires d /\ d_gen d = g.
Proof.
  rewrite l1_lookup_answer by apply l1_run_wf.
  destruct (l1_view _ _) as [d|] eqn:Hv; [|done].
  destruct (l1_fresh g now d) eqn:Hf; [|done]. intros [= <-].
  unfold l1_fresh in Hf. split_guards.
  exists d. split; [by apply l1_run_last_write|done].
Qed.

(** Every operation keeps the structure of the cache: 16384 sets of two
    ways, a victim bit of 0 or 1, each valid entry in the set its key hashes
    to, and no key twice in a set. *)
Theorem l1_structure_invariant ops sets :
  l1_run ops = Some sets ->
  length sets = Z.to_nat FGA_L1_NUM_SETS /\
  forall idx set, sets !! idx = Some set -> l1_set_wf idx set.
Proof. intros Hr. pose proof (l1_run_wf ops) as Hwf. by rewrite Hr in Hwf. Qed.

(** A stored decision is read back until it expires or the generation
    moves, and a store forgets at most one other key: the one in the victim
    way of a full set that did not hold the stored key. *)
Theorem l1_store_lookup ops k g exp a now :
  L1Startup ∈ ops -> u64 now < u64 exp ->
  (l1_lookup (l1_store (l1_run ops) k g exp a) k (u16 g) now).2 = Some a /\
  forall k', key_id k' <> key_id k ->
    l1_view (l1_store (l1_run ops) k g exp a) k' =
      if l1_evicts (l1_run ops) k k' then None else l1_view (l1_run ops) k'.
Proof.
  intros Hs Hlt. pose proof (l1_run_wf ops) as Hwf.
  pose proof (l1_run_started ops Hs) as Hn.
  split; [|intros k' Hk'; by apply l1_store_view_ne].
  rewrite l1_lookup_answer by auto with fga. rewrite l1_store_view_eq by done.
  unfold l1_fresh. cbn. rewrite (proj2 (Z.ltb_lt _ _) Hlt), Z.eqb_refl. done.
Qed.

(** Pseudo-LRU: an entry that has just been hit survives the next store of
    any other key. *)
Theorem l1_hit_protects_entry ops k g now a k' g' exp' a' :
  (l1_lookup (l1_run ops) k g now).2 = Some a ->
  key_id k' <> key_id k ->
  l1_view (l1_store (l1_lookup (l1_run ops) k g now).1 k' g' exp' a') k =
    l1_view (l1_run ops) k.
Proof.
  intros Hhit Hne. pose proof (l1_run_wf ops) as Hwf.
  rewrite l1_store_view_ne by auto with fga.
  assert (Hst : l1_stale (l1_run ops) k g now = false).
  { rewrite l1_lookup_answer in Hhit by done. unfold l1_stale.
    destruct (l1_view _ _) as [d|]; [|done]. by destruct (l1_fresh g now d). }
  rewrite l1_lookup_view, Hst, andb_false_r by done.
  enough (l1_evicts (l1_lookup (l1_run ops) k g now).1 k' k = false) as -> by done.
  destruct (l1_run ops) as [sets|]; [|done]. unfold l1_lookup in *.
  destruct (l1_lookup_loop _ _ _ _ _ _) as [set' r] eqn:E. cbn in Hhit |- *. subst r.
  destruct (lookup_loop_victim _ _ _ _ _ _ _ (l1_wf_set _ k Hwf) E) as (Hv & Hw & _).
  destruct (decide (home k = home k')) as [Hh|Hh];
    [|by rewrite (bool_decide_eq_false_2 (home k = home k'))].
  fold (home k) in *. rewrite <- Hh, list_lookup_total_insert_eq by (apply home_lt, Hwf).
  apply andb_false_iff. right. apply Z.eqb_neq.
  unfold way_of in *. rewrite Hv, Hw.
  destruct (ways (sets !!! home k)) as [|e es]; [done|]. by case_match.
Qed.

(** Invalidation: after [l1_invalidate_all] no key is visible; after
    [l1_invalidate_by_generation g] exactly the entries of generation [g] are
    gone. *)
Theorem l1_invalidation_complete ops g k :
  l1_view (l1_invalidate_all (l1_run ops)) k = None /\
  l1_view (l1_invalidate_by_generation (l1_run ops) g) k =
    match l1_view (l1_run ops) k with
    | Some d => if d_gen d =? g then None else Some d
    | None => None
    end.
Proof.
  split; [apply l1_invalidate_all_view, l1_run_wf|].
  apply l1_invalidate_by_generation_view, l1_run_wf.
Qed.

(** ** The properties on a concrete history *)
Definition k_doc1 : FgaAclCacheKey := MkKey 5 1 0 0 0.
Definition k_doc2 : FgaAclCacheKey := MkKey 5 2 0 0 0.      (* same set *)
Definition k_doc3 : FgaAclCacheKey := MkKey 5 3 0 0 0.
Definition sample_history : list l1_op :=
  [L1Startup; L1Store k_doc1 7 1000 true; L1Store k_doc2 7 2000 false].

Lemma l1_answers_latest_fresh_store_witness :
  exists d, last_write sample_history (key_id k_doc1) = Some d /\ d_allowed d = true /\
    u64 10 < d_expires d /\ d_gen d = 7.
Proof.
  apply (l1_answers_latest_fresh_store sample_history k_doc1 7 10 true).
  vm_compute. reflexivity.
Defined.

Lemma l1_structure_invariant_witness :
  exists sets, l1_run sample_history = Some sets /\
    length sets = Z.to_nat FGA_L1_NUM_SETS /\ l1_set_wf 5 (sets !!! 5%nat).
Proof.
  destruct (l1_run sample_history) as [sets|] eqn:E; [|vm_compute in E; discriminate].
  exists sets. split; [done|].
  destruct (l1_structure_invariant sample_history sets E) as [Hl Hwf].
  split; [done|]. apply Hwf, list_lookup_lookup_total_lt. rewrite Hl.
  apply Nat.ltb_lt. vm_compute. reflexivity.
Defined.

Lemma l1_store_lookup_witness :
  (l1_lookup (l1_store (l1_run sample_history) k_doc3 7 3000 true) k_doc3 (u16 7) 10).2
    = Some true /\
  forall k', key_id k' <> key_id k_doc3 ->
    l1_view (l1_store (l1_run sample_history) k_doc3 7 3000 true) k' =
      if l1_evicts (l1_run sample_history) k_doc3 k' then None
      else l1_view (l1_run sample_history) k'.
Proof.
  apply (l1_store_lookup sample_history k_doc3 7 3000 true 10); [by left|].
  vm_compute. reflexivity.
Defined.

Lemma l1_hit_protects_entry_witness :
  l1_view (l1_store (l1_lookup (l1_run sample_history) k_doc1 7 10).1 k_doc3 7 3000 false)
    k_doc1 = l1_view (l1_run sample_history) k_doc1.
Proof.
  apply (l1_hit_protects_entry sample_history k_doc1 7 10 true).
  - vm_compute. reflexivity.
  - discriminate.
Defined.
