(* ===== verification/CacheL2.v ===== *)
(** * The shared cache: [src/cache_l2.h]

    An array of entries in shared memory, indexed by a hash table from keys to
    slot numbers, with clock-sweep replacement under one lightweight lock. *)
From S2P Require Import Prelude Platform Types CacheKey CacheSpec.

Definition FGA_L2_USAGE_MAX : Z := 5.

Record FgaL2AclValue : Type := MkL2Value {
  v_allowed : bool;
  v_global_gen : Z;      (* uint16_t *)
  v_object_gen : Z;      (* uint16_t *)
  v_expires_at_ms : Z;   (* TimestampTz *)
  v_usage_count : Z;     (* uint8 *)
}.

Record FgaL2AclEntry : Type := MkL2Entry {
  l2e_key : FgaAclCacheKey;
  l2e_value : FgaL2AclValue;
  l2e_valid : bool;
}.

Record FgaL2AclCache : Type := MkL2Cache {
  l2_lock : option LWLockMode;     (* how this backend holds [lock] *)
  nextVictim : Z;                  (* pg_atomic_uint32 *)
  l2_capacity : Z;                 (* uint32 *)
  l2_generation : Z;               (* uint16 *)
  l2_entries : list FgaL2AclEntry;
}.

(** Struct layouts on x86-64. *)
Definition FgaL2AclValue_fields : list (Z * Z) :=
  [c_bool; c_uint16; c_uint16; c_uint64; c_uint8].
Definition FgaL2AclEntry_fields : list (Z * Z) :=
  [as_field FgaAclCacheKey_fields; as_field FgaL2AclValue_fields; c_bool].
Definition FgaL2AclSlot_fields : list (Z * Z) :=
  [as_field FgaAclCacheKey_fields; c_uint32].
(** The members before the flexible array, and the array's own alignment. *)
Definition FgaL2AclCache_fields : list (Z * Z) :=
  [c_ptr; c_uint32; c_uint32; c_uint16; c_chars 6; (0, struct_align FgaL2AclEntry_fields)].

(** [fga_get_state()->cache] and the per-process [l2_slot_table]. *)
Record l2_state (H : Type) : Type := MkL2State {
  l2c : option FgaL2AclCache;
  l2_slot_table : option H;    (* None: the NULL pointer before l2_startup *)
}.
Arguments MkL2State {H} l2c l2_slot_table.
Arguments l2c {H} l.
Arguments l2_slot_table {H} l.

Definition l2_capacity_from_config (config : FgaConfig) : Z :=
  let bytes := u64 (u64 (u64 (cache_size config) * 1024) * 1024) in
  let per := struct_size FgaL2AclEntry_fields in
  bytes / per.

Definition l2_hash_size (capacity : Z) : Z := u64 (capacity * 2).

Definition clear_valid (e : FgaL2AclEntry) : FgaL2AclEntry :=
  MkL2Entry (l2e_key e) (l2e_value e) false.

(** [object_gen] is not written. *)
Definition l2_update_entry (entry : FgaL2AclEntry) (key : FgaAclCacheKey)
    (expires_at : Z) (allowed : bool) (generation : Z) : FgaL2AclEntry :=
  MkL2Entry key
    (MkL2Value allowed generation (v_object_gen (l2e_value entry)) expires_at
       FGA_L2_USAGE_MAX) true.

Definition l2_entry_expired (cache : FgaL2AclCache) (entry : FgaL2AclEntry)
    (now_ms : Z) : bool :=
  if negb (l2e_valid entry) then true
  else if v_expires_at_ms (l2e_value entry) <=? now_ms then true
  else if negb (v_global_gen (l2e_value entry) =? l2_generation cache) then true
  else false.

Definition with_usage (e : FgaL2AclEntry) (n : Z) : FgaL2AclEntry :=
  MkL2Entry (l2e_key e)
    (MkL2Value (v_allowed (l2e_value e)) (v_global_gen (l2e_value e))
       (v_object_gen (l2e_value e)) (v_expires_at_ms (l2e_value e)) n)
    (l2e_valid e).

Definition with_entries (c : FgaL2AclCache) (es : list FgaL2AclEntry) : FgaL2AclCache :=
  MkL2Cache (l2_lock c) (nextVictim c) (l2_capacity c) (l2_generation c) es.

Definition with_lock (c : FgaL2AclCache) (m : option LWLockMode) : FgaL2AclCache :=
  MkL2Cache m (nextVictim c) (l2_capacity c) (l2_generation c) (l2_entries c).

(** [pg_atomic_fetch_add_u32(&cache->nextVictim, 1) % cache->capacity] *)
Definition l2_clock_sweep : CM FgaL2AclCache Z := fun cache =>
  let victim := nextVictim cache in
  let cache' := MkL2Cache (l2_lock cache) (u32 (victim + 1)) (l2_capacity cache)
                  (l2_generation cache) (l2_entries cache) in
  if l2_capacity cache =? 0 then (Undefined DivByZero, cache')
  else (Done (victim mod l2_capacity cache), cache').

(** [entries[idx]], checked against the allocated array. *)
Definition l2_entry_at (idx : Z) : CM FgaL2AclCache FgaL2AclEntry := fun cache =>
  match zlookup (l2_entries cache) idx with
  | Some e => (Done e, cache)
  | None => (Undefined OutOfBounds, cache)
  end.

Definition l2_set_entry (idx : Z) (e : FgaL2AclEntry) : CM FgaL2AclCache unit :=
  fun cache => (Done tt, with_entries cache (<[Z.to_nat idx := e]> (l2_entries cache))).

(** The [for (;;)] loop, with fuel. *)
Fixpoint l2_find_victim_loop (fuel : nat) (trycounter now_ms : Z)
  : CM FgaL2AclCache Z :=
  match fuel with
  | O => fun cache => (Undefined OutOfFuel, cache)
  | S fuel' =>
      idx ← l2_clock_sweep;
      entry ← l2_entry_at idx;
      cache ← cm_get;
      if l2_entry_expired cache entry now_ms then mret idx
      else if 0 <? v_usage_count (l2e_value entry) then
        _ ← l2_set_entry idx (with_usage entry (v_usage_count (l2e_value entry) - 1));
        let trycounter' := u32 (l2_capacity cache - 1) in
        if trycounter' =? 0 then mret UINT32_MAX
        else l2_find_victim_loop fuel' trycounter' now_ms
      else mret idx
  end.

(** Every turn of the loop takes one usage count ([uint8]) away or returns. *)
Definition victim_fuel (cache : FgaL2AclCache) : nat :=
  S (length (l2_entries cache) * 255).

Definition l2_find_victim_slot (now_ms : Z) : CM FgaL2AclCache Z :=
  cache ← cm_get;
  l2_find_victim_loop (victim_fuel cache) (l2_capacity cache) now_ms.

Section L2.
Context {H : Type} `{Dynahash FgaAclCacheKey Z H}.
Variable use_asserts : bool.

Definition on_cache {A} (m : CM FgaL2AclCache A) : CM (l2_state H) A := fun s =>
  match l2c s with
  | None => (Undefined NullDeref, s)
  | Some c => let '(r, c') := m c in (r, MkL2State (Some c') (l2_slot_table s))
  end.

(** A backend that waits for a lock it already holds waits forever. *)
Definition LWLockAcquire (mode : LWLockMode) : CM (l2_state H) unit :=
  on_cache (fun c =>
    match l2_lock c with
    | Some _ => (Undefined SelfDeadlock, c)
    | None => (Done tt, with_lock c (Some mode))
    end).

Definition LWLockRelease : CM (l2_state H) unit :=
  on_cache (fun c => (Done tt, with_lock c None)).

Definition set_slot_table (h : H) : CM (l2_state H) unit := fun s =>
  (Done tt, MkL2State (l2c s) (Some h)).

Definition get_slot_table : CM (l2_state H) H := fun s =>
  match l2_slot_table s with
  | None => (Undefined NullDeref, s)
  | Some h => (Done h, s)
  end.

Definition l2_startup : CM (l2_state H) unit := fun s =>
  match l2_slot_table s with
  | Some _ => (Done tt, s)
  | None =>
      match l2c s with
      | None => (Undefined NullDeref, s)
      | Some cache =>
          let hash_elems := l2_hash_size (l2_capacity cache) in
          (Done tt, MkL2State (l2c s) (Some (ShmemInitHash hash_elems hash_elems)))
      end
  end.

(** [Some (allowed, expires_at)] is a hit with both out parameters set. *)
Definition l2_lookup (key : FgaAclCacheKey) (now_ms : Z)
  : CM (l2_state H) (option (bool * Z)) :=
  s ← cm_get;
  match l2c s with
  | None => mret None
  | Some _ =>
      _ ← LWLockAcquire LW_SHARED;
      table ← get_slot_table;
      match hash_find table key with
      | None => _ ← LWLockRelease; mret None
      | Some slot_no =>
          entry ← on_cache (l2_entry_at slot_no);
          cache ← on_cache cm_get;
          if l2_entry_expired cache entry now_ms then
            _ ← on_cache (l2_set_entry slot_no (with_usage entry 0));
            _ ← LWLockRelease;
            mret None
          else
            let usage := v_usage_count (l2e_value entry) in
            _ ← (if usage <? FGA_L2_USAGE_MAX
                 then on_cache (l2_set_entry slot_no (with_usage entry (u8 (usage + 1))))
                 else mret tt);
            _ ← LWLockRelease;
            mret (Some (v_allowed (l2e_value entry), v_expires_at_ms (l2e_value entry)))
      end
  end.

Definition l2_store (key : FgaAclCacheKey) (now_ms expires_at : Z) (allowed : bool)
  : CM (l2_state H) unit :=
  s ← cm_get;
  match l2c s with
  | None => mret tt
  | Some _ =>
      _ ← LWLockAcquire LW_EXCLUSIVE;
      table ← get_slot_table;
      match hash_find table key with
      | Some slot_no =>
          entry ← on_cache (l2_entry_at slot_no);
          cache ← on_cache cm_get;
          _ ← on_cache (l2_set_entry slot_no
                 (l2_update_entry entry key expires_at allowed (l2_generation cache)));
          LWLockRelease
      | None =>
          victim_slot ← on_cache (l2_find_victim_slot now_ms);
          if victim_slot =? UINT32_MAX then LWLockRelease
          else
            entry ← on_cache (l2_entry_at victim_slot);
            let h := if l2e_valid entry
                     then hash_remove table (l2e_key entry)
                     else table in
            _ ← set_slot_table h;
            match hash_enter h key victim_slot with
            | None =>
                _ ← LWLockRelease;
                ereport "ERRCODE_OUT_OF_MEMORY"
                  "postfga: could not allocate L2 cache index entry"
            | Some h' =>
                (* Assert(!found) *)
                _ ← cm_lift (c_assert use_asserts
                               (bool_decide (hash_find h key = None)));
                _ ← set_slot_table h';
                cache ← on_cache cm_get;
                _ ← on_cache (l2_set_entry victim_slot
                       (l2_update_entry entry key expires_at allowed
                          (l2_generation cache)));
                LWLockRelease
            end
      end
  end.
End L2.

(** ** The clock sweep *)

Definition usage_nat (e : FgaL2AclEntry) : nat := Z.to_nat (v_usage_count (l2e_value e)).
Definition total_usage (es : list FgaL2AclEntry) : nat := sum_list (usage_nat <$> es).

(** The count of an entry that was never filled is whatever the memory held. *)
Definition usage_max (e : FgaL2AclEntry) : Z :=
  if l2e_valid e then FGA_L2_USAGE_MAX else 255.
Definition usage_ok (e : FgaL2AclEntry) : Prop :=
  0 <= v_usage_count (l2e_value e) <= usage_max e.

Lemma usage_max_range e : FGA_L2_USAGE_MAX <= usage_max e <= 255.
Proof. unfold usage_max, FGA_L2_USAGE_MAX. case_match; lia. Qed.

(** What the sweep and the lookups do to an entry: change its usage count. *)
Definition aged (e e' : FgaL2AclEntry) : Prop :=
  exists n, 0 <= n <= usage_max e /\ e' = with_usage e n.

(** What they may do to the cache. *)
Record swept (c c' : FgaL2AclCache) : Prop := {
  swept_lock : l2_lock c' = l2_lock c;
  swept_capacity : l2_capacity c' = l2_capacity c;
  swept_generation : l2_generation c' = l2_generation c;
  swept_victim : 0 <= nextVictim c' < 2 ^ 32;
  swept_entries : Forall2 aged (l2_entries c) (l2_entries c');
}.

Record l2_array_wf (c : FgaL2AclCache) : Prop := {
  l2w_capacity : 0 <= l2_capacity c < 2 ^ 32;
  l2w_length : length (l2_entries c) = Z.to_nat (l2_capacity c);
  l2w_victim : 0 <= nextVictim c < 2 ^ 32;
  l2w_usage : Forall usage_ok (l2_entries c);
}.

Lemma aged_refl e : usage_ok e -> aged e e.
Proof.
  intros [? ?]. exists (v_usage_count (l2e_value e)). split; [lia|].
  by destruct e as [k [] v].
Qed.

Lemma aged_trans e1 e2 e3 : aged e1 e2 -> aged e2 e3 -> aged e1 e3.
Proof. intros (n & Hn & ->) (m & Hm & ->). by exists m. Qed.

Lemma aged_usage_ok e e' : aged e e' -> usage_ok e'.
Proof. by intros (n & ? & ->). Qed.

Lemma Forall2_aged_refl es : Forall usage_ok es -> Forall2 aged es es.
Proof. induction 1; constructor; auto using aged_refl. Qed.

Lemma Forall2_aged_trans es1 es2 es3 :
  Forall2 aged es1 es2 -> Forall2 aged es2 es3 -> Forall2 aged es1 es3.
Proof. intros H1 H2. eapply Forall2_trans; [exact aged_trans|exact H1|exact H2]. Qed.

Lemma Forall2_aged_usage es es' : Forall2 aged es es' -> Forall usage_ok es'.
Proof. induction 1; constructor; eauto using aged_usage_ok. Qed.

Lemma swept_array_wf c c' : l2_array_wf c -> swept c c' -> l2_array_wf c'.
Proof.
  intros [] []. split; rewrite ?swept_capacity0; try done.
  - by rewrite <- (Forall2_length _ _ _ swept_entries0).
  - by eapply Forall2_aged_usage.
Qed.

Lemma swept_refl c : l2_array_wf c -> swept c c.
Proof. intros []. split; auto using Forall2_aged_refl. Qed.

Lemma swept_trans c1 c2 c3 : swept c1 c2 -> swept c2 c3 -> swept c1 c3.
Proof. intros [] []. split; try congruence. eauto using Forall2_aged_trans. Qed.

(** One turn of the loop: the hand moves, and unless the entry under it is
    free for the taking, its usage count drops by one. *)
Lemma clock_sweep_step c :
  l2_array_wf c -> 0 < l2_capacity c ->
  exists idx e c1,
    l2_clock_sweep c = (Done idx, c1) /\ swept c c1 /\
    l2_entries c1 = l2_entries c /\
    0 <= idx < l2_capacity c /\
    l2_entry_at idx c1 = (Done e, c1) /\
    l2_entries c1 !! Z.to_nat idx = Some e /\
    (0 < v_usage_count (l2e_value e) ->
     forall c2, l2_set_entry idx (with_usage e (v_usage_count (l2e_value e) - 1)) c1
       = (Done tt, c2) ->
     swept c c2 /\ S (total_usage (l2_entries c2)) = total_usage (l2_entries c)).
Proof.
  intros Hwf Hcap. pose proof Hwf as [Hc Hl Hv Hu].
  set (idx := nextVictim c mod l2_capacity c).
  assert (Hidx : 0 <= idx < l2_capacity c) by (apply Z.mod_pos_bound; lia).
  destruct (lookup_lt_is_Some_2 (l2_entries c) (Z.to_nat idx)) as [e He];
    [rewrite Hl; lia|].
  set (c1 := MkL2Cache (l2_lock c) (u32 (nextVictim c + 1)) (l2_capacity c)
               (l2_generation c) (l2_entries c)).
  assert (Hs1 : swept c c1).
  { split; try done; [apply u32_range|by apply Forall2_aged_refl]. }
  exists idx, e, c1. split.
  { unfold l2_clock_sweep. by rewrite (proj2 (Z.eqb_neq _ _)) by lia. }
  split; [done|]. split; [done|]. split; [done|]. split.
  { unfold l2_entry_at, zlookup. rewrite decide_True by lia. cbn. by rewrite He. }
  split; [done|]. intros Hpos c2 [= <-]. split.
  - split; cbn; try done; [apply u32_range|].
    rewrite <- (list_insert_id (l2_entries c) (Z.to_nat idx) e) at 1 by done.
    apply Forall2_insert; [by apply Forall2_aged_refl|].
    exists (v_usage_count (l2e_value e) - 1). split; [|done].
    assert (Hue : usage_ok e) by (eapply Forall_lookup_1; eauto).
    unfold usage_ok in Hue. lia.
  - cbn. unfold total_usage.
    pose proof (sum_list_fmap_insert usage_nat (l2_entries c) (Z.to_nat idx)
      (with_usage e (v_usage_count (l2e_value e) - 1)) e He) as Hsum.
    unfold usage_nat at 2 4 in Hsum. cbn in Hsum. lia.
Qed.

(** The victim is free: expired, or nobody used it lately. *)
Definition victim_free (c : FgaL2AclCache) (now_ms r : Z) : Prop :=
  0 <= r < l2_capacity c /\
  exists e, l2_entries c !! Z.to_nat r = Some e /\
    (l2_entry_expired c e now_ms = true \/ v_usage_count (l2e_value e) = 0).

Lemma find_victim_loop_spec fuel trycounter now c :
  l2_array_wf c -> 0 < l2_capacity c -> (total_usage (l2_entries c) < fuel)%nat ->
  exists r c', l2_find_victim_loop fuel trycounter now c = (Done r, c') /\
    swept c c' /\
    (victim_free c' now r \/ (r = UINT32_MAX /\ l2_capacity c = 1)).
Proof.
  revert trycounter c. induction fuel as [|fuel IH]; [lia|].
  intros trycounter c Hwf Hcap Hfuel.
  destruct (clock_sweep_step c Hwf Hcap)
    as (idx & e & c1 & Hsw & Hs1 & Hes & Hidx & Hat & He & Hdec).
  cbn [l2_find_victim_loop]. unfold mbind, cm_bind, cm_get, mret, cm_ret.
  rewrite Hsw, Hat.
  assert (Hu : usage_ok e).
  { pose proof (swept_array_wf _ _ Hwf Hs1) as [_ _ _ Hu].
    eapply Forall_lookup_1 in Hu; eauto. }
  assert (Hfree : (l2_entry_expired c1 e now = true \/ v_usage_count (l2e_value e) = 0) ->
    victim_free c1 now idx).
  { intros Hor. split; [by rewrite (swept_capacity _ _ Hs1)|]. by exists e. }
  destruct (l2_entry_expired c1 e now); [by eauto 10|].
  destruct (0 <? v_usage_count (l2e_value e)) eqn:Hpos; split_guards;
    [|eexists _, _; split; [done|]; split; [done|]; left; apply Hfree; right; unfold usage_ok in Hu; lia].
  destruct (l2_set_entry idx _ c1) as [r2 c2] eqn:Hset.
  assert (r2 = Done tt) as -> by (unfold l2_set_entry in Hset; congruence).
  destruct (Hdec Hpos c2 eq_refl) as [Hs2 Htot]. rewrite (swept_capacity _ _ Hs1).
  destruct (u32 (l2_capacity c - 1) =? 0) eqn:Ht.
  - eexists _, _. split; [done|]. split; [done|]. right. split; [done|].
    split_guards. rewrite u32_small in Ht; [lia|]. destruct Hwf. lia.
  - destruct (IH (u32 (l2_capacity c - 1)) c2) as (r & c' & Hr & Hs & Hor).
    + by eapply swept_array_wf.
    + by rewrite (swept_capacity _ _ Hs2).
    + lia.
    + exists r, c'. split; [done|]. split; [by eapply swept_trans|].
      by rewrite (swept_capacity _ _ Hs2) in Hor.
Qed.

Lemma total_usage_bound c :
  l2_array_wf c -> (total_usage (l2_entries c) < victim_fuel c)%nat.
Proof.
  intros [_ _ _ Hu]. unfold total_usage, victim_fuel.
  pose proof (sum_list_fmap_le usage_nat (l2_entries c) 255) as Hle.
  enough (sum_list (usage_nat <$> l2_entries c) <= length (l2_entries c) * 255)%nat by lia.
  apply Hle. intros e He. rewrite Forall_forall in Hu. apply Hu in He.
  unfold usage_ok in He. pose proof (usage_max_range e). unfold usage_nat. lia.
Qed.

Lemma find_victim_slot_spec now c :
  l2_array_wf c -> 0 < l2_capacity c ->
  exists r c', l2_find_victim_slot now c = (Done r, c') /\ swept c c' /\
    (victim_free c' now r \/ (r = UINT32_MAX /\ l2_capacity c = 1)).
Proof.
  intros Hwf Hcap. apply find_victim_loop_spec; auto using total_usage_bound.
Qed.

(** ** The state invariant and the view *)

Definition valid_nat (e : FgaL2AclEntry) : nat := if l2e_valid e then 1 else 0.
Definition valid_count (es : list FgaL2AclEntry) : nat := sum_list (valid_nat <$> es).

Definition l2_decision (e : FgaL2AclEntry) : decision :=
  MkDecision (v_allowed (l2e_value e)) (v_expires_at_ms (l2e_value e))
    (v_global_gen (l2e_value e)).

Lemma aged_same e e' :
  aged e e' -> l2e_key e' = l2e_key e /\ l2e_valid e' = l2e_valid e /\
    l2_decision e' = l2_decision e.
Proof. by intros (n & _ & ->). Qed.

Lemma valid_count_aged es es' : Forall2 aged es es' -> valid_count es' = valid_count es.
Proof.
  unfold valid_count. induction 1 as [|e e' es es' Ha _ IH]; [done|].
  apply aged_same in Ha as (_ & Hv & _). csimpl.
  unfold valid_nat at 1 3. rewrite Hv. lia.
Qed.

Section Index.
Context {H : Type} `{DynahashLaws FgaAclCacheKey Z H}.

(** The hash table and the valid entries index each other. *)
Record l2_index_wf (c : FgaL2AclCache) (h : H) : Prop := {
  l2i_sound k i : hash_find h k = Some i ->
    0 <= i < l2_capacity c /\
    exists e, l2_entries c !! Z.to_nat i = Some e /\ l2e_valid e = true /\ l2e_key e = k;
  l2i_complete i e : l2_entries c !! i = Some e -> l2e_valid e = true ->
    hash_find h (l2e_key e) = Some (Z.of_nat i);
  l2i_count : hash_get_num_entries h = valid_count (l2_entries c);
  l2i_room : (Z.to_nat (l2_capacity c) <= hash_max_entries h)%nat;
}.

(** No lock is held between operations. *)
Definition l2_wf (s : l2_state H) : Prop :=
  match l2c s with
  | None => True
  | Some c => exists h, l2_slot_table s = Some h /\ l2_lock c = None /\
      l2_array_wf c /\ l2_index_wf c h
  end.

Definition l2_cache_view (c : FgaL2AclCache) (h : H) (k : FgaAclCacheKey)
  : option decision :=
  i ← hash_find h k; e ← l2_entries c !! Z.to_nat i; Some (l2_decision e).

Definition l2_view (s : l2_state H) (k : FgaAclCacheKey) : option decision :=
  match l2c s, l2_slot_table s with
  | Some c, Some h => l2_cache_view c h k
  | _, _ => None
  end.

#[export] Instance l2_tier : CacheTier (l2_state H) := {
  tier_inv := l2_wf;
  tier_view := l2_view;
  tier_same k k' := k = k';
}.

(** A decision the lookup may answer with. *)
Definition l2_fresh (generation now_ms : Z) (d : decision) : bool :=
  (now_ms <? d_expires d) && (d_gen d =? generation).

Lemma l2_entry_expired_spec c e now :
  l2_entry_expired c e now = negb (l2e_valid e && l2_fresh (l2_generation c) now (l2_decision e)).
Proof.
  unfold l2_entry_expired, l2_fresh. destruct (l2e_valid e); [|done]. cbn.
  destruct (v_expires_at_ms (l2e_value e) <=? now) eqn:Hle; split_guards.
  - by rewrite (proj2 (Z.ltb_ge _ _) Hle).
  - rewrite (proj2 (Z.ltb_lt _ _) Hle). cbn. by destruct (_ =? _).
Qed.

Lemma l2_index_swept c c' h : l2_index_wf c h -> swept c c' -> l2_index_wf c' h.
Proof.
  intros [Hs Hc Hn Hr] [_ Hcap _ _ Ha]. split.
  - intros k i Hk. rewrite Hcap. destruct (Hs k i Hk) as (Hi & e & He & Hv & Hkey).
    split; [done|]. destruct (Forall2_lookup_l _ _ _ _ _ Ha He) as (e' & He' & Hag).
    apply aged_same in Hag as (? & ? & _). exists e'. by repeat split; congruence.
  - intros i e' He' Hv. destruct (Forall2_lookup_r _ _ _ _ _ Ha He') as (e & He & Hag).
    apply aged_same in Hag as (Hk & Hv' & _). rewrite Hk. eapply Hc; congruence.
  - by rewrite Hn, (valid_count_aged _ _ Ha).
  - by rewrite Hcap.
Qed.

Lemma l2_view_swept c c' h k : swept c c' -> l2_cache_view c' h k = l2_cache_view c h k.
Proof.
  intros [_ _ _ _ Ha]. unfold l2_cache_view.
  destruct (hash_find h k) as [i|]; [|done]. cbn.
  destruct (l2_entries c !! Z.to_nat i) as [e|] eqn:He.
  - destruct (Forall2_lookup_l _ _ _ _ _ Ha He) as (e' & -> & Hag).
    apply aged_same in Hag as (_ & _ & Hd). cbn. by rewrite Hd.
  - apply lookup_ge_None in He. rewrite (Forall2_length _ _ _ Ha) in He.
    by rewrite (proj2 (lookup_ge_None _ _) He).
Qed.

(** Writing one entry's usage count is not visible in the index. *)
Lemma set_usage_swept c i e n :
  l2_array_wf c -> l2_entries c !! i = Some e ->
  0 <= n <= FGA_L2_USAGE_MAX ->
  swept c (with_entries c (<[i := with_usage e n]> (l2_entries c))).
Proof.
  intros [_ _ Hv Hu] He Hn. split; cbn; try done.
  rewrite <- (list_insert_id (l2_entries c) i e) at 1 by done.
  apply Forall2_insert; [by apply Forall2_aged_refl|]. exists n.
  pose proof (usage_max_range e). split; [lia|done].
Qed.
End Index.

(** ** What the operations do *)
Section Ops.
Context {H : Type} `{DynahashLaws FgaAclCacheKey Z H}.
Variable use_asserts : bool.

(** The parts of the state no cache operation changes. *)
Definition l2_meta (s : l2_state H) : option (Z * Z) :=
  (fun c => (l2_capacity c, l2_generation c)) <$> l2c s.

(** The answer a lookup should give, read off the view. *)
Definition l2_answer (s : l2_state H) (k : FgaAclCacheKey) (now : Z) : option (bool * Z) :=
  c ← l2c s; d ← l2_view s k;
  if l2_fresh (l2_generation c) now d then Some (d_allowed d, d_expires d) else None.

Lemma on_cache_some {A} (m : CM FgaL2AclCache A) c (t : option H) :
  on_cache m (MkL2State (Some c) t) =
  let '(r, c') := m c in (r, MkL2State (Some c') t).
Proof. done. Qed.

Lemma l2_entry_at_lookup c i e :
  0 <= i -> l2_entries c !! Z.to_nat i = Some e -> l2_entry_at i c = (Done e, c).
Proof. intros Hi He. unfold l2_entry_at, zlookup. by rewrite decide_True, He by done. Qed.

Lemma l2_view_hit c (h : H) k i e :
  l2_index_wf c h -> hash_find h k = Some i -> l2_entries c !! Z.to_nat i = Some e ->
  l2_cache_view c h k = Some (l2_decision e) /\ l2e_valid e = true /\ l2e_key e = k.
Proof.
  intros [Hs _ _ _] Hk He. destruct (Hs k i Hk) as (_ & e' & He' & Hv & Hkey).
  unfold l2_cache_view. rewrite Hk. cbn. rewrite He. cbn. split; [done|].
  by replace e with e' by congruence.
Qed.

(** Changing the lock word and usage counts keeps everything visible. *)
Lemma l2_wf_swept c c' (h : H) :
  l2_array_wf c -> l2_index_wf c h -> swept c c' -> l2_lock c = None ->
  l2_wf (MkL2State (Some c') (Some h)) /\
  (forall k, l2_view (MkL2State (Some c') (Some h)) k = l2_cache_view c h k) /\
  l2_meta (MkL2State (Some c') (Some h)) = Some (l2_capacity c, l2_generation c).
Proof.
  intros Ha Hi Hs Hl. split; [|split].
  - exists h. split; [done|]. split; [by rewrite (swept_lock _ _ Hs)|].
    split; [by eapply swept_array_wf|by eapply l2_index_swept].
  - intros k. by apply l2_view_swept.
  - cbn. by rewrite (swept_capacity _ _ Hs), (swept_generation _ _ Hs).
Qed.

Ltac l2_run :=
  unfold mbind, cm_bind, cm_get, mret, cm_ret, get_slot_table, set_slot_table,
    LWLockAcquire, LWLockRelease; cbn.

Lemma locked_array_wf c m : l2_array_wf c -> l2_array_wf (with_lock c m).
Proof. by intros []. Qed.

Lemma locked_index_wf c (h : H) m : l2_index_wf c h -> l2_index_wf (with_lock c m) h.
Proof. by intros []. Qed.

Lemma unlock_swept c m c' :
  l2_lock c = None -> swept (with_lock c m) c' -> swept c (with_lock c' None).
Proof. intros Hl []. split; cbn in *; try done. Qed.

Lemma l2_lookup_spec s k now :
  l2_wf s ->
  exists s', l2_lookup k now s = (Done (l2_answer s k now), s') /\
    l2_wf s' /\ l2_meta s' = l2_meta s /\ (forall k', l2_view s' k' = l2_view s k').
Proof.
  intros Hwf. destruct s as [[c|] t]; [|by eexists].
  destruct Hwf as (h & Ht & Hl & Ha & Hi). cbn in Ht. subst t.
  set (cl := with_lock c (Some LW_SHARED)).
  assert (Hal : l2_array_wf cl) by by apply locked_array_wf.
  assert (Hdone : forall c', swept cl c' ->
    let s' := MkL2State (Some (with_lock c' None)) (Some h) in
    l2_wf s' /\ l2_meta s' = l2_meta (MkL2State (Some c) (Some h)) /\
    (forall k', l2_view s' k' = l2_view (MkL2State (Some c) (Some h)) k')).
  { intros c' Hs. destruct (l2_wf_swept c (with_lock c' None) h) as (? & ? & ?); auto.
    by eapply unlock_swept. }
  unfold l2_lookup, l2_answer. l2_run. rewrite Hl. cbn. unfold l2_cache_view at 1.
  destruct (hash_find h k) as [i|] eqn:Hk; cbn.
  2:{ eexists. split; [done|]. apply (Hdone cl), swept_refl, Hal. }
  destruct (l2i_sound _ _ Hi k i Hk) as (Hir & e & He & Hv & _).
  fold cl. rewrite (l2_entry_at_lookup cl i e), He by (done || lia). cbn.
  assert (Hu : usage_ok e) by (destruct Ha; eapply Forall_lookup_1; eauto).
  assert (Hset : forall n, 0 <= n <= FGA_L2_USAGE_MAX -> swept cl
    (with_entries cl (<[Z.to_nat i := with_usage e n]> (l2_entries cl)))).
  { intros n Hn. by apply set_usage_swept. }
  rewrite l2_entry_expired_spec, Hv. cbn.
  destruct (l2_fresh (l2_generation c) now (l2_decision e)); cbn.
  - destruct (_ <? FGA_L2_USAGE_MAX) eqn:Hlt; cbn; (eexists; split; [done|]).
    + apply (Hdone (with_entries cl _)), Hset. split_guards.
      unfold usage_ok, usage_max, FGA_L2_USAGE_MAX in *. rewrite u8_small; lia.
    + by apply (Hdone cl), swept_refl.
  - eexists. split; [done|]. by apply (Hdone (with_entries cl _)), Hset.
Qed.
(** Giving slot [i] to a new key: the index entry of the old occupant goes. *)
Definition reindex (h : H) (e : FgaL2AclEntry) : H :=
  if l2e_valid e then hash_remove h (l2e_key e) else h.

Lemma valid_count_insert es i e e' :
  es !! i = Some e -> l2e_valid e' = true ->
  (valid_count (<[i := e']> es) + valid_nat e = S (valid_count es))%nat.
Proof.
  intros He Hv. pose proof (sum_list_fmap_insert valid_nat es i e' e He) as Hs.
  unfold valid_count. unfold valid_nat at 4 in Hs. rewrite Hv in Hs. lia.
Qed.

Lemma valid_count_le es : (valid_count es <= length es)%nat.
Proof.
  unfold valid_count. pose proof (sum_list_fmap_le valid_nat es 1) as Hle.
  rewrite Nat.mul_1_r in Hle. apply Hle. intros e _. unfold valid_nat. case_match; lia.
Qed.

Lemma reindex_find c (h : H) i e k :
  l2_index_wf c h -> l2_entries c !! i = Some e ->
  hash_find (reindex h e) k =
    if decide (l2e_valid e = true /\ k = l2e_key e) then None else hash_find h k.
Proof.
  intros _ _. unfold reindex. destruct (l2e_valid e).
  - destruct (decide (k = l2e_key e)) as [->|Hne].
    + by rewrite find_remove_eq, decide_True.
    + rewrite find_remove_ne by done. rewrite decide_False; [done|]. by intros [_ ?].
  - rewrite decide_False; [done|]. by intros [? _].
Qed.

Lemma reindex_count c (h : H) i e :
  l2_index_wf c h -> l2_entries c !! i = Some e ->
  (hash_get_num_entries (reindex h e) + valid_nat e = valid_count (l2_entries c))%nat.
Proof.
  intros [_ Hc Hn _] He. unfold reindex, valid_nat. destruct (l2e_valid e) eqn:Hv; [|lia].
  rewrite <- Hn, (num_remove h (l2e_key e) (Z.of_nat i)) by by apply Hc. lia.
Qed.

(** The index after the slot was given to [k]. *)
Lemma l2_fill_index c (h : H) i e e' k :
  l2_array_wf c -> l2_index_wf c h -> hash_find h k = None ->
  0 <= i < l2_capacity c -> l2_entries c !! Z.to_nat i = Some e ->
  l2e_key e' = k -> l2e_valid e' = true ->
  hash_find (reindex h e) k = None /\
  exists h', hash_enter (reindex h e) k i = Some h' /\
    let c' := with_entries c (<[Z.to_nat i := e']> (l2_entries c)) in
    l2_index_wf c' h' /\
    forall k', l2_cache_view c' h' k' =
      if decide (k' = k) then Some (l2_decision e')
      else if decide (l2e_valid e = true /\ k' = l2e_key e) then None
      else l2_cache_view c h k'.
Proof.
  intros Ha Hi Hk Hir He Hk' Hv'.
  pose proof (reindex_count c h _ e Hi He) as Hcnt.
  pose proof (valid_count_insert _ _ _ e' He Hv') as Hins.
  pose proof (valid_count_le (<[Z.to_nat i := e']> (l2_entries c))) as Hle.
  rewrite length_insert, (l2w_length _ Ha) in Hle.
  assert (Hnone : hash_find (reindex h e) k = None).
  { rewrite (reindex_find c h _ e k Hi He). by destruct (decide _). }
  assert (Hmax : hash_max_entries (reindex h e) = hash_max_entries h).
  { unfold reindex. case_match; [apply max_remove|done]. }
  destruct (enter_room (reindex h e) k i) as [h' Hh'].
  { rewrite Hmax. pose proof (l2i_room _ _ Hi). lia. }
  assert (Hlook : forall k', k' <> k -> hash_find h' k' =
    if decide (l2e_valid e = true /\ k' = l2e_key e) then None else hash_find h k').
  { intros k' Hne. rewrite (find_enter_ne _ h' k k' i Hh') by done.
    by eapply reindex_find. }
  assert (Hlen : (Z.to_nat i < length (l2_entries c))%nat) by by eapply lookup_lt_Some.
  split; [done|]. exists h'. split; [done|]. cbn zeta. split.
  - split; cbn.
    + intros k' j. destruct (decide (k' = k)) as [->|Hne].
      * rewrite (find_enter_eq _ h' k i Hh'). intros [= <-]. split; [done|].
        exists e'. by rewrite list_lookup_insert_eq.
      * rewrite Hlook by done. destruct (decide (l2e_valid e = true /\ k' = l2e_key e)) as [|Hd]; [done|]. intros Hj.
        destruct (l2i_sound _ _ Hi k' j Hj) as (Hjr & e1 & He1 & Hv1 & Hk1).
        split; [done|]. exists e1. rewrite list_lookup_insert_ne; [done|].
        intros Heq. apply Hd. rewrite <- Heq, He in He1. injection He1 as <-. done.
    + intros j e1. rewrite list_lookup_insert_Some. intros [(<- & <- & _)|[Hne He1]] Hv1.
      * rewrite Hk', Z2Nat.id by lia. by apply (find_enter_eq (reindex h e)).
      * pose proof (l2i_complete _ _ Hi j e1 He1 Hv1) as Hj.
        rewrite Hlook by congruence. rewrite decide_False; [done|]. intros [Hv Heq].
        pose proof (l2i_complete _ _ Hi _ e He Hv) as Hj'. rewrite Heq in Hj.
        apply Hne. apply Nat2Z.inj. congruence.
    + rewrite (num_enter (reindex h e) h' k i) by done. unfold valid_count in *. lia.
    + rewrite (max_enter _ h' k i Hh'), Hmax. apply (l2i_room _ _ Hi).
  - intros k'. unfold l2_cache_view. destruct (decide (k' = k)) as [->|Hne].
    + rewrite (find_enter_eq _ h' k i Hh'). cbn. by rewrite list_lookup_insert_eq.
    + rewrite Hlook by done. destruct (decide (l2e_valid e = true /\ k' = l2e_key e)) as [|Hd]; [done|].
      destruct (hash_find h k') as [j|] eqn:Hj; [|done]. cbn.
      rewrite list_lookup_insert_ne; [done|]. intros Heq. apply Hd.
      destruct (l2i_sound _ _ Hi k' j Hj) as (Hjr & e1 & He1 & Hv1 & Hk1).
      rewrite <- Heq, He in He1. injection He1 as <-. done.
Qed.
(** Refreshing the entry of a key that is present. *)
Lemma l2_refresh_index c (h : H) i e e' k :
  l2_index_wf c h -> hash_find h k = Some i ->
  l2_entries c !! Z.to_nat i = Some e -> l2e_key e' = k -> l2e_valid e' = true ->
  let c' := with_entries c (<[Z.to_nat i := e']> (l2_entries c)) in
  l2_index_wf c' h /\
  forall k', l2_cache_view c' h k' =
    if decide (k' = k) then Some (l2_decision e') else l2_cache_view c h k'.
Proof.
  intros Hi Hk He Hk' Hv' c'. pose proof Hi as [Hs Hc Hn Hr].
  destruct (l2_view_hit c h k i e Hi Hk He) as (_ & Hv & Hke).
  assert (Hlen : (Z.to_nat i < length (l2_entries c))%nat) by by eapply lookup_lt_Some.
  assert (Hother : forall k' j, hash_find h k' = Some j -> k' <> k -> Z.to_nat i <> Z.to_nat j).
  { intros k' j Hj Hne Heq. destruct (Hs k' j Hj) as (_ & e1 & He1 & _ & Hk1).
    rewrite <- Heq, He in He1. congruence. }
  split; [split; cbn|].
  - intros k' j Hj. destruct (Hs k' j Hj) as (Hjr & e1 & He1 & Hv1 & Hk1).
    split; [done|]. destruct (decide (k' = k)) as [->|Hne].
    + rewrite Hk in Hj. injection Hj as <-. exists e'. by rewrite list_lookup_insert_eq.
    + exists e1. rewrite list_lookup_insert_ne; [done|]. by eapply Hother.
  - intros j e1. rewrite list_lookup_insert_Some. intros [(<- & <- & _)|[Hne He1]] Hv1.
    + rewrite Hk', <- Hke. by apply Hc.
    + by apply Hc.
  - rewrite Hn. pose proof (valid_count_insert _ _ _ e' He Hv') as Hins.
    unfold valid_nat in Hins. rewrite Hv in Hins. unfold valid_count in *. lia.
  - done.
  - intros k'. unfold l2_cache_view. destruct (decide (k' = k)) as [->|Hne].
    + rewrite Hk. cbn. by rewrite list_lookup_insert_eq.
    + destruct (hash_find h k') as [j|] eqn:Hj; [|done]. cbn.
      rewrite list_lookup_insert_ne; [done|]. by eapply Hother.
Qed.

Lemma array_wf_insert c i e :
  l2_array_wf c -> usage_ok e -> l2_array_wf (with_entries c (<[i := e]> (l2_entries c))).
Proof.
  intros [] He. split; cbn; try done; [by rewrite length_insert|by apply Forall_insert].
Qed.

Lemma update_entry_ok e k exp a g : usage_ok (l2_update_entry e k exp a g).
Proof. done. Qed.

(** What a store leaves: the key maps to the decision and at most one other
    key is gone; or nothing is stored in a cache of one slot. *)
Definition l2_stored (s s' : l2_state H) (k : FgaAclCacheKey) (d : decision) : Prop :=
  exists evicted : option FgaAclCacheKey,
    (evicted <> None -> l2_view s k = None) /\
    forall k', l2_view s' k' =
      if decide (k' = k) then Some d
      else if decide (evicted = Some k') then None else l2_view s k'.

Definition l2_gave_up (s s' : l2_state H) (k : FgaAclCacheKey) : Prop :=
  l2_capacity <$> l2c s = Some 1 /\ l2_view s k = None /\
  forall k', l2_view s' k' = l2_view s k'.

Lemma l2_store_spec s k now exp a c :
  l2_wf s -> l2c s = Some c -> 0 < l2_capacity c ->
  exists s', l2_store use_asserts k now exp a s = (Done tt, s') /\
    l2_wf s' /\ l2_meta s' = l2_meta s /\
    (l2_stored s s' k (MkDecision a exp (l2_generation c)) \/ l2_gave_up s s' k).
Proof.
  intros Hwf Hc Hcap. destruct s as [oc t]. cbn in Hc. subst oc.
  destruct Hwf as (h & Ht & Hl & Ha & Hi). cbn in Ht. subst t.
  set (cl := with_lock c (Some LW_EXCLUSIVE)).
  assert (Hal : l2_array_wf cl) by by apply locked_array_wf.
  assert (Hil : l2_index_wf cl h) by by apply locked_index_wf.
  unfold l2_store. l2_run. rewrite Hl. cbn. fold cl.
  destruct (hash_find h k) as [i|] eqn:Hk; cbn.
  - destruct (l2i_sound _ _ Hil k i Hk) as (Hir & e & He & Hv & _).
    rewrite (l2_entry_at_lookup cl i e) by (done || lia). cbn.
    set (e' := l2_update_entry e k exp a (l2_generation c)).
    destruct (l2_refresh_index cl h i e e' k) as [Hi' Hv']; try done.
    eexists. split; [done|]. split; [|split; [done|left]].
    + exists h. split; [done|]. split; [done|].
      split; [by apply locked_array_wf, (array_wf_insert cl)|by apply locked_index_wf].
    + exists None. split; [done|]. intros k'. apply Hv'.
  - destruct (find_victim_slot_spec now cl Hal Hcap) as (r & c1 & Hr & Hs1 & Hor).
    rewrite Hr. cbn.
    pose proof (swept_array_wf _ _ Hal Hs1) as Ha1.
    pose proof (l2_index_swept _ _ _ Hil Hs1) as Hi1.
    pose proof (unlock_swept _ _ _ Hl Hs1) as Hs1'.
    destruct (r =? UINT32_MAX) eqn:Hmax; split_guards; cbn.
    + eexists. split; [done|].
      destruct (l2_wf_swept c (with_lock c1 None) h) as (? & ? & ?); auto.
      split; [done|]. split; [done|]. right. unfold l2_gave_up. cbn.
      split; [|split; [unfold l2_cache_view; by rewrite Hk|done]].
      destruct Hor as [[Hrange _]|[_ Hone]]; [|by rewrite <- Hone].
      pose proof (l2w_capacity _ Ha1). unfold UINT32_MAX in Hmax. lia.
    + destruct Hor as [(Hrange & e & He & _)|[? _]]; [|done].
      rewrite (l2_entry_at_lookup c1 r e) by (done || lia). cbn. fold (reindex h e).
      set (e' := l2_update_entry e k exp a (l2_generation c1)).
      destruct (l2_fill_index c1 h r e e' k) as (Hnone & h' & Hh' & Hi' & Hv'); try done.
      rewrite Hh'. cbn. rewrite Hnone. cbn. unfold c_assert.
      rewrite andb_false_r. cbn.
      pose proof (swept_capacity _ _ Hs1) as Hc1.
      pose proof (swept_generation _ _ Hs1) as Hg1. cbn in Hc1, Hg1.
      eexists. split; [done|]. split; [|split].
      * exists h'. split; [done|]. split; [done|].
        split; [by apply locked_array_wf, (array_wf_insert c1)|by apply locked_index_wf].
      * unfold l2_meta. cbn. by rewrite Hc1, Hg1.
      * left. exists (if l2e_valid e then Some (l2e_key e) else None). split.
        { intros _. cbn. unfold l2_cache_view. by rewrite Hk. }
        intros k'. etransitivity; [exact (Hv' k')|].
        rewrite (l2_view_swept cl c1 h k' Hs1). unfold e'. rewrite Hg1.
        repeat case_decide; try done; exfalso; destruct (l2e_valid e); naive_solver.
Qed.
(** The operations implement the tier interface. *)
Lemma l2_stored_puts s s' k d : l2_stored s s' k d -> tier_puts k d s s'.
Proof.
  intros (evicted & _ & Hv). split; cbn.
  - by rewrite Hv, decide_True.
  - intros k' d'. rewrite Hv. destruct (decide (k' = k)) as [->|Hne].
    + intros [= <-]. by right.
    + destruct (decide (evicted = Some k')); [done|]. by left.
Qed.

Lemma l2_gave_up_forgets s s' k : l2_gave_up s s' k -> tier_forgets s s'.
Proof. intros (_ & _ & Hv) k' d. cbn. by rewrite Hv. Qed.
Lemma valid_count_cleared es : valid_count (clear_valid <$> es) = 0%nat.
Proof. unfold valid_count. induction es; csimpl; [done|]. by rewrite IHes. Qed.

Lemma l2_startup_wf cache :
  l2_array_wf cache -> l2_lock cache = None -> valid_count (l2_entries cache) = 0%nat ->
  exists s, l2_startup (H := H) (MkL2State (Some cache) None) = (Done tt, s) /\
    l2_wf s /\ l2c s = Some cache /\ forall k, l2_view s k = None.
Proof.
  intros Ha Hl Hv. unfold l2_startup. cbn. eexists. split; [done|].
  split; [|split; [done|]].
  - eexists. split; [done|]. split; [done|]. split; [done|]. split.
    + intros k i. by rewrite find_init.
    + intros i e He Hval. exfalso.
      pose proof (sum_list_fmap_insert valid_nat (l2_entries cache) i (clear_valid e) e He)
        as Hs.
      unfold valid_count in Hv. unfold valid_nat at 2 4 in Hs. rewrite Hval in Hs.
      cbn in Hs. lia.
    + by rewrite num_init.
    + rewrite max_init. unfold l2_hash_size. destruct Ha. rewrite u64_small; lia.
  - intros k. cbn. unfold l2_cache_view. by rewrite find_init.
Qed.


(** ** Histories of the shared cache *)
Inductive l2_op : Type :=
  | L2Lookup (key : FgaAclCacheKey) (now_ms : Z)
  | L2Store (key : FgaAclCacheKey) (now_ms expires_at : Z) (allowed : bool).

Definition l2_exec (op : l2_op) : CM (l2_state H) unit :=
  match op with
  | L2Lookup k now => _ ← l2_lookup k now; mret tt
  | L2Store k now exp a => l2_store use_asserts k now exp a
  end.

Fixpoint l2_run_ops (ops : list l2_op) : CM (l2_state H) unit :=
  match ops with
  | [] => mret tt
  | op :: ops' => _ ← l2_exec op; l2_run_ops ops'
  end.

(** A cache as [fga_cache_shmem_init] leaves it. *)
Definition l2_fresh_cache (c : FgaL2AclCache) : Prop :=
  l2_array_wf c /\ l2_lock c = None /\ valid_count (l2_entries c) = 0%nat /\
  0 < l2_capacity c.

Definition l2_history (c : FgaL2AclCache) (ops : list l2_op) : CM (l2_state H) unit :=
  _ ← l2_startup; l2_run_ops ops.

Lemma l2_exec_wf op s c :
  l2_wf s -> l2c s = Some c -> 0 < l2_capacity c ->
  exists s', l2_exec op s = (Done tt, s') /\ l2_wf s' /\ l2_meta s' = l2_meta s.
Proof.
  intros Hwf Hc Hcap. destruct op as [k now|k now exp a]; cbn [l2_exec].
  - destruct (l2_lookup_spec s k now Hwf) as (s' & Hl & ? & ? & _).
    unfold mbind, cm_bind. rewrite Hl. by exists s'.
  - destruct (l2_store_spec s k now exp a c Hwf Hc Hcap) as (s' & Hl & ? & ? & _).
    by exists s'.
Qed.

Lemma l2_run_wf ops s c :
  l2_wf s -> l2c s = Some c -> 0 < l2_capacity c ->
  exists s', l2_run_ops ops s = (Done tt, s') /\ l2_wf s' /\ l2_meta s' = l2_meta s.
Proof.
  revert s c. induction ops as [|op ops IH]; intros s c Hwf Hc Hcap; [by exists s|].
  destruct (l2_exec_wf op s c Hwf Hc Hcap) as (s1 & He & Hwf1 & Hm1).
  cbn [l2_run_ops]. unfold mbind, cm_bind. rewrite He.
  assert (exists c1, l2c s1 = Some c1 /\ l2_capacity c1 = l2_capacity c) as (c1 & Hc1 & Hcap1).
  { unfold l2_meta in Hm1. rewrite Hc in Hm1. destruct (l2c s1) as [c1|]; [|done].
    cbn in Hm1. injection Hm1 as ? _. by exists c1. }
  destruct (IH s1 c1 Hwf1 Hc1) as (s' & -> & ? & ?); [lia|].
  exists s'. split; [done|]. split; [done|]. congruence.
Qed.

Lemma l2_history_wf c ops :
  l2_fresh_cache c ->
  exists s, l2_history c ops (MkL2State (Some c) None) = (Done tt, s) /\ l2_wf s /\
    l2_meta s = Some (l2_capacity c, l2_generation c).
Proof.
  intros (Ha & Hl & Hv & Hcap). unfold l2_history, mbind, cm_bind.
  destruct (l2_startup_wf c Ha Hl Hv) as (s & -> & Hwf & Hc & _).
  destruct (l2_run_wf ops s c Hwf Hc Hcap) as (s' & -> & ? & Hm).
  exists s'. split; [done|]. split; [done|]. rewrite Hm. unfold l2_meta. by rewrite Hc.
Qed.

Lemma l2_meta_cache (s : l2_state H) cap g :
  l2_meta s = Some (cap, g) ->
  exists c, l2c s = Some c /\ l2_capacity c = cap /\ l2_generation c = g.
Proof.
  unfold l2_meta. destruct (l2c s) as [c|]; [|done]. cbn. intros [= ? ?]. by exists c.
Qed.
End Ops.

(** ** Properties *)
Section L2Properties.
Context {H : Type} {HD : Dynahash FgaAclCacheKey Z H}.
Context {HL : DynahashLaws FgaAclCacheKey Z H}.

(** C22. From initialised shared memory, every history of lookups and stores
    completes (the victim loop ends, no index runs out of the entry array, the
    hash table never runs out of room, the assertion holds, and the lock is
    released on every path), and afterwards the hash table maps exactly the
    keys of the valid entries to their slots and no usage count exceeds its
    maximum. *)
Theorem l2_history_invariant use_asserts c ops :
  l2_fresh_cache c ->
  exists c' h, l2_history (H := H) use_asserts c ops (MkL2State (Some c) None) =
      (Done tt, MkL2State (Some c') (Some h)) /\
    l2_lock c' = None /\
    (forall k i, hash_find h k = Some i <->
      0 <= i < l2_capacity c /\ exists e, l2_entries c' !! Z.to_nat i = Some e /\
        l2e_valid e = true /\ l2e_key e = k) /\
    hash_get_num_entries h = valid_count (l2_entries c') /\
    (forall e, e ∈ l2_entries c' -> 0 <= v_usage_count (l2e_value e) <= usage_max e).
Proof.
  intros Hf. destruct (l2_history_wf use_asserts c ops Hf) as ([oc t] & Hr & Hwf & Hm).
  apply l2_meta_cache in Hm as (c' & Hc & Hcap & _). cbn in Hc. subst oc.
  destruct Hwf as (h & Ht & Hl & Ha & Hi). cbn in Ht. subst t.
  exists c', h. split; [done|]. split; [done|]. split; [|split; [apply Hi|]].
  - intros k i. rewrite <- Hcap. split; [apply (l2i_sound _ _ Hi)|].
    intros (Hr' & e & He & Hv & <-). rewrite (l2i_complete _ _ Hi _ e He Hv).
    by rewrite Z2Nat.id by lia.
  - intros e He. pose proof (l2w_usage _ Ha) as Hu. rewrite Forall_forall in Hu. by apply Hu.
Qed.

(** C23. The clock sweep ends within its fuel on every entry array, whatever
    the counts and the hand: with two slots or more it returns a slot that is
    expired or unused; only a cache of a single slot makes it give up. *)
Theorem l2_victim_search now c :
  l2_array_wf c -> 0 < l2_capacity c ->
  exists r c', l2_find_victim_slot now c = (Done r, c') /\
    Forall2 aged (l2_entries c) (l2_entries c') /\
    ((0 <= r < l2_capacity c /\ exists e, l2_entries c' !! Z.to_nat r = Some e /\
        (l2_entry_expired c' e now = true \/ v_usage_count (l2e_value e) = 0)) \/
     (r = UINT32_MAX /\ l2_capacity c = 1)).
Proof.
  intros Ha Hcap. destruct (find_victim_slot_spec now c Ha Hcap) as (r & c' & Hr & Hs & Hor).
  exists r, c'. split; [done|]. split; [apply Hs|]. unfold victim_free in Hor.
  by rewrite (swept_capacity _ _ Hs) in Hor.
Qed.

(** After any history of a cache of two slots or more, a stored decision is
    answered, with its expiry time, until it expires, and the store forgets at
    most one other key, and that only when it took a new slot. *)
Theorem l2_store_lookup use_asserts c ops k now exp a now' :
  l2_fresh_cache c -> 1 < l2_capacity c -> now' < exp ->
  exists s s1 s2,
    l2_history (H := H) use_asserts c ops (MkL2State (Some c) None) = (Done tt, s) /\
    l2_store use_asserts k now exp a s = (Done tt, s1) /\
    l2_lookup k now' s1 = (Done (Some (a, exp)), s2) /\
    exists evicted, (evicted <> None -> l2_view s k = None) /\
      forall k', k' <> k ->
        l2_view s1 k' = if decide (evicted = Some k') then None else l2_view s k'.
Proof.
  intros Hf Hcap Hlt. destruct (l2_history_wf use_asserts c ops Hf) as (s & Hr & Hwf & Hm).
  destruct (l2_meta_cache _ _ _ Hm) as (c0 & Hc0 & Hcap0 & Hg0).
  destruct (l2_store_spec use_asserts s k now exp a c0 Hwf Hc0 ltac:(lia))
    as (s1 & Hst & Hwf1 & Hm1 & Hor).
  destruct (l2_lookup_spec s1 k now' Hwf1) as (s2 & Hl & _).
  destruct Hor as [(evicted & Hev & Hv)|(Hone & _)];
    [|rewrite Hc0 in Hone; injection Hone as Hone; lia].
  exists s, s1, s2. split; [done|]. split; [done|]. split.
  - rewrite Hl. unfold l2_answer. rewrite Hm in Hm1.
    destruct (l2_meta_cache _ _ _ Hm1) as (c1 & Hc1 & _ & Hg1).
    rewrite Hc1. cbn. rewrite Hv, decide_True by done. cbn. unfold l2_fresh. cbn.
    rewrite (proj2 (Z.ltb_lt _ _) Hlt), Hg0, Hg1, Z.eqb_refl. done.
  - exists evicted. split; [done|]. intros k' Hne. by rewrite Hv, decide_False.
Qed.

(** A lookup answers exactly what the entry of its key says when that entry
    is unexpired and of the current generation, and changes nothing any other
    lookup can see. *)
Theorem l2_lookup_answers_view use_asserts c ops k now :
  l2_fresh_cache c ->
  exists s s', l2_history (H := H) use_asserts c ops (MkL2State (Some c) None) = (Done tt, s) /\
    l2_lookup k now s =
      (Done match l2_view s k with
            | Some d => if (now <? d_expires d) && (d_gen d =? l2_generation c)
                        then Some (d_allowed d, d_expires d) else None
            | None => None
            end, s') /\
    forall k', l2_view s' k' = l2_view s k'.
Proof.
  intros Hf. destruct (l2_history_wf use_asserts c ops Hf) as (s & Hr & Hwf & Hm).
  destruct (l2_meta_cache _ _ _ Hm) as (c0 & Hc0 & _ & Hg0).
  destruct (l2_lookup_spec s k now Hwf) as (s' & Hl & _ & _ & Hv).
  exists s, s'. split; [done|]. split; [|done]. rewrite Hl.
  unfold l2_answer. rewrite Hc0. cbn. rewrite <- Hg0. by destruct (l2_view s k).
Qed.
End L2Properties.

(** ** The properties on a concrete cache *)
Definition sample_l2_entry : FgaL2AclEntry :=
  MkL2Entry inhabitant (MkL2Value false 0 0 0 200) false.
Definition sample_l2 : FgaL2AclCache :=
  MkL2Cache None (2 ^ 32 - 1) 3 0 (replicate 3 sample_l2_entry).
Definition sample_l2_key (i : Z) : FgaAclCacheKey := MkKey i i i 0 0.
Definition sample_l2_ops : list l2_op :=
  [L2Store (sample_l2_key 1) 5 100 true; L2Store (sample_l2_key 2) 5 100 false;
   L2Lookup (sample_l2_key 1) 6; L2Store (sample_l2_key 3) 7 100 true;
   L2Store (sample_l2_key 4) 8 100 true].
Abbreviation sample_table := (map_table FgaAclCacheKey Z).

Lemma sample_l2_fresh : l2_fresh_cache sample_l2.
Proof.
  split; [split|split; [|split]]; cbn; try done; try lia.
  repeat (apply Forall_cons; split; [unfold usage_ok; cbn; lia|]). by apply Forall_nil.
Qed.

Lemma l2_history_invariant_witness :
  exists c' (h : sample_table),
    l2_history true sample_l2 sample_l2_ops (MkL2State (Some sample_l2) None) =
      (Done tt, MkL2State (Some c') (Some h)) /\ l2_lock c' = None.
Proof.
  destruct (l2_history_invariant (H := sample_table) true sample_l2 sample_l2_ops
    sample_l2_fresh) as (c' & h & Hr & Hl & _).
  exists c', h. split; [exact Hr|exact Hl].
Defined.

Lemma l2_victim_search_witness :
  exists r c', l2_find_victim_slot 8 sample_l2 = (Done r, c') /\
    Forall2 aged (l2_entries sample_l2) (l2_entries c') /\
    ((0 <= r < l2_capacity sample_l2 /\ exists e, l2_entries c' !! Z.to_nat r = Some e /\
        (l2_entry_expired c' e 8 = true \/ v_usage_count (l2e_value e) = 0)) \/
     (r = UINT32_MAX /\ l2_capacity sample_l2 = 1)).
Proof. apply (l2_victim_search 8 sample_l2); [apply sample_l2_fresh|done]. Defined.

Lemma l2_store_lookup_witness :
  exists s s1 s2 : l2_state sample_table,
    l2_history true sample_l2 sample_l2_ops (MkL2State (Some sample_l2) None) = (Done tt, s) /\
    l2_store true (sample_l2_key 9) 10 110 true s = (Done tt, s1) /\
    l2_lookup (sample_l2_key 9) 109 s1 = (Done (Some (true, 110)), s2).
Proof.
  destruct (l2_store_lookup (H := sample_table) true sample_l2 sample_l2_ops
    (sample_l2_key 9) 10 110 true 109 sample_l2_fresh eq_refl eq_refl)
    as (s & s1 & s2 & Hh & Hs & Hl & _).
  exists s, s1, s2. split; [exact Hh|]. split; [exact Hs|exact Hl].
Defined.

Lemma l2_lookup_answers_view_witness :
  exists s s' : l2_state sample_table,
    l2_history false sample_l2 sample_l2_ops (MkL2State (Some sample_l2) None) = (Done tt, s) /\
    forall k', l2_view s' k' = l2_view s k'.
Proof.
  destruct (l2_lookup_answers_view (H := sample_table) false sample_l2 sample_l2_ops
    (sample_l2_key 4) 9 sample_l2_fresh) as (s & s' & Hh & _ & Hv).
  exists s, s'. split; [exact Hh|exact Hv].
Defined.
