(* ===== verification/Stats.v ===== *)
(** * Statistics: [src/stats.c], [src/stats.h] and [src/func_stats.c]

    Counters in shared memory, one block per backend, written only by their
    owner; the SQL function [fga_stats()] reports the sums. *)
From S2P Require Import Prelude Platform Types.

Definition INVALID_PROC_NUMBER : Z := -1.

Record FgaBackendStats : Type := MkBackendStats {
  check_calls : Z; check_allowed : Z; check_denied : Z; check_error : Z;
  cache_l1_hits : Z; cache_l1_misses : Z; cache_l1_evictions : Z;
  cache_l2_hits : Z; cache_l2_misses : Z; cache_l2_evictions : Z;
  rpc_check_calls : Z; rpc_check_error : Z; rpc_check_latency_sum_us : Z;
}.

Record FgaStats : Type := MkStats {
  st_cache_entries : Z; st_cache_hits : Z; st_cache_misses : Z; st_cache_evictions : Z;
  st_bgw_wakeups : Z; st_requests_enqueued : Z; st_requests_processed : Z;
  backends : list FgaBackendStats;
}.

Definition zero_backend_stats : FgaBackendStats :=
  MkBackendStats 0 0 0 0 0 0 0 0 0 0 0 0 0.

#[export] Instance backend_stats_eq_dec : EqDecision FgaBackendStats.
Proof. solve_decision. Defined.

Definition FgaBackendStats_fields : list (Z * Z) := replicate 13 c_uint64.
Definition FgaStats_fields : list (Z * Z) :=
  replicate 7 c_uint64 ++ [(0, struct_align FgaBackendStats_fields)].

Definition fga_stats_shmem_size `{PgMem} (MaxBackends : Z) : outcome Z :=
  let size := nth 7 (struct_offsets FgaStats_fields) 0 in
  m ← mul_size (struct_size FgaBackendStats_fields) MaxBackends;
  add_size size m.

(** Whatever the memory held before, every counter is zero. *)
Definition fga_stats_shmem_init (MaxBackends : Z) (stats : FgaStats) : FgaStats :=
  MkStats 0 0 0 0 0 0 0 (replicate (Z.to_nat MaxBackends) zero_backend_stats).

(** [backend_stats()]: the index of the caller's block, [None] for NULL. *)
Definition backend_stats_ptr (MyProcNumber : Z) : option Z :=
  if MyProcNumber =? INVALID_PROC_NUMBER then None else Some MyProcNumber.

(** [stats->counter++] on the caller's block. *)
Definition bump (f : FgaBackendStats -> FgaBackendStats) (MyProcNumber : Z)
  : CM FgaStats unit := fun st =>
  match backend_stats_ptr MyProcNumber with
  | None => (Done tt, st)
  | Some i =>
      match zlookup (backends st) i with
      | None => (Undefined OutOfBounds, st)
      | Some b =>
          (Done tt,
           MkStats (st_cache_entries st) (st_cache_hits st) (st_cache_misses st)
             (st_cache_evictions st) (st_bgw_wakeups st) (st_requests_enqueued st)
             (st_requests_processed st) (<[Z.to_nat i := f b]> (backends st)))
      end
  end.

Definition fga_stats_l1_hit : Z -> CM FgaStats unit := bump (fun b =>
  MkBackendStats (check_calls b) (check_allowed b) (check_denied b) (check_error b)
    (u64 (cache_l1_hits b + 1)) (cache_l1_misses b) (cache_l1_evictions b)
    (cache_l2_hits b) (cache_l2_misses b) (cache_l2_evictions b)
    (rpc_check_calls b) (rpc_check_error b) (rpc_check_latency_sum_us b)).

Definition fga_stats_l1_miss : Z -> CM FgaStats unit := bump (fun b =>
  MkBackendStats (check_calls b) (check_allowed b) (check_denied b) (check_error b)
    (cache_l1_hits b) (u64 (cache_l1_misses b + 1)) (cache_l1_evictions b)
    (cache_l2_hits b) (cache_l2_misses b) (cache_l2_evictions b)
    (rpc_check_calls b) (rpc_check_error b) (rpc_check_latency_sum_us b)).

Definition fga_stats_l1_eviction : Z -> CM FgaStats unit := bump (fun b =>
  MkBackendStats (check_calls b) (check_allowed b) (check_denied b) (check_error b)
    (cache_l1_hits b) (cache_l1_misses b) (u64 (cache_l1_evictions b + 1))
    (cache_l2_hits b) (cache_l2_misses b) (cache_l2_evictions b)
    (rpc_check_calls b) (rpc_check_error b) (rpc_check_latency_sum_us b)).

Definition fga_stats_l2_hit : Z -> CM FgaStats unit := bump (fun b =>
  MkBackendStats (check_calls b) (check_allowed b) (check_denied b) (check_error b)
    (cache_l1_hits b) (cache_l1_misses b) (cache_l1_evictions b)
    (u64 (cache_l2_hits b + 1)) (cache_l2_misses b) (cache_l2_evictions b)
    (rpc_check_calls b) (rpc_check_error b) (rpc_check_latency_sum_us b)).

Definition fga_stats_l2_miss : Z -> CM FgaStats unit := bump (fun b =>
  MkBackendStats (check_calls b) (check_allowed b) (check_denied b) (check_error b)
    (cache_l1_hits b) (cache_l1_misses b) (cache_l1_evictions b)
    (cache_l2_hits b) (u64 (cache_l2_misses b + 1)) (cache_l2_evictions b)
    (rpc_check_calls b) (rpc_check_error b) (rpc_check_latency_sum_us b)).

Definition fga_stats_l2_eviction : Z -> CM FgaStats unit := bump (fun b =>
  MkBackendStats (check_calls b) (check_allowed b) (check_denied b) (check_error b)
    (cache_l1_hits b) (cache_l1_misses b) (cache_l1_evictions b)
    (cache_l2_hits b) (cache_l2_misses b) (u64 (cache_l2_evictions b + 1))
    (rpc_check_calls b) (rpc_check_error b) (rpc_check_latency_sum_us b)).

(** ** The report: [func_stats.c] *)

(** One row of the result set. *)
Record stats_row : Type := StatsRow { section : string; metric : string; row_value : Z }.

(** [Int64GetDatum] of a [uint64]. *)
Definition add_row (sec met : string) (value : Z) : stats_row :=
  StatsRow sec met (s64 value).

(** The twelve accumulators of the loop. *)
Record stats_sums : Type := StatsSums {
  s_l1_hits : Z; s_l1_misses : Z; s_l1_evictions : Z;
  s_l2_hits : Z; s_l2_misses : Z; s_l2_evictions : Z;
  s_calls : Z; s_allowed : Z; s_denied : Z;
  s_rpc_calls : Z; s_rpc_errors : Z; s_rpc_latency : Z;
}.

Definition zero_sums : stats_sums := StatsSums 0 0 0 0 0 0 0 0 0 0 0 0.

Definition sums_add (a : stats_sums) (b : FgaBackendStats) : stats_sums :=
  StatsSums
    (u64 (s_l1_hits a + cache_l1_hits b)) (u64 (s_l1_misses a + cache_l1_misses b))
    (u64 (s_l1_evictions a + cache_l1_evictions b))
    (u64 (s_l2_hits a + cache_l2_hits b)) (u64 (s_l2_misses a + cache_l2_misses b))
    (u64 (s_l2_evictions a + cache_l2_evictions b))
    (u64 (s_calls a + check_calls b)) (u64 (s_allowed a + check_allowed b))
    (u64 (s_denied a + check_denied b))
    (u64 (s_rpc_calls a + rpc_check_calls b)) (u64 (s_rpc_errors a + rpc_check_error b))
    (u64 (s_rpc_latency a + rpc_check_latency_sum_us b)).

(** [for (i = 0; i < MaxBackends; i++)] over [stats->backends[i]]. *)
Fixpoint sum_loop (n : nat) (i : Z) (bs : list FgaBackendStats) (acc : stats_sums)
  : outcome stats_sums :=
  match n with
  | O => Done acc
  | S n' =>
      match zlookup bs i with
      | None => Undefined OutOfBounds
      | Some b => sum_loop n' (i + 1) bs (sums_add acc b)
      end
  end.

Definition backend_stats (MaxBackends : Z) (st : FgaStats) : outcome (list stats_row) :=
  s ← sum_loop (Z.to_nat MaxBackends) 0 (backends st) zero_sums;
  mret [
    add_row "cache.l1" "hits" (s_l1_hits s);
    add_row "cache.l1" "misses" (s_l1_misses s);
    add_row "cache.l1" "evictions" (s_l1_evictions s);
    add_row "cache.l2" "hits" (s_l2_hits s);
    add_row "cache.l2" "misses" (s_l2_misses s);
    add_row "cache.l2" "evictions" (s_l2_evictions s);
    add_row "check" "calls" (s_calls s);
    add_row "check" "allowed" (s_allowed s);
    add_row "check" "denied" (s_denied s);
    add_row "rpc" "calls" (s_rpc_calls s);
    add_row "rpc" "errors" (s_rpc_errors s);
    add_row "rpc" "latency_sum_us" (s_rpc_latency s)].

(** What the executor tells a set-returning function about its caller. *)
Record srf_context : Type := SrfContext {
  has_rsinfo : bool;          (* rsinfo non-NULL and a ReturnSetInfo *)
  allows_materialize : bool;  (* allowedModes & SFRM_Materialize *)
  composite_result : bool;    (* get_call_result_type = TYPEFUNC_COMPOSITE *)
}.

Definition fga_stats (ctx : srf_context) (MaxBackends : Z) (st : FgaStats)
  : outcome (list stats_row) :=
  if negb (has_rsinfo ctx) then
    Error (PgError "ERRCODE_FEATURE_NOT_SUPPORTED"
      "set-valued function called in context that cannot accept a set")
  else if negb (allows_materialize ctx) then
    Error (PgError "ERRCODE_FEATURE_NOT_SUPPORTED" "materialize mode required")
  else if negb (composite_result ctx) then
    Error (PgError "ERRCODE_FEATURE_NOT_SUPPORTED" "return type must be a row type")
  else backend_stats MaxBackends st.

(** ** Counting events *)
Inductive stats_event : Type :=
  | EvL1Hit | EvL1Miss | EvL1Eviction | EvL2Hit | EvL2Miss | EvL2Eviction.

#[export] Instance stats_event_eq_dec : EqDecision stats_event.
Proof. solve_decision. Defined.

Definition stats_op (e : stats_event) : Z -> CM FgaStats unit :=
  match e with
  | EvL1Hit => fga_stats_l1_hit
  | EvL1Miss => fga_stats_l1_miss
  | EvL1Eviction => fga_stats_l1_eviction
  | EvL2Hit => fga_stats_l2_hit
  | EvL2Miss => fga_stats_l2_miss
  | EvL2Eviction => fga_stats_l2_eviction
  end.

(** The counter an event belongs to. *)
Definition event_counter (e : stats_event) : FgaBackendStats -> Z :=
  match e with
  | EvL1Hit => cache_l1_hits
  | EvL1Miss => cache_l1_misses
  | EvL1Eviction => cache_l1_evictions
  | EvL2Hit => cache_l2_hits
  | EvL2Miss => cache_l2_misses
  | EvL2Eviction => cache_l2_evictions
  end.

(** The counters no code increments. *)
Definition idle_counters : list (FgaBackendStats -> Z) :=
  [check_calls; check_allowed; check_denied; rpc_check_calls; rpc_check_error;
   rpc_check_latency_sum_us].

(** Events of a history, with the process that raised each. *)
Fixpoint run_events (evs : list (Z * stats_event)) (st : FgaStats) : outcome unit * FgaStats :=
  match evs with
  | [] => (Done tt, st)
  | (p, e) :: evs' => cm_bind _ _ (fun _ => run_events evs') (stats_op e p) st
  end.

(** Events raised outside a backend ([INVALID_PROC_NUMBER]) are not counted. *)
Definition event_is (e : stats_event) (pe : Z * stats_event) : bool :=
  negb (pe.1 =? INVALID_PROC_NUMBER) && bool_decide (pe.2 = e).
Definition event_count (e : stats_event) (evs : list (Z * stats_event)) : Z :=
  Z.of_nat (length (List.filter (event_is e) evs)).

Definition counter_sum (f : FgaBackendStats -> Z) (bs : list FgaBackendStats) : Z :=
  foldr Z.add 0 (f <$> bs).

Lemma counter_sum_cons f b bs : counter_sum f (b :: bs) = f b + counter_sum f bs.
Proof. done. Qed.

Lemma counter_sum_insert f bs i b b' :
  bs !! i = Some b -> counter_sum f (<[i := b']> bs) = counter_sum f bs + f b' - f b.
Proof.
  revert i. induction bs as [|b0 bs IH]; intros [|i] Hi; try done.
  - injection Hi as ->. csimpl. rewrite !counter_sum_cons. lia.
  - csimpl. rewrite !counter_sum_cons, (IH i Hi). lia.
Qed.

Lemma u64_add_l a b : u64 (u64 a + b) = u64 (a + b).
Proof. apply wrap_add_l. Qed.

(** The loop of the report adds every counter up, modulo 2^64. *)
Definition sums_plus (acc : stats_sums) (bs : list FgaBackendStats) : stats_sums :=
  StatsSums
    (u64 (s_l1_hits acc + counter_sum cache_l1_hits bs))
    (u64 (s_l1_misses acc + counter_sum cache_l1_misses bs))
    (u64 (s_l1_evictions acc + counter_sum cache_l1_evictions bs))
    (u64 (s_l2_hits acc + counter_sum cache_l2_hits bs))
    (u64 (s_l2_misses acc + counter_sum cache_l2_misses bs))
    (u64 (s_l2_evictions acc + counter_sum cache_l2_evictions bs))
    (u64 (s_calls acc + counter_sum check_calls bs))
    (u64 (s_allowed acc + counter_sum check_allowed bs))
    (u64 (s_denied acc + counter_sum check_denied bs))
    (u64 (s_rpc_calls acc + counter_sum rpc_check_calls bs))
    (u64 (s_rpc_errors acc + counter_sum rpc_check_error bs))
    (u64 (s_rpc_latency acc + counter_sum rpc_check_latency_sum_us bs)).

Lemma sums_plus_cons acc b bs : sums_plus (sums_add acc b) bs = sums_plus acc (b :: bs).
Proof.
  unfold sums_plus, sums_add. cbn [s_l1_hits s_l1_misses s_l1_evictions s_l2_hits
    s_l2_misses s_l2_evictions s_calls s_allowed s_denied s_rpc_calls s_rpc_errors
    s_rpc_latency].
  by rewrite !counter_sum_cons, !u64_add_l, <- !Z.add_assoc.
Qed.

Definition sums_in_range (s : stats_sums) : Prop := sums_plus s [] = s.

Lemma sums_add_in_range acc b : sums_in_range (sums_add acc b).
Proof.
  unfold sums_in_range, sums_plus, counter_sum. cbn. rewrite !Z.add_0_r.
  unfold sums_add. f_equal; apply wrap_small, u64_range.
Qed.

Lemma sum_loop_spec pre bs acc :
  sums_in_range acc ->
  sum_loop (length bs) (Z.of_nat (length pre)) (pre ++ bs) acc = Done (sums_plus acc bs).
Proof.
  revert pre acc. induction bs as [|b bs IH]; intros pre acc Hr; cbn [length sum_loop].
  - by rewrite Hr.
  - rewrite zlookup_nat, list_lookup_middle by done.
    replace (Z.of_nat (length pre) + 1) with (Z.of_nat (length (pre ++ [b])))
      by (rewrite length_app; cbn; lia).
    rewrite (cons_middle b pre bs), app_assoc.
    rewrite IH by apply sums_add_in_range. by rewrite sums_plus_cons.
Qed.

(** One event adds one to its own counter and to no other. *)
Lemma stats_op_step e p st n :
  length (backends st) = n -> -1 <= p < Z.of_nat n ->
  exists bs', (stats_op e p st).1 = Done tt /\ backends (stats_op e p st).2 = bs' /\
    length bs' = n /\
    (forall e', u64 (counter_sum (event_counter e') bs') =
      u64 (counter_sum (event_counter e') (backends st)
           + (if event_is e' (p, e) then 1 else 0))) /\
    (forall f, f ∈ idle_counters -> counter_sum f bs' = counter_sum f (backends st)).
Proof.
  intros Hlen Hp. unfold event_is, INVALID_PROC_NUMBER. cbn [fst snd].
  destruct (Z.eqb_spec p (-1)) as [->|Hne]; cbn [negb andb].
  { exists (backends st). split; [by destruct e|]. split; [by destruct e|].
    split; [done|]. split; [|done]. intros e'. by rewrite Z.add_0_r. }
  destruct (lookup_lt_is_Some_2 (backends st) (Z.to_nat p)) as [b Hb]; [lia|].
  assert (Hop : exists b', stats_op e p st = (Done tt,
      MkStats (st_cache_entries st) (st_cache_hits st) (st_cache_misses st)
        (st_cache_evictions st) (st_bgw_wakeups st) (st_requests_enqueued st)
        (st_requests_processed st) (<[Z.to_nat p := b']> (backends st))) /\
      (forall e', event_counter e' b' =
        if bool_decide (e = e') then u64 (event_counter e' b + 1) else event_counter e' b) /\
      (forall f, f ∈ idle_counters -> f b' = f b)).
  { destruct e; cbn [stats_op];
      unfold fga_stats_l1_hit, fga_stats_l1_miss, fga_stats_l1_eviction,
        fga_stats_l2_hit, fga_stats_l2_miss, fga_stats_l2_eviction, bump, backend_stats_ptr;
      rewrite (proj2 (Z.eqb_neq p INVALID_PROC_NUMBER)) by done;
      unfold zlookup; rewrite decide_True, Hb by lia; eexists; (split; [reflexivity|]);
      (split; [by intros []|]);
      intros f Hf; unfold idle_counters in Hf;
      repeat (apply elem_of_cons in Hf as [->|Hf]; [done|]); by apply elem_of_nil in Hf. }
  destruct Hop as (b' & -> & Hev & Hidle). eexists. split; [done|]. split; [done|].
  cbn [snd backends]. split; [by rewrite length_insert|]. split.
  - intros e'. rewrite (counter_sum_insert _ _ _ b), Hev by done.
    destruct (bool_decide (e = e')); [|f_equal; lia].
    set (x := event_counter e' b). set (total := counter_sum _ _).
    replace (total + u64 (x + 1) - x) with (u64 (x + 1) + (total - x)) by lia.
    rewrite u64_add_l. f_equal. lia.
  - intros f Hf. rewrite (counter_sum_insert _ _ _ b), Hidle by done. lia.
Qed.

Lemma event_count_cons e pe evs :
  event_count e (pe :: evs) = (if event_is e pe then 1 else 0) + event_count e evs.
Proof. unfold event_count. cbn. case_match; cbn; lia. Qed.

Lemma run_events_spec evs n st :
  length (backends st) = n -> Forall (fun pe => -1 <= pe.1 < Z.of_nat n) evs ->
  exists st', run_events evs st = (Done tt, st') /\ length (backends st') = n /\
    (forall e, u64 (counter_sum (event_counter e) (backends st')) =
      u64 (counter_sum (event_counter e) (backends st) + event_count e evs)) /\
    (forall f, f ∈ idle_counters ->
      counter_sum f (backends st') = counter_sum f (backends st)).
Proof.
  revert st. induction evs as [|[p e] evs IH]; intros st Hlen Hev.
  - exists st. split; [done|]. split; [done|]. split; [|done].
    intros e. unfold event_count. cbn. by rewrite Z.add_0_r.
  - apply Forall_cons in Hev as [Hp Hev]. cbn [fst] in Hp.
    destruct (stats_op_step e p st n Hlen Hp) as (bs & Hd & Hbs & Hl & Hc & Hi).
    cbn [run_events]. unfold cm_bind. destruct (stats_op e p st) as [r st1].
    cbn in Hd, Hbs. subst r bs.
    destruct (IH st1 Hl Hev) as (st' & -> & Hl' & Hc' & Hi').
    exists st'. split; [done|]. split; [done|]. split.
    + intros e'. rewrite Hc', event_count_cons, <- u64_add_l, Hc, u64_add_l. f_equal. lia.
    + intros f Hf. by rewrite Hi', Hi.
Qed.

Lemma counter_sum_zero f n :
  f zero_backend_stats = 0 -> counter_sum f (replicate n zero_backend_stats) = 0.
Proof. intros Hf. unfold counter_sum. induction n; csimpl; lia. Qed.

(** ** Properties *)

(** From the initialised shared memory, whatever events the backends
    raised, [fga_stats()] answers a caller that takes a materialised composite
    set with twelve rows: each cache row holds the number of events of its
    kind (modulo 2^64, read as int64), and the check and rpc rows hold zero,
    since nothing updates their counters. *)
Theorem stats_report_counts_events MaxBackends (mem : FgaStats) evs ctx :
  0 <= MaxBackends ->
  Forall (fun pe => -1 <= pe.1 < MaxBackends) evs ->
  has_rsinfo ctx && allows_materialize ctx && composite_result ctx = true ->
  exists st, run_events evs (fga_stats_shmem_init MaxBackends mem) = (Done tt, st) /\
    fga_stats ctx MaxBackends st = Done [
      add_row "cache.l1" "hits" (u64 (event_count EvL1Hit evs));
      add_row "cache.l1" "misses" (u64 (event_count EvL1Miss evs));
      add_row "cache.l1" "evictions" (u64 (event_count EvL1Eviction evs));
      add_row "cache.l2" "hits" (u64 (event_count EvL2Hit evs));
      add_row "cache.l2" "misses" (u64 (event_count EvL2Miss evs));
      add_row "cache.l2" "evictions" (u64 (event_count EvL2Eviction evs));
      add_row "check" "calls" 0; add_row "check" "allowed" 0; add_row "check" "denied" 0;
      add_row "rpc" "calls" 0; add_row "rpc" "errors" 0;
      add_row "rpc" "latency_sum_us" 0].
Proof.
  intros Hmax Hev Hctx. set (st0 := fga_stats_shmem_init MaxBackends mem).
  assert (Hl0 : length (backends st0) = Z.to_nat MaxBackends) by apply length_replicate.
  destruct (run_events_spec evs (Z.to_nat MaxBackends) st0) as (st & Hrun & Hl & Hc & Hi).
  { done. }
  { by rewrite Z2Nat.id. }
  assert (Hcnt : forall e, u64 (0 + counter_sum (event_counter e) (backends st)) =
      u64 (event_count e evs)).
  { intros e. rewrite Z.add_0_l, Hc. unfold st0. cbn [backends fga_stats_shmem_init].
    by rewrite counter_sum_zero by by destruct e. }
  assert (Hidle : forall f, f ∈ idle_counters -> u64 (0 + counter_sum f (backends st)) = 0).
  { intros f Hf. rewrite Hi by done. unfold st0. cbn [backends fga_stats_shmem_init].
    rewrite counter_sum_zero; [done|]. unfold idle_counters in Hf.
    repeat (apply elem_of_cons in Hf as [->|Hf]; [done|]). by apply elem_of_nil in Hf. }
  exists st. split; [done|]. split_guards. unfold fga_stats, backend_stats.
  repeat match goal with H : _ ctx = true |- _ => rewrite H; clear H end. cbn [negb].
  pose proof (sum_loop_spec [] (backends st) zero_sums eq_refl) as Hs.
  cbn [length app] in Hs. change (Z.of_nat 0) with 0 in Hs. rewrite <- Hl, Hs.
  unfold mbind, outcome_bind, sums_plus, zero_sums. cbn [s_l1_hits s_l1_misses
    s_l1_evictions s_l2_hits s_l2_misses s_l2_evictions s_calls s_allowed s_denied
    s_rpc_calls s_rpc_errors s_rpc_latency].
  pose proof (Hcnt EvL1Hit) as H1. pose proof (Hcnt EvL1Miss) as H2.
  pose proof (Hcnt EvL1Eviction) as H3. pose proof (Hcnt EvL2Hit) as H4.
  pose proof (Hcnt EvL2Miss) as H5. pose proof (Hcnt EvL2Eviction) as H6.
  cbn [event_counter] in H1, H2, H3, H4, H5, H6. rewrite H1, H2, H3, H4, H5, H6.
  rewrite !Hidle by (unfold idle_counters; set_solver). done.
Qed.

Lemma stats_report_counts_events_witness :
  exists st, run_events [(0, EvL1Hit); (1, EvL2Miss); (-1, EvL1Hit); (0, EvL1Hit)]
      (fga_stats_shmem_init 2 (MkStats 7 7 7 7 7 7 7 [])) = (Done tt, st) /\
    exists rows, fga_stats (SrfContext true true true) 2 st =
      Done (add_row "cache.l1" "hits" 2 :: rows).
Proof.
  destruct (stats_report_counts_events 2 (MkStats 7 7 7 7 7 7 7 [])
    [(0, EvL1Hit); (1, EvL2Miss); (-1, EvL1Hit); (0, EvL1Hit)] (SrfContext true true true))
    as (st & Hrun & Hrows); [lia|repeat constructor; cbn; lia|reflexivity|].
  exists st. split; [exact Hrun|]. eexists. exact Hrows.
Defined.
