(* ===== verification/Cache.v ===== *)
(** * The two-tier cache: [src/cache.c]

    Every backend has its own L1 cache in front of the shared L2 cache.  The
    functions run over the environment one backend sees; the histories at the
    end interleave the operations of all backends, each operation atomically
    (the L2 operations hold the cache lock throughout). *)
From stdpp Require Import functions.
From S2P Require Import Prelude Platform Types CacheKey CacheSpec CacheL1 CacheL2 Stats.

(** [GetCurrentTimestamp() / 1000], the microseconds given. *)
Definition get_now_ms (now_us : Z) : Z := Z.quot now_us 1000.

Definition l2_header_size : Z := nth 5 (struct_offsets FgaL2AclCache_fields) 0.

Definition fga_cache_shmem_base_size `{PgMem} (config : FgaConfig) : outcome Z :=
  let capacity := l2_capacity_from_config config in
  m ← mul_size (struct_size FgaL2AclEntry_fields) capacity;
  add_size l2_header_size m.

(** [hash_estimate_size(num_entries, entrysize)] is PostgreSQL's. *)
Definition fga_cache_shmem_hash_size (hash_estimate_size : Z -> Z -> Z)
    (config : FgaConfig) : Z :=
  let capacity := l2_capacity_from_config config in
  hash_estimate_size (l2_hash_size capacity) (struct_size FgaL2AclSlot_fields).

(** The loop [for (i = 0; i < cache->capacity; i++)] over the memory that
    follows the header; nothing but the valid flags is written. *)
Fixpoint clear_loop (n i : nat) (es : list FgaL2AclEntry) : outcome (list FgaL2AclEntry) :=
  match n with
  | O => Done es
  | S n' =>
      match es !! i with
      | None => Undefined OutOfBounds
      | Some e => clear_loop n' (S i) (<[i := clear_valid e]> es)
      end
  end.

(** [mem] is what the entry array held before. *)
Definition fga_cache_shmem_init (config : FgaConfig) (mem : list FgaL2AclEntry)
  : outcome FgaL2AclCache :=
  let capacity := u32 (l2_capacity_from_config config) in
  es ← clear_loop (Z.to_nat capacity) 0 mem;
  mret (MkL2Cache None 0 capacity 0 es).

(** What a backend sees. *)
Record cache_env (H : Type) : Type := MkEnv {
  ce_l1 : FgaL1Cache;
  ce_l2 : l2_state H;
  ce_stats : FgaStats;
}.
Arguments MkEnv {H} ce_l1 ce_l2 ce_stats.
Arguments ce_l1 {H} c.
Arguments ce_l2 {H} c.
Arguments ce_stats {H} c.

Section Cache.
Context {H : Type} `{Dynahash FgaAclCacheKey Z H}.
Variable use_asserts : bool.

Definition on_l1 {A} (f : FgaL1Cache -> FgaL1Cache * A) : CM (cache_env H) A := fun env =>
  let '(c, a) := f (ce_l1 env) in (Done a, MkEnv c (ce_l2 env) (ce_stats env)).

Definition on_l2 {A} (m : CM (l2_state H) A) : CM (cache_env H) A := fun env =>
  let '(r, s) := m (ce_l2 env) in (r, MkEnv (ce_l1 env) s (ce_stats env)).

Definition on_stats {A} (m : CM FgaStats A) : CM (cache_env H) A := fun env =>
  let '(r, s) := m (ce_stats env) in (r, MkEnv (ce_l1 env) (ce_l2 env) s).

Definition fga_cache_shmem_each_startup : CM (cache_env H) unit :=
  _ ← on_l1 (fun c => (l1_startup c, tt));
  on_l2 l2_startup.

(** [None] is [false] with [*allowed_out] untouched. *)
Definition fga_cache_lookup (MyProcNumber : Z) (config : FgaConfig)
    (key : FgaAclCacheKey) (now_us : Z) : CM (cache_env H) (option bool) :=
  if negb (cache_enabled config) then mret None
  else
    env ← cm_get;
    match l2c (ce_l2 env) with
    | None => cm_lift (Undefined NullDeref)
    | Some l2 =>
        let now_ms := get_now_ms now_us in
        r1 ← on_l1 (fun c => l1_lookup c key (l2_generation l2) now_ms);
        match r1 with
        | Some allowed =>
            _ ← on_stats (fga_stats_l1_hit MyProcNumber);
            mret (Some allowed)
        | None =>
            _ ← on_stats (fga_stats_l1_miss MyProcNumber);
            r2 ← on_l2 (l2_lookup key now_ms);
            match r2 with
            | Some (allowed, expires_at) =>
                _ ← on_l1 (fun c =>
                       (l1_store c key (l2_generation l2) expires_at allowed, tt));
                _ ← on_stats (fga_stats_l2_hit MyProcNumber);
                mret (Some allowed)
            | None =>
                _ ← on_stats (fga_stats_l2_miss MyProcNumber);
                mret None
            end
        end
    end.

Definition fga_cache_store (config : FgaConfig) (key : FgaAclCacheKey)
    (allowed : bool) (now_us : Z) : CM (cache_env H) unit :=
  if negb (cache_enabled config) then mret tt
  else
    env ← cm_get;
    match l2c (ce_l2 env) with
    | None => cm_lift (Undefined NullDeref)
    | Some l2 =>
        let now_ms := get_now_ms now_us in
        let expires_at := now_ms + cache_ttl_ms config in
        _ ← on_l1 (fun c => (l1_store c key (l2_generation l2) expires_at allowed, tt));
        on_l2 (l2_store use_asserts key now_ms expires_at allowed)
    end.

(** ** Histories of all backends *)
Record world : Type := MkWorld {
  w_l1 : nat -> FgaL1Cache;
  w_l2 : l2_state H;
  w_stats : FgaStats;
}.

Inductive cache_op : Type :=
  | OpLookup (b : nat) (config : FgaConfig) (key : FgaAclCacheKey) (now_us : Z)
  | OpStore (b : nat) (config : FgaConfig) (key : FgaAclCacheKey) (allowed : bool)
      (now_us : Z).

(** Backend [b] runs [m]. *)
Definition run_in {A} (b : nat) (m : CM (cache_env H) A) : CM world A := fun w =>
  let '(r, env) := m (MkEnv (w_l1 w b) (w_l2 w) (w_stats w)) in
  (r, MkWorld (<[b := ce_l1 env]> (w_l1 w)) (ce_l2 env) (ce_stats env)).

Definition exec_op (op : cache_op) : CM world unit :=
  match op with
  | OpLookup b config key now =>
      _ ← run_in b (fga_cache_lookup (Z.of_nat b) config key now); mret tt
  | OpStore b config key allowed now => run_in b (fga_cache_store config key allowed now)
  end.

Fixpoint cache_run (ops : list cache_op) : CM world unit :=
  match ops with
  | [] => mret tt
  | op :: ops' => _ ← exec_op op; cache_run ops'
  end.

(** The postmaster initialises the shared memory and runs the startup hook; the
    backends are forked from it, each with its copy of the L1 cache. *)
Definition cache_boot (config : FgaConfig) (MaxBackends : Z)
    (mem : list FgaL2AclEntry) (stats_mem : FgaStats) : outcome world :=
  cache ← fga_cache_shmem_init config mem;
  match fga_cache_shmem_each_startup
          (MkEnv None (MkL2State (Some cache) None)
             (fga_stats_shmem_init MaxBackends stats_mem)) with
  | (Done _, env) => Done (MkWorld (fun _ => ce_l1 env) (ce_l2 env) (ce_stats env))
  | (Error e, _) => Error e
  | (Undefined u, _) => Undefined u
  end.
End Cache.
Arguments MkWorld {H} w_l1 w_l2 w_stats.
Arguments w_l1 {H} w.
Arguments w_l2 {H} w.
Arguments w_stats {H} w.

Section CacheSpec.
Context {H : Type} {HD : Dynahash FgaAclCacheKey Z H}.
Context {HL : DynahashLaws FgaAclCacheKey Z H}.
Variable use_asserts : bool.
Implicit Types env : cache_env H.

(** What a lookup answers, and the L1 cache and the counters it leaves. *)
Definition lookup_result (env : cache_env H) (g : Z) (key : FgaAclCacheKey) (now_ms : Z)
  : option bool * FgaL1Cache * list stats_event :=
  let '(l1', r1) := l1_lookup (ce_l1 env) key g now_ms in
  match r1 with
  | Some a => (Some a, l1', [EvL1Hit])
  | None =>
      match l2_answer (ce_l2 env) key now_ms with
      | Some (a, expires) => (Some a, l1_store l1' key g expires a, [EvL1Miss; EvL2Hit])
      | None => (None, l1', [EvL1Miss; EvL2Miss])
      end
  end.

Lemma stats_op_done e p st n :
  length (backends st) = n -> -1 <= p < Z.of_nat n ->
  exists st', stats_op e p st = (Done tt, st') /\ length (backends st') = n.
Proof.
  intros Hl Hp. destruct (stats_op_step e p st n Hl Hp) as (bs & Hd & Hb & Hl' & _).
  destruct (stats_op e p st) as [r st']. cbn in Hd, Hb. subst. eauto.
Qed.

Lemma fga_cache_lookup_spec p config key now env c n :
  l2_wf (ce_l2 env) -> l2c (ce_l2 env) = Some c ->
  length (backends (ce_stats env)) = n -> -1 <= p < Z.of_nat n ->
  cache_enabled config = true ->
  let '(r, l1', evs) := lookup_result env (l2_generation c) key (get_now_ms now) in
  exists env', fga_cache_lookup p config key now env = (Done r, env') /\
    ce_l1 env' = l1' /\ l2_wf (ce_l2 env') /\ l2_meta (ce_l2 env') = l2_meta (ce_l2 env) /\
    (forall k, l2_view (ce_l2 env') k = l2_view (ce_l2 env) k) /\
    run_events (map (pair p) evs) (ce_stats env) = (Done tt, ce_stats env') /\
    length (backends (ce_stats env')) = n.
Proof.
  intros Hwf Hc Hl Hp He. unfold lookup_result, fga_cache_lookup. rewrite He.
  unfold mbind, cm_bind, cm_get, mret, cm_ret. cbn [negb]. rewrite Hc.
  unfold on_l1, on_stats, on_l2.
  destruct (l1_lookup (ce_l1 env) key (l2_generation c) (get_now_ms now)) as [l1' [a|]].
  - destruct (stats_op_done EvL1Hit p (ce_stats env) n Hl Hp) as (st' & Hst & Hl').
    cbn in Hst. cbn [ce_l1 ce_l2 ce_stats map run_events stats_op].
    unfold cm_bind. rewrite Hst. eexists. split; [done|]. by repeat split.
  - destruct (stats_op_done EvL1Miss p (ce_stats env) n Hl Hp) as (st1 & Hst1 & Hl1).
    cbn in Hst1. cbn [ce_l1 ce_l2 ce_stats]. rewrite Hst1. cbn [ce_l1 ce_l2 ce_stats].
    destruct (l2_lookup_spec (ce_l2 env) key (get_now_ms now) Hwf)
      as (s' & Hlk & Hwf' & Hm & Hv). rewrite Hlk.
    destruct (l2_answer _ _ _) as [[a exp]|]; cbn [ce_l1 ce_l2 ce_stats].
    + destruct (stats_op_done EvL2Hit p st1 n Hl1 Hp) as (st2 & Hst2 & Hl2).
      cbn in Hst2. cbn [map run_events stats_op]. unfold cm_bind. rewrite Hst1, Hst2.
      eexists. split; [done|]. by repeat split.
    + destruct (stats_op_done EvL2Miss p st1 n Hl1 Hp) as (st2 & Hst2 & Hl2).
      cbn in Hst2. cbn [map run_events stats_op]. unfold cm_bind. rewrite Hst1, Hst2.
      eexists. split; [done|]. by repeat split.
Qed.

Lemma fga_cache_store_spec config key a now env c :
  l2_wf (ce_l2 env) -> l2c (ce_l2 env) = Some c -> 0 < l2_capacity c ->
  cache_enabled config = true ->
  let exp := get_now_ms now + cache_ttl_ms config in
  exists env', fga_cache_store use_asserts config key a now env = (Done tt, env') /\
    ce_l1 env' = l1_store (ce_l1 env) key (l2_generation c) exp a /\
    ce_stats env' = ce_stats env /\
    l2_wf (ce_l2 env') /\ l2_meta (ce_l2 env') = l2_meta (ce_l2 env) /\
    (l2_stored (ce_l2 env) (ce_l2 env') key (MkDecision a exp (l2_generation c)) \/
     l2_gave_up (ce_l2 env) (ce_l2 env') key).
Proof.
  intros Hwf Hc Hcap He exp. unfold fga_cache_store. rewrite He.
  unfold mbind, cm_bind, cm_get. cbn [negb]. rewrite Hc. unfold on_l1, on_l2.
  cbn [ce_l1 ce_l2 ce_stats]. fold exp.
  destruct (l2_store_spec use_asserts (ce_l2 env) key (get_now_ms now) exp a c Hwf Hc Hcap)
    as (s' & Hst & Hwf' & Hm & Hor).
  rewrite Hst. eexists. split; [done|]. by repeat split.
Qed.
End CacheSpec.

(** ** Where the visible entries come from *)

(** The decision an operation writes, with its backend and key. *)
Definition op_write (op : cache_op) : option (nat * FgaAclCacheKey * decision) :=
  match op with
  | OpStore b config key a now =>
      if cache_enabled config
      then Some (b, key, MkDecision a (get_now_ms now + cache_ttl_ms config) 0)
      else None
  | OpLookup _ _ _ _ => None
  end.

Definition op_backend (op : cache_op) : nat :=
  match op with OpLookup b _ _ _ => b | OpStore b _ _ _ _ => b end.
Definition op_time (op : cache_op) : Z :=
  match op with OpLookup _ _ _ t => t | OpStore _ _ _ _ t => t end.
Definition op_config (op : cache_op) : FgaConfig :=
  match op with OpLookup _ c _ _ => c | OpStore _ c _ _ _ => c end.

(** Backends below [n], clocks after 2000-01-01, a TTL that fits an [int]. *)
Definition op_ok (n : nat) (op : cache_op) : Prop :=
  (op_backend op < n)%nat /\ 0 <= op_time op < 2 ^ 62 /\
  0 <= cache_ttl_ms (op_config op) < 2 ^ 31.

(** [d] was written for [src], and not overwritten since by a writer that
    satisfies [who]. *)
Definition latest_write (who : nat -> Prop) (ops : list cache_op)
    (src : FgaAclCacheKey) (d : decision) : Prop :=
  exists pre op post b, ops = pre ++ op :: post /\ op_write op = Some (b, src, d) /\
    forall op' b' d', op' ∈ post -> who b' -> op_write op' <> Some (b', src, d').

Definition l2_source (ops : list cache_op) : FgaAclCacheKey -> decision -> Prop :=
  latest_write (fun _ => True) ops.

(** An L1 entry answers for every key with the same 128-bit identity. *)
Definition l1_source (b : nat) (ops : list cache_op) (k : FgaAclCacheKey)
    (d : decision) : Prop :=
  exists src, key_id src = key_id k /\ latest_write (fun b' => b' = b) ops src d.

Lemma latest_write_snoc who ops op src d :
  latest_write who ops src d ->
  (forall b' d', who b' -> op_write op <> Some (b', src, d')) ->
  latest_write who (ops ++ [op]) src d.
Proof.
  intros (pre & op0 & post & b & -> & Hw & Hpost) Hop.
  exists pre, op0, (post ++ [op]), b. rewrite <- app_assoc. split; [done|]. split; [done|].
  intros op' b' d' [Hin| ->%list_elem_of_singleton]%elem_of_app; eauto.
Qed.

Lemma latest_write_new who ops op b src d :
  op_write op = Some (b, src, d) -> latest_write who (ops ++ [op]) src d.
Proof.
  intros Hw. exists ops, op, [], b. split; [done|]. split; [done|].
  intros op' b' d' Hin. by apply elem_of_nil in Hin.
Qed.

Lemma latest_write_mono (who who' : nat -> Prop) ops src d :
  (forall b, who' b -> who b) -> latest_write who ops src d -> latest_write who' ops src d.
Proof.
  intros Hw (pre & op & post & b & Hops & Hwr & Hpost).
  exists pre, op, post, b. split; [done|]. split; [done|]. eauto.
Qed.

Lemma l1_source_snoc b ops op k d :
  l1_source b ops k d ->
  (forall k' d', op_write op = Some (b, k', d') -> key_id k' <> key_id k) ->
  l1_source b (ops ++ [op]) k d.
Proof.
  intros (src & Hid & Hs) Hop. exists src. split; [done|].
  apply latest_write_snoc; [done|]. intros b' d' -> Hw. by apply (Hop _ _ Hw).
Qed.

(** The counting events of one operation. *)
Inductive op_events : cache_op -> list (Z * stats_event) -> Prop :=
  | EvsHit b config key now : cache_enabled config = true ->
      op_events (OpLookup b config key now) [(Z.of_nat b, EvL1Hit)]
  | EvsL2Hit b config key now : cache_enabled config = true ->
      op_events (OpLookup b config key now) [(Z.of_nat b, EvL1Miss); (Z.of_nat b, EvL2Hit)]
  | EvsMiss b config key now : cache_enabled config = true ->
      op_events (OpLookup b config key now) [(Z.of_nat b, EvL1Miss); (Z.of_nat b, EvL2Miss)]
  | EvsOff b config key now : cache_enabled config = false ->
      op_events (OpLookup b config key now) []
  | EvsStore b config key a now : op_events (OpStore b config key a now) [].

Lemma run_events_app evs1 evs2 st st' :
  run_events evs1 st = (Done tt, st') -> run_events (evs1 ++ evs2) st = run_events evs2 st'.
Proof.
  revert st. induction evs1 as [|[p e] evs1 IH]; intros st; cbn; [by intros [= ->]|].
  unfold cm_bind. destruct (stats_op e p st) as [[] st1]; try done. apply IH.
Qed.

Section History.
Context {H : Type} {HD : Dynahash FgaAclCacheKey Z H}.
Context {HL : DynahashLaws FgaAclCacheKey Z H}.
Variable use_asserts : bool.
Variable n : nat.
Variable st0 : FgaStats.

(** The counters are those of the events of the operations. *)
Definition events_inv (ops : list cache_op) (st : FgaStats) : Prop :=
  exists evss, Forall2 op_events ops evss /\ run_events (concat evss) st0 = (Done tt, st).

Lemma events_snoc ops op evs st st' :
  events_inv ops st -> op_events op evs -> run_events evs st = (Done tt, st') ->
  events_inv (ops ++ [op]) st'.
Proof.
  intros (evss & Hf & Hr) Hop Hst. exists (evss ++ [evs]).
  split; [by apply Forall2_app; [|constructor]|].
  rewrite concat_app. cbn. rewrite app_nil_r. by rewrite (run_events_app _ _ _ st).
Qed.

Lemma lookup_result_events (env : cache_env H) b config g key now now_ms r l1' evs :
  cache_enabled config = true ->
  lookup_result env g key now_ms = (r, l1', evs) ->
  op_events (OpLookup b config key now) (map (pair (Z.of_nat b)) evs).
Proof.
  intros He. unfold lookup_result.
  destruct (l1_lookup _ _ _ _) as [l1'' [a|]]; [|destruct (l2_answer _ _ _) as [[a exp]|]];
    intros [= <- <- <-]; by constructor.
Qed.

(** The state after the operations [ops]. *)
Record history_inv (ops : list cache_op) (w : world (H := H)) : Prop := {
  hi_l2 : l2_wf (w_l2 w);
  hi_meta : exists c, l2c (w_l2 w) = Some c /\ 1 < l2_capacity c /\ l2_generation c = 0;
  hi_l1 b : l1_wf (w_l1 w b) /\ w_l1 w b <> None;
  hi_stats : length (backends (w_stats w)) = n;
  hi_l2_source : tier_all (l2_source ops) (w_l2 w);
  hi_l1_source b : tier_all (l1_source b ops) (w_l1 w b);
  hi_events : events_inv ops (w_stats w);
}.

Lemma meta_preserved (s s' : l2_state H) c :
  l2_meta s' = l2_meta s -> l2c s = Some c ->
  exists c', l2c s' = Some c' /\ l2_capacity c' = l2_capacity c /\
    l2_generation c' = l2_generation c.
Proof.
  unfold l2_meta. intros Hm Hc. rewrite Hc in Hm. cbn in Hm.
  destruct (l2c s') as [c'|]; [|done]. cbn in Hm. injection Hm as ? ?. eauto.
Qed.

Lemma store_decision_exact op b k d g :
  op_ok n op -> op_write op = Some (b, k, d) -> g = 0 ->
  MkDecision (d_allowed d) (u64 (d_expires d)) (u16 g) = d.
Proof.
  intros (_ & Ht & Httl) Hw ->. destruct op as [|b0 cfg key a now]; [done|].
  cbn in *. destruct (cache_enabled cfg); [|done]. injection Hw as <- <- <-. cbn.
  rewrite u64_small; [done|]. unfold get_now_ms.
  pose proof (Z.quot_le_upper_bound now 1000 (2 ^ 62) ltac:(lia) ltac:(lia)).
  pose proof (Z.quot_pos now 1000 ltac:(lia) ltac:(lia)). lia.
Qed.
Lemma l1_lookup_not_none c k g now : c <> None -> (l1_lookup c k g now).1 <> None.
Proof. intros Hc. by apply (l1_exec_started c (L1Lookup k g now)). Qed.

Lemma l1_store_not_none c k g exp a : c <> None -> l1_store c k g exp a <> None.
Proof. intros Hc. by apply (l1_exec_started c (L1Store k g exp a)). Qed.

(** A write of the history comes from an operation of it. *)
Lemma latest_write_exact who ops k d g :
  Forall (op_ok n) ops -> latest_write who ops k d -> g = 0 ->
  MkDecision (d_allowed d) (u64 (d_expires d)) (u16 g) = d.
Proof.
  intros Hok (pre & op & post & b & -> & Hw & _) Hg.
  apply Forall_app in Hok as [_ [Hop _]%Forall_cons]. by eapply store_decision_exact.
Qed.

(** The L1 cache after a lookup of backend [b]: entries of the history. *)
Lemma lookup_result_l1 ops b env key now_ms r l1' evs :
  Forall (op_ok n) ops ->
  l1_wf (ce_l1 env) -> ce_l1 env <> None ->
  tier_all (l2_source ops) (ce_l2 env) -> tier_all (l1_source b ops) (ce_l1 env) ->
  lookup_result (H := H) env 0 key now_ms = (r, l1', evs) ->
  l1_wf l1' /\ l1' <> None /\ tier_all (l1_source b ops) l1'.
Proof.
  intros Hok Hwf Hn H2 H1. unfold lookup_result.
  pose proof (l1_lookup_wf (ce_l1 env) key 0 now_ms Hwf) as Hwf'.
  pose proof (l1_lookup_not_none (ce_l1 env) key 0 now_ms Hn) as Hn'.
  pose proof (tier_all_forgets _ _ _ (l1_lookup_forgets (ce_l1 env) key 0 now_ms Hwf) H1)
    as H1'.
  destruct (l1_lookup _ _ _ _) as [l1'' [a|]]; cbn [fst] in *; [by intros [= <- <- <-]|].
  unfold l2_answer. destruct (l2c (ce_l2 env)) as [c|]; cbn; [|by intros [= <- <- <-]].
  destruct (l2_view (ce_l2 env) key) as [d|] eqn:Hv; cbn; [|by intros [= <- <- <-]].
  destruct (l2_fresh (l2_generation c) now_ms d) eqn:Hf; [|by intros [= <- <- <-]].
  intros [= <- <- <-]. split; [auto with fga|]. split; [by apply l1_store_not_none|].
  pose proof (H2 key d Hv) as Hsrc.
  eapply tier_all_puts; [by apply l1_store_puts| | |exact H1'].
  - intros k' Hs. exists key. split; [by rewrite Hs|].
    rewrite (latest_write_exact (fun _ => True) ops key d 0) by done.
    eapply latest_write_mono; [|exact Hsrc]. done.
  - done.
Qed.

(** A property of every backend's cache, after backend [b]'s is replaced. *)
Lemma backends_set {A} (P : nat -> A -> Prop) (f : nat -> A) b v :
  (forall b', P b' (f b')) -> P b v -> forall b', P b' (<[b := v]> f b').
Proof.
  intros Hf Hv b'. destruct (decide (b' = b)) as [->|Hne];
    [by rewrite fn_lookup_insert|by rewrite fn_lookup_insert_ne].
Qed.

(** An operation that writes no decision: what its backend's L1 cache holds has
    to come from the history, the L2 cache shows the same entries. *)
Lemma history_read ops op w b l1' s' st' evs :
  op_write op = None -> op_events op evs -> run_events evs (w_stats w) = (Done tt, st') ->
  length (backends st') = n -> l2_wf s' -> l2_meta s' = l2_meta (w_l2 w) ->
  (forall k, l2_view s' k = l2_view (w_l2 w) k) ->
  l1_wf l1' /\ l1' <> None /\ tier_all (l1_source b ops) l1' ->
  history_inv ops w -> history_inv (ops ++ [op]) (MkWorld (<[b := l1']> (w_l1 w)) s' st').
Proof.
  intros Hop Hevs Hrun Hst' Hwf Hm Hv (Hl1 & Hn1 & Ha1) [H2 (c & Hc & Hcap & Hg) H1 Hst Hs2 Hs1 Hev].
  assert (Hsnoc : forall b' l1, tier_all (l1_source b' ops) l1 -> tier_all (l1_source b' (ops ++ [op])) l1).
  { intros b' l1 Ha k d Hk. apply l1_source_snoc; [by apply Ha|by rewrite Hop]. }
  destruct (meta_preserved _ _ _ Hm Hc) as (c' & ? & ? & ?). split; cbn; try done.
  - exists c'. split; [done|lia].
  - by apply (backends_set (fun _ c => l1_wf c /\ c <> None)).
  - intros k d Hk. cbn in Hk. rewrite Hv in Hk.
    apply latest_write_snoc; [by apply Hs2|by rewrite Hop].
  - apply (backends_set (fun b' => tier_all (l1_source b' (ops ++ [op])))); auto.
  - by eapply events_snoc.
Qed.

Lemma exec_lookup_inv ops w b config key now :
  Forall (op_ok n) ops -> history_inv ops w ->
  (b < n)%nat -> 0 <= now < 2 ^ 62 ->
  exists w', exec_op use_asserts (OpLookup b config key now) w = (Done tt, w') /\
    history_inv (ops ++ [OpLookup b config key now]) w'.
Proof.
  intros Hok Hinv Hb Hnow. pose proof Hinv as [H2 (c & Hc & Hcap & Hg) H1 Hst Hs2 Hs1 Hev].
  unfold exec_op, mbind, cm_bind, run_in. set (env := MkEnv _ _ _).
  destruct (cache_enabled config) eqn:He.
  - pose proof (fga_cache_lookup_spec (Z.of_nat b) config key now env c n H2 Hc Hst
      ltac:(lia) He) as Hspec.
    destruct (lookup_result env (l2_generation c) key (get_now_ms now))
      as [[r l1'] evs] eqn:Hr.
    destruct Hspec as (env' & -> & <- & Hwf' & Hm & Hv & Hrun & Hst').
    rewrite Hg in Hr. eexists. split; [done|].
    eapply history_read; try done; [by eapply lookup_result_events|].
    eapply (lookup_result_l1 ops b env key); [done|apply H1|apply H1|done|apply Hs1|done].
  - unfold fga_cache_lookup. rewrite He. cbn. eexists. split; [done|].
    eapply history_read; try done; [by apply EvsOff|done|]. destruct (H1 b). auto.
Qed.

(** The entries of the L2 cache after a store: the new decision replaces all
    older writes of its key. *)
Lemma store_l2_sources ops op b key d (s s' : l2_state H) :
  op_write op = Some (b, key, d) -> l2_stored s s' key d \/ l2_gave_up s s' key ->
  tier_all (l2_source ops) s -> tier_all (l2_source (ops ++ [op])) s'.
Proof.
  intros Hw [Hput%l2_stored_puts|(_ & Hnone & Hv)] Hs2.
  - eapply tier_all_puts; [exact Hput| | |exact Hs2].
    + intros k' ->. by eapply latest_write_new.
    + intros k' d' Hne Hs. apply latest_write_snoc; [done|].
      intros b' d'' _. rewrite Hw. cbn in Hne. congruence.
  - intros k d' Hk. cbn in Hk. rewrite Hv in Hk.
    apply latest_write_snoc; [by apply Hs2|]. intros b' d'' _. rewrite Hw.
    intros [= _ <- _]. cbn in Hnone. congruence.
Qed.

(** The same of the L1 cache of the storing backend. *)
Lemma store_l1_sources ops op b key d l1 :
  op_ok n op -> op_write op = Some (b, key, d) -> l1_wf l1 -> l1 <> None ->
  tier_all (l1_source b ops) l1 ->
  tier_all (l1_source b (ops ++ [op])) (l1_store l1 key 0 (d_expires d) (d_allowed d)).
Proof.
  intros Hop Hw Hwf Hn Hs1. eapply tier_all_puts; [by apply l1_store_puts| | |exact Hs1].
  - intros k' Hs. exists key. split; [by rewrite Hs|].
    rewrite (store_decision_exact op b key d 0) by done. by eapply latest_write_new.
  - intros k' d' Hne Hs. apply l1_source_snoc; [done|].
    intros k'' d''. rewrite Hw. intros [= <- _] Heq. by apply Hne.
Qed.

Lemma exec_store_inv ops w b config key a now :
  Forall (op_ok n) ops -> history_inv ops w ->
  op_ok n (OpStore b config key a now) ->
  exists w', exec_op use_asserts (OpStore b config key a now) w = (Done tt, w') /\
    history_inv (ops ++ [OpStore b config key a now]) w'.
Proof.
  intros Hok Hinv Hop. pose proof Hinv as [H2 (c & Hc & Hcap & Hg) H1 Hst Hs2 Hs1 Hev].
  set (op := OpStore b config key a now) in *. destruct (H1 b) as [Hwf1 Hn1].
  unfold exec_op, op, run_in. fold op. set (env := MkEnv _ _ _).
  destruct (cache_enabled config) eqn:He.
  - set (d := MkDecision a (get_now_ms now + cache_ttl_ms config) 0).
    assert (Hw : op_write op = Some (b, key, d)) by (cbn; by rewrite He).
    destruct (fga_cache_store_spec use_asserts config key a now env c H2 Hc ltac:(lia) He)
      as (env' & -> & El1 & Est & Hwf' & Hm & Hor).
    eexists. split; [done|]. rewrite Hg in *. fold d in Hor. split; cbn; try done.
    + destruct (meta_preserved _ _ _ Hm Hc) as (c' & ? & ? & ?). exists c'. split; [done|lia].
    + apply (backends_set (fun _ c => l1_wf c /\ c <> None)); [done|]. rewrite El1. by split; [apply l1_store_wf|apply l1_store_not_none].
    + by rewrite Est.
    + by eapply store_l2_sources.
    + intros b'. destruct (decide (b' = b)) as [->|Hne].
      * rewrite fn_lookup_insert, El1. by eapply (store_l1_sources ops op b key d).
      * rewrite fn_lookup_insert_ne by done. intros k d' Hk. apply l1_source_snoc; [by apply Hs1|].
        intros k' d''. rewrite Hw. congruence.
    + rewrite Est. eapply events_snoc; [exact Hev|constructor|done].
  - unfold fga_cache_store. rewrite He. cbn. eexists. split; [done|].
    eapply history_read; try done; [cbn; by rewrite He|constructor|done].
Qed.

Lemma cache_run_inv ops done_ops w :
  Forall (op_ok n) done_ops -> Forall (op_ok n) ops -> history_inv done_ops w ->
  exists w', cache_run use_asserts ops w = (Done tt, w') /\ history_inv (done_ops ++ ops) w'.
Proof.
  revert done_ops w. induction ops as [|op ops IH]; intros done_ops w Hd Hok Hinv.
  - exists w. by rewrite app_nil_r.
  - apply Forall_cons in Hok as [Hop Hok]. cbn [cache_run]. unfold mbind, cm_bind.
    assert (Hstep : exists w1, exec_op use_asserts op w = (Done tt, w1) /\
      history_inv (done_ops ++ [op]) w1).
    { destruct op as [b cfg k now|b cfg k a now]; [|by apply exec_store_inv].
      destruct Hop as (? & ? & ?). by apply exec_lookup_inv. }
    destruct Hstep as (w1 & -> & Hinv1).
    destruct (IH (done_ops ++ [op]) w1) as (w' & -> & Hinv'); [|done|done|].
    { apply Forall_app. split; [done|]. by apply Forall_singleton. }
    exists w'. split; [done|]. by rewrite <- app_assoc in Hinv'.
Qed.

(** ** Booting *)

Lemma clear_loop_spec pre es :
  clear_loop (length es) (length pre) (pre ++ es) = Done (pre ++ (clear_valid <$> es)).
Proof.
  revert pre. induction es as [|e es IH]; intros pre; cbn [length clear_loop]; [done|].
  rewrite list_lookup_middle by done. rewrite insert_app_r_alt, Nat.sub_diag by lia. cbn.
  specialize (IH (pre ++ [clear_valid e])). rewrite length_app in IH. cbn in IH.
  rewrite Nat.add_1_r, <- !app_assoc in IH. cbn in IH. exact IH.
Qed.

Lemma entry_size : struct_size FgaL2AclEntry_fields = 64.
Proof. reflexivity. Qed.

Lemma l2_capacity_mb config :
  1 <= cache_size config <= 1024 ->
  l2_capacity_from_config config = cache_size config * 16384.
Proof.
  intros Hs. unfold l2_capacity_from_config. rewrite entry_size.
  rewrite (u64_small (cache_size config)) by lia.
  rewrite (u64_small (cache_size config * 1024)) by lia. rewrite u64_small by lia.
  replace (cache_size config * 1024 * 1024) with (cache_size config * 16384 * 64) by lia.
  by rewrite Z.div_mul.
Qed.

(** What the memory of a fresh segment may hold: any [uint8] usage count. *)
Definition mem_ok (config : FgaConfig) (mem : list FgaL2AclEntry) : Prop :=
  1 <= cache_size config <= 1024 /\
  length mem = Z.to_nat (l2_capacity_from_config config) /\
  Forall (fun e => 0 <= v_usage_count (l2e_value e) <= 255) mem.

Lemma cache_boot_spec config mem stats_mem :
  mem_ok config mem -> st0 = fga_stats_shmem_init (Z.of_nat n) stats_mem ->
  exists w, cache_boot config (Z.of_nat n) mem stats_mem = Done w /\ history_inv [] w /\
    l2_capacity <$> l2c (w_l2 w) = Some (cache_size config * 16384).
Proof.
  intros (Hs & Hlen & Hu) Hst. unfold cache_boot, fga_cache_shmem_init.
  rewrite l2_capacity_mb in * by done. rewrite u32_small by lia. rewrite <- Hlen.
  pose proof (clear_loop_spec [] mem) as Hcl. cbn in Hcl. rewrite Hcl.
  unfold mbind, outcome_bind, mret, outcome_ret.
  set (cache := MkL2Cache None 0 (cache_size config * 16384) 0 (clear_valid <$> mem)).
  destruct (l2_startup_wf cache) as (s & Hstart & Hwf & Hc & Hv).
  { split; cbn; [lia|by rewrite length_fmap|lia|].
    apply Forall_fmap. eapply Forall_impl; [exact Hu|]. done. }
  { done. } { apply valid_count_cleared. }
  unfold fga_cache_shmem_each_startup, mbind, cm_bind, on_l1, on_l2. cbn [ce_l1 ce_l2 ce_stats].
  rewrite Hstart. rewrite <- Hst. eexists. split; [done|]. split; [|cbn; by rewrite Hc].
  split; cbn [w_l1 w_l2 w_stats ce_l1 ce_l2 ce_stats].
  - done.
  - exists cache. split; [done|]. cbn. lia.
  - intros _. split; [by apply (l1_startup_wf None)|done].
  - rewrite Hst. cbn. by rewrite length_replicate, Nat2Z.id.
  - intros k d Hd. cbn in Hd. by rewrite Hv in Hd.
  - intros b k d Hd. exfalso. revert Hd. cbn [tier_view l1_tier]. unfold l1_view, l1_startup.
    rewrite lookup_total_replicate_2; [done|]. pose proof (l1_hash_range k). lia.
  - exists []. split; [constructor|done].
Qed.
End History.

(** ** Properties *)

Section CacheProperties.
Context {H : Type} {HD : Dynahash FgaAclCacheKey Z H}.
Context {HL : DynahashLaws FgaAclCacheKey Z H}.

(** C1. Bounded staleness of the two tiers: after any interleaving of lookups
    and stores by any backends, with any enabled/TTL settings, every operation
    completes, and a lookup of backend [b] that answers [a] answers with the
    decision of an earlier store of a key of the same identity, whose
    time-to-live (that of the storing call, never extended by copying the entry
    into L1) has not run out, and which [b] itself has not overwritten since. *)
Theorem cache_bounded_staleness use_asserts config n mem stats_mem ops b cfg k now :
  mem_ok config mem -> Forall (op_ok n) ops -> (b < n)%nat -> 0 <= now < 2 ^ 62 ->
  exists w0 w r w', cache_boot (H := H) config (Z.of_nat n) mem stats_mem = Done w0 /\
    cache_run use_asserts ops w0 = (Done tt, w) /\
    run_in b (fga_cache_lookup (Z.of_nat b) cfg k now) w = (Done r, w') /\
    forall a, r = Some a ->
      cache_enabled cfg = true /\
      exists pre b0 cfg0 src now0 post,
        ops = pre ++ OpStore b0 cfg0 src a now0 :: post /\
        key_id src = key_id k /\
        get_now_ms now < get_now_ms now0 + cache_ttl_ms cfg0 /\
        forall cfg1 a1 now1, OpStore b cfg1 src a1 now1 ∈ post -> cache_enabled cfg1 = false.
Proof.
  intros Hmem Hok Hb Hnow.
  set (st0 := fga_stats_shmem_init (Z.of_nat n) stats_mem).
  destruct (cache_boot_spec n st0 config mem stats_mem Hmem eq_refl)
    as (w0 & Hw0 & Hinv0 & _).
  destruct (cache_run_inv use_asserts n st0 ops [] w0) as (w & Hrun & Hinv); try done.
  cbn [app] in Hinv. exists w0, w.
  destruct Hinv as [H2 (c & Hc & Hcap & Hg) H1 Hst Hs2 Hs1 _].
  unfold run_in. set (env := MkEnv (w_l1 w b) (w_l2 w) (w_stats w)).
  destruct (cache_enabled cfg) eqn:He.
  2:{ unfold fga_cache_lookup. rewrite He. eexists _, _. repeat split; try done. }
  pose proof (fga_cache_lookup_spec (Z.of_nat b) cfg k now env c n H2 Hc Hst ltac:(lia) He)
    as Hspec.
  destruct (lookup_result env (l2_generation c) k (get_now_ms now)) as [[r l1'] evs] eqn:Hr.
  destruct Hspec as (env' & -> & _). eexists r, _. split; [done|]. split; [done|].
  split; [done|]. intros a ->. split; [done|].
  assert (Hsrc : exists d, l1_source b ops k d /\ d_allowed d = a /\
    get_now_ms now < d_expires d).
  { rewrite Hg in Hr. unfold lookup_result in Hr.
    pose proof (l1_lookup_answer (ce_l1 env) k 0 (get_now_ms now) (proj1 (H1 b))) as Hans.
    destruct (l1_lookup _ _ _ _) as [l1'' [a'|]]; cbn [snd] in Hans.
    - injection Hr as -> _ _. destruct (l1_view (ce_l1 env) k) as [d|] eqn:Hv; [|done].
      destruct (l1_fresh 0 (get_now_ms now) d) eqn:Hf; [|done]. injection Hans as ->.
      exists d. split; [by apply (Hs1 b)|]. split; [done|].
      apply andb_true_iff in Hf as [Hlt%Z.ltb_lt _]. rewrite u64_small in Hlt; [done|].
      unfold get_now_ms. pose proof (Z.quot_le_upper_bound now 1000 (2 ^ 62)).
      pose proof (Z.quot_pos now 1000). lia.
    - unfold l2_answer in Hr. change (ce_l2 env) with (w_l2 w) in Hr. rewrite Hc in Hr. cbn in Hr.
      destruct (l2_view (w_l2 w) k) as [d|] eqn:Hv; [|done]. cbn in Hr.
      destruct (l2_fresh (l2_generation c) (get_now_ms now) d) eqn:Hf; [|done].
      injection Hr as <- _ _. exists d. unfold l2_fresh in Hf. split_guards.
      split; [|done]. exists k. split; [done|].
      eapply latest_write_mono; [|by apply Hs2]. done. }
  destruct Hsrc as (d & (src & Hid & pre & op & post & b0 & -> & Hw & Hpost) & <- & Hlt).
  destruct op as [|b1 cfg0 src0 a0 now0]; [done|]. cbn in Hw.
  destruct (cache_enabled cfg0) eqn:He0; [|done]. injection Hw as <- <- <-.
  exists pre, b1, cfg0, src0, now0, post. repeat split; try done.
  intros cfg1 a1 now1 Hin. destruct (cache_enabled cfg1) eqn:He1; [|done].
  exfalso. eapply (Hpost _ b _ Hin eq_refl). cbn. by rewrite He1.
Qed.

(** The storing backend's own L1 cache answers with the stored decision. *)
Lemma l1_answers_own_store n b cfg k a t1 t2 l1 :
  op_ok n (OpStore b cfg k a t1) -> cache_enabled cfg = true -> 0 <= t2 < 2 ^ 62 ->
  get_now_ms t2 < get_now_ms t1 + cache_ttl_ms cfg -> l1_wf l1 -> l1 <> None ->
  (l1_lookup (l1_store l1 k 0 (get_now_ms t1 + cache_ttl_ms cfg) a) k 0 (get_now_ms t2)).2 = Some a.
Proof.
  intros Hop He Ht2 Hlt Hwf Hn. set (exp := _ + _) in *.
  assert (Hexact : MkDecision a (u64 exp) (u16 0) = MkDecision a exp 0).
  { apply (store_decision_exact n (OpStore b cfg k a t1) b k (MkDecision a exp 0) 0 Hop); [|done].
    cbn. by rewrite He. }
  rewrite l1_lookup_answer by by apply l1_store_wf.
  rewrite l1_store_view_eq by done. rewrite Hexact. unfold l1_fresh. cbn. rewrite u64_small.
  - by rewrite (proj2 (Z.ltb_lt _ _) Hlt).
  - unfold get_now_ms. pose proof (Z.quot_le_upper_bound t2 1000 (2 ^ 62)).
    pose proof (Z.quot_pos t2 1000). lia.
Qed.

(** C15. A store reaches every backend: after any history, once a backend has
    stored [a] for [k], a lookup of [k] by any backend before the expiry is a
    hit; it answers [a], unless that backend's own L1 cache still held a usable
    older decision. *)
Theorem cache_store_reaches_all_backends use_asserts config n mem stats_mem ops
    b1 cfg1 k a t1 b2 cfg2 t2 :
  mem_ok config mem -> Forall (op_ok n) ops -> op_ok n (OpStore b1 cfg1 k a t1) ->
  cache_enabled cfg1 = true -> cache_enabled cfg2 = true -> (b2 < n)%nat ->
  0 <= t2 < 2 ^ 62 -> get_now_ms t2 < get_now_ms t1 + cache_ttl_ms cfg1 ->
  exists w0 w w1 w2 r, cache_boot (H := H) config (Z.of_nat n) mem stats_mem = Done w0 /\
    cache_run use_asserts ops w0 = (Done tt, w) /\
    run_in b1 (fga_cache_store use_asserts cfg1 k a t1) w = (Done tt, w1) /\
    run_in b2 (fga_cache_lookup (Z.of_nat b2) cfg2 k t2) w1 = (Done (Some r), w2) /\
    (b2 = b1 \/ (l1_lookup (w_l1 w b2) k 0 (get_now_ms t2)).2 = None -> r = a).
Proof.
  intros Hmem Hok Hop He1 He2 Hb2 Ht2 Hlt.
  set (st0 := fga_stats_shmem_init (Z.of_nat n) stats_mem).
  destruct (cache_boot_spec n st0 config mem stats_mem Hmem eq_refl)
    as (w0 & Hw0 & Hinv0 & _).
  destruct (cache_run_inv use_asserts n st0 ops [] w0) as (w & Hrun & Hinv); try done.
  cbn [app] in Hinv. destruct Hinv as [H2 (c & Hc & Hcap & Hg) H1 Hst _ _ _].
  set (exp := get_now_ms t1 + cache_ttl_ms cfg1) in *.
  destruct (fga_cache_store_spec use_asserts cfg1 k a t1
    (MkEnv (w_l1 w b1) (w_l2 w) (w_stats w)) c H2 Hc ltac:(lia) He1)
    as (env1 & Hstore & El1 & Est & Hwf1 & Hm1 & Hor). cbn [ce_l1 ce_l2 ce_stats] in *.
  fold exp in Hor, El1. rewrite Hg in Hor, El1.
  destruct Hor as [(evicted & _ & Hv)|(Hone & _)];
    [|rewrite Hc in Hone; injection Hone as Hone; lia].
  destruct (meta_preserved _ _ _ Hm1 Hc) as (c1 & Hc1 & _ & Hg1).
  set (w1 := MkWorld (<[b1 := ce_l1 env1]> (w_l1 w)) (ce_l2 env1) (ce_stats env1)).
  assert (Hl1 : b2 <> b1 -> w_l1 w1 b2 = w_l1 w b2) by (intros ?; by apply fn_lookup_insert_ne).
  set (env2 := MkEnv (w_l1 w1 b2) (w_l2 w1) (w_stats w1)).
  pose proof (fga_cache_lookup_spec (Z.of_nat b2) cfg2 k t2 env2 c1 n Hwf1 Hc1
    ltac:(cbn; by rewrite Est) ltac:(lia) He2) as Hspec.
  rewrite Hg1, Hg in Hspec. unfold lookup_result in Hspec.
  assert (Hans : l2_answer (ce_l2 env2) k (get_now_ms t2) = Some (a, exp)).
  { unfold l2_answer. change (ce_l2 env2) with (ce_l2 env1). rewrite Hc1. cbn.
    rewrite Hv, decide_True by done. cbn. unfold l2_fresh. cbn.
    by rewrite (proj2 (Z.ltb_lt _ _) Hlt), Hg1, Hg. }
  assert (Hown : b2 = b1 -> (l1_lookup (ce_l1 env2) k 0 (get_now_ms t2)).2 = Some a).
  { intros ->. cbn [ce_l1 env2 w1 w_l1]. rewrite fn_lookup_insert, El1.
    destruct (H1 b1) as [Hwfb Hnb]. by apply (l1_answers_own_store n b1). }
  destruct (l1_lookup (ce_l1 env2) k 0 (get_now_ms t2)) as [l1' [r|]] eqn:El;
    [|rewrite Hans in Hspec];
    destruct Hspec as (env' & Hlook & _);
    exists w0, w, w1, (MkWorld (<[b2 := ce_l1 env']> (w_l1 w1)) (ce_l2 env') (ce_stats env')).
  - exists r. split; [done|]. split; [done|].
    split; [unfold run_in; by rewrite Hstore|]. split; [unfold run_in; fold env2; by rewrite Hlook|].
    intros Hcase. destruct (decide (b2 = b1)) as [Heq|Hne].
    + specialize (Hown Heq). cbn in Hown. congruence.
    + destruct Hcase as [?|Hmiss]; [done|].
      cbn [ce_l1 env2] in El. rewrite Hl1 in El by done. by rewrite El in Hmiss.
  - exists a. split; [done|]. split; [done|].
    split; [unfold run_in; by rewrite Hstore|]. split; [unfold run_in; fold env2; by rewrite Hlook|done].
Qed.

(** Lookups made while the cache was enabled. *)
Definition enabled_lookup (op : cache_op) : bool :=
  match op with OpLookup _ config _ _ => cache_enabled config | OpStore _ _ _ _ _ => false end.

Lemma op_events_counts op evs :
  op_events op evs ->
  event_count EvL1Hit evs + event_count EvL1Miss evs = (if enabled_lookup op then 1 else 0) /\
  event_count EvL2Hit evs + event_count EvL2Miss evs = event_count EvL1Miss evs /\
  event_count EvL1Eviction evs = 0 /\ event_count EvL2Eviction evs = 0.
Proof.
  assert (Hb : forall b, negb (Z.of_nat b =? INVALID_PROC_NUMBER) = true).
  { intros b. apply negb_true_iff, Z.eqb_neq. unfold INVALID_PROC_NUMBER. lia. }
  intros Hop. unfold event_count, event_is.
  destruct Hop as [b ? ? ? He|b ? ? ? He|b ? ? ? He|b ? ? ? He|]; cbn [List.filter fst snd];
    rewrite ?Hb; cbn; rewrite ?He; done.
Qed.

Lemma event_count_app e evs1 evs2 :
  event_count e (evs1 ++ evs2) = event_count e evs1 + event_count e evs2.
Proof. induction evs1; cbn [app]; [done|]. rewrite !event_count_cons. lia. Qed.

Lemma latest_write_nil who src d : ~ latest_write who [] src d.
Proof. intros (pre & op & post & b & Hops & _). by destruct pre. Qed.

Lemma l1_lookup_none c k g now : l1_wf c -> l1_view c k = None -> (l1_lookup c k g now).2 = None.
Proof. intros Hwf Hv. by rewrite l1_lookup_answer, Hv. Qed.

(** C40. The two tiers disagree on what a key is: the L1 cache compares the
    128-bit identity, the L2 cache hashes all 32 bytes, with the [relation_id]
    and padding words that no code sets.  So a decision stored by one backend is
    not found by another backend whose key has the same identity but other
    leftover bytes there. *)
Theorem cache_padding_splits_entries use_asserts config n mem stats_mem b1 b2 cfg k k' a t1 t2 :
  mem_ok config mem -> op_ok n (OpStore b1 cfg k a t1) -> (b2 < n)%nat -> b1 <> b2 ->
  cache_enabled cfg = true -> key_id k' = key_id k -> k' <> k ->
  exists w0 w w', cache_boot (H := H) config (Z.of_nat n) mem stats_mem = Done w0 /\
    run_in b1 (fga_cache_store use_asserts cfg k a t1) w0 = (Done tt, w) /\
    run_in b2 (fga_cache_lookup (Z.of_nat b2) cfg k' t2) w = (Done None, w').
Proof.
  intros Hmem Hop Hb2 Hne He Hid Hk.
  destruct (cache_boot_spec n _ config mem stats_mem Hmem eq_refl) as (w0 & Hw0 & Hinv & _).
  destruct Hinv as [H2 (c & Hc & Hcap & Hg) H1 Hst Hs2 Hs1 _].
  assert (Hv2 : forall k0, l2_view (w_l2 w0) k0 = None).
  { intros k0. destruct (l2_view (w_l2 w0) k0) as [d|] eqn:Hv; [|done].
    by apply Hs2, latest_write_nil in Hv. }
  assert (Hv1 : l1_view (w_l1 w0 b2) k' = None).
  { destruct (l1_view (w_l1 w0 b2) k') as [d|] eqn:Hv; [|done].
    apply (Hs1 b2) in Hv as (src & _ & Hw). by apply latest_write_nil in Hw. }
  destruct (fga_cache_store_spec use_asserts cfg k a t1
    (MkEnv (w_l1 w0 b1) (w_l2 w0) (w_stats w0)) c H2 Hc ltac:(lia) He)
    as (env1 & Hstore & El1 & Est & Hwf1 & Hm1 & Hor). cbn [ce_l1 ce_l2 ce_stats] in *.
  destruct (meta_preserved _ _ _ Hm1 Hc) as (c1 & Hc1 & _ & _).
  assert (Hview : l2_view (ce_l2 env1) k' = None).
  { destruct Hor as [(ev & _ & Hv)|(_ & _ & Hv)]; rewrite Hv, Hv2; [|done].
    rewrite decide_False by done. by case_decide. }
  set (w := MkWorld (<[b1 := ce_l1 env1]> (w_l1 w0)) (ce_l2 env1) (ce_stats env1)).
  set (env2 := MkEnv (w_l1 w b2) (w_l2 w) (w_stats w)).
  assert (Hl1 : w_l1 w b2 = w_l1 w0 b2) by by apply fn_lookup_insert_ne.
  pose proof (fga_cache_lookup_spec (Z.of_nat b2) cfg k' t2 env2 c1 n Hwf1 Hc1
    ltac:(cbn; by rewrite Est) ltac:(lia) He) as Hspec. unfold lookup_result in Hspec.
  pose proof (l1_lookup_none (ce_l1 env2) k' (l2_generation c1) (get_now_ms t2)) as Hmiss.
  cbn [ce_l1 env2] in Hmiss. rewrite Hl1 in Hmiss.
  specialize (Hmiss (proj1 (H1 b2)) Hv1). cbn [ce_l1 ce_l2 env2] in Hspec.
  rewrite Hl1 in Hspec.
  destruct (l1_lookup (w_l1 w0 b2) k' _ _) as [l1' r]. cbn in Hmiss. subst r.
  assert (Hans : l2_answer (w_l2 w) k' (get_now_ms t2) = None).
  { unfold l2_answer. cbn [w_l2 w]. rewrite Hc1. cbn. by rewrite Hview. }
  rewrite Hans in Hspec. destruct Hspec as (env' & Hlook & _).
  exists w0, w, (MkWorld (<[b2 := ce_l1 env']> (w_l1 w)) (ce_l2 env') (ce_stats env')).
  split; [done|]. split; [unfold run_in; by rewrite Hstore|].
  unfold run_in. fold env2. by rewrite Hlook.
Qed.
End CacheProperties.

(** ** The properties on a concrete system: two backends, a 1 MB cache *)
Definition sample_config : FgaConfig :=
  MkConfig (Some (str "localhost:8081")) (Some (str "store")) (Some (str "")) false true
    1 60000 0 0.
Definition sample_mem : list FgaL2AclEntry :=
  replicate (Z.to_nat (l2_capacity_from_config sample_config)) sample_l2_entry.
Definition sample_stats_mem : FgaStats := MkStats 9 9 9 9 9 9 9 [].
Definition sample_key1 : FgaAclCacheKey := MkKey 5 1 0 0 0.
Definition sample_key1_padded : FgaAclCacheKey := MkKey 5 1 0 77 1.
Definition sample_cache_ops : list cache_op :=
  [OpLookup 0 sample_config sample_key1 1000; OpStore 0 sample_config sample_key1 true 2000;
   OpLookup 1 sample_config sample_key1 3000].

Lemma sample_mem_ok : mem_ok sample_config sample_mem.
Proof.
  split; [done|]. split; [apply length_replicate|]. by apply Forall_replicate.
Qed.

Lemma sample_ops_ok : Forall (op_ok 2) sample_cache_ops.
Proof.
  unfold sample_cache_ops, op_ok. repeat (apply Forall_cons; split; [cbn; lia|]).
  by apply Forall_nil.
Qed.

Lemma cache_bounded_staleness_witness :
  exists w0 w r w' : _, cache_boot (H := sample_table) sample_config (Z.of_nat 2) sample_mem
      sample_stats_mem = Done w0 /\
    cache_run true sample_cache_ops w0 = (Done tt, w) /\
    run_in 1 (fga_cache_lookup (Z.of_nat 1) sample_config sample_key1 5000) w = (Done r, w').
Proof.
  destruct (cache_bounded_staleness (H := sample_table) true sample_config 2 sample_mem
    sample_stats_mem sample_cache_ops 1 sample_config sample_key1 5000 sample_mem_ok
    sample_ops_ok ltac:(lia) ltac:(lia)) as (w0 & w & r & w' & Hb & Hr & Hl & _).
  exists w0, w, r, w'. split; [exact Hb|]. split; [exact Hr|exact Hl].
Defined.

Lemma cache_store_reaches_all_backends_witness :
  exists w0 w w1 w2 r, cache_boot (H := sample_table) sample_config (Z.of_nat 2) sample_mem
      sample_stats_mem = Done w0 /\
    cache_run true [] w0 = (Done tt, w) /\
    run_in 0 (fga_cache_store true sample_config sample_key1 false 7000) w = (Done tt, w1) /\
    run_in 1 (fga_cache_lookup (Z.of_nat 1) sample_config sample_key1 8000) w1 =
      (Done (Some r), w2).
Proof.
  destruct (cache_store_reaches_all_backends (H := sample_table) true sample_config 2 sample_mem
    sample_stats_mem [] 0 sample_config sample_key1 false 7000 1 sample_config 8000
    sample_mem_ok (Forall_nil_2 _) ltac:(unfold op_ok; cbn; lia) eq_refl eq_refl
    ltac:(lia) ltac:(lia) eq_refl)
    as (w0 & w & w1 & w2 & r & Hb & Hr & Hs & Hl & _).
  exists w0, w, w1, w2, r. split; [exact Hb|]. split; [exact Hr|]. split; [exact Hs|exact Hl].
Defined.


Lemma cache_padding_splits_entries_witness :
  exists w0 w w', cache_boot (H := sample_table) sample_config (Z.of_nat 2) sample_mem
      sample_stats_mem = Done w0 /\
    run_in 0 (fga_cache_store true sample_config sample_key1 true 1000) w0 = (Done tt, w) /\
    run_in 1 (fga_cache_lookup (Z.of_nat 1) sample_config sample_key1_padded 2000) w =
      (Done None, w').
Proof.
  apply (cache_padding_splits_entries (H := sample_table) true sample_config 2 sample_mem
    sample_stats_mem 0 1 sample_config sample_key1 sample_key1_padded true 1000 2000);
    [exact sample_mem_ok|unfold op_ok; cbn; lia|lia|discriminate|reflexivity|reflexivity|
     discriminate].
Defined.
