(* ===== verification/SlotQueue.v ===== *)
(** * The request queue: [src/channel_slot.h] (queue part), [src/channel.h]

    A ring of slot numbers in shared memory with 16-bit free-running head and
    tail counters, masked on access.  The abstract contract is a bounded FIFO
    list; the ring refines it for every power-of-two capacity up to 2^16. *)
From S2P Require Import Prelude Types.

Record FgaChannelSlotQueue : Type := MkQueue {
  q_mask : Z;            (* uint16_t *)
  q_head : Z;            (* uint16_t *)
  q_tail : Z;            (* uint16_t *)
  q_values : list Z;     (* FgaChannelSlotIndex = uint16_t *)
}.

Definition FgaChannelSlotQueue_fields : list (Z * Z) :=
  [c_uint16; c_uint16; c_uint16; (0, 2)].

Section Queue.
Variable use_asserts : bool.

(** [capacity] is a [uint16_t] parameter: the caller's value is converted. *)
Definition queue_init (q : FgaChannelSlotQueue) (capacity : Z)
  : outcome FgaChannelSlotQueue :=
  let capacity := u16 capacity in
  _ ← c_assert use_asserts (0 <? capacity);
  _ ← c_assert use_asserts (Z.land capacity (capacity - 1) =? 0);
  mret (MkQueue (u16 (u32 (capacity - 1))) 0 0 (q_values q)).
End Queue.

(** The operands are promoted to [int] before the subtraction. *)
Definition queue_size (q : FgaChannelSlotQueue) : Z :=
  u16 (Z.land (q_head q - q_tail q) (q_mask q)).

Definition queue_is_empty (q : FgaChannelSlotQueue) : bool := q_head q =? q_tail q.

Definition queue_is_full (q : FgaChannelSlotQueue) : bool := queue_size q =? q_mask q.

Definition queue_available (q : FgaChannelSlotQueue) : Z :=
  let capacity := u16 (u32 (q_mask q + 1)) in
  u16 (u32 (u32 (capacity - 1) - queue_size q)).

Definition with_head (q : FgaChannelSlotQueue) (h : Z) (vs : list Z) : FgaChannelSlotQueue :=
  MkQueue (q_mask q) h (q_tail q) vs.
Definition with_tail (q : FgaChannelSlotQueue) (t : Z) : FgaChannelSlotQueue :=
  MkQueue (q_mask q) (q_head q) t (q_values q).

Definition queue_enqueue (slot_index : Z) : CM FgaChannelSlotQueue bool := fun q =>
  if queue_is_full q then (Done false, q)
  else
    let i := Z.land (q_head q) (q_mask q) in
    match zlookup (q_values q) i with
    | None => (Undefined OutOfBounds, q)
    | Some _ =>
        (Done true,
         with_head q (u16 (q_head q + 1)) (<[Z.to_nat i := u16 slot_index]> (q_values q)))
    end.

(** [Some v]: true, with [*out_slot = v]. *)
Definition queue_dequeue : CM FgaChannelSlotQueue (option Z) := fun q =>
  if queue_is_empty q then (Done None, q)
  else
    match zlookup (q_values q) (Z.land (q_tail q) (q_mask q)) with
    | None => (Undefined OutOfBounds, q)
    | Some v => (Done (Some v), with_tail q (u16 (q_tail q + 1)))
    end.

(** The loop runs at most [max_count] times; [max_count - n] decreases. *)
Fixpoint queue_drain_loop (todo : nat) (out : list Z) : CM FgaChannelSlotQueue (list Z) :=
  fun q =>
  match todo with
  | O => (Done out, q)
  | S todo' =>
      if queue_is_empty q then (Done out, q)
      else
        match zlookup (q_values q) (Z.land (q_tail q) (q_mask q)) with
        | None => (Undefined OutOfBounds, q)
        | Some v => queue_drain_loop todo' (out ++ [v]) (with_tail q (u16 (q_tail q + 1)))
        end
  end.

Definition queue_drain (max_count : Z) : CM FgaChannelSlotQueue (list Z) :=
  queue_drain_loop (Z.to_nat max_count) [].

Definition queue_peek (index : Z) : CM FgaChannelSlotQueue (option Z) := fun q =>
  if queue_size q <=? index then (Done None, q)
  else
    match zlookup (q_values q) (Z.land (q_tail q + index) (q_mask q)) with
    | None => (Undefined OutOfBounds, q)
    | Some v => (Done (Some v), q)
    end.

(** ** The contract: a bounded FIFO *)
Inductive queue_op : Type :=
  | QEnqueue (v : Z) | QDequeue | QDrain (max_count : Z) | QPeek (index : Z)
  | QSize | QAvailable | QIsEmpty | QIsFull.

Inductive queue_res : Type :=
  | RBool (b : bool) | RValue (o : option Z) | RValues (l : list Z) | RNum (n : Z).

(** What an operation answers and leaves on a list of at most [cap - 1]
    elements, oldest first. *)
Definition fifo_step (cap : Z) (op : queue_op) (l : list Z) : queue_res * list Z :=
  match op with
  | QEnqueue v =>
      if Z.of_nat (length l) <? cap - 1 then (RBool true, l ++ [v]) else (RBool false, l)
  | QDequeue => (RValue (head l), tail l)
  | QDrain n => (RValues (take (Z.to_nat n) l), drop (Z.to_nat n) l)
  | QPeek i => (RValue (zlookup l i), l)
  | QSize => (RNum (Z.of_nat (length l)), l)
  | QAvailable => (RNum (cap - 1 - Z.of_nat (length l)), l)
  | QIsEmpty => (RBool (bool_decide (l = [])), l)
  | QIsFull => (RBool (Z.of_nat (length l) =? cap - 1), l)
  end.

Definition queue_step (op : queue_op) : CM FgaChannelSlotQueue queue_res :=
  match op with
  | QEnqueue v => b ← queue_enqueue v; mret (RBool b)
  | QDequeue => o ← queue_dequeue; mret (RValue o)
  | QDrain n => l ← queue_drain n; mret (RValues l)
  | QPeek i => o ← queue_peek i; mret (RValue o)
  | QSize => q ← cm_get; mret (RNum (queue_size q))
  | QAvailable => q ← cm_get; mret (RNum (queue_available q))
  | QIsEmpty => q ← cm_get; mret (RBool (queue_is_empty q))
  | QIsFull => q ← cm_get; mret (RBool (queue_is_full q))
  end.

(** Slot numbers and indices are [uint16_t]; counts are [uint32]. *)
Definition queue_op_ok (op : queue_op) : Prop :=
  match op with
  | QEnqueue v => 0 <= v < 65536
  | QPeek i => 0 <= i < 65536
  | _ => True
  end.

Fixpoint queue_run (ops : list queue_op) : CM FgaChannelSlotQueue (list queue_res) :=
  match ops with
  | [] => mret []
  | op :: ops' => r ← queue_step op; rs ← queue_run ops'; mret (r :: rs)
  end.

Fixpoint fifo_run (cap : Z) (ops : list queue_op) (l : list Z) : list queue_res * list Z :=
  match ops with
  | [] => ([], l)
  | op :: ops' =>
      let '(r, l') := fifo_step cap op l in
      let '(rs, l'') := fifo_run cap ops' l' in (r :: rs, l'')
  end.

(** ** The ring represents a list *)

(** [l] are the elements of the ring of capacity [2^k], oldest first. *)
Record queue_repr (k : Z) (q : FgaChannelSlotQueue) (l : list Z) : Prop := {
  qr_bits : 0 <= k <= 16;
  qr_mask : q_mask q = 2 ^ k - 1;
  qr_head : 0 <= q_head q < 65536;
  qr_tail : 0 <= q_tail q < 65536;
  qr_room : (Z.to_nat (2 ^ k) <= length (q_values q))%nat;
  qr_size : (q_head q - q_tail q) mod 65536 = Z.of_nat (length l);
  qr_bound : Z.of_nat (length l) < 2 ^ k;
  qr_at i v : l !! i = Some v ->
    q_values q !! Z.to_nat ((q_tail q + Z.of_nat i) mod 2 ^ k) = Some v;
}.

Lemma pow2_16 k : 0 <= k <= 16 -> 1 <= 2 ^ k <= 65536.
Proof.
  intros Hk. split.
  - change 1 with (2 ^ 0). apply Z.pow_le_mono_r; lia.
  - change 65536 with (2 ^ 16). apply Z.pow_le_mono_r; lia.
Qed.

Lemma mod_65536_mod k z : 0 <= k <= 16 -> (z mod 65536) mod 2 ^ k = z mod 2 ^ k.
Proof. intros Hk. by apply (mod_wrap z k 16). Qed.

Section Repr.
Context {k : Z} {q : FgaChannelSlotQueue} {l : list Z}.
Hypothesis Hq : queue_repr k q l.

Lemma repr_queue_size : queue_size q = Z.of_nat (length l).
Proof.
  destruct Hq. unfold queue_size. rewrite qr_mask0, land_mask by lia.
  pose proof (pow2_16 k qr_bits0). rewrite <- mod_65536_mod, qr_size0 by lia.
  rewrite Z.mod_small by lia. apply u16_small. lia.
Qed.

Lemma repr_is_empty : queue_is_empty q = bool_decide (l = []).
Proof.
  destruct Hq. unfold queue_is_empty. apply eq_true_iff_eq.
  rewrite Z.eqb_eq, bool_decide_eq_true, <- length_zero_iff_nil.
  split; intros Heq.
  - rewrite Heq, Z.sub_diag in qr_size0. rewrite Z.mod_0_l in qr_size0; lia.
  - rewrite Heq in qr_size0. apply Z.mod_divide in qr_size0 as [d Hd]; [|lia].
    assert (d = 0) by nia. lia.
Qed.

Lemma repr_is_full : queue_is_full q = (Z.of_nat (length l) =? 2 ^ k - 1).
Proof. unfold queue_is_full. rewrite repr_queue_size. by destruct Hq as [_ ->]. Qed.

Lemma repr_available : queue_available q = 2 ^ k - 1 - Z.of_nat (length l).
Proof.
  unfold queue_available. rewrite repr_queue_size. destruct Hq. rewrite qr_mask0.
  pose proof (pow2_16 k qr_bits0). rewrite Z.sub_add, (u32_small (2 ^ k)) by lia.
  destruct (Z.eq_dec (2 ^ k) 65536) as [->|Hne].
  - change (u32 (u16 65536 - 1)) with 4294967295.
    rewrite u32_small by lia. unfold u16, wrap.
    replace (4294967295 - Z.of_nat (length l))
      with (65535 - Z.of_nat (length l) + 65535 * 2 ^ 16) by lia.
    rewrite Z.mod_add by lia. rewrite Z.mod_small; lia.
  - rewrite (u16_small (2 ^ k)) by lia. rewrite (u32_small (2 ^ k - 1)) by lia.
    rewrite u32_small by lia. apply u16_small. lia.
Qed.

(** Reading the element [i] places behind the tail. *)
Lemma repr_read i v :
  l !! i = Some v ->
  zlookup (q_values q) (Z.land (q_tail q + Z.of_nat i) (q_mask q)) = Some v.
Proof.
  intros Hi. pose proof (qr_at _ _ _ Hq i v Hi) as Hv.
  destruct Hq. rewrite qr_mask0, land_mask by lia. unfold zlookup.
  pose proof (pow2_16 k qr_bits0).
  pose proof (Z.mod_pos_bound (q_tail q + Z.of_nat i) (2 ^ k) ltac:(lia)).
  by rewrite decide_True by lia.
Qed.
End Repr.

Lemma mod_shift_ne m a d : 0 < d < m -> (a + d) mod m <> a mod m.
Proof.
  intros Hd Heq. assert (Hz : ((a + d) - a) mod m = 0).
  { rewrite Zminus_mod, Heq, Z.sub_diag. by apply Z.mod_0_l; lia. }
  rewrite Z.add_simpl_l, Z.mod_small in Hz by lia. lia.
Qed.

(** The head points [length l] places behind the tail. *)
Lemma repr_head k q l :
  queue_repr k q l -> q_head q mod 2 ^ k = (q_tail q + Z.of_nat (length l)) mod 2 ^ k.
Proof.
  intros [Hb _ _ _ _ Hs _ _]. rewrite <- Hs.
  rewrite <- (mod_65536_mod k (q_tail q + _)) by done.
  rewrite Zplus_mod_idemp_r, mod_65536_mod by done. f_equal. lia.
Qed.

(** A queue holds one list. *)
Lemma queue_repr_fun k q l l' : queue_repr k q l -> queue_repr k q l' -> l = l'.
Proof.
  intros [_ _ _ _ _ Hs _ Ha] [_ _ _ _ _ Hs' _ Ha'].
  apply list_eq_same_length with (n := length l); [lia|done|].
  intros i x y Hi Hx Hy. apply Ha in Hx. apply Ha' in Hy. congruence.
Qed.

Lemma repr_enqueue k q l v :
  queue_repr k q l -> 0 <= v < 65536 -> Z.of_nat (length l) < 2 ^ k - 1 ->
  exists q', queue_enqueue v q = (Done true, q') /\ queue_repr k q' (l ++ [v]).
Proof.
  intros Hq Hv Hlen. pose proof (repr_is_full Hq) as Hfull. pose proof (repr_head k q l Hq) as Hh.
  destruct Hq as [Hb Hm Hhd Htl Hroom Hs Hbd Hat]. pose proof (pow2_16 k Hb) as Hp.
  unfold queue_enqueue. rewrite Hfull, (proj2 (Z.eqb_neq _ _)) by lia.
  rewrite Hm, land_mask by lia.
  pose proof (Z.mod_pos_bound (q_head q) (2 ^ k) ltac:(lia)) as Hi.
  destruct (lookup_lt_is_Some_2 (q_values q) (Z.to_nat (q_head q mod 2 ^ k))) as [v0 Hv0];
    [lia|].
  unfold zlookup. rewrite decide_True, Hv0, (u16_small v) by lia.
  eexists. split; [done|]. split; cbn; try done.
  - apply u16_range.
  - by rewrite length_insert.
  - rewrite length_app. cbn. unfold u16, wrap. change (2 ^ 16) with 65536.
    rewrite Zminus_mod_idemp_l.
    replace (q_head q + 1 - q_tail q) with (q_head q - q_tail q + 1) by lia.
    rewrite <- Zplus_mod_idemp_l, Hs. rewrite Z.mod_small; lia.
  - rewrite length_app. cbn. lia.
  - intros i w. destruct (decide (i = length l)) as [->|Hne].
    + rewrite list_lookup_middle by done. intros [= <-]. rewrite <- Hh.
      by rewrite list_lookup_insert_eq by lia.
    + intros Hi'. assert (Hil : (i < length l)%nat).
      { apply lookup_lt_Some in Hi'. rewrite length_app in Hi'. cbn in Hi'. lia. }
      rewrite lookup_app_l in Hi' by done. rewrite list_lookup_insert_ne; [by apply Hat|].
      rewrite Hh. intros Heq. apply Z2Nat.inj in Heq; [|apply Z.mod_pos_bound; lia..].
      apply (mod_shift_ne (2 ^ k) (q_tail q + Z.of_nat i) (Z.of_nat (length l) - Z.of_nat i));
        [lia|]. rewrite <- Heq. f_equal. lia.
Qed.

Lemma repr_tail_advance k q v l :
  queue_repr k q (v :: l) -> queue_repr k (with_tail q (u16 (q_tail q + 1))) l.
Proof.
  intros [Hb Hm Hhd Htl Hroom Hs Hbd Hat]. pose proof (pow2_16 k Hb) as Hp.
  cbn [length] in *. split; cbn; try done; try lia.
  - apply u16_range.
  - unfold u16, wrap. change (2 ^ 16) with 65536. rewrite Zminus_mod_idemp_r.
    replace (q_head q - (q_tail q + 1)) with (q_head q - q_tail q - 1) by lia.
    rewrite <- Zminus_mod_idemp_l, Hs. rewrite Z.mod_small; lia.
  - intros i w Hi. specialize (Hat (S i) w Hi). rewrite <- Hat. do 2 f_equal.
    rewrite <- Zplus_mod_idemp_l. unfold u16. rewrite (mod_wrap _ k 16) by done.
    rewrite Zplus_mod_idemp_l. f_equal. lia.
Qed.

Lemma repr_drain_loop k todo out q l :
  queue_repr k q l ->
  exists q', queue_drain_loop todo out q = (Done (out ++ take todo l), q') /\
    queue_repr k q' (drop todo l).
Proof.
  revert out q l. induction todo as [|todo IH]; intros out q l Hq; cbn [queue_drain_loop].
  - exists q. by rewrite app_nil_r.
  - rewrite (repr_is_empty Hq). destruct l as [|v l]; cbn [bool_decide].
    + rewrite bool_decide_eq_true_2 by done. exists q. by rewrite app_nil_r.
    + rewrite bool_decide_eq_false_2 by done.
      pose proof (repr_read Hq 0 v eq_refl) as Hv. rewrite Z.add_0_r in Hv. rewrite Hv.
      destruct (IH (out ++ [v]) _ l (repr_tail_advance k q v l Hq)) as (q' & -> & Hq').
      exists q'. by rewrite <- app_assoc.
Qed.

(** One operation of the ring is the operation of the contract. *)
Lemma queue_step_refines k q l op :
  queue_repr k q l -> queue_op_ok op ->
  let '(r, l') := fifo_step (2 ^ k) op l in
  exists q', queue_step op q = (Done r, q') /\ queue_repr k q' l'.
Proof.
  intros Hq Hop. pose proof (qr_bound _ _ _ Hq) as Hbd.
  destruct op as [v| |n|i| | | |]; cbn [fifo_step queue_step];
    unfold mbind, cm_bind, mret, cm_ret, cm_get.
  - destruct (Z.ltb_spec (Z.of_nat (length l)) (2 ^ k - 1)) as [Hlt|Hge].
    + destruct (repr_enqueue k q l v Hq Hop Hlt) as (q' & -> & Hq'). by exists q'.
    + unfold queue_enqueue. rewrite (repr_is_full Hq), (proj2 (Z.eqb_eq _ _)) by lia.
      by exists q.
  - unfold queue_dequeue. rewrite (repr_is_empty Hq). destruct l as [|v l].
    + rewrite bool_decide_eq_true_2 by done. by exists q.
    + rewrite bool_decide_eq_false_2 by done.
      pose proof (repr_read Hq 0 v eq_refl) as Hv. rewrite Z.add_0_r in Hv. rewrite Hv.
      eexists. split; [done|]. by eapply repr_tail_advance.
  - destruct (repr_drain_loop k (Z.to_nat n) [] q l Hq) as (q' & Hd & Hq').
    unfold queue_drain. rewrite Hd. by exists q'.
  - unfold queue_peek. rewrite (repr_queue_size Hq). cbn in Hop.
    assert (zlookup l i = l !! Z.to_nat i) as -> by (unfold zlookup; by rewrite decide_True by lia).
    destruct (Z.leb_spec (Z.of_nat (length l)) i) as [Hle|Hlt].
    + rewrite (proj2 (lookup_ge_None l (Z.to_nat i))) by lia. by exists q.
    + destruct (lookup_lt_is_Some_2 l (Z.to_nat i)) as [v Hv]; [lia|].
      pose proof (repr_read Hq _ v Hv) as Hr. rewrite Z2Nat.id in Hr by lia.
      rewrite Hr, Hv. by exists q.
  - rewrite (repr_queue_size Hq). by exists q.
  - rewrite (repr_available Hq). by exists q.
  - rewrite (repr_is_empty Hq). by exists q.
  - rewrite (repr_is_full Hq). by exists q.
Qed.

Lemma queue_run_refines k q l ops :
  queue_repr k q l -> Forall queue_op_ok ops ->
  exists q', queue_run ops q = (Done (fifo_run (2 ^ k) ops l).1, q') /\
    queue_repr k q' (fifo_run (2 ^ k) ops l).2.
Proof.
  revert q l. induction ops as [|op ops IH]; intros q l Hq Hok; [by exists q|].
  apply Forall_cons in Hok as [Hop Hok]. pose proof (queue_step_refines k q l op Hq Hop) as Hs.
  cbn [queue_run fifo_run]. destruct (fifo_step (2 ^ k) op l) as [r l'].
  destruct Hs as (q1 & Hs & Hq1). destruct (IH q1 l' Hq1 Hok) as (q' & Hr & Hq').
  destruct (fifo_run (2 ^ k) ops l') as [rs l'']. cbn in Hr, Hq'.
  unfold mbind, cm_bind. rewrite Hs, Hr. by exists q'.
Qed.

(** [queue_init] accepts every power of two; 2^16 only without assertions,
    since the 16-bit parameter is then 0. *)
Lemma queue_init_repr use_asserts k q :
  0 <= k <= 16 -> (use_asserts = true -> k < 16) ->
  (Z.to_nat (2 ^ k) <= length (q_values q))%nat ->
  exists q', queue_init use_asserts q (2 ^ k) = Done q' /\ queue_repr k q' [].
Proof.
  intros Hk Ha Hroom. pose proof (pow2_16 k Hk) as Hp.
  set (q' := MkQueue (2 ^ k - 1) 0 0 (q_values q)).
  assert (Hinit : queue_init use_asserts q (2 ^ k) = Done q').
  { unfold queue_init, q'. destruct (decide (k = 16)) as [->|Hne].
    - destruct use_asserts; [specialize (Ha eq_refl); lia|]. reflexivity.
    - assert (2 ^ k < 65536) by (change 65536 with (2 ^ 16); apply Z.pow_lt_mono_r; lia).
      rewrite (u16_small (2 ^ k)), land_mask, Z_mod_same_full by lia.
      rewrite (proj2 (Z.ltb_lt _ _)) by lia. rewrite u32_small, u16_small by lia.
      unfold c_assert. cbn. by rewrite andb_false_r. }
  exists q'. split; [exact Hinit|].
  split; cbn; try done; try lia.
Qed.

(** ** Properties *)

(** C19. The ring refines the bounded FIFO: from [queue_init] with any
    power-of-two capacity, every sequence of enqueues, single and batch
    dequeues, peeks and size queries answers as a list of at most [2^k - 1]
    elements does, in first-in first-out order; the 16-bit counters may wrap
    any number of times and no access leaves the array. *)
Theorem queue_refines_fifo use_asserts k q ops :
  0 <= k <= 16 -> (use_asserts = true -> k < 16) ->
  (Z.to_nat (2 ^ k) <= length (q_values q))%nat -> Forall queue_op_ok ops ->
  exists q0 q', queue_init use_asserts q (2 ^ k) = Done q0 /\
    queue_run ops q0 = (Done (fifo_run (2 ^ k) ops []).1, q').
Proof.
  intros Hk Ha Hroom Hok. destruct (queue_init_repr use_asserts k q Hk Ha Hroom)
    as (q0 & Hi & Hq0). destruct (queue_run_refines k q0 [] ops Hq0 Hok) as (q' & Hr & _).
  by exists q0, q'.
Qed.

Lemma queue_refines_fifo_witness :
  exists q0 q', queue_init true (MkQueue 9 9 9 [7; 7; 7; 7]) (2 ^ 2) = Done q0 /\
    queue_run [QEnqueue 1; QEnqueue 2; QEnqueue 3; QEnqueue 4; QDequeue; QEnqueue 5;
               QPeek 2; QDrain 50; QIsEmpty] q0 =
      (Done [RBool true; RBool true; RBool true; RBool false; RValue (Some 1); RBool true;
             RValue (Some 5); RValues [2; 3; 5]; RBool true], q').
Proof.
  apply (queue_refines_fifo true 2 (MkQueue 9 9 9 [7; 7; 7; 7])
    [QEnqueue 1; QEnqueue 2; QEnqueue 3; QEnqueue 4; QDequeue; QEnqueue 5;
     QPeek 2; QDrain 50; QIsEmpty]); [lia|lia|cbn; lia|].
  repeat (apply Forall_cons; split; [cbn; lia|]). by apply Forall_nil.
Defined.

(** The values whose enqueue answered true, and those taken out, in order. *)
Fixpoint accepted (ops : list queue_op) (rs : list queue_res) : list Z :=
  match ops, rs with
  | QEnqueue v :: ops', RBool b :: rs' =>
      if b then v :: accepted ops' rs' else accepted ops' rs'
  | _ :: ops', _ :: rs' => accepted ops' rs'
  | _, _ => []
  end.

Fixpoint delivered (ops : list queue_op) (rs : list queue_res) : list Z :=
  match ops, rs with
  | QDequeue :: ops', RValue o :: rs' => option_list o ++ delivered ops' rs'
  | QDrain _ :: ops', RValues vs :: rs' => vs ++ delivered ops' rs'
  | _ :: ops', _ :: rs' => delivered ops' rs'
  | _, _ => []
  end.

Lemma fifo_conserves cap ops l :
  let '(rs, l') := fifo_run cap ops l in
  l ++ accepted ops rs = delivered ops rs ++ l'.
Proof.
  revert l. induction ops as [|op ops IH]; intros l; cbn [fifo_run]; [by rewrite app_nil_r|].
  destruct (fifo_step cap op l) as [r l1] eqn:Hstep. specialize (IH l1).
  destruct (fifo_run cap ops l1) as [rs l'].
  destruct op as [v| |n|i| | | |]; cbn in Hstep; cbn [accepted delivered].
  - destruct (_ <? _) in Hstep; injection Hstep as <- <-; [|done].
    by rewrite cons_middle, app_assoc.
  - injection Hstep as <- <-. destruct l as [|v l]; [done|]. cbn in *. by rewrite IH.
  - injection Hstep as <- <-. by rewrite <- app_assoc, <- IH, app_assoc, take_drop.
  - by injection Hstep as <- <-.
  - by injection Hstep as <- <-.
  - by injection Hstep as <- <-.
  - by injection Hstep as <- <-.
  - by injection Hstep as <- <-.
Qed.

(** Conservation: over any history, the values delivered followed by the
    values still in the ring are exactly the values whose enqueue answered
    true, in that order: no slot number is lost, duplicated or reordered. *)
Theorem queue_conserves use_asserts k q ops :
  0 <= k <= 16 -> (use_asserts = true -> k < 16) ->
  (Z.to_nat (2 ^ k) <= length (q_values q))%nat -> Forall queue_op_ok ops ->
  exists q0 rs q' l, queue_init use_asserts q (2 ^ k) = Done q0 /\
    queue_run ops q0 = (Done rs, q') /\ queue_repr k q' l /\
    accepted ops rs = delivered ops rs ++ l.
Proof.
  intros Hk Ha Hroom Hok. destruct (queue_init_repr use_asserts k q Hk Ha Hroom)
    as (q0 & Hi & Hq0). destruct (queue_run_refines k q0 [] ops Hq0 Hok) as (q' & Hr & Hq').
  pose proof (fifo_conserves (2 ^ k) ops []) as Hc.
  destruct (fifo_run (2 ^ k) ops []) as [rs l']. cbn in Hr, Hq', Hc.
  exists q0, rs, q', l'. by split_and!.
Qed.

Lemma queue_conserves_witness :
  exists q0 rs q' l, queue_init false (MkQueue 0 0 0 [7; 7]) (2 ^ 1) = Done q0 /\
    queue_run [QEnqueue 5; QEnqueue 6; QDrain 3; QEnqueue 8] q0 = (Done rs, q') /\
    queue_repr 1 q' l /\
    accepted [QEnqueue 5; QEnqueue 6; QDrain 3; QEnqueue 8] rs =
      delivered [QEnqueue 5; QEnqueue 6; QDrain 3; QEnqueue 8] rs ++ l.
Proof.
  apply (queue_conserves false 1 (MkQueue 0 0 0 [7; 7])); [lia|lia|cbn; lia|].
  repeat (apply Forall_cons; split; [cbn; lia|]). by apply Forall_nil.
Defined.
