(* ===== verification/SlotPool.v ===== *)
(** * The slot pool: [src/channel_slot.h] (pool part), [src/channel.h]

    Request slots in shared memory with an intrusive freelist.  The list links
    live in the slots, so the freelist is an interface over slot numbers; its
    laws cover the documented use, and the linked instance shows what happens
    outside of it. *)
From S2P Require Import Prelude Platform Types.

Definition InvalidPid : Z := -1.

Inductive FgaChannelSlotState : Type :=
  | FGA_CHANNEL_SLOT_EMPTY
  | FGA_CHANNEL_SLOT_CANCELED
  | FGA_CHANNEL_SLOT_PENDING
  | FGA_CHANNEL_SLOT_PROCESSING
  | FGA_CHANNEL_SLOT_DONE.

#[export] Instance slot_state_eq_dec : EqDecision FgaChannelSlotState.
Proof. solve_decision. Defined.

(** The [node] member is the slot's number in the freelist. *)
Record FgaChannelSlot : Type := MkSlot {
  slot_state : FgaChannelSlotState;
  backend_pid : Z;
  payload : FgaPayload;
}.

#[export] Instance slot_eq_dec : EqDecision FgaChannelSlot.
Proof. solve_decision. Defined.

Definition FgaChannelSlot_fields : list (Z * Z) :=
  [c_ptr; c_uint32; (4, 4); as_field FgaPayload_fields].
Definition FgaChannelSlotPool_fields : list (Z * Z) :=
  [c_ptr; (0, struct_align FgaChannelSlot_fields)].

Record FgaChannelSlotPool (L : Type) : Type := MkPool {
  pool_head : L;
  pool_slots : list FgaChannelSlot;
}.
Arguments MkPool {L} pool_head pool_slots.
Arguments pool_head {L} f.
Arguments pool_slots {L} f.

Definition set_state (s : FgaChannelSlot) (st : FgaChannelSlotState) : FgaChannelSlot :=
  MkSlot st (backend_pid s) (payload s).
Definition set_pid (s : FgaChannelSlot) (pid : Z) : FgaChannelSlot :=
  MkSlot (slot_state s) pid (payload s).
Definition set_payload (s : FgaChannelSlot) (p : FgaPayload) : FgaChannelSlot :=
  MkSlot (slot_state s) (backend_pid s) p.

Definition empty_slot : FgaChannelSlot := MkSlot FGA_CHANNEL_SLOT_EMPTY InvalidPid zero_payload.

Section Pool.
Context {L : Type} `{SList L}.

(** A pointer to a slot is its number; writing through it is checked. *)
Definition update_slot (i : nat) (f : FgaChannelSlot -> FgaChannelSlot)
  : CM (FgaChannelSlotPool L) unit := fun p =>
  match pool_slots p !! i with
  | None => (Undefined OutOfBounds, p)
  | Some s => (Done tt, MkPool (pool_head p) (<[i := f s]> (pool_slots p)))
  end.

Definition read_slot (i : nat) : CM (FgaChannelSlotPool L) FgaChannelSlot := fun p =>
  match pool_slots p !! i with
  | None => (Undefined OutOfBounds, p)
  | Some s => (Done s, p)
  end.

Definition push_node (i : nat) : CM (FgaChannelSlotPool L) unit := fun p =>
  (Done tt, MkPool (slist_push_head i (pool_head p)) (pool_slots p)).

(** [for (i = 0; i < max_slots; i++)] *)
Fixpoint pool_init_loop (n i : nat) : CM (FgaChannelSlotPool L) unit :=
  match n with
  | O => mret tt
  | S n' =>
      _ ← update_slot i (fun _ => empty_slot);
      _ ← push_node i;
      pool_init_loop n' (S i)
  end.

Definition pool_init (max_slots : Z) : CM (FgaChannelSlotPool L) unit := fun p =>
  pool_init_loop (Z.to_nat max_slots) 0 (MkPool (slist_init (pool_head p)) (pool_slots p)).

(** [None] is NULL. *)
Definition acquire_slot : CM (FgaChannelSlotPool L) (option nat) := fun p =>
  if slist_is_empty (pool_head p) then (Done None, p)
  else
    match slist_pop_head_node (pool_head p) with
    | None => (Undefined NullDeref, p)
    | Some (i, l) =>
        cm_bind _ _ (fun _ => mret (Some i))
          (update_slot i (fun s => set_state s FGA_CHANNEL_SLOT_PENDING))
          (MkPool l (pool_slots p))
    end.

Definition release_slot (i : nat) : CM (FgaChannelSlotPool L) unit :=
  _ ← update_slot i (fun s => set_state s FGA_CHANNEL_SLOT_EMPTY);
  push_node i.
End Pool.

(** ** The freelist as a list of slot numbers *)
Section PoolSpec.
Context {L : Type} {HS : SList L} {HL : SListLaws L}.

(** [free] are the free slots, next to be taken first. *)
Record pool_repr (p : FgaChannelSlotPool L) (free : list nat) : Prop := {
  pr_list : slist_repr (pool_head p) free;
  pr_nodup : NoDup free;
  pr_lt i : i ∈ free -> (i < length (pool_slots p))%nat;
  pr_empty i s : i ∈ free -> pool_slots p !! i = Some s ->
    slot_state s = FGA_CHANNEL_SLOT_EMPTY;
}.

(** The freelist determines the numbers and their order. *)
Lemma slist_repr_fun (h : L) xs ys : slist_repr h xs -> slist_repr h ys -> xs = ys.
Proof.
  revert h ys. induction xs as [|x xs IH]; intros h [|y ys] Hx Hy; [done|..];
    try (apply repr_is_empty in Hx, Hy; rewrite Hx in Hy; by repeat case_bool_decide).
  destruct (repr_pop _ _ _ Hx) as (h1 & H1 & Hx1). destruct (repr_pop _ _ _ Hy) as (h2 & H2 & Hy2).
  rewrite H1 in H2. injection H2 as <- <-. f_equal. by eapply IH.
Qed.

Lemma pool_repr_fun p free free' : pool_repr p free -> pool_repr p free' -> free = free'.
Proof. intros [H1 _ _ _] [H2 _ _ _]. by eapply slist_repr_fun. Qed.

Lemma update_slot_spec p i f s :
  pool_slots p !! i = Some s ->
  update_slot (L := L) i f p = (Done tt, MkPool (pool_head p) (<[i := f s]> (pool_slots p))).
Proof. intros Hs. unfold update_slot. by rewrite Hs. Qed.

Lemma pool_init_loop_spec n i p free :
  (i + n <= length (pool_slots p))%nat ->
  slist_repr (pool_head p) free -> (forall j, j ∈ free -> j < i)%nat ->
  exists l, pool_init_loop n i p =
      (Done tt, MkPool l (take i (pool_slots p) ++ replicate n empty_slot
                          ++ drop (i + n) (pool_slots p))) /\
    slist_repr l (rev (seq i n) ++ free).
Proof.
  revert i p free. induction n as [|n IH]; intros i p free Hlen Hr Hlt; cbn [pool_init_loop].
  - exists (pool_head p). rewrite Nat.add_0_r. cbn [replicate app].
    rewrite take_drop. by destruct p.
  - destruct (lookup_lt_is_Some_2 (pool_slots p) i) as [s Hs]; [lia|].
    unfold mbind, cm_bind. rewrite (update_slot_spec p i _ s Hs).
    unfold push_node. cbn [pool_head pool_slots].
    set (p1 := MkPool _ _).
    destruct (IH (S i) p1 (i :: free)) as (l & Hl & Hl').
    { cbn. rewrite length_insert. lia. }
    { apply repr_push; [done|]. intros Hin. apply Hlt in Hin. lia. }
    { intros j [->|Hj]%elem_of_cons; [lia|]. apply Hlt in Hj. lia. }
    exists l. split.
    + rewrite Hl. cbn [p1 pool_slots]. do 2 f_equal.
      rewrite (take_S_r _ i empty_slot) by (rewrite list_lookup_insert_eq; [done|lia]).
      rewrite take_insert_ge by lia. rewrite <- app_assoc. f_equal. cbn. do 2 f_equal.
      rewrite drop_insert_lt by lia. f_equal. lia.
    + cbn [seq rev]. by rewrite <- app_assoc.
Qed.

Lemma pool_init_repr n p :
  length (pool_slots p) = n ->
  exists p', pool_init (Z.of_nat n) p = (Done tt, p') /\
    pool_slots p' = replicate n empty_slot /\ pool_repr p' (rev (seq 0 n)).
Proof.
  intros Hlen. unfold pool_init. rewrite Nat2Z.id. set (p0 := MkPool _ _).
  destruct (pool_init_loop_spec n 0 p0 []) as (l & Hl & Hr).
  { cbn. lia. } { apply repr_init. } { intros j Hj. by apply elem_of_nil in Hj. }
  cbn [p0 pool_slots] in Hl. rewrite take_0 in Hl. cbn [app] in Hl.
  rewrite Nat.add_0_l, drop_ge, app_nil_r in Hl by lia.
  rewrite app_nil_r in Hr. eexists. split; [exact Hl|]. split; [done|]. split; cbn.
  - exact Hr.
  - apply NoDup_ListNoDup, List.NoDup_rev, seq_NoDup.
  - intros i Hi. rewrite length_replicate.
    apply list_elem_of_In, in_rev, in_seq in Hi. lia.
  - intros i s _ [-> _]%lookup_replicate_1. done.
Qed.

Lemma acquire_slot_spec p free :
  pool_repr p free ->
  match free with
  | [] => acquire_slot p = (Done None, p)
  | i :: free' => exists s p', pool_slots p !! i = Some s /\
      acquire_slot p = (Done (Some i), p') /\ pool_repr p' free' /\
      pool_slots p' = <[i := set_state s FGA_CHANNEL_SLOT_PENDING]> (pool_slots p)
  end.
Proof.
  intros [Hr Hn Hlt He]. unfold acquire_slot. rewrite (repr_is_empty _ _ Hr).
  destruct free as [|i free]; [by rewrite bool_decide_eq_true_2|].
  rewrite bool_decide_eq_false_2 by done.
  destruct (repr_pop _ _ _ Hr) as (l & -> & Hl).
  destruct (lookup_lt_is_Some_2 (pool_slots p) i) as [s Hs]; [by apply Hlt; left|].
  apply NoDup_cons in Hn as [Hi Hn].
  unfold cm_bind. rewrite (update_slot_spec (MkPool l (pool_slots p)) i _ s Hs). cbn.
  eexists s, _. split; [done|]. split; [done|]. split; [|done]. split; cbn; try done.
  - intros j Hj. rewrite length_insert. apply Hlt. by right.
  - intros j s' Hj. rewrite list_lookup_insert_ne by congruence. apply He. by right.
Qed.

Lemma release_slot_spec p free i s :
  pool_repr p free -> pool_slots p !! i = Some s -> i ∉ free ->
  exists p', release_slot i p = (Done tt, p') /\ pool_repr p' (i :: free) /\
    pool_slots p' = <[i := set_state s FGA_CHANNEL_SLOT_EMPTY]> (pool_slots p).
Proof.
  intros [Hr Hn Hlt He] Hs Hi. unfold release_slot, mbind, cm_bind.
  rewrite (update_slot_spec p i _ s Hs). unfold push_node. cbn.
  assert (Hil : (i < length (pool_slots p))%nat) by by eapply lookup_lt_Some.
  eexists. split; [done|]. split; [|done]. split; cbn.
  - by apply repr_push.
  - by apply NoDup_cons.
  - intros j [->|Hj]%elem_of_cons; rewrite length_insert; [done|by apply Hlt].
  - intros j s' [->|Hj]%elem_of_cons.
    + rewrite list_lookup_insert_eq by done. by intros [= <-].
    + rewrite list_lookup_insert_ne by congruence. by apply He.
Qed.
End PoolSpec.

(** ** Histories of well-behaved clients *)

(** A client gives back the [j]-th of the slots it holds. *)
Inductive pool_op : Type := PAcquire | PReleaseNth (j : nat).

Section PoolHistory.
Context {L : Type} {HS : SList L}.

Definition pool_step (op : pool_op) (held : list nat)
  : CM (FgaChannelSlotPool L) (list nat) :=
  match op with
  | PAcquire =>
      r ← acquire_slot;
      match r with Some i => mret (i :: held) | None => mret held end
  | PReleaseNth j =>
      match held !! j with
      | Some i => _ ← release_slot i; mret (delete j held)
      | None => mret held
      end
  end.

Fixpoint pool_run (ops : list pool_op) (held : list nat)
  : CM (FgaChannelSlotPool L) (list nat) :=
  match ops with
  | [] => mret held
  | op :: ops' => held' ← pool_step op held; pool_run ops' held'
  end.

Context {HL : SListLaws L}.

(** Free and held slots are all the slots, each once. *)
Definition pool_partition (n : nat) (p : FgaChannelSlotPool L) (held : list nat) : Prop :=
  length (pool_slots p) = n /\
  exists free, pool_repr p free /\ free ++ held ≡ₚ seq 0 n.

Lemma partition_nodup n p held : pool_partition n p held -> NoDup held.
Proof.
  intros (_ & free & _ & Hp). assert (Hn : NoDup (free ++ held)).
  { rewrite Hp. apply NoDup_seq. }
  by apply NoDup_app in Hn as (_ & _ & Hn).
Qed.

Lemma partition_lookup n p held i :
  pool_partition n p held -> i ∈ held ->
  exists s, pool_slots p !! i = Some s.
Proof.
  intros (Hl & free & _ & Hp) Hi. apply lookup_lt_is_Some_2. rewrite Hl.
  assert (Hin : i ∈ free ++ held) by (apply elem_of_app; by right).
  rewrite Hp in Hin. apply elem_of_seq in Hin. lia.
Qed.

Lemma pool_step_partition n op p held :
  pool_partition n p held ->
  exists held' p', pool_step op held p = (Done held', p') /\ pool_partition n p' held'.
Proof.
  intros Hpart. pose proof Hpart as (Hl & free & Hr & Hp).
  destruct op as [|j]; cbn [pool_step]; unfold mbind, cm_bind, mret, cm_ret.
  - pose proof (acquire_slot_spec p free Hr) as Ha. destruct free as [|i free].
    + rewrite Ha. by exists held, p.
    + destruct Ha as (s & p' & Hs & -> & Hr' & Hslots).
      exists (i :: held), p'. split; [done|]. split; [by rewrite Hslots, length_insert|].
      exists free. split; [done|]. rewrite <- Hp. cbn. symmetry. apply Permutation_middle.
  - destruct (held !! j) as [i|] eqn:Hj; [|by exists held, p].
    assert (Hih : i ∈ held) by by eapply list_elem_of_lookup_2.
    destruct (partition_lookup n p held i Hpart Hih) as [s Hs].
    assert (Hif : i ∉ free).
    { intros Hif. assert (Hn : NoDup (free ++ held)) by (rewrite Hp; apply NoDup_seq).
      apply NoDup_app in Hn as (_ & Hd & _). by apply (Hd i). }
    destruct (release_slot_spec p free i s Hr Hs Hif) as (p' & -> & Hr' & Hslots).
    exists (delete j held), p'. split; [done|].
    split; [by rewrite Hslots, length_insert|]. exists (i :: free). split; [done|].
    rewrite <- Hp. cbn. rewrite Permutation_middle. f_equiv.
    symmetry. by apply delete_Permutation.
Qed.

Lemma pool_run_partition n ops p held :
  pool_partition n p held ->
  exists held' p', pool_run ops held p = (Done held', p') /\ pool_partition n p' held'.
Proof.
  revert p held. induction ops as [|op ops IH]; intros p held Hp; [by exists held, p|].
  destruct (pool_step_partition n op p held Hp) as (held1 & p1 & Hs & Hp1).
  destruct (IH p1 held1 Hp1) as (held' & p' & Hr & Hp').
  exists held', p'. cbn [pool_run]. unfold mbind, cm_bind. by rewrite Hs, Hr.
Qed.

(** Exclusive ownership: after [pool_init], however clients acquire slots
    and give back slots they hold, no slot is ever held twice, the free and
    the held slots are together all slots, and an acquire fails exactly when
    every slot is held. *)
Theorem pool_exclusive_ownership n p ops :
  length (pool_slots p) = n ->
  exists p0 held p1 r p2, pool_init (L := L) (Z.of_nat n) p = (Done tt, p0) /\
    pool_run ops [] p0 = (Done held, p1) /\ NoDup held /\
    (exists free, pool_repr p1 free /\ free ++ held ≡ₚ seq 0 n) /\
    acquire_slot p1 = (Done r, p2) /\
    (r = None <-> length held = n) /\ (forall i, r = Some i -> i ∉ held).
Proof.
  intros Hlen. destruct (pool_init_repr n p Hlen) as (p0 & Hi & Hs0 & Hr0).
  assert (Hp0 : pool_partition n p0 []).
  { split; [by rewrite Hs0, length_replicate|]. exists (rev (seq 0 n)). split; [done|].
    rewrite app_nil_r. symmetry. apply Permutation_rev. }
  destruct (pool_run_partition n ops p0 [] Hp0) as (held & p1 & Hrun & Hp1).
  pose proof (partition_nodup n p1 held Hp1) as Hnd.
  destruct Hp1 as (Hl1 & free & Hr1 & Hperm). pose proof (acquire_slot_spec p1 free Hr1) as Ha.
  pose proof (Permutation_length Hperm) as Hcount.
  rewrite length_app, length_seq in Hcount.
  destruct free as [|i free]; [|destruct Ha as (s & p2 & _ & Ha & _)].
  - exists p0, held, p1, None, p1. split_and!; try done; [by exists []].
  - exists p0, held, p1, (Some i), p2. split_and!; try done; [by exists (i :: free)| |].
    + cbn in Hcount. split; [done|lia].
    + intros j [= <-] Hin.
      assert (Hn : NoDup ((i :: free) ++ held)) by (rewrite Hperm; apply NoDup_seq).
      apply NoDup_app in Hn as (_ & Hd & _). apply (Hd i); [by left|done].
Qed.
End PoolHistory.

Definition sample_pool : FgaChannelSlotPool linked :=
  MkPool (Linked (Some 9%nat) ∅) (replicate 3 (MkSlot FGA_CHANNEL_SLOT_DONE 42 zero_payload)).

Lemma pool_exclusive_ownership_witness :
  exists p0 held p1, pool_init (Z.of_nat 3) sample_pool = (Done tt, p0) /\
    pool_run [PAcquire; PAcquire; PReleaseNth 1; PAcquire; PAcquire] [] p0 = (Done held, p1) /\
    NoDup held.
Proof.
  destruct (pool_exclusive_ownership 3 sample_pool
    [PAcquire; PAcquire; PReleaseNth 1; PAcquire; PAcquire] eq_refl)
    as (p0 & held & p1 & r & p2 & Hi & Hr & Hn & _).
  exists p0, held, p1. split; [exact Hi|]. split; [exact Hr|exact Hn].
Defined.

(** Outside that discipline the intrusive list breaks: releasing the same
    slot twice makes it its own successor, and from then on every acquire
    hands out that slot, so two requests share one payload. *)
Theorem double_release_shares_slot (p : FgaChannelSlotPool linked) i s :
  pool_slots p !! i = Some s ->
  exists p1 p2 p3 p4, release_slot i p = (Done tt, p1) /\ release_slot i p1 = (Done tt, p2) /\
    acquire_slot p2 = (Done (Some i), p3) /\ acquire_slot p3 = (Done (Some i), p4) /\
    pool_head p4 = pool_head p2.
Proof.
  intros Hs.
  assert (Hrel : forall (q : FgaChannelSlotPool linked) t, pool_slots q !! i = Some t ->
    release_slot i q = (Done tt, MkPool (slist_push_head i (pool_head q))
      (<[i := set_state t FGA_CHANNEL_SLOT_EMPTY]> (pool_slots q)))).
  { intros q t Hq. unfold release_slot, mbind, cm_bind. by rewrite (update_slot_spec q i _ t Hq). }
  assert (Hacq : forall (q : FgaChannelSlotPool linked) t nx, pool_slots q !! i = Some t ->
    ln_head (pool_head q) = Some i -> ln_next (pool_head q) !! i = Some nx ->
    acquire_slot q = (Done (Some i), MkPool (Linked nx (ln_next (pool_head q)))
      (<[i := set_state t FGA_CHANNEL_SLOT_PENDING]> (pool_slots q)))).
  { intros q t nx Hq Hh Hn. unfold acquire_slot. cbn. rewrite Hh, Hn. cbn.
    unfold cm_bind, update_slot. cbn. by rewrite Hq. }
  assert (Hins : forall (l : list FgaChannelSlot) t t', l !! i = Some t -> <[i := t']> l !! i = Some t').
  { intros l t t' Hl. apply list_lookup_insert_eq. by eapply lookup_lt_Some. }
  do 4 eexists. split; [by apply Hrel|]. split; [eapply Hrel; by eapply Hins|].
  split; [eapply Hacq|].
  - eapply Hins, Hins, Hs.
  - done.
  - apply lookup_insert_eq.
  - split; [eapply Hacq|].
    + eapply Hins, Hins, Hins, Hs.
    + done.
    + apply lookup_insert_eq.
    + done.
Qed.

Lemma double_release_shares_slot_witness :
  exists p1 p2 p3 p4, release_slot 1 sample_pool = (Done tt, p1) /\
    release_slot 1 p1 = (Done tt, p2) /\ acquire_slot p2 = (Done (Some 1%nat), p3) /\
    acquire_slot p3 = (Done (Some 1%nat), p4) /\ pool_head p4 = pool_head p2.
Proof. by apply (double_release_shares_slot sample_pool 1 _ eq_refl). Defined.
