(* ===== verification/Channel.v ===== *)
(** * The request channel, backend side: [src/channel.c], [src/channel.h]

    A backend takes a slot from the pool, fills the request, puts the slot's
    number on the queue, wakes the background worker and waits on its latch
    until the worker has set the slot's state.  While it waits, other processes
    change the shared memory: each wake-up of the wait loop carries what they
    did in the meantime and whether an interrupt is pending. *)
From S2P Require Import Prelude Platform Types SlotQueue SlotPool.

Definition FGA_CHANNEL_DRAIN_MAX : Z := 64.

Record FgaChannel (L : Type) : Type := MkChannel {
  pool_lock : option LWLockMode;
  queue_lock : option LWLockMode;
  ch_request_id : Z;                  (* pg_atomic_uint64 *)
  ch_pool : FgaChannelSlotPool L;
  ch_queue : FgaChannelSlotQueue;
}.
Arguments MkChannel {L} pool_lock queue_lock ch_request_id ch_pool ch_queue.
Arguments pool_lock {L} f.
Arguments queue_lock {L} f.
Arguments ch_request_id {L} f.
Arguments ch_pool {L} f.
Arguments ch_queue {L} f.

Definition FgaChannel_fields : list (Z * Z) := [c_ptr; c_ptr; c_uint64; c_ptr; c_ptr].

(** One return of [WaitLatch]: the others' effect on the channel since the
    last look, and the error [CHECK_FOR_INTERRUPTS] raises, if one is pending. *)
Record wake (L : Type) : Type := MkWake {
  wk_others : FgaChannel L -> FgaChannel L;
  wk_interrupt : option pg_error;
}.
Arguments MkWake {L} wk_others wk_interrupt.
Arguments wk_others {L} w.
Arguments wk_interrupt {L} w.

(** What a backend sees: the channel, the worker's latch ([None] when no worker
    has registered one) and the wake-ups to come. *)
Record chan_env (L : Type) : Type := MkChanEnv {
  env_channel : FgaChannel L;
  bgw_latch : option bool;
  env_wakes : list (wake L);
}.
Arguments MkChanEnv {L} env_channel bgw_latch env_wakes.
Arguments env_channel {L} c.
Arguments bgw_latch {L} c.
Arguments env_wakes {L} c.

Section Channel.
Context {L : Type} {HS : SList L}.
Variable use_asserts : bool.

(** ** Access to the parts of the channel *)
Definition on_pool {A} (m : CM (FgaChannelSlotPool L) A) : CM (FgaChannel L) A := fun c =>
  let '(r, p) := m (ch_pool c) in
  (r, MkChannel (pool_lock c) (queue_lock c) (ch_request_id c) p (ch_queue c)).

Definition on_queue {A} (m : CM FgaChannelSlotQueue A) : CM (FgaChannel L) A := fun c =>
  let '(r, q) := m (ch_queue c) in
  (r, MkChannel (pool_lock c) (queue_lock c) (ch_request_id c) (ch_pool c) q).

Definition set_pool_lock (m : option LWLockMode) (c : FgaChannel L) : FgaChannel L :=
  MkChannel m (queue_lock c) (ch_request_id c) (ch_pool c) (ch_queue c).
Definition set_queue_lock (m : option LWLockMode) (c : FgaChannel L) : FgaChannel L :=
  MkChannel (pool_lock c) m (ch_request_id c) (ch_pool c) (ch_queue c).

Definition lock_pool : CM (FgaChannel L) unit := fun c =>
  match pool_lock c with
  | Some _ => (Undefined SelfDeadlock, c)
  | None => (Done tt, set_pool_lock (Some LW_EXCLUSIVE) c)
  end.
Definition unlock_pool : CM (FgaChannel L) unit := fun c => (Done tt, set_pool_lock None c).
Definition lock_queue : CM (FgaChannel L) unit := fun c =>
  match queue_lock c with
  | Some _ => (Undefined SelfDeadlock, c)
  | None => (Done tt, set_queue_lock (Some LW_EXCLUSIVE) c)
  end.
Definition unlock_queue : CM (FgaChannel L) unit := fun c => (Done tt, set_queue_lock None c).

(** [pg_atomic_add_fetch_u64(&channel->request_id, 1)] *)
Definition next_request_id : CM (FgaChannel L) Z := fun c =>
  let id := u64 (ch_request_id c + 1) in
  (Done id, MkChannel (pool_lock c) (queue_lock c) id (ch_pool c) (ch_queue c)).

Definition with_request_id (r : FgaRequest) (id : Z) : FgaRequest :=
  MkRequest id (req_type r) (req_store_id r) (req_model_id r) (req_body r).
Definition with_request (p : FgaPayload) (r : FgaRequest) : FgaPayload :=
  MkPayload r (response p).

Definition fga_channel_acquire_slot (MyProcPid : Z) : CM (FgaChannel L) nat :=
  _ ← lock_pool;
  slot ← on_pool acquire_slot;
  _ ← unlock_pool;
  match slot with
  | None => ereport "ERRCODE_OUT_OF_MEMORY" "channel slot pool exhausted"
  | Some i =>
      _ ← on_pool (update_slot i (fun s => set_pid s MyProcPid));
      _ ← on_pool (update_slot i (fun s => set_payload s zero_payload));
      id ← next_request_id;
      _ ← on_pool (update_slot i (fun s =>
             set_payload s (with_request (payload s) (with_request_id (request (payload s)) id))));
      mret i
  end.

Definition fga_channel_release_slot (slot : nat) : CM (FgaChannel L) unit :=
  _ ← lock_pool;
  _ ← on_pool (release_slot slot);
  unlock_pool.

(** The slot pointers are the slot numbers; [buf] holds at most 64 of them. *)
Definition fga_channel_drain_slots (max_count : Z) : CM (FgaChannel L) (list Z) :=
  let max_count := if FGA_CHANNEL_DRAIN_MAX <? max_count then FGA_CHANNEL_DRAIN_MAX
                   else max_count in
  _ ← lock_queue;
  buf ← on_queue (queue_drain max_count);
  _ ← unlock_queue;
  mret buf.

(** ** Waiting for the worker *)
Definition on_channel {A} (m : CM (FgaChannel L) A) : CM (chan_env L) A := fun e =>
  let '(r, c) := m (env_channel e) in (r, MkChanEnv c (bgw_latch e) (env_wakes e)).

(** [SetLatch(fga_state_instance_->bgw_latch)] *)
Definition fga_wake_bgw : CM (chan_env L) unit := fun e =>
  match bgw_latch e with
  | None => (Undefined NullDeref, e)
  | Some _ => (Done tt, MkChanEnv (env_channel e) (Some true) (env_wakes e))
  end.

(** [WaitLatch] and [CHECK_FOR_INTERRUPTS]: without another wake-up the backend
    waits forever. *)
Definition wait_latch : CM (chan_env L) unit := fun e =>
  match env_wakes e with
  | [] => (Undefined WaitsForever, e)
  | w :: ws =>
      let e' := MkChanEnv (wk_others w (env_channel e)) (bgw_latch e) ws in
      match wk_interrupt w with
      | Some err => (Error err, e')
      | None => (Done tt, e')
      end
  end.

(** The [for (;;)] loop; each turn but the last consumes a wake-up. *)
Fixpoint wait_loop (fuel : nat) (slot : nat) : CM (chan_env L) FgaChannelSlotState :=
  match fuel with
  | O => cm_lift (Undefined OutOfFuel)
  | S fuel' =>
      s ← on_channel (on_pool (read_slot slot));
      match slot_state s with
      | FGA_CHANNEL_SLOT_DONE => mret FGA_CHANNEL_SLOT_DONE
      | FGA_CHANNEL_SLOT_CANCELED => mret FGA_CHANNEL_SLOT_CANCELED
      | _ => _ ← wait_latch; wait_loop fuel' slot
      end
  end.

(** The PG_CATCH block: it reads the state, acts on what it has read, and
    clears the owner; these are three separate accesses to shared memory. *)
Definition wait_catch_act (state : FgaChannelSlotState) (slot : nat) : CM (FgaChannel L) unit :=
  match state with
  | FGA_CHANNEL_SLOT_PENDING | FGA_CHANNEL_SLOT_PROCESSING =>
      on_pool (update_slot slot (fun s => set_state s FGA_CHANNEL_SLOT_CANCELED))
  | FGA_CHANNEL_SLOT_DONE => fga_channel_release_slot slot
  | _ => mret tt
  end.

Definition wait_catch_pid (slot : nat) : CM (FgaChannel L) unit :=
  on_pool (update_slot slot (fun s => set_pid s InvalidPid)).

Definition wait_catch (slot : nat) : CM (FgaChannel L) unit :=
  cur ← on_pool (read_slot slot);
  _ ← wait_catch_act (slot_state cur) slot;
  wait_catch_pid slot.

Definition wait_response (MyProcPid : Z) (slot : nat) : CM (chan_env L) FgaChannelSlotState :=
  s ← on_channel (on_pool (read_slot slot));
  _ ← cm_lift (c_assert use_asserts (backend_pid s =? MyProcPid));
  e ← cm_get;
  pg_try (wait_loop (S (length (env_wakes e))) slot) (on_channel (wait_catch slot)).

(** [FgaChannelSlotIndex] is a [uint16_t].  The [Assert] names a member the
    pool does not have, so only builds without assertions compile. *)
Definition fga_channel_execute_slot (MyProcPid : Z) (slot : nat) : CM (chan_env L) unit :=
  let index := u16 (Z.of_nat slot) in
  _ ← on_channel lock_queue;
  ok ← on_channel (on_queue (queue_enqueue index));
  if negb ok then
    _ ← on_channel unlock_queue;
    _ ← on_channel (fga_channel_release_slot slot);
    ereport "ERRCODE_INTERNAL_ERROR" "postfga: failed to enqueue channel slot"
  else
    _ ← on_channel unlock_queue;
    _ ← fga_wake_bgw;
    st ← wait_response MyProcPid slot;
    match st with
    | FGA_CHANNEL_SLOT_CANCELED =>
        _ ← on_channel (fga_channel_release_slot slot);
        ereport "ERRCODE_INTERNAL_ERROR" "postfga: request was canceled"
    | _ => mret tt
    end.
End Channel.

(** ** Waking a backend

    [BackendPidGetProc]: the live backends by pid, with their latches. *)
Definition fga_channel_wake_backend {L} (c : FgaChannel L) (slot : nat)
    (procs : gmap Z bool) : outcome (bool * gmap Z bool) :=
  match pool_slots (ch_pool c) !! slot with
  | None => Undefined OutOfBounds
  | Some s =>
      match procs !! backend_pid s with
      | Some _ => Done (true, <[backend_pid s := true]> procs)
      | None => Done (false, procs)
      end
  end.

(** ** What the operations do to a consistent channel *)
Section ChannelSpec.
Context {L : Type} {HS : SList L} {HL : SListLaws L}.
Variable use_asserts : bool.
Variable k : Z.     (* the queue holds 2^k numbers *)

(** [free] is the freelist, [l] the queued slot numbers; nobody holds a lock. *)
Record chan_repr (c : FgaChannel L) (free : list nat) (l : list Z) : Prop := {
  cr_pool_lock : pool_lock c = None;
  cr_queue_lock : queue_lock c = None;
  cr_pool : pool_repr (ch_pool c) free;
  cr_queue : queue_repr k (ch_queue c) l;
  cr_index : Z.of_nat (length (pool_slots (ch_pool c))) <= 65536;
}.

Lemma chan_repr_fun c free free' l l' : chan_repr c free l -> chan_repr c free' l' -> l = l'.
Proof. intros [_ _ _ H1 _] [_ _ _ H2 _]. by eapply queue_repr_fun. Qed.

Definition chan_slot (c : FgaChannel L) (i : nat) : option FgaChannelSlot :=
  pool_slots (ch_pool c) !! i.

(** The request a slot holds when it has just been acquired. *)
Definition fresh_payload (id : Z) : FgaPayload :=
  MkPayload (with_request_id zero_request id) zero_response.

Ltac chan_run :=
  unfold mbind, cm_bind, mret, cm_ret, on_pool, on_queue, lock_pool, unlock_pool,
    lock_queue, unlock_queue, next_request_id, ereport; cbn.

(** Writing a slot that is not free. *)
Lemma chan_update_slot c free l i f s :
  chan_repr c free l -> chan_slot c i = Some s -> i ∉ free ->
  exists c', on_pool (update_slot i f) c = (Done tt, c') /\ chan_repr c' free l /\
    pool_slots (ch_pool c') = <[i := f s]> (pool_slots (ch_pool c)) /\
    ch_request_id c' = ch_request_id c /\ ch_queue c' = ch_queue c.
Proof.
  intros [Hp Hq Hr Hqr Hi] Hs Hf. unfold on_pool. rewrite (update_slot_spec _ i f s Hs).
  eexists. split; [done|]. split; [|by split_and!].
  split; cbn; [exact Hp|exact Hq| |exact Hqr|by rewrite length_insert].
  destruct Hr as [Hl Hn Hlt He]. split; cbn; [exact Hl|exact Hn| |].
  - intros j Hj. rewrite length_insert. by apply Hlt.
  - intros j s' Hj. rewrite list_lookup_insert_ne by congruence. by apply He.
Qed.

Lemma chan_read_slot (c : FgaChannel L) i s :
  chan_slot c i = Some s -> on_pool (read_slot i) c = (Done s, c).
Proof. intros Hs. unfold on_pool, read_slot. unfold chan_slot in Hs. rewrite Hs. by destruct c. Qed.

Lemma chan_slot_insert (c c' : FgaChannel L) i s s' :
  chan_slot c i = Some s ->
  pool_slots (ch_pool c') = <[i := s']> (pool_slots (ch_pool c)) ->
  chan_slot c' i = Some s' /\ forall j, j <> i -> chan_slot c' j = chan_slot c j.
Proof.
  unfold chan_slot. intros Hs ->. split.
  - apply list_lookup_insert_eq. by eapply lookup_lt_Some.
  - intros j Hj. by apply list_lookup_insert_ne.
Qed.

Lemma chan_acquire_spec c i free l pid :
  chan_repr c (i :: free) l ->
  let id := u64 (ch_request_id c + 1) in
  exists c', fga_channel_acquire_slot pid c = (Done i, c') /\ chan_repr c' free l /\
    chan_slot c' i = Some (MkSlot FGA_CHANNEL_SLOT_PENDING pid (fresh_payload id)) /\
    (forall j, j <> i -> chan_slot c' j = chan_slot c j) /\ i ∉ free /\
    ch_request_id c' = id.
Proof.
  intros Hc id. pose proof Hc as [Hpl Hql Hp Hq Hix].
  destruct (acquire_slot_spec _ _ Hp) as (s & p' & Hs & Ha & Hp' & Hslots).
  pose proof (pr_nodup _ _ Hp) as Hif. apply NoDup_cons in Hif as [Hif _].
  unfold fga_channel_acquire_slot, lock_pool, unlock_pool, mbind, cm_bind. rewrite Hpl.
  unfold on_pool at 1, set_pool_lock at 2. cbn [ch_pool set_pool_lock]. rewrite Ha.
  cbn [set_pool_lock pool_lock queue_lock ch_request_id ch_pool ch_queue].
  set (c1 := set_pool_lock None _).
  assert (Hc1 : chan_repr c1 free l).
  { split; cbn; try done. rewrite Hslots. by rewrite length_insert. }
  destruct (chan_slot_insert c c1 i s _ Hs Hslots) as [Hs1 Ho1].
  destruct (chan_update_slot c1 free l i (fun s => set_pid s pid) _ Hc1 Hs1 Hif)
    as (c2 & -> & Hc2 & Hsl2 & Hid2 & _).
  destruct (chan_slot_insert c1 c2 i _ _ Hs1 Hsl2) as [Hs2 Ho2].
  destruct (chan_update_slot c2 free l i (fun s => set_payload s zero_payload) _ Hc2 Hs2 Hif)
    as (c3 & -> & Hc3 & Hsl3 & Hid3 & _).
  destruct (chan_slot_insert c2 c3 i _ _ Hs2 Hsl3) as [Hs3 Ho3].
  unfold next_request_id. rewrite Hid3, Hid2. cbn [ch_request_id c1 set_pool_lock].
  cbv beta iota zeta. fold id. set (c4 := MkChannel (pool_lock c3) (queue_lock c3) id (ch_pool c3) (ch_queue c3)).
  assert (Hc4 : chan_repr c4 free l) by (by destruct Hc3).
  destruct (chan_update_slot c4 free l i (fun s => set_payload s
    (with_request (payload s) (with_request_id (request (payload s)) id))) _ Hc4 Hs3 Hif)
    as (c5 & -> & Hc5 & Hsl5 & Hid5 & _).
  destruct (chan_slot_insert c4 c5 i _ _ Hs3 Hsl5) as [Hs5 Ho5].
  exists c5. split; [done|]. split; [done|]. split; [by rewrite Hs5|].
  split; [|by rewrite Hid5]. intros j Hj. rewrite Ho5 by done.
  change (chan_slot c4 j) with (chan_slot c3 j). by rewrite Ho3, Ho2, Ho1.
Qed.

Lemma chan_acquire_exhausted c l pid :
  chan_repr c [] l ->
  fga_channel_acquire_slot pid c =
    (Error (PgError "ERRCODE_OUT_OF_MEMORY" "channel slot pool exhausted"), c).
Proof.
  intros [Hpl Hql Hp Hq Hix]. pose proof (acquire_slot_spec _ _ Hp) as Ha. cbn in Ha.
  unfold fga_channel_acquire_slot, lock_pool, unlock_pool, mbind, cm_bind. rewrite Hpl.
  unfold on_pool at 1. cbn [ch_pool set_pool_lock]. rewrite Ha. cbn.
  destruct c. cbn in Hpl. by rewrite Hpl.
Qed.

(** A write that only concerns the owner's pid may go to a free slot too. *)
Lemma chan_update_pid c free l i pid s :
  chan_repr c free l -> chan_slot c i = Some s ->
  exists c', on_pool (update_slot i (fun s => set_pid s pid)) c = (Done tt, c') /\
    chan_repr c' free l /\ chan_slot c' i = Some (set_pid s pid) /\
    (forall j, j <> i -> chan_slot c' j = chan_slot c j).
Proof.
  intros [Hp Hq Hr Hqr Hi] Hs. unfold on_pool. rewrite (update_slot_spec _ i _ s Hs).
  eexists. split; [done|]. split; [|by apply (chan_slot_insert c _ i s)].
  split; cbn; [exact Hp|exact Hq| |exact Hqr|by rewrite length_insert].
  destruct Hr as [Hl Hn Hlt He]. split; cbn; [exact Hl|exact Hn| |].
  - intros j Hj. rewrite length_insert. by apply Hlt.
  - intros j s' Hj. destruct (decide (j = i)) as [->|Hne].
    + rewrite list_lookup_insert_eq by (by apply Hlt). intros [= <-]. exact (He i s Hj Hs).
    + rewrite list_lookup_insert_ne by congruence. by apply He.
Qed.

(** [fga_channel_drain_slots]: at most 64, the oldest first. *)
Lemma chan_drain_spec c free l n :
  chan_repr c free l -> 0 <= n <= FGA_CHANNEL_DRAIN_MAX ->
  exists c', fga_channel_drain_slots n c = (Done (take (Z.to_nat n) l), c') /\
    chan_repr c' free (drop (Z.to_nat n) l) /\
    (forall j, chan_slot c' j = chan_slot c j).
Proof.
  intros [Hpl Hql Hp Hq Hix] Hn.
  pose proof (queue_step_refines k _ l (QDrain n) Hq ltac:(done)) as Hst.
  cbn [fifo_step queue_step] in Hst. unfold mbind, cm_bind, mret, cm_ret in Hst.
  unfold fga_channel_drain_slots, lock_queue, unlock_queue.
  rewrite (proj2 (Z.ltb_ge _ _)) by lia. unfold mbind, cm_bind. rewrite Hql.
  unfold on_queue. cbn [ch_queue set_queue_lock].
  destruct Hst as (q' & Hst & Hq').
  destruct (queue_drain n (ch_queue c)) as [[r| |] q1]; [|done|done].
  injection Hst as -> ->. eexists. split; [reflexivity|]. split; [by split|done].
Qed.

Lemma chan_release_spec c i free l s :
  chan_repr c free l -> chan_slot c i = Some s -> i ∉ free ->
  exists c', fga_channel_release_slot i c = (Done tt, c') /\ chan_repr c' (i :: free) l /\
    chan_slot c' i = Some (set_state s FGA_CHANNEL_SLOT_EMPTY) /\
    (forall j, j <> i -> chan_slot c' j = chan_slot c j).
Proof.
  intros [Hpl Hql Hp Hq Hix] Hs Hif.
  destruct (release_slot_spec _ _ _ _ Hp Hs Hif) as (p' & Hr & Hp' & Hslots).
  unfold fga_channel_release_slot, lock_pool, unlock_pool, mbind, cm_bind. rewrite Hpl.
  unfold on_pool. cbn [ch_pool set_pool_lock]. rewrite Hr. cbn.
  set (c' := set_pool_lock None _).
  destruct (chan_slot_insert c c' i s _ Hs Hslots) as [Hs' Ho].
  exists c'. split; [done|]. split; [|done]. split; cbn; try done.
  by rewrite Hslots, length_insert.
Qed.

(** The queue part of [fga_channel_execute_slot]. *)
Lemma chan_enqueue_spec c free l i :
  chan_repr c free l -> Z.of_nat i < 65536 ->
  exists c' ok, on_queue (queue_enqueue (u16 (Z.of_nat i))) (set_queue_lock (Some LW_EXCLUSIVE) c)
      = (Done ok, set_queue_lock (Some LW_EXCLUSIVE) c') /\
    ch_pool c' = ch_pool c /\ ch_request_id c' = ch_request_id c /\
    chan_repr c' free (if ok then l ++ [Z.of_nat i] else l) /\
    ok = (Z.of_nat (length l) <? 2 ^ k - 1).
Proof.
  intros [Hpl Hql Hp Hq Hix] Hi. rewrite u16_small by lia.
  pose proof (queue_step_refines k _ l (QEnqueue (Z.of_nat i)) Hq ltac:(cbn; lia)) as Hst.
  cbn [fifo_step queue_step] in Hst. unfold mbind, cm_bind, mret, cm_ret in Hst.
  unfold on_queue. cbn [ch_queue set_queue_lock].
  destruct (Z.ltb_spec (Z.of_nat (length l)) (2 ^ k - 1)) as [Hlt|Hge];
    destruct Hst as (q' & Hst & Hq');
    (destruct (queue_enqueue (Z.of_nat i) (ch_queue c)) as [[b| |] q1]; [|done|done]);
    injection Hst as -> ->;
    exists (MkChannel (pool_lock c) (queue_lock c) (ch_request_id c) (ch_pool c) q');
    eexists;
    (split; [reflexivity|]); by split_and!.
Qed.
(** ** Waiting *)

Definition in_flight (s : FgaChannelSlot) : Prop :=
  slot_state s = FGA_CHANNEL_SLOT_PENDING \/ slot_state s = FGA_CHANNEL_SLOT_PROCESSING.

(** The others go on working, but slot [i] is not answered yet. *)
Definition quiet (i : nat) (w : wake L) : Prop :=
  forall c free l s, chan_repr c free l -> i ∉ free -> chan_slot c i = Some s -> in_flight s ->
    exists free' l' s', chan_repr (wk_others w c) free' l' /\ i ∉ free' /\
      chan_slot (wk_others w c) i = Some s' /\ in_flight s' /\
      backend_pid s' = backend_pid s /\ payload s' = payload s.

(** The worker answers slot [i]. *)
Definition completes (answer : FgaRequest -> FgaResponse) (i : nat) (w : wake L) : Prop :=
  wk_interrupt w = None /\
  forall c free l s, chan_repr c free l -> i ∉ free -> chan_slot c i = Some s -> in_flight s ->
    exists free' l', chan_repr (wk_others w c) free' l' /\ i ∉ free' /\
      chan_slot (wk_others w c) i = Some (MkSlot FGA_CHANNEL_SLOT_DONE (backend_pid s)
        (MkPayload (request (payload s)) (answer (request (payload s))))).

Lemma wait_loop_unfold fuel i e s :
  chan_slot (env_channel e) i = Some s ->
  wait_loop (S fuel) i e =
    match slot_state s with
    | FGA_CHANNEL_SLOT_DONE => (Done FGA_CHANNEL_SLOT_DONE, e)
    | FGA_CHANNEL_SLOT_CANCELED => (Done FGA_CHANNEL_SLOT_CANCELED, e)
    | _ => cm_bind _ _ (fun _ => wait_loop fuel i) wait_latch e
    end.
Proof.
  intros Hs. cbn [wait_loop]. unfold mbind, cm_bind at 1, on_channel.
  rewrite (chan_read_slot _ i s Hs). destruct e. by destruct (slot_state s).
Qed.

Lemma wait_loop_in_flight fuel i e s :
  chan_slot (env_channel e) i = Some s -> in_flight s ->
  wait_loop (S fuel) i e = cm_bind _ _ (fun _ => wait_loop fuel i) wait_latch e.
Proof. intros Hs Hf. rewrite (wait_loop_unfold fuel i e s Hs). by destruct Hf as [-> | ->]. Qed.

(** The loop sleeps through quiet wake-ups and stops at the answer. *)
Lemma wait_loop_answered answer i pre w rest e free l s fuel :
  env_wakes e = pre ++ w :: rest -> (length pre + 1 < fuel)%nat ->
  Forall (fun v => quiet i v /\ wk_interrupt v = None) pre -> completes answer i w ->
  chan_repr (env_channel e) free l -> i ∉ free ->
  chan_slot (env_channel e) i = Some s -> in_flight s ->
  exists c free' l', wait_loop fuel i e =
      (Done FGA_CHANNEL_SLOT_DONE, MkChanEnv c (bgw_latch e) rest) /\
    chan_repr c free' l' /\ i ∉ free' /\
    chan_slot c i = Some (MkSlot FGA_CHANNEL_SLOT_DONE (backend_pid s)
      (MkPayload (request (payload s)) (answer (request (payload s))))).
Proof.
  revert e free l s fuel. induction pre as [|v pre IH];
    intros e free l s fuel Hw Hfuel Hpre Hcomp Hc Hif Hs Hfl;
    (destruct fuel as [|fuel]; [cbn in Hfuel; lia|]);
    rewrite (wait_loop_in_flight fuel i e s Hs Hfl); unfold cm_bind, wait_latch; rewrite Hw;
    cbn [app].
  - destruct Hcomp as [Hni Hcomp]. rewrite Hni.
    destruct (Hcomp _ free l s Hc Hif Hs Hfl) as (free' & l' & Hc' & Hif' & Hs').
    destruct fuel as [|fuel]; [cbn in Hfuel; lia|].
    rewrite (wait_loop_unfold fuel i (MkChanEnv _ _ _) _ Hs').
    cbn. eexists _, free', l'. by split.
  - apply Forall_cons in Hpre as [[Hq Hni] Hpre]. rewrite Hni.
    destruct (Hq _ free l s Hc Hif Hs Hfl) as (free' & l' & s' & Hc' & Hif' & Hs' & Hfl' & <- & <-).
    cbn in Hfuel.
    apply (IH (MkChanEnv (wk_others v (env_channel e)) (bgw_latch e) (pre ++ w :: rest))
             free' l' s' fuel); try done. lia.
Qed.

Lemma wait_loop_interrupted i w rest e free l s fuel err :
  env_wakes e = w :: rest -> quiet i w -> wk_interrupt w = Some err ->
  chan_repr (env_channel e) free l -> i ∉ free ->
  chan_slot (env_channel e) i = Some s -> in_flight s ->
  wait_loop (S fuel) i e =
    (Error err, MkChanEnv (wk_others w (env_channel e)) (bgw_latch e) rest).
Proof.
  intros Hw Hq Hi Hc Hif Hs Hfl. rewrite (wait_loop_in_flight fuel i e s Hs Hfl).
  unfold cm_bind, wait_latch. by rewrite Hw, Hi.
Qed.

(** Up to the wait: the request is queued, the worker woken. *)
Lemma execute_enqueued pid i e free l s :
  chan_repr (env_channel e) free l -> Z.of_nat (length l) < 2 ^ k - 1 ->
  chan_slot (env_channel e) i = Some s -> backend_pid s = pid -> is_Some (bgw_latch e) ->
  exists c, chan_repr c free (l ++ [Z.of_nat i]) /\ ch_pool c = ch_pool (env_channel e) /\
    let e1 := MkChanEnv c (Some true) (env_wakes e) in
    fga_channel_execute_slot use_asserts pid i e =
      match pg_try (wait_loop (S (length (env_wakes e))) i) (on_channel (wait_catch i)) e1 with
      | (Done st, e2) =>
          match st with
          | FGA_CHANNEL_SLOT_CANCELED =>
              cm_bind _ _ (fun _ =>
                ereport "ERRCODE_INTERNAL_ERROR" "postfga: request was canceled")
                (on_channel (fga_channel_release_slot i)) e2
          | _ => (Done tt, e2)
          end
      | (Error err, e2) => (Error err, e2)
      | (Undefined u, e2) => (Undefined u, e2)
      end.
Proof.
  intros Hc Hroom Hs Hpid [lt Hlt].
  assert (Hi : Z.of_nat i < 65536).
  { pose proof (cr_index _ _ _ Hc). apply lookup_lt_Some in Hs. lia. }
  destruct (chan_enqueue_spec _ free l i Hc Hi) as (c & ok & Henq & Hpool & Hid & Hc' & ->).
  rewrite (proj2 (Z.ltb_lt _ _) Hroom) in Henq, Hc'.
  exists c. split; [done|]. split; [done|]. cbv zeta.
  unfold fga_channel_execute_slot, mbind, cm_bind at 1, on_channel at 1, lock_queue.
  rewrite (cr_queue_lock _ _ _ Hc).
  unfold cm_bind at 1, on_channel at 1. cbn [env_channel bgw_latch env_wakes]. rewrite Henq.
  cbn [negb]. unfold cm_bind at 1, on_channel at 1, unlock_queue.
  unfold cm_bind at 1, fga_wake_bgw. cbn [env_channel bgw_latch env_wakes]. rewrite Hlt.
  unfold cm_bind at 1, wait_response, mbind, cm_bind at 1, on_channel at 1.
  cbn [env_channel bgw_latch env_wakes].
  replace (set_queue_lock None (set_queue_lock (Some LW_EXCLUSIVE) c)) with c
    by (pose proof (cr_queue_lock _ _ _ Hc') as Hq; destruct c; cbn in *; by subst).
  assert (Hs' : chan_slot c i = Some s) by (unfold chan_slot; by rewrite Hpool).
  rewrite (chan_read_slot c i s Hs'). unfold cm_bind, cm_lift, cm_get. cbv beta iota.
  rewrite Hpid, Z.eqb_refl. unfold c_assert. rewrite andb_false_r. cbv beta iota.
  cbn [env_wakes].
  destruct (pg_try _ _ _) as [[st|err|u] e2]; try done. by destruct st.
Qed.
Lemma execute_answered answer pid i e free l s pre w rest :
  chan_repr (env_channel e) free l -> Z.of_nat (length l) < 2 ^ k - 1 -> i ∉ free ->
  chan_slot (env_channel e) i = Some s -> backend_pid s = pid -> in_flight s ->
  is_Some (bgw_latch e) -> env_wakes e = pre ++ w :: rest ->
  Forall (fun v => quiet i v /\ wk_interrupt v = None) pre -> completes answer i w ->
  exists c free' l', fga_channel_execute_slot use_asserts pid i e =
      (Done tt, MkChanEnv c (Some true) rest) /\
    chan_repr c free' l' /\ i ∉ free' /\
    chan_slot c i = Some (MkSlot FGA_CHANNEL_SLOT_DONE pid
      (MkPayload (request (payload s)) (answer (request (payload s))))).
Proof.
  intros Hc Hroom Hif Hs Hpid Hfl Hl Hw Hpre Hcomp.
  destruct (execute_enqueued pid i e free l s Hc Hroom Hs Hpid Hl) as (c & Hc1 & Hpool & ->).
  set (e1 := MkChanEnv c (Some true) (env_wakes e)).
  assert (Hs1 : chan_slot (env_channel e1) i = Some s) by (unfold chan_slot; cbn; by rewrite Hpool).
  destruct (wait_loop_answered answer i pre w rest e1 free (l ++ [Z.of_nat i]) s
    (S (length (env_wakes e)))) as (c' & free' & l' & Hwait & Hc' & Hif' & Hs'); try done.
  { rewrite Hw, length_app. cbn. lia. }
  unfold pg_try. rewrite Hwait. subst pid. by exists c', free', l'.
Qed.

(** The first wake-up finds the answer: what the others must do from the state
    the backend has left. *)
Lemma execute_first_wake pid i e free l s w rest :
  chan_repr (env_channel e) free l -> Z.of_nat (length l) < 2 ^ k - 1 ->
  chan_slot (env_channel e) i = Some s -> backend_pid s = pid -> in_flight s ->
  is_Some (bgw_latch e) -> env_wakes e = w :: rest -> wk_interrupt w = None ->
  exists c, chan_repr c free (l ++ [Z.of_nat i]) /\ chan_slot c i = Some s /\
    forall s', chan_slot (wk_others w c) i = Some s' -> slot_state s' = FGA_CHANNEL_SLOT_DONE ->
      fga_channel_execute_slot use_asserts pid i e =
        (Done tt, MkChanEnv (wk_others w c) (Some true) rest).
Proof.
  intros Hc Hroom Hs Hpid Hfl Hl Hw Hni.
  destruct (execute_enqueued pid i e free l s Hc Hroom Hs Hpid Hl) as (c & Hc1 & Hpool & Hx).
  exists c. split; [done|]. assert (Hs1 : chan_slot c i = Some s) by (unfold chan_slot; by rewrite Hpool).
  split; [done|]. intros s' Hs' Hd. rewrite Hx. unfold pg_try.
  rewrite (wait_loop_in_flight _ i _ s) by done. unfold cm_bind, wait_latch.
  cbn [env_wakes]. rewrite Hw, Hni. cbn [length].
  rewrite (wait_loop_unfold _ i (MkChanEnv _ _ _) s' Hs'). by rewrite Hd.
Qed.

(** An interrupt before the answer: the slot is marked, not freed. *)
Lemma execute_interrupted pid i e free l s w rest err :
  chan_repr (env_channel e) free l -> Z.of_nat (length l) < 2 ^ k - 1 -> i ∉ free ->
  chan_slot (env_channel e) i = Some s -> backend_pid s = pid -> in_flight s ->
  is_Some (bgw_latch e) -> env_wakes e = w :: rest ->
  (forall c, wk_others w c = c) -> wk_interrupt w = Some err ->
  exists c, fga_channel_execute_slot use_asserts pid i e =
      (Error err, MkChanEnv c (Some true) rest) /\
    chan_repr c free (l ++ [Z.of_nat i]) /\
    chan_slot c i = Some (MkSlot FGA_CHANNEL_SLOT_CANCELED InvalidPid (payload s)).
Proof.
  intros Hc Hroom Hif Hs Hpid Hfl Hl Hw Hid Hint.
  destruct (execute_enqueued pid i e free l s Hc Hroom Hs Hpid Hl) as (c & Hc1 & Hpool & ->).
  set (e1 := MkChanEnv c (Some true) (env_wakes e)).
  assert (Hs1 : chan_slot c i = Some s) by (unfold chan_slot; by rewrite Hpool).
  assert (Hq : quiet i w).
  { intros c0 free0 l0 s0 H1 H2 H3 H4. rewrite Hid. by exists free0, l0, s0. }
  unfold pg_try.
  rewrite (wait_loop_interrupted i w rest e1 free (l ++ [Z.of_nat i]) s _ err) by done.
  rewrite Hid. cbn [env_channel bgw_latch e1]. unfold on_channel, wait_catch, wait_catch_act, wait_catch_pid, mbind, cm_bind.
  cbn [env_channel]. rewrite (chan_read_slot c i s Hs1).
  destruct (chan_update_slot c free _ i (fun s => set_state s FGA_CHANNEL_SLOT_CANCELED) s
    Hc1 Hs1 Hif) as (c2 & Hu2 & Hc2 & Hsl2 & _ & _).
  destruct (chan_slot_insert c c2 i s _ Hs1 Hsl2) as [Hs2 _].
  destruct (chan_update_slot c2 free _ i (fun s => set_pid s InvalidPid) _ Hc2 Hs2 Hif)
    as (c3 & Hu3 & Hc3 & Hsl3 & _ & _).
  destruct (chan_slot_insert c2 c3 i _ _ Hs2 Hsl3) as [Hs3 _].
  destruct Hfl as [-> | ->]; cbv beta iota; rewrite Hu2, Hu3; by exists c3.
Qed.

(** A full queue: the slot goes back to the freelist before the error. *)
Lemma execute_full pid i e free l s :
  chan_repr (env_channel e) free l -> Z.of_nat (length l) = 2 ^ k - 1 -> i ∉ free ->
  chan_slot (env_channel e) i = Some s ->
  exists c, fga_channel_execute_slot use_asserts pid i e =
      (Error (PgError "ERRCODE_INTERNAL_ERROR" "postfga: failed to enqueue channel slot"),
       MkChanEnv c (bgw_latch e) (env_wakes e)) /\
    chan_repr c (i :: free) l /\ chan_slot c i = Some (set_state s FGA_CHANNEL_SLOT_EMPTY).
Proof.
  intros Hc Hfull Hif Hs.
  assert (Hi : Z.of_nat i < 65536).
  { pose proof (cr_index _ _ _ Hc). apply lookup_lt_Some in Hs. lia. }
  destruct (chan_enqueue_spec _ free l i Hc Hi) as (c & ok & Henq & Hpool & Hid & Hc' & ->).
  rewrite (proj2 (Z.ltb_ge _ _)) in Henq, Hc' by lia.
  assert (Hs' : chan_slot c i = Some s) by (unfold chan_slot; by rewrite Hpool).
  destruct (chan_release_spec c i free l s Hc' Hs' Hif) as (c2 & Hr & Hc2 & Hs2 & _).
  exists c2. split; [|by split].
  unfold fga_channel_execute_slot, mbind, cm_bind at 1, on_channel at 1, lock_queue.
  rewrite (cr_queue_lock _ _ _ Hc).
  unfold cm_bind at 1, on_channel at 1. cbn [env_channel bgw_latch env_wakes]. rewrite Henq.
  cbn [negb]. unfold cm_bind at 1, on_channel at 1, unlock_queue.
  unfold cm_bind at 1, on_channel at 1. cbn [env_channel bgw_latch env_wakes].
  replace (set_queue_lock None (set_queue_lock (Some LW_EXCLUSIVE) c)) with c
    by (pose proof (cr_queue_lock _ _ _ Hc') as Hq; destruct c; cbn in *; by subst).
  rewrite Hr. done.
Qed.
(** A worker that answers slot [i] and does nothing else. *)
Definition worker_answers (answer : FgaRequest -> FgaResponse) (i : nat) (c : FgaChannel L)
  : FgaChannel L :=
  (on_pool (update_slot i (fun s => MkSlot FGA_CHANNEL_SLOT_DONE (backend_pid s)
     (MkPayload (request (payload s)) (answer (request (payload s)))))) c).2.

Lemma worker_answers_completes answer i :
  completes answer i (MkWake (worker_answers answer i) None).
Proof.
  split; [done|]. intros c free l s Hc Hif Hs _. exists free, l.
  destruct (chan_update_slot c free l i (fun s => MkSlot FGA_CHANNEL_SLOT_DONE (backend_pid s)
     (MkPayload (request (payload s)) (answer (request (payload s))))) s Hc Hs Hif)
    as (c' & Hu & Hc' & Hsl & _).
  unfold worker_answers. cbn [wk_others]. rewrite Hu. cbn [snd].
  split; [done|]. split; [done|]. by apply (chan_slot_insert c c' i s _ Hs Hsl).
Qed.
End ChannelSpec.

(** ** A small concrete channel: two free slots, a queue of four places *)
Definition sample_channel : FgaChannel linked :=
  MkChannel None None 7
    (MkPool (Linked (Some 0%nat) {[0%nat := Some 1%nat; 1%nat := None]}) [empty_slot; empty_slot])
    (MkQueue 3 0 0 [0; 0; 0; 0]).

Lemma sample_channel_repr : chan_repr 2 sample_channel [0%nat; 1%nat] [].
Proof.
  split; try done.
  - split; cbn.
    + split; [done|]. exists (Some 1%nat). split; [done|]. split; [done|]. by exists None.
    + apply (bool_decide_eq_true_1 _). reflexivity.
    + intros i Hi. repeat (apply elem_of_cons in Hi as [->|Hi]; [lia|]). by apply elem_of_nil in Hi.
    + intros i s Hi. repeat (apply elem_of_cons in Hi as [->|Hi]; [by intros [= <-]|]).
      by apply elem_of_nil in Hi.
Qed.

(** The same channel with a full queue (three of four places). *)
Definition sample_full_channel : FgaChannel linked :=
  MkChannel None None 7 (ch_pool sample_channel) (MkQueue 3 2 65535 [0; 0; 0; 0]).

Lemma sample_full_channel_repr : chan_repr 2 sample_full_channel [0%nat; 1%nat] [0; 0; 0].
Proof.
  destruct sample_channel_repr as [_ _ Hp _ _]. split; try done.
  split; cbn; try done; try lia.
  intros i v Hi. do 3 (destruct i as [|i]; [by injection Hi as <-|]). done.
Qed.
