(* ===== verification/SqlFuncs.v ===== *)
(** * The SQL functions: [src/func_fga.c]

    [fga_check], [fga_write_tuple], [fga_delete_tuple], [fga_create_store] and
    [fga_delete_store] as one backend runs them, over the cache, the channel
    and the wake-ups of its wait loop. *)
From S2P Require Import Prelude Platform Types CacheKey CacheSpec CacheL1 CacheL2 Stats Cache.
From S2P Require Import SlotQueue SlotPool Channel.

(** [text*] arguments that passed [validate_not_empty]. *)
Record TupleArgsView : Type := MkTupleArgs {
  v_object_type : list ascii;
  v_object_id : list ascii;
  v_subject_type : list ascii;
  v_subject_id : list ascii;
  v_relation : list ascii;
  v_options : option (list ascii);
}.

(** The payload of [src], cut at [dst_size - 1] bytes, and a NUL. *)
Definition write_text (use_asserts : bool) (dst : list ascii) (dst_size : nat)
    (src : list ascii) : outcome (list ascii) :=
  _ ← c_assert use_asserts (bool_decide (0 < dst_size)%nat);
  let len := length src in
  let len := if decide (dst_size <= len)%nat then (dst_size - 1)%nat else len in
  let dst := if decide (0 < len)%nat then take len src ++ drop len dst else dst in
  if decide (len < length dst)%nat then Done (<[len := NUL]> dst) else Undefined OutOfBounds.

Definition fill_tuple (use_asserts : bool) (v : TupleArgsView) (tuple : FgaTuple)
  : outcome FgaTuple :=
  ot ← write_text use_asserts (object_type tuple) OBJECT_TYPE_MAX_LEN (v_object_type v);
  oi ← write_text use_asserts (object_id tuple) OBJECT_ID_MAX_LEN (v_object_id v);
  st ← write_text use_asserts (subject_type tuple) SUBJECT_TYPE_MAX_LEN (v_subject_type v);
  si ← write_text use_asserts (subject_id tuple) SUBJECT_ID_MAX_LEN (v_subject_id v);
  rel ← write_text use_asserts (relation tuple) RELATION_MAX_LEN (v_relation v);
  mret (MkTuple ot oi st si rel).

(** A NULL or empty C string. *)
Definition c_str_empty (s : option (list ascii)) : bool :=
  match s with Some b => bool_decide (c_str b = []) | None => true end.

Definition fill_request (config : FgaConfig) (r : FgaRequest) : outcome FgaRequest :=
  match store_id config with
  | Some sid =>
      if c_str_empty (store_id config) then
        Error (PgError "ERRCODE_INTERNAL_ERROR" "postfga: store_id is not configured")
      else
        let r := MkRequest (request_id r) (req_type r)
                   (strlcpy (req_store_id r) sid OPENFGA_STORE_ID_LEN)
                   (req_model_id r) (req_body r) in
        match model_id config with
        | Some mid =>
            mret (MkRequest (request_id r) (req_type r) (req_store_id r)
                    (strlcpy (req_model_id r) mid OPENFGA_MODEL_ID_LEN) (req_body r))
        | None => mret r
        end
  | None => Error (PgError "ERRCODE_INTERNAL_ERROR" "postfga: store_id is not configured")
  end.

(** [key] is the caller's stack object before the call. *)
Definition build_cache_key `{XXHash} (use_asserts : bool) (config : FgaConfig)
    (key : FgaAclCacheKey) (args : TupleArgsView) : outcome FgaAclCacheKey :=
  fga_cache_key use_asserts key (store_id config) (model_id config)
    (Some (v_object_type args)) (Some (v_object_id args)) (Some (v_subject_type args))
    (Some (v_subject_id args)) (Some (v_relation args)).

Definition validate_not_empty (arg : text) : outcome (list ascii) :=
  match arg with
  | None => Error (PgError "ERRCODE_NULL_VALUE_NOT_ALLOWED"
                     "postfga: %s argument must not be NULL")
  | Some b =>
      if bool_decide (length b = 0%nat)
      then Error (PgError "ERRCODE_STRING_DATA_LENGTH_MISMATCH"
                    "postfga: %s argument must not be empty")
      else Done b
  end.

(** [args]: the SQL arguments, [None] for NULL; missing ones are not passed. *)
Definition read_tuple_args (args : list text) : outcome TupleArgsView :=
  ot ← validate_not_empty (mjoin (args !! 0%nat));
  oi ← validate_not_empty (mjoin (args !! 1%nat));
  st ← validate_not_empty (mjoin (args !! 2%nat));
  si ← validate_not_empty (mjoin (args !! 3%nat));
  rel ← validate_not_empty (mjoin (args !! 4%nat));
  mret (MkTupleArgs ot oi st si rel
    (if (6 <=? Z.of_nat (length args)) then mjoin (args !! 5%nat) else None)).

(** ** The backend process

    [be_dead_frame]: [PG_exception_stack] points into a stack frame that has
    been left; [be_notices]: the INFO messages sent to the client. *)
Record backend (L H : Type) : Type := MkBackend {
  be_chan : chan_env L;
  be_cache : cache_env H;
  be_dead_frame : bool;
  be_notices : list (list ascii);
}.
Arguments MkBackend {L H} be_chan be_cache be_dead_frame be_notices.
Arguments be_chan {L H} b.
Arguments be_cache {L H} b.
Arguments be_dead_frame {L H} b.
Arguments be_notices {L H} b.

Section SqlFuncs.
Context {L : Type} {HS : SList L} {H : Type} {HD : Dynahash FgaAclCacheKey Z H} {HX : XXHash}.
Variable use_asserts : bool.
Variable config : FgaConfig.
Variables MyProcPid MyProcNumber : Z.

Definition on_chan {A} (m : CM (chan_env L) A) : CM (backend L H) A := fun b =>
  let '(r, e) := m (be_chan b) in
  (r, MkBackend e (be_cache b) (be_dead_frame b) (be_notices b)).

Definition on_cache_env {A} (m : CM (cache_env H) A) : CM (backend L H) A := fun b =>
  let '(r, e) := m (be_cache b) in
  (r, MkBackend (be_chan b) e (be_dead_frame b) (be_notices b)).

Definition info (msg : list ascii) : CM (backend L H) unit := fun b =>
  (Done tt, MkBackend (be_chan b) (be_cache b) (be_dead_frame b) (be_notices b ++ [msg])).

(** [return] inside [PG_TRY]: [PG_END_TRY] is skipped, so
    [PG_exception_stack] keeps pointing at the frame that is being left. *)
Definition return_inside_try {A} (a : A) : CM (backend L H) A := fun b =>
  (Done a, MkBackend (be_chan b) (be_cache b) true (be_notices b)).

Definition slot_payload (slot : nat) : CM (backend L H) FgaPayload :=
  s ← on_chan (on_channel (on_pool (read_slot slot))); mret (payload s).

Definition modify_request (slot : nat) (f : FgaRequest -> FgaRequest)
  : CM (backend L H) unit :=
  on_chan (on_channel (on_pool (update_slot slot (fun s =>
    set_payload s (with_request (payload s) (f (request (payload s)))))))).

Definition acquire : CM (backend L H) nat :=
  on_chan (on_channel (fga_channel_acquire_slot MyProcPid)).
Definition release (slot : nat) : CM (backend L H) unit :=
  on_chan (on_channel (fga_channel_release_slot slot)).
Definition execute (slot : nat) : CM (backend L H) unit :=
  on_chan (fga_channel_execute_slot use_asserts MyProcPid slot).

Definition set_type (t : FgaRequestType) (r : FgaRequest) : FgaRequest :=
  MkRequest (request_id r) (request_type_code t) (req_store_id r) (req_model_id r) (req_body r).
Definition set_body (b : FgaRequestBody) (r : FgaRequest) : FgaRequest :=
  MkRequest (request_id r) (req_type r) (req_store_id r) (req_model_id r) b.

(** The store, model and tuple of a request, in two steps: an error of the
    first keeps the slot as it is. *)
Definition fill (slot : nat) (args : TupleArgsView) (body : FgaTuple -> FgaRequestBody)
  : CM (backend L H) unit :=
  p ← slot_payload slot;
  r ← cm_lift (fill_request config (request p));
  _ ← modify_request slot (fun _ => r);
  t ← cm_lift (fill_tuple use_asserts args (body_tuple (req_body r)));
  modify_request slot (set_body (body t)).

(** [allowed] is uninitialised until a response sets it. *)
Definition fga_check (stack_key : FgaAclCacheKey) (now_us : Z) (fcinfo : list text)
  : CM (backend L H) bool :=
  args ← cm_lift (read_tuple_args fcinfo);
  key ← cm_lift (build_cache_key use_asserts config stack_key args);
  cached ← on_cache_env (fga_cache_lookup MyProcNumber config key now_us);
  match cached with
  | Some allowed => mret allowed
  | None =>
      slot ← acquire;
      _ ← modify_request slot (set_type FGA_REQUEST_CHECK);
      _ ← fill slot args ReqCheckTuple;
      _ ← execute slot;
      p ← slot_payload slot;
      allowed ←
        (if decide (status (response p) = FGA_RESPONSE_OK)
         then mret (Some (body_allow (resp_body (response p))))
         else
           _ ← info (str "postfga: check tuple failed - " ++ c_str (error_message (response p)));
           mret None);
      _ ← release slot;
      match allowed with
      | Some a => mret a
      | None => cm_lift (Undefined UninitializedRead)
      end
  end.

Definition fga_write_tuple (fcinfo : list text) : CM (backend L H) bool :=
  args ← cm_lift (read_tuple_args fcinfo);
  slot ← acquire;
  pg_try
    (_ ← modify_request slot (set_type FGA_REQUEST_WRITE_TUPLE);
     _ ← fill slot args ReqWriteTuple;
     _ ← execute slot;
     p ← slot_payload slot;
     if decide (status (response p) = FGA_RESPONSE_OK)
     then _ ← release slot; return_inside_try true
     else ereport "ERRCODE_INTERNAL_ERROR" "postfga: write tuple failed - %s")
    (release slot).

Definition fga_delete_tuple (fcinfo : list text) : CM (backend L H) bool :=
  args ← cm_lift (read_tuple_args fcinfo);
  slot ← acquire;
  pg_try
    (_ ← modify_request slot (set_type FGA_REQUEST_DELETE_TUPLE);
     _ ← fill slot args ReqDeleteTuple;
     _ ← execute slot;
     p ← slot_payload slot;
     if decide (status (response p) = FGA_RESPONSE_OK)
     then _ ← release slot; return_inside_try true
     else ereport "ERRCODE_INTERNAL_ERROR" "postfga: delete tuple failed - %s")
    (release slot).

(** The members of [body.createStore]; no other member is active in the answer
    to a request of this type. *)
Definition created_store (b : FgaResponseBody) : outcome (list ascii * list ascii) :=
  match b with
  | RespCreateStore id name => Done (c_str id, c_str name)
  | RespZero => Done ([], [])
  | _ => Undefined UninitializedRead
  end.

(** The result is the composite (id, name). *)
Definition fga_create_store (composite_result : bool) (store_name : text)
  : CM (backend L H) (list ascii * list ascii) :=
  match store_name with
  | None => ereport "ERRCODE_NULL_VALUE_NOT_ALLOWED" "store name cannot be NULL"
  | Some name =>
      slot ← acquire;
      pg_try
        (_ ← modify_request slot (set_type FGA_REQUEST_CREATE_STORE);
         _ ← modify_request slot (fun r =>
               set_body (ReqCreateStore
                 (strlcpy (body_store_name (req_body r)) name OPENFGA_STORE_NAME_LEN)) r);
         _ ← execute slot;
         p ← slot_payload slot;
         if decide (status (response p) <> FGA_RESPONSE_OK) then
           ereport "ERRCODE_EXTERNAL_ROUTINE_EXCEPTION" "postfga: create store failed: %s"
         else if negb composite_result then
           ereport "ERRCODE_FEATURE_NOT_SUPPORTED"
             "function returning record called in context that cannot accept type record"
         else
           values ← cm_lift (created_store (resp_body (response p)));
           _ ← release slot;
           return_inside_try values)
        (release slot)
  end.

(** A NULL argument is dereferenced. *)
Definition fga_delete_store (store : text) : CM (backend L H) unit :=
  match store with
  | None => cm_lift (Undefined NullDeref)
  | Some sid =>
      slot ← acquire;
      pg_try
        (_ ← modify_request slot (set_type FGA_REQUEST_DELETE_STORE);
         _ ← modify_request slot (fun r =>
               MkRequest (request_id r) (req_type r)
                 (strlcpy (req_store_id r) sid OPENFGA_STORE_ID_LEN)
                 (req_model_id r) (req_body r));
         _ ← execute slot;
         p ← slot_payload slot;
         if decide (status (response p) <> FGA_RESPONSE_OK) then
           ereport "ERRCODE_EXTERNAL_ROUTINE_EXCEPTION" "postfga: delete store failed: %s"
         else
           _ ← release slot;
           return_inside_try tt)
        (release slot)
  end.

(** An error that leaves the function jumps to [PG_exception_stack]. *)
Definition raise_to_top {A} (m : CM (backend L H) A) : CM (backend L H) A := fun b =>
  match m b with
  | (Error e, b') => if be_dead_frame b' then (Undefined DeadFrameJump, b') else (Error e, b')
  | r => r
  end.
End SqlFuncs.

(** ** Texts in fixed-size members *)

(** A zeroed member of [n] bytes after a text was copied into it. *)
Definition padded (n : nat) (src : list ascii) : list ascii :=
  take (n - 1) src ++ zeros (n - length (take (n - 1) src)).

Lemma zeros_app n m : zeros (n + m) = zeros n ++ zeros m.
Proof. apply replicate_add. Qed.

Lemma drop_zeros n m : drop n (zeros m) = zeros (m - n).
Proof. unfold zeros. by rewrite drop_replicate. Qed.

Lemma write_text_zeros ua n src :
  (0 < n)%nat -> write_text ua (zeros n) n src = Done (padded n src).
Proof.
  intros Hn. unfold write_text, c_assert. rewrite bool_decide_eq_true_2 by done.
  rewrite andb_false_r. unfold mbind, outcome_bind.
  set (len := if decide (n <= length src)%nat then (n - 1)%nat else length src).
  assert (Hlen : (len < n)%nat) by (unfold len; case_decide; lia).
  assert (Htake : take len src = take (n - 1) src).
  { unfold len. case_decide; [done|]. rewrite !take_ge by lia. done. }
  assert (Hl : length (take len src) = len).
  { rewrite length_take. unfold len. case_decide; lia. }
  assert (Hd : (if decide (0 < len)%nat then take len src ++ drop len (zeros n) else zeros n)
    = take len src ++ zeros (n - len)).
  { case_decide as H0; [by rewrite drop_zeros|].
    assert (len = 0%nat) as -> by lia. by rewrite take_0, Nat.sub_0_r. }
  rewrite Hd. rewrite decide_True.
  2:{ rewrite length_app, Hl. unfold zeros. rewrite length_replicate. lia. }
  rewrite insert_app_r_alt by lia. rewrite Hl, Nat.sub_diag.
  unfold padded. rewrite <- Htake, Hl. do 2 f_equal.
  destruct (n - len)%nat eqn:E; [lia|done].
Qed.

Lemma strlcpy_zeros n src : (0 < n)%nat -> strlcpy (zeros n) src n = padded n (c_str src).
Proof.
  intros Hn. destruct n as [|m]; [lia|]. unfold strlcpy, padded.
  cbn [Nat.sub]. rewrite Nat.sub_0_r. rewrite drop_zeros, <- app_assoc. f_equal.
  rewrite length_app. cbn [length].
  assert (length (take m (c_str src)) <= m)%nat by (rewrite length_take; lia).
  replace (S m - length (take m (c_str src)))%nat
    with (S (m - length (take m (c_str src))))%nat by lia.
  cbn. f_equal. unfold zeros. f_equal. lia.
Qed.

Lemma c_str_padded n src : (0 < n)%nat -> no_nul src -> c_str (padded n src) = take (n - 1) src.
Proof.
  intros Hn Hs. unfold padded.
  destruct (n - length (take (n - 1) src))%nat eqn:E.
  - rewrite length_take in E. lia.
  - cbn. apply c_str_app_nul. by apply no_nul_take.
Qed.

Definition padded_tuple (v : TupleArgsView) : FgaTuple :=
  MkTuple (padded OBJECT_TYPE_MAX_LEN (v_object_type v)) (padded OBJECT_ID_MAX_LEN (v_object_id v))
    (padded SUBJECT_TYPE_MAX_LEN (v_subject_type v)) (padded SUBJECT_ID_MAX_LEN (v_subject_id v))
    (padded RELATION_MAX_LEN (v_relation v)).

Lemma fill_tuple_zeros ua v : fill_tuple ua v zero_tuple = Done (padded_tuple v).
Proof.
  unfold fill_tuple, zero_tuple. cbn [object_type object_id subject_type subject_id relation].
  unfold OBJECT_TYPE_MAX_LEN, OBJECT_ID_MAX_LEN, SUBJECT_TYPE_MAX_LEN, SUBJECT_ID_MAX_LEN,
    RELATION_MAX_LEN. rewrite !write_text_zeros by lia. done.
Qed.

(** The store and model members of a request built from the configuration. *)
Definition store_member (config : FgaConfig) : list ascii :=
  match store_id config with Some s => padded OPENFGA_STORE_ID_LEN (c_str s) | None => [] end.
Definition model_member (config : FgaConfig) : list ascii :=
  match model_id config with
  | Some m => padded OPENFGA_MODEL_ID_LEN (c_str m)
  | None => zeros OPENFGA_MODEL_ID_LEN
  end.

Lemma fill_request_spec config id t body :
  c_str_empty (store_id config) = false ->
  fill_request config (MkRequest id t (zeros OPENFGA_STORE_ID_LEN) (zeros OPENFGA_MODEL_ID_LEN) body)
    = Done (MkRequest id t (store_member config) (model_member config) body).
Proof.
  intros Hs. unfold fill_request, store_member, model_member. rewrite Hs.
  destruct (store_id config) as [sid|]; [|done]. cbn [request_id req_type req_store_id
    req_model_id req_body]. unfold OPENFGA_STORE_ID_LEN, OPENFGA_MODEL_ID_LEN.
  rewrite strlcpy_zeros by lia. destruct (model_id config) as [mid|]; [|done].
  by rewrite strlcpy_zeros by lia.
Qed.

Lemma fill_request_unset config r :
  c_str_empty (store_id config) = true ->
  fill_request config r =
    Error (PgError "ERRCODE_INTERNAL_ERROR" "postfga: store_id is not configured").
Proof. intros Hs. unfold fill_request. rewrite Hs. by destruct (store_id config). Qed.

(** ** One backend's calls *)
Section SqlSpec.
Context {L : Type} {HS : SList L} {HL : SListLaws L}.
Context {H : Type} {HD : Dynahash FgaAclCacheKey Z H} {HX : XXHash}.
Variable use_asserts : bool.
Variable config : FgaConfig.
Variables MyProcPid MyProcNumber : Z.
Variable k : Z.

Abbreviation channel_of b := (env_channel (be_chan b)) (only parsing).

(** The parts of a backend that the slot accesses leave alone. *)
Definition same_rest (b b' : backend L H) : Prop :=
  bgw_latch (be_chan b') = bgw_latch (be_chan b) /\
  env_wakes (be_chan b') = env_wakes (be_chan b) /\
  be_cache b' = be_cache b /\ be_dead_frame b' = be_dead_frame b /\
  be_notices b' = be_notices b.

#[local] Instance same_rest_trans : Transitive same_rest.
Proof. intros x y z (?&?&?&?&?) (?&?&?&?&?). split_and!; congruence. Qed.

Lemma on_chan_channel {A} (m : CM (FgaChannel L) A) (b : backend L H) r c :
  m (channel_of b) = (r, c) ->
  exists b', on_chan (on_channel m) b = (r, b') /\ channel_of b' = c /\ same_rest b b'.
Proof.
  intros Hm. unfold on_chan, on_channel. rewrite Hm. eexists. split; [done|]. done.
Qed.

(** The slot [i] belongs to this backend and holds the payload [p]. *)
Definition holds (b : backend L H) (free : list nat) (l : list Z) (i : nat) (p : FgaPayload)
  : Prop :=
  chan_repr k (channel_of b) free l /\ i ∉ free /\
  chan_slot (channel_of b) i = Some (MkSlot FGA_CHANNEL_SLOT_PENDING MyProcPid p).

Lemma acquire_spec b i free l :
  chan_repr k (channel_of b) (i :: free) l ->
  exists b', acquire MyProcPid b = (Done i, b') /\ same_rest b b' /\
    holds b' free l i (fresh_payload (u64 (ch_request_id (channel_of b) + 1))).
Proof.
  intros Hc. destruct (chan_acquire_spec k _ i free l MyProcPid Hc)
    as (c & Ha & Hc' & Hs & _ & Hif & _).
  destruct (on_chan_channel _ b _ _ Ha) as (b' & Hb & <- & Hsame).
  exists b'. split; [done|]. split; [done|]. by split_and!.
Qed.

Lemma slot_payload_spec b i s :
  chan_slot (channel_of b) i = Some s ->
  exists b', slot_payload i b = (Done (payload s), b') /\ channel_of b' = channel_of b /\
    same_rest b b'.
Proof.
  intros Hs. destruct (on_chan_channel (on_pool (read_slot i)) b _ _ (chan_read_slot _ i s Hs))
    as (b' & Hb & Hc & Hsame).
  exists b'. unfold slot_payload, mbind, cm_bind. by rewrite Hb.
Qed.

Lemma modify_request_spec b free l i p f :
  holds b free l i p ->
  exists b', modify_request i f b = (Done tt, b') /\ same_rest b b' /\
    holds b' free l i (with_request p (f (request p))).
Proof.
  intros (Hc & Hif & Hs).
  destruct (chan_update_slot k _ free l i (fun s => set_payload s
    (with_request (payload s) (f (request (payload s))))) _ Hc Hs Hif)
    as (c & Hu & Hc' & Hsl & _ & _).
  destruct (chan_slot_insert _ c i _ _ Hs Hsl) as [Hs' _].
  destruct (on_chan_channel _ b _ _ Hu) as (b' & Hb & <- & Hsame).
  exists b'. split; [done|]. split; [done|]. by split_and!.
Qed.

Lemma release_spec b free l i s :
  chan_repr k (channel_of b) free l -> i ∉ free -> chan_slot (channel_of b) i = Some s ->
  exists b', release i b = (Done tt, b') /\ same_rest b b' /\
    chan_repr k (channel_of b') (i :: free) l.
Proof.
  intros Hc Hif Hs. destruct (chan_release_spec k _ i free l s Hc Hs Hif)
    as (c & Hr & Hc' & _ & _).
  destruct (on_chan_channel _ b _ _ Hr) as (b' & Hb & <- & Hsame). by exists b'.
Qed.
(** The request of the tuple functions. *)
Definition tuple_request (id : Z) (t : FgaRequestType) (body : FgaTuple -> FgaRequestBody)
    (args : TupleArgsView) : FgaRequest :=
  MkRequest id (request_type_code t) (store_member config) (model_member config)
    (body (padded_tuple args)).

Lemma fill_spec b free l i id t body args resp :
  holds b free l i (MkPayload (MkRequest id t (zeros OPENFGA_STORE_ID_LEN)
    (zeros OPENFGA_MODEL_ID_LEN) ReqZero) resp) ->
  c_str_empty (store_id config) = false ->
  exists b', fill use_asserts config i args body b = (Done tt, b') /\ same_rest b b' /\
    holds b' free l i (MkPayload (MkRequest id t (store_member config) (model_member config)
      (body (padded_tuple args))) resp).
Proof.
  intros Hh Hst. pose proof Hh as (Hc & Hif & Hs).
  destruct (slot_payload_spec b i _ Hs) as (b1 & Hp1 & Hc1 & Hsame1).
  assert (Hh1 : holds b1 free l i _) by (unfold holds; rewrite Hc1; exact Hh).
  unfold fill, mbind, cm_bind. rewrite Hp1. cbn [payload request].
  rewrite fill_request_spec by done. unfold cm_lift.
  destruct (modify_request_spec b1 free l i _ (fun _ => MkRequest id t (store_member config)
    (model_member config) ReqZero) Hh1) as (b2 & -> & Hsame2 & Hh2).
  cbn [req_body body_tuple]. rewrite fill_tuple_zeros.
  destruct (modify_request_spec b2 free l i _ (set_body (body (padded_tuple args))) Hh2)
    as (b3 & -> & Hsame3 & Hh3).
  exists b3. split; [done|]. split; [|exact Hh3].
  etransitivity; [exact Hsame1|]. by etransitivity.
Qed.

(** The worker is there and answers slot [i] after any quiet wake-ups. *)
Definition served (answer : FgaRequest -> FgaResponse) (i : nat) (b : backend L H) : Prop :=
  is_Some (bgw_latch (be_chan b)) /\
  exists pre w rest, env_wakes (be_chan b) = pre ++ w :: rest /\
    Forall (fun v => quiet k i v /\ wk_interrupt v = None) pre /\ completes k answer i w.

Lemma served_same answer i b b' : same_rest b b' -> served answer i b -> served answer i b'.
Proof. intros (Hl & Hw & _) (? & Hs). split; [by rewrite Hl|by rewrite Hw]. Qed.

Lemma execute_spec answer b free l i p :
  holds b free l i p -> Z.of_nat (length l) < 2 ^ k - 1 -> served answer i b ->
  exists b' free' l', execute use_asserts MyProcPid i b = (Done tt, b') /\
    chan_repr k (channel_of b') free' l' /\ i ∉ free' /\
    chan_slot (channel_of b') i = Some (MkSlot FGA_CHANNEL_SLOT_DONE MyProcPid
      (MkPayload (request p) (answer (request p)))) /\
    be_dead_frame b' = be_dead_frame b /\ be_notices b' = be_notices b.
Proof.
  intros (Hc & Hif & Hs) Hroom (Hl & pre & w & rest & Hw & Hpre & Hcomp).
  destruct (execute_answered use_asserts k answer MyProcPid i (be_chan b) free l _ pre w rest
    Hc Hroom Hif Hs eq_refl ltac:(by left) Hl Hw Hpre Hcomp)
    as (c & free' & l' & Hx & Hc' & Hif' & Hs').
  unfold execute, on_chan. rewrite Hx. eexists _, free', l'. by split_and!.
Qed.

(** The wait for request [R] of slot [i] ends with the answer [resp], from
    whatever state of the backend the filling of the slot leaves. *)
Definition executes (resp : FgaResponse) (i : nat) (b : backend L H) (free : list nat) (l : list Z)
    (R : FgaRequest) : Prop :=
  forall b', same_rest b b' -> holds b' free l i (MkPayload R zero_response) ->
  exists b'' free' l', execute use_asserts MyProcPid i b' = (Done tt, b'') /\
    chan_repr k (channel_of b'') free' l' /\ i ∉ free' /\
    chan_slot (channel_of b'') i =
      Some (MkSlot FGA_CHANNEL_SLOT_DONE MyProcPid (MkPayload R resp)) /\
    be_dead_frame b'' = be_dead_frame b' /\ be_notices b'' = be_notices b'.

Lemma served_executes answer i b free l R :
  Z.of_nat (length l) < 2 ^ k - 1 -> served answer i b -> executes (answer R) i b free l R.
Proof.
  intros Hroom Hserved b' Hsame Hh.
  by apply (execute_spec answer b' free l i (MkPayload R zero_response) Hh Hroom), (served_same _ _ b).
Qed.

(** From the acquired slot to the answer: the prologue of the tuple functions. *)
Lemma tuple_call_answered resp b i free l t body args :
  chan_repr k (channel_of b) (i :: free) l ->
  executes resp i b free l (tuple_request (u64 (ch_request_id (channel_of b) + 1)) t body args) ->
  c_str_empty (store_id config) = false ->
  let R := tuple_request (u64 (ch_request_id (channel_of b) + 1)) t body args in
  exists b1 b2 free' l', acquire MyProcPid b = (Done i, b1) /\
    (forall A (rest : CM (backend L H) A),
      (_ ← modify_request i (set_type t); _ ← fill use_asserts config i args body;
       _ ← execute use_asserts MyProcPid i; rest) b1 = rest b2) /\
    chan_repr k (channel_of b2) free' l' /\ i ∉ free' /\
    chan_slot (channel_of b2) i =
      Some (MkSlot FGA_CHANNEL_SLOT_DONE MyProcPid (MkPayload R resp)) /\
    be_dead_frame b2 = be_dead_frame b /\ be_notices b2 = be_notices b.
Proof.
  intros Hc Hx Hst R.
  destruct (acquire_spec b i free l Hc) as (b1 & Ha & Hsame1 & Hh1).
  destruct (modify_request_spec b1 free l i _ (set_type t) Hh1) as (b2 & Hm & Hsame2 & Hh2).
  destruct (fill_spec b2 free l i _ _ body args _ Hh2 Hst) as (b3 & Hf & Hsame3 & Hh3).
  assert (Hsame : same_rest b b3) by (etransitivity; [exact Hsame1|]; by etransitivity).
  destruct (Hx b3 Hsame Hh3) as (b4 & free' & l' & Hrun & Hc' & Hif' & Hs' & Hd & Hn).
  destruct Hsame as (_ & _ & _ & Hd0 & Hn0).
  exists b1, b4, free', l'. split; [done|]. split.
  { intros A rest. unfold mbind, cm_bind. by rewrite Hm, Hf, Hrun. }
  split_and!; try done; congruence.
Qed.
Lemma answered_slot b2 free' l' i R resp :
  chan_repr k (channel_of b2) free' l' -> i ∉ free' ->
  chan_slot (channel_of b2) i =
    Some (MkSlot FGA_CHANNEL_SLOT_DONE MyProcPid (MkPayload R resp)) ->
  exists b3, slot_payload i b2 = (Done (MkPayload R resp), b3) /\ channel_of b3 = channel_of b2 /\
    same_rest b2 b3 /\ exists b4, release i b3 = (Done tt, b4) /\ same_rest b2 b4 /\
    chan_repr k (channel_of b4) (i :: free') l'.
Proof.
  intros Hc Hif Hs. destruct (slot_payload_spec b2 i _ Hs) as (b3 & Hp & Hc3 & Hsame).
  exists b3. split; [done|]. split; [done|]. split; [done|].
  destruct (release_spec b3 free' l' i (MkSlot FGA_CHANNEL_SLOT_DONE MyProcPid (MkPayload R resp)))
    as (b4 & Hr & Hsame4 & Hc4); [by rewrite Hc3|done|by rewrite Hc3|].
  exists b4. split; [done|]. split; [by etransitivity|done].
Qed.

(** [fga_check] with a request that is answered with [resp]. *)
Lemma fga_check_spec resp stack_key now fcinfo b args key ce i free l :
  read_tuple_args fcinfo = Done args ->
  build_cache_key use_asserts config stack_key args = Done key ->
  fga_cache_lookup MyProcNumber config key now (be_cache b) = (Done None, ce) ->
  c_str_empty (store_id config) = false ->
  chan_repr k (channel_of b) (i :: free) l ->
  executes resp i (MkBackend (be_chan b) ce (be_dead_frame b) (be_notices b)) free l
    (tuple_request (u64 (ch_request_id (channel_of b) + 1)) FGA_REQUEST_CHECK ReqCheckTuple args) ->
  exists b' free' l',
    fga_check use_asserts config MyProcPid MyProcNumber stack_key now fcinfo b =
      (if decide (status resp = FGA_RESPONSE_OK) then Done (body_allow (resp_body resp))
       else Undefined UninitializedRead, b') /\
    chan_repr k (channel_of b') (i :: free') l' /\ be_dead_frame b' = be_dead_frame b.
Proof.
  intros Hargs Hkey Hmiss Hst Hc Hx.
  unfold fga_check, mbind at 1, cm_bind at 1, cm_lift at 1. rewrite Hargs.
  unfold mbind at 1, cm_bind at 1, cm_lift at 1. rewrite Hkey.
  unfold mbind at 1, cm_bind at 1, on_cache_env at 1. rewrite Hmiss.
  set (b0 := MkBackend (be_chan b) ce (be_dead_frame b) (be_notices b)) in *.
  destruct (tuple_call_answered resp b0 i free l FGA_REQUEST_CHECK ReqCheckTuple args
    Hc Hx Hst) as (b1 & b2 & free' & l' & Ha & Hrun & Hc2 & Hif & Hs & Hd & Hn).
  unfold mbind at 1, cm_bind at 1. rewrite Ha, Hrun. set (R := tuple_request _ _ _ _) in *.
  destruct (answered_slot b2 free' l' i R resp Hc2 Hif Hs)
    as (b3 & Hp & Hc3 & (_ & _ & _ & Hd3 & _) & b4 & Hr & (_ & _ & _ & Hd4 & _) & Hc4).
  unfold mbind, cm_bind, mret, cm_ret. rewrite Hp. cbn [response].
  destruct (decide (status resp = FGA_RESPONSE_OK)).
  - rewrite Hr. exists b4, free', l'. split; [done|]. split; [done|].
    rewrite Hd4, Hd. done.
  - unfold info. set (b3' := MkBackend _ _ _ _).
    destruct (release_spec b3' free' l' i
      (MkSlot FGA_CHANNEL_SLOT_DONE MyProcPid (MkPayload R resp))) as (b5 & Hr5 & Hs5 & Hc5).
    { cbn. by rewrite Hc3. } { done. } { cbn. by rewrite Hc3. }
    rewrite Hr5. destruct Hs5 as (_ & _ & _ & Hd5 & _).
    exists b5, free', l'. split; [done|]. split; [done|]. rewrite Hd5. cbn. by rewrite Hd3, Hd.
Qed.

(** [fga_check] end to end: with valid arguments, no cached decision, a
    configured store and a worker that answers, the worker receives exactly the
    check request for the configured store and model and the arguments (each
    text cut at 63 bytes), the function returns the worker's decision and the
    slot is back in the freelist; when the response is not OK the function only
    sends a message and then returns the variable it never set. *)
Theorem fga_check_end_to_end answer stack_key now fcinfo b args key ce i free l :
  read_tuple_args fcinfo = Done args ->
  build_cache_key use_asserts config stack_key args = Done key ->
  fga_cache_lookup MyProcNumber config key now (be_cache b) = (Done None, ce) ->
  c_str_empty (store_id config) = false ->
  chan_repr k (channel_of b) (i :: free) l -> Z.of_nat (length l) < 2 ^ k - 1 ->
  served answer i b ->
  let R := tuple_request (u64 (ch_request_id (channel_of b) + 1)) FGA_REQUEST_CHECK
             ReqCheckTuple args in
  exists b' free' l',
    fga_check use_asserts config MyProcPid MyProcNumber stack_key now fcinfo b =
      (if decide (status (answer R) = FGA_RESPONSE_OK)
       then Done (body_allow (resp_body (answer R)))
       else Undefined UninitializedRead, b') /\
    chan_repr k (channel_of b') (i :: free') l' /\ be_dead_frame b' = be_dead_frame b.
Proof.
  intros Hargs Hkey Hmiss Hst Hc Hroom Hserved R.
  apply (fga_check_spec (answer R) stack_key now fcinfo b args key ce i free l); try done.
  by apply served_executes.
Qed.

(** The part that [fga_write_tuple] and [fga_delete_tuple] share. *)
Definition tuple_change (t : FgaRequestType) (body : FgaTuple -> FgaRequestBody) (msg : string)
    (args : TupleArgsView) : CM (backend L H) bool :=
  slot ← acquire MyProcPid;
  pg_try
    (_ ← modify_request slot (set_type t);
     _ ← fill use_asserts config slot args body;
     _ ← execute use_asserts MyProcPid slot;
     p ← slot_payload slot;
     if decide (status (response p) = FGA_RESPONSE_OK)
     then _ ← release slot; return_inside_try true
     else ereport "ERRCODE_INTERNAL_ERROR" msg)
    (release slot).

Lemma write_tuple_change fcinfo args (b : backend L H) :
  read_tuple_args fcinfo = Done args ->
  fga_write_tuple use_asserts config MyProcPid fcinfo b =
    tuple_change FGA_REQUEST_WRITE_TUPLE ReqWriteTuple "postfga: write tuple failed - %s" args b.
Proof. intros Hargs. unfold fga_write_tuple, mbind at 1, cm_bind at 1, cm_lift. by rewrite Hargs. Qed.

Lemma delete_tuple_change fcinfo args (b : backend L H) :
  read_tuple_args fcinfo = Done args ->
  fga_delete_tuple use_asserts config MyProcPid fcinfo b =
    tuple_change FGA_REQUEST_DELETE_TUPLE ReqDeleteTuple "postfga: delete tuple failed - %s" args b.
Proof. intros Hargs. unfold fga_delete_tuple, mbind at 1, cm_bind at 1, cm_lift. by rewrite Hargs. Qed.

(** What a change of a tuple does whose request is answered with [resp]. *)
Lemma tuple_change_spec resp t body msg b args i free l :
  c_str_empty (store_id config) = false -> chan_repr k (channel_of b) (i :: free) l ->
  executes resp i b free l (tuple_request (u64 (ch_request_id (channel_of b) + 1)) t body args) ->
  exists b' free' l',
    tuple_change t body msg args b =
      (if decide (status resp = FGA_RESPONSE_OK) then Done true
       else Error (PgError "ERRCODE_INTERNAL_ERROR" msg), b') /\
    chan_repr k (channel_of b') (i :: free') l' /\
    be_dead_frame b' =
      (if decide (status resp = FGA_RESPONSE_OK) then true else be_dead_frame b).
Proof.
  intros Hst Hc Hx. destruct (tuple_call_answered resp b i free l t body args Hc Hx Hst)
    as (b1 & b2 & free' & l' & Ha & Hrun & Hc2 & Hif & Hs & Hd & Hn).
  destruct (answered_slot b2 free' l' i _ resp Hc2 Hif Hs)
    as (b3 & Hp & Hc3 & (_ & _ & _ & Hd3 & _) & b4 & Hr & (_ & _ & _ & Hd4 & _) & Hc4).
  unfold tuple_change, mbind at 1, cm_bind at 1. rewrite Ha. unfold pg_try. rewrite Hrun.
  unfold mbind, cm_bind. rewrite Hp. cbn [response].
  destruct (decide (status resp = FGA_RESPONSE_OK)).
  - rewrite Hr. unfold return_inside_try. eexists _, free', l'. split; [done|]. by split.
  - unfold ereport. rewrite Hr. exists b4, free', l'. split; [done|]. split; [done|].
    by rewrite Hd4, Hd.
Qed.

(** The request of [fga_create_store]. *)
Definition store_request (id : Z) (name : list ascii) : FgaRequest :=
  MkRequest id (request_type_code FGA_REQUEST_CREATE_STORE) (zeros OPENFGA_STORE_ID_LEN)
    (zeros OPENFGA_MODEL_ID_LEN) (ReqCreateStore (padded OPENFGA_STORE_NAME_LEN (c_str name))).

Lemma create_store_spec resp name values b i free l :
  chan_repr k (channel_of b) (i :: free) l ->
  executes resp i b free l (store_request (u64 (ch_request_id (channel_of b) + 1)) name) ->
  (status resp = FGA_RESPONSE_OK -> created_store (resp_body resp) = Done values) ->
  exists b' free' l',
    fga_create_store use_asserts MyProcPid true (Some name) b =
      (if decide (status resp = FGA_RESPONSE_OK) then Done values
       else Error (PgError "ERRCODE_EXTERNAL_ROUTINE_EXCEPTION" "postfga: create store failed: %s"),
       b') /\
    chan_repr k (channel_of b') (i :: free') l'.
Proof.
  intros Hc Hx Hv. destruct (acquire_spec b i free l Hc) as (b1 & Ha & Hsame1 & Hh1).
  destruct (modify_request_spec b1 free l i _ (set_type FGA_REQUEST_CREATE_STORE) Hh1)
    as (b2 & Hm & Hsame2 & Hh2).
  destruct (modify_request_spec b2 free l i _ (fun r => set_body (ReqCreateStore
    (strlcpy (body_store_name (req_body r)) name OPENFGA_STORE_NAME_LEN)) r) Hh2)
    as (b3 & Hm' & Hsame3 & Hh3).
  assert (Hsame : same_rest b b3) by (etransitivity; [exact Hsame1|]; by etransitivity).
  assert (Hn : strlcpy (zeros OPENFGA_STORE_NAME_LEN) name OPENFGA_STORE_NAME_LEN =
    padded OPENFGA_STORE_NAME_LEN (c_str name))
    by (apply strlcpy_zeros; unfold OPENFGA_STORE_NAME_LEN; lia).
  destruct (Hx b3 Hsame) as (b4 & free' & l' & Hrun & Hc4 & Hif & Hs & _).
  { unfold store_request. rewrite <- Hn. exact Hh3. }
  destruct (answered_slot b4 free' l' i _ resp Hc4 Hif Hs)
    as (b5 & Hp & Hc5 & _ & b6 & Hr & _ & Hc6).
  unfold fga_create_store, mbind at 1, cm_bind at 1. rewrite Ha. unfold pg_try, mbind, cm_bind.
  rewrite Hm, Hm', Hrun, Hp. cbn [response negb].
  destruct (decide (status resp = FGA_RESPONSE_OK)) as [Hok|Hok].
  - rewrite decide_False by (by intros []). unfold cm_lift. rewrite (Hv Hok), Hr.
    unfold return_inside_try. by eexists _, free', l'.
  - rewrite decide_True by done. unfold ereport. rewrite Hr. by exists b6, free', l'.
Qed.

(** The request of [fga_delete_store]. *)
Definition delete_store_request (id : Z) (sid : list ascii) : FgaRequest :=
  MkRequest id (request_type_code FGA_REQUEST_DELETE_STORE) (padded OPENFGA_STORE_ID_LEN (c_str sid))
    (zeros OPENFGA_MODEL_ID_LEN) ReqZero.

Lemma delete_store_spec resp sid b i free l :
  chan_repr k (channel_of b) (i :: free) l ->
  executes resp i b free l (delete_store_request (u64 (ch_request_id (channel_of b) + 1)) sid) ->
  exists b' free' l',
    fga_delete_store use_asserts MyProcPid (Some sid) b =
      (if decide (status resp = FGA_RESPONSE_OK) then Done tt
       else Error (PgError "ERRCODE_EXTERNAL_ROUTINE_EXCEPTION" "postfga: delete store failed: %s"),
       b') /\
    chan_repr k (channel_of b') (i :: free') l'.
Proof.
  intros Hc Hx. destruct (acquire_spec b i free l Hc) as (b1 & Ha & Hsame1 & Hh1).
  destruct (modify_request_spec b1 free l i _ (set_type FGA_REQUEST_DELETE_STORE) Hh1)
    as (b2 & Hm & Hsame2 & Hh2).
  destruct (modify_request_spec b2 free l i _ (fun r => MkRequest (request_id r) (req_type r)
    (strlcpy (req_store_id r) sid OPENFGA_STORE_ID_LEN) (req_model_id r) (req_body r)) Hh2)
    as (b3 & Hm' & Hsame3 & Hh3).
  assert (Hsame : same_rest b b3) by (etransitivity; [exact Hsame1|]; by etransitivity).
  assert (Hn : strlcpy (zeros OPENFGA_STORE_ID_LEN) sid OPENFGA_STORE_ID_LEN =
    padded OPENFGA_STORE_ID_LEN (c_str sid))
    by (apply strlcpy_zeros; unfold OPENFGA_STORE_ID_LEN; lia).
  destruct (Hx b3 Hsame) as (b4 & free' & l' & Hrun & Hc4 & Hif & Hs & _).
  { unfold delete_store_request. rewrite <- Hn. exact Hh3. }
  destruct (answered_slot b4 free' l' i _ resp Hc4 Hif Hs)
    as (b5 & Hp & Hc5 & _ & b6 & Hr & _ & Hc6).
  unfold fga_delete_store, mbind at 1, cm_bind at 1. rewrite Ha. unfold pg_try, mbind, cm_bind.
  rewrite Hm, Hm', Hrun, Hp. cbn [response].
  destruct (decide (status resp = FGA_RESPONSE_OK)) as [Hok|Hok].
  - rewrite decide_False by (by intros []). rewrite Hr. unfold return_inside_try. by eexists _, free', l'.
  - rewrite decide_True by done. unfold ereport. rewrite Hr. by exists b6, free', l'.
Qed.

(** After a successful [fga_write_tuple], any error raised later in the same
    statement, here by an [fga_check] with a bad argument, jumps into the dead
    stack frame of the finished call instead of being reported. *)
Theorem error_after_write_jumps_to_dead_frame answer fcinfo b args i free l :
  read_tuple_args fcinfo = Done args -> c_str_empty (store_id config) = false ->
  chan_repr k (channel_of b) (i :: free) l -> Z.of_nat (length l) < 2 ^ k - 1 ->
  served answer i b -> (forall r, status (answer r) = FGA_RESPONSE_OK) ->
  exists b', fga_write_tuple use_asserts config MyProcPid fcinfo b = (Done true, b') /\
    forall stack_key now bad e, read_tuple_args bad = Error e ->
      raise_to_top
        (fga_check use_asserts config MyProcPid MyProcNumber stack_key now bad) b' =
        (Undefined DeadFrameJump, b').
Proof.
  intros Hargs Hst Hc Hroom Hserved Hok.
  rewrite (write_tuple_change fcinfo args b Hargs).
  destruct (tuple_change_spec _ FGA_REQUEST_WRITE_TUPLE ReqWriteTuple "postfga: write tuple failed - %s"
    b args i free l Hst Hc (served_executes answer i b free l _ Hroom Hserved))
    as (b' & free' & l' & Hw & _ & Hd).
  rewrite decide_True in Hw by apply Hok. rewrite decide_True in Hd by apply Hok.
  exists b'. split; [done|]. intros stack_key now bad e Hbad.
  unfold raise_to_top, fga_check, mbind, cm_bind, cm_lift. by rewrite Hbad, Hd.
Qed.
(** A decision in the cache is returned without a request. *)
Lemma fga_check_cached stack_key now fcinfo b args key ce a :
  read_tuple_args fcinfo = Done args ->
  build_cache_key use_asserts config stack_key args = Done key ->
  fga_cache_lookup MyProcNumber config key now (be_cache b) = (Done (Some a), ce) ->
  fga_check use_asserts config MyProcPid MyProcNumber stack_key now fcinfo b =
    (Done a, MkBackend (be_chan b) ce (be_dead_frame b) (be_notices b)).
Proof.
  intros Hargs Hkey Hhit. unfold fga_check, mbind, cm_bind, cm_lift.
  rewrite Hargs, Hkey. unfold on_cache_env. by rewrite Hhit.
Qed.

(** Without a configured store the slot is taken and never given back. *)
Lemma fga_check_leaks stack_key now fcinfo b args key i free l :
  read_tuple_args fcinfo = Done args ->
  build_cache_key use_asserts config stack_key args = Done key ->
  cache_enabled config = false -> c_str_empty (store_id config) = true ->
  chan_repr k (channel_of b) (i :: free) l ->
  exists b', fga_check use_asserts config MyProcPid MyProcNumber stack_key now fcinfo b =
      (Error (PgError "ERRCODE_INTERNAL_ERROR" "postfga: store_id is not configured"), b') /\
    chan_repr k (channel_of b') free l.
Proof.
  intros Hargs Hkey Hoff Hst Hc. unfold fga_check, mbind at 1, cm_bind at 1, cm_lift at 1.
  rewrite Hargs. unfold mbind at 1, cm_bind at 1, cm_lift at 1. rewrite Hkey.
  unfold mbind at 1, cm_bind at 1, on_cache_env at 1, fga_cache_lookup. rewrite Hoff. cbn [negb].
  unfold mret at 1, cm_ret at 1. set (b0 := MkBackend _ _ _ _).
  destruct (acquire_spec b0 i free l Hc) as (b1 & Ha & _ & Hh1).
  unfold mbind, cm_bind. rewrite Ha.
  destruct (modify_request_spec b1 free l i _ (set_type FGA_REQUEST_CHECK) Hh1)
    as (b2 & -> & _ & Hh2). pose proof Hh2 as (_ & _ & Hs2).
  destruct (slot_payload_spec b2 i _ Hs2) as (b3 & Hp & Hc3 & _).
  unfold fill, mbind, cm_bind, cm_lift. rewrite Hp, fill_request_unset by done.
  exists b3. split; [done|]. rewrite Hc3. apply Hh2.
Qed.

Lemma fga_check_exhausted stack_key now fcinfo b args key l :
  read_tuple_args fcinfo = Done args ->
  build_cache_key use_asserts config stack_key args = Done key ->
  cache_enabled config = false ->
  chan_repr k (channel_of b) [] l ->
  exists b', fga_check use_asserts config MyProcPid MyProcNumber stack_key now fcinfo b =
      (Error (PgError "ERRCODE_OUT_OF_MEMORY" "channel slot pool exhausted"), b').
Proof.
  intros Hargs Hkey Hoff Hc. unfold fga_check, mbind at 1, cm_bind at 1, cm_lift at 1.
  rewrite Hargs. unfold mbind at 1, cm_bind at 1, cm_lift at 1. rewrite Hkey.
  unfold mbind at 1, cm_bind at 1, on_cache_env at 1, fga_cache_lookup. rewrite Hoff. cbn [negb].
  unfold mret at 1, cm_ret at 1. set (b0 := MkBackend _ _ _ _).
  pose proof (chan_acquire_exhausted k _ l MyProcPid Hc) as Ha.
  destruct (on_chan_channel _ b0 _ _ Ha) as (b' & Hb & _).
  unfold mbind, cm_bind, acquire. rewrite Hb. by exists b'.
Qed.

(** [n] failing calls, their errors reported to the client and forgotten. *)
Fixpoint check_n (n : nat) (stack_key : FgaAclCacheKey) (now : Z) (fcinfo : list text)
    (b : backend L H) : list (outcome bool) * backend L H :=
  match n with
  | O => ([], b)
  | S n' =>
      let '(r, b') := fga_check use_asserts config MyProcPid MyProcNumber stack_key now fcinfo b in
      let '(rs, b'') := check_n n' stack_key now fcinfo b' in (r :: rs, b'')
  end.


(** Up to the call of [fga_channel_execute_slot]. *)
Lemma tuple_call_prepared b i free l t body args :
  chan_repr k (channel_of b) (i :: free) l -> c_str_empty (store_id config) = false ->
  exists b1 b2 p, acquire MyProcPid b = (Done i, b1) /\
    (forall A (rest : CM (backend L H) A),
      (_ ← modify_request i (set_type t); _ ← fill use_asserts config i args body; rest) b1
      = rest b2) /\
    holds b2 free l i p /\ same_rest b b2.
Proof.
  intros Hc Hst. destruct (acquire_spec b i free l Hc) as (b1 & Ha & Hsame1 & Hh1).
  destruct (modify_request_spec b1 free l i _ (set_type t) Hh1) as (b2 & Hm & Hsame2 & Hh2).
  destruct (fill_spec b2 free l i _ _ body args _ Hh2 Hst) as (b3 & Hf & Hsame3 & Hh3).
  eexists b1, b3, _. split; [done|]. split.
  { intros A rest. unfold mbind, cm_bind. by rewrite Hm, Hf. }
  split; [exact Hh3|]. etransitivity; [exact Hsame1|]. by etransitivity.
Qed.

(** An interrupt while [fga_write_tuple] waits: the wait loop marks the slot
    CANCELED for the worker to free, but the function's own handler frees it at
    once, so the slot is in the freelist while its number is still queued: the
    next request is written into a slot the worker is about to process. *)
Theorem fga_write_interrupt_frees_queued_slot fcinfo (b : backend L H) args i free l w rest err :
  read_tuple_args fcinfo = Done args -> c_str_empty (store_id config) = false ->
  chan_repr k (channel_of b) (i :: free) l -> Z.of_nat (length l) < 2 ^ k - 1 ->
  is_Some (bgw_latch (be_chan b)) -> env_wakes (be_chan b) = w :: rest ->
  (forall c, wk_others w c = c) -> wk_interrupt w = Some err ->
  exists b', fga_write_tuple use_asserts config MyProcPid fcinfo b = (Error err, b') /\
    chan_repr k (channel_of b') (i :: free) (l ++ [Z.of_nat i]).
Proof.
  intros Hargs Hst Hc Hroom Hl Hw Hid Hint.
  destruct (tuple_call_prepared b i free l FGA_REQUEST_WRITE_TUPLE ReqWriteTuple args Hc Hst)
    as (b1 & b2 & p & Ha & Hrun & (Hc2 & Hif & Hs2) & (Hl2 & Hw2 & _)).
  destruct (execute_interrupted use_asserts k MyProcPid i (be_chan b2) free l _ w rest err
    Hc2 Hroom Hif Hs2 eq_refl ltac:(by left) ltac:(by rewrite Hl2) ltac:(by rewrite Hw2) Hid Hint)
    as (c & Hx & Hc3 & Hs3).
  unfold fga_write_tuple, mbind at 1, cm_bind at 1, cm_lift at 1. rewrite Hargs.
  unfold mbind at 1, cm_bind at 1. rewrite Ha. unfold pg_try. rewrite Hrun.
  unfold mbind at 1, cm_bind at 1, execute, on_chan at 1. rewrite Hx.
  set (b3 := MkBackend _ _ _ _).
  destruct (release_spec b3 free (l ++ [Z.of_nat i]) i _ Hc3 Hif Hs3) as (b4 & -> & _ & Hc4).
  by exists b4.
Qed.
End SqlSpec.

(** When the queue is full, [fga_channel_execute_slot] frees the slot before
    it raises and the handler of [fga_write_tuple] frees it again: the linked
    freelist then points from the slot to itself, and every later acquire hands
    out that slot. *)
Theorem fga_write_full_queue_corrupts_freelist {H} `{Dynahash FgaAclCacheKey Z H}
    use_asserts config MyProcPid k fcinfo (b : backend linked H) args i free l :
  read_tuple_args fcinfo = Done args -> c_str_empty (store_id config) = false ->
  chan_repr k (env_channel (be_chan b)) (i :: free) l -> Z.of_nat (length l) = 2 ^ k - 1 ->
  exists b', fga_write_tuple use_asserts config MyProcPid fcinfo b =
      (Error (PgError "ERRCODE_INTERNAL_ERROR" "postfga: failed to enqueue channel slot"), b') /\
    let head := pool_head (ch_pool (env_channel (be_chan b'))) in
    ln_head head = Some i /\ ln_next head !! i = Some (Some i).
Proof.
  intros Hargs Hst Hc Hfull.
  destruct (tuple_call_prepared use_asserts config MyProcPid k b i free l
    FGA_REQUEST_WRITE_TUPLE ReqWriteTuple args Hc Hst)
    as (b1 & b2 & p & Ha & Hrun & (Hc2 & Hif & Hs2) & _).
  destruct (execute_full use_asserts k MyProcPid i (be_chan b2) free l _ Hc2 Hfull Hif Hs2)
    as (c & Hx & Hc3 & Hs3).
  unfold fga_write_tuple, mbind at 1, cm_bind at 1, cm_lift at 1. rewrite Hargs.
  unfold mbind at 1, cm_bind at 1. rewrite Ha. unfold pg_try. rewrite Hrun.
  unfold mbind at 1, cm_bind at 1, execute, on_chan at 1. rewrite Hx.
  destruct Hc3 as [Hpl Hql Hp _ _]. destruct Hp as [Hlist _ _ _]. cbn in Hlist.
  destruct Hlist as [Hhead _].
  unfold release, on_chan, on_channel, fga_channel_release_slot, lock_pool, mbind, cm_bind.
  cbn [be_chan env_channel]. rewrite Hpl. unfold on_pool. cbn [ch_pool set_pool_lock].
  unfold release_slot, mbind, cm_bind, update_slot.
  unfold chan_slot in Hs3. rewrite Hs3. cbn. eexists. split; [done|]. cbn.
  by rewrite lookup_insert_eq, Hhead.
Qed.

(** Texts longer than 63 bytes are cut silently: the members of the request
    hold the first 63 bytes of each argument, so arguments that agree on those
    make the same request, whatever follows. *)
Theorem fill_tuple_truncates use_asserts v :
  Forall no_nul [v_object_type v; v_object_id v; v_subject_type v; v_subject_id v; v_relation v] ->
  exists t, fill_tuple use_asserts v zero_tuple = Done t /\ tuple_wf t /\
    c_str (object_type t) = take 63 (v_object_type v) /\
    c_str (object_id t) = take 63 (v_object_id v) /\
    c_str (subject_type t) = take 63 (v_subject_type v) /\
    c_str (subject_id t) = take 63 (v_subject_id v) /\
    c_str (relation t) = take 63 (v_relation v) /\
    forall v', take 63 (v_object_type v') = take 63 (v_object_type v) ->
      take 63 (v_object_id v') = take 63 (v_object_id v) ->
      take 63 (v_subject_type v') = take 63 (v_subject_type v) ->
      take 63 (v_subject_id v') = take 63 (v_subject_id v) ->
      take 63 (v_relation v') = take 63 (v_relation v) ->
      fill_tuple use_asserts v' zero_tuple = Done t.
Proof.
  intros Hn. repeat (apply Forall_cons in Hn as [? Hn]). exists (padded_tuple v).
  assert (Hlen : forall src, length (padded 64 src) = 64%nat).
  { intros src. unfold padded, zeros. rewrite length_app, length_replicate, length_take. lia. }
  split; [apply fill_tuple_zeros|]. split; [by split_and!; apply Hlen|].
  split_and!; try (apply (c_str_padded 64); [lia|done]).
  intros v' E1 E2 E3 E4 E5. rewrite fill_tuple_zeros. unfold padded_tuple, padded.
  cbn [Nat.sub OBJECT_TYPE_MAX_LEN OBJECT_ID_MAX_LEN SUBJECT_TYPE_MAX_LEN SUBJECT_ID_MAX_LEN
    RELATION_MAX_LEN]. unfold OBJECT_TYPE_MAX_LEN, OBJECT_ID_MAX_LEN, SUBJECT_TYPE_MAX_LEN,
    SUBJECT_ID_MAX_LEN, RELATION_MAX_LEN. cbn [Nat.sub]. by rewrite E1, E2, E3, E4, E5.
Qed.

(** ** The theorems on a concrete backend *)
Definition sql_config : FgaConfig :=
  MkConfig (Some (str "localhost:8081")) (Some (str "store")) None false false 1 60000 0 0.
Definition sql_no_store : FgaConfig :=
  MkConfig (Some (str "localhost:8081")) None None false false 1 60000 0 0.
Definition sql_answer (r : FgaRequest) : FgaResponse :=
  MkResponse FGA_RESPONSE_OK (zeros FGA_RESPONSE_ERROR_MESSAGE_LEN) (RespCheckTuple true).
Definition sql_args : list text :=
  [Some (str "doc"); Some (str "1"); Some (str "user"); Some (str "bob"); Some (str "read"); None].
Definition sql_view : TupleArgsView :=
  MkTupleArgs (str "doc") (str "1") (str "user") (str "bob") (str "read") None.
Definition sql_env : cache_env sample_table :=
  MkEnv None (MkL2State None None) (MkStats 0 0 0 0 0 0 0 []).

Definition sql_backend (c : FgaChannel linked) (wakes : list (wake linked))
  : backend linked sample_table :=
  MkBackend (MkChanEnv c (Some false) wakes) sql_env false [].
Definition sql_answered : backend linked sample_table :=
  sql_backend sample_channel [MkWake (worker_answers sql_answer 0) None].

Lemma sql_served : served 2 sql_answer 0 sql_answered.
Proof.
  split; [by eexists|]. exists [], (MkWake (worker_answers sql_answer 0) None), [].
  split; [done|]. split; [constructor|]. apply worker_answers_completes.
Qed.

Lemma fga_check_end_to_end_witness :
  exists b' free' l',
    fga_check (HX := example_hash) true sql_config 42 0 inhabitant 0 sql_args sql_answered =
      (Done true, b') /\
    chan_repr 2 (env_channel (be_chan b')) (0%nat :: free') l'.
Proof.
  assert (Hkey : exists key, build_cache_key (H := example_hash) true sql_config inhabitant
    sql_view = Done key) by (eexists; vm_compute; reflexivity).
  destruct Hkey as [key Hkey].
  destruct (fga_check_end_to_end (HX := example_hash) true sql_config 42 0 2 sql_answer inhabitant
    0 sql_args sql_answered sql_view key sql_env 0 [1%nat] [] eq_refl Hkey eq_refl eq_refl
    sample_channel_repr eq_refl sql_served) as (b' & free' & l' & Hr & Hc & _).
  exists b', free', l'. split; [exact Hr|exact Hc].
Defined.

Lemma error_after_write_jumps_to_dead_frame_witness :
  exists b', fga_write_tuple true sql_config 42 sql_args sql_answered = (Done true, b') /\
    raise_to_top (fga_check (HX := example_hash) true sql_config 42 0 inhabitant 0 [None]) b' =
      (Undefined DeadFrameJump, b').
Proof.
  destruct (error_after_write_jumps_to_dead_frame (HX := example_hash) true sql_config 42 0 2
    sql_answer sql_args sql_answered sql_view 0 [1%nat] [] eq_refl eq_refl sample_channel_repr
    eq_refl sql_served (fun _ => eq_refl)) as (b' & Hw & He).
  exists b'. split; [exact Hw|]. by eapply He.
Defined.


Definition sql_interrupt : pg_error := PgError "ERRCODE_QUERY_CANCELED" "canceling statement".

Lemma fga_write_interrupt_frees_queued_slot_witness :
  exists b', fga_write_tuple true sql_config 42 sql_args
      (sql_backend sample_channel [MkWake (fun c => c) (Some sql_interrupt)]) =
      (Error sql_interrupt, b') /\
    chan_repr 2 (env_channel (be_chan b')) [0%nat; 1%nat] [0].
Proof.
  apply (fga_write_interrupt_frees_queued_slot true sql_config 42 2 sql_args
    (sql_backend sample_channel [MkWake (fun c => c) (Some sql_interrupt)]) sql_view 0 [1%nat] []
    (MkWake (fun c => c) (Some sql_interrupt)) [] sql_interrupt eq_refl eq_refl
    sample_channel_repr eq_refl ltac:(by eexists) eq_refl (fun _ => eq_refl) eq_refl).
Defined.

Lemma fga_write_full_queue_corrupts_freelist_witness :
  exists b', fga_write_tuple true sql_config 42 sql_args (sql_backend sample_full_channel []) =
      (Error (PgError "ERRCODE_INTERNAL_ERROR" "postfga: failed to enqueue channel slot"), b') /\
    ln_head (pool_head (ch_pool (env_channel (be_chan b')))) = Some 0%nat /\
    ln_next (pool_head (ch_pool (env_channel (be_chan b')))) !! 0%nat = Some (Some 0%nat).
Proof.
  apply (fga_write_full_queue_corrupts_freelist true sql_config 42 2 sql_args
    (sql_backend sample_full_channel []) sql_view 0 [1%nat] [0; 0; 0] eq_refl eq_refl
    sample_full_channel_repr eq_refl).
Defined.

Lemma fill_tuple_truncates_witness :
  exists t, fill_tuple true sql_view zero_tuple = Done t /\ tuple_wf t /\
    c_str (object_id t) = str "1".
Proof.
  destruct (fill_tuple_truncates true sql_view) as (t & Hf & Hw & _ & Ho & _).
  { decide_now. }
  exists t. split; [exact Hf|]. split; [exact Hw|exact Ho].
Defined.
