(* ===== verification/ColdCache.v ===== *)
(** * The cache as the SQL functions use it

    [fga_check] consults the two-tier cache ([src/cache.c]), and no function of
    [src/func_fga.c] stores a decision.  So every cache that calls of the SQL
    functions can reach from startup is cold: it shows no entry, and a check
    always asks the server. *)
From stdpp Require Import functions.
From S2P Require Import Prelude Platform Types CacheKey CacheSpec CacheL1 CacheL2 Stats Cache.
From S2P Require Import SlotQueue SlotPool Channel SqlFuncs.

Section Cold.
Context {H : Type} {HD : Dynahash FgaAclCacheKey Z H} {HL : DynahashLaws FgaAclCacheKey Z H}.
Variable n : nat.     (* the number of backends *)

(** A consistent cache without an entry. *)
Record cold (env : cache_env H) : Prop := {
  cold_wf : l2_wf (ce_l2 env);
  cold_cache : is_Some (l2c (ce_l2 env));
  cold_l1_wf : l1_wf (ce_l1 env);
  cold_stats : length (backends (ce_stats env)) = n;
  cold_l1 k : l1_view (ce_l1 env) k = None;
  cold_l2 k : l2_view (ce_l2 env) k = None;
}.

Lemma cold_lookup p config key now env :
  cold env -> -1 <= p < Z.of_nat n ->
  exists env', fga_cache_lookup p config key now env = (Done None, env') /\ cold env'.
Proof.
  intros [Hwf [c Hc] Hwf1 Hst Hv1 Hv2] Hp. destruct (cache_enabled config) eqn:He.
  - pose proof (fga_cache_lookup_spec p config key now env c n Hwf Hc Hst Hp He) as Hs.
    unfold lookup_result in Hs.
    pose proof (l1_lookup_none (ce_l1 env) key (l2_generation c) (get_now_ms now) Hwf1 (Hv1 key)) as Hm.
    pose proof (l1_lookup_forgets (ce_l1 env) key (l2_generation c) (get_now_ms now) Hwf1) as Hf.
    pose proof (l1_lookup_wf (ce_l1 env) key (l2_generation c) (get_now_ms now) Hwf1) as Hw.
    destruct (l1_lookup (ce_l1 env) key _ _) as [l1' r1]. cbn in Hm, Hf, Hw. subst r1.
    assert (l2_answer (ce_l2 env) key (get_now_ms now) = None) as Ha.
    { unfold l2_answer. rewrite Hc. cbn. by rewrite Hv2. }
    rewrite Ha in Hs. destruct Hs as (env' & Hlk & <- & Hwf' & Hmeta & Hv & _ & Hst').
    exists env'. split; [done|]. destruct (meta_preserved _ _ _ Hmeta Hc) as (c' & Hc' & _).
    split; try done; [|intros k; by rewrite Hv, Hv2].
    intros k. destruct (l1_view (ce_l1 env') k) as [d|] eqn:Hd; [|done].
    pose proof (Hf k d Hd) as Hd'. change (l1_view (ce_l1 env) k = Some d) in Hd'. by rewrite Hv1 in Hd'.
  - exists env. split; [|by split; eauto]. unfold fga_cache_lookup. by rewrite He.
Qed.
End Cold.

(** ** The SQL functions keep the cache cold *)
Section SqlCold.
Context {L : Type} {HS : SList L}.
Context {H : Type} {HD : Dynahash FgaAclCacheKey Z H} {HL : DynahashLaws FgaAclCacheKey Z H} {HX : XXHash}.
Variable n : nat.
Variable use_asserts : bool.
Variable config : FgaConfig.
Variables MyProcPid MyProcNumber : Z.
Hypothesis proc_range : -1 <= MyProcNumber < Z.of_nat n.

Definition stays_cold (b b' : backend L H) : Prop := cold n (be_cache b) -> cold n (be_cache b').

#[local] Instance stays_cold_preorder : PreOrder stays_cold.
Proof. split; unfold stays_cold; red; auto. Qed.

Lemma on_chan_cold {A} (m : CM (chan_env L) A) : keeps stays_cold (on_chan m).
Proof. intros b Hc. unfold on_chan. by destruct (m (be_chan b)). Qed.

Lemma lookup_cold key now : keeps stays_cold (on_cache_env (fga_cache_lookup MyProcNumber config key now)).
Proof.
  intros b Hc. destruct (cold_lookup n MyProcNumber config key now _ Hc proc_range) as (env' & Hl & Hc').
  unfold on_cache_env. by rewrite Hl.
Qed.

Lemma info_cold msg : keeps stays_cold (info msg).
Proof. by intros b Hc. Qed.

Lemma return_cold {A} (a : A) : keeps stays_cold (return_inside_try a).
Proof. by intros b Hc. Qed.

Lemma try_cold {A} (m : CM (backend L H) A) h :
  keeps stays_cold m -> keeps stays_cold h -> keeps stays_cold (pg_try m h).
Proof.
  intros Hm Hh b. specialize (Hm b). unfold pg_try. destruct (m b) as [[a|e|u] b1]; try done.
  specialize (Hh b1). destruct (h b1) as [[]]; intros Hc; by apply Hh, Hm.
Qed.

Hint Resolve on_chan_cold lookup_cold info_cold return_cold try_cold : keeps.

Ltac keep_cold :=
  repeat first
    [apply keeps_bind; [apply stays_cold_preorder| |intros ?]
    |apply try_cold
    |case_match
    |solve [auto with keeps typeclass_instances]].

Lemma acquire_cold : keeps stays_cold (acquire MyProcPid).
Proof. apply on_chan_cold. Qed.
Lemma release_cold slot : keeps stays_cold (release slot).
Proof. apply on_chan_cold. Qed.
Lemma execute_cold slot : keeps stays_cold (execute use_asserts MyProcPid slot).
Proof. apply on_chan_cold. Qed.
Lemma modify_cold slot f : keeps stays_cold (modify_request slot f).
Proof. apply on_chan_cold. Qed.
Lemma slot_payload_cold slot : keeps stays_cold (slot_payload slot).
Proof. unfold slot_payload. keep_cold. Qed.
Hint Resolve acquire_cold release_cold execute_cold modify_cold slot_payload_cold : keeps.

Lemma fill_cold slot args body : keeps stays_cold (fill use_asserts config slot args body).
Proof. unfold fill. keep_cold. Qed.
Hint Resolve fill_cold : keeps.

Lemma fga_check_cold stack_key now fcinfo :
  keeps stays_cold (fga_check use_asserts config MyProcPid MyProcNumber stack_key now fcinfo).
Proof. unfold fga_check. keep_cold. Qed.
Lemma fga_write_tuple_cold fcinfo : keeps stays_cold (fga_write_tuple use_asserts config MyProcPid fcinfo).
Proof. unfold fga_write_tuple. keep_cold. Qed.
Lemma fga_delete_tuple_cold fcinfo : keeps stays_cold (fga_delete_tuple use_asserts config MyProcPid fcinfo).
Proof. unfold fga_delete_tuple. keep_cold. Qed.
Lemma fga_create_store_cold composite name :
  keeps stays_cold (fga_create_store use_asserts MyProcPid composite name).
Proof. unfold fga_create_store. keep_cold. Qed.
Lemma fga_delete_store_cold store : keeps stays_cold (fga_delete_store use_asserts MyProcPid store).
Proof. unfold fga_delete_store. keep_cold. Qed.
End SqlCold.

(** ** All calls of all backends *)
Inductive sql_call : Type :=
  | CallCheck (stack_key : FgaAclCacheKey) (now_us : Z) (fcinfo : list text)
  | CallWriteTuple (fcinfo : list text)
  | CallDeleteTuple (fcinfo : list text)
  | CallCreateStore (composite_result : bool) (store_name : text)
  | CallDeleteStore (store : text).

Section Reach.
Context {L : Type} {HS : SList L}.
Context {H : Type} {HD : Dynahash FgaAclCacheKey Z H} {HL : DynahashLaws FgaAclCacheKey Z H} {HX : XXHash}.
Variable n : nat.
Variable use_asserts : bool.

Definition run_call (config : FgaConfig) (pid : Z) (b : nat) (call : sql_call) : CM (backend L H) unit :=
  match call with
  | CallCheck stack_key now fcinfo =>
      _ ← fga_check use_asserts config pid (Z.of_nat b) stack_key now fcinfo; mret tt
  | CallWriteTuple fcinfo => _ ← fga_write_tuple use_asserts config pid fcinfo; mret tt
  | CallDeleteTuple fcinfo => _ ← fga_delete_tuple use_asserts config pid fcinfo; mret tt
  | CallCreateStore composite name => _ ← fga_create_store use_asserts pid composite name; mret tt
  | CallDeleteStore store => fga_delete_store use_asserts pid store
  end.

(** Backend [b] makes a call, which may return, fail or be cut off, from any
    state [be] of its process that shares the caches of [w]. *)
Inductive sql_reaches (w0 : world (H := H)) : world (H := H) -> Prop :=
  | ReachBoot : sql_reaches w0 w0
  | ReachCall w b config pid call be be' r : sql_reaches w0 w -> (b < n)%nat ->
      be_cache be = MkEnv (w_l1 w b) (w_l2 w) (w_stats w) ->
      run_call config pid b call be = (r, be') ->
      sql_reaches w0 (MkWorld (<[b := ce_l1 (be_cache be')]> (w_l1 w)) (ce_l2 (be_cache be'))
                        (ce_stats (be_cache be'))).

Definition cold_world (w : world (H := H)) : Prop :=
  forall b, (b < n)%nat -> cold n (MkEnv (w_l1 w b) (w_l2 w) (w_stats w)).

Lemma run_call_cold config pid b call : (b < n)%nat -> keeps (stays_cold n) (run_call config pid b call).
Proof.
  intros Hb. assert (-1 <= Z.of_nat b < Z.of_nat n) by lia. destruct call; cbn [run_call];
    try (apply keeps_bind; [apply stays_cold_preorder| |intros ?; apply keeps_ret; apply stays_cold_preorder]).
  - by apply fga_check_cold.
  - by apply fga_write_tuple_cold.
  - by apply fga_delete_tuple_cold.
  - by apply fga_create_store_cold.
  - by apply fga_delete_store_cold.
Qed.

Lemma reaches_cold w0 w : cold_world w0 -> sql_reaches w0 w -> cold_world w.
Proof.
  intros H0. induction 1 as [|w b config pid call be be' r _ IH Hb Hbe Hrun]; [done|].
  assert (Hc : cold n (be_cache be')).
  { apply (keeps_done (stays_cold n) _ _ _ _ (run_call_cold config pid b call Hb) Hrun).
    rewrite Hbe. by apply IH. }
  intros b' Hb'. destruct (decide (b' = b)) as [->|Hne]; cbn [w_l1 w_l2 w_stats].
  - rewrite fn_lookup_insert. by destruct (be_cache be').
  - rewrite fn_lookup_insert_ne by done. destruct (IH b' Hb') as [_ _ Hw _ Hv _], Hc. by split.
Qed.

Lemma boot_cold config mem stats_mem : mem_ok config mem ->
  exists w0, cache_boot (H := H) config (Z.of_nat n) mem stats_mem = Done w0 /\ cold_world w0.
Proof.
  intros Hmem. destruct (cache_boot_spec n _ config mem stats_mem Hmem eq_refl) as (w0 & Hw0 & Hinv & _).
  exists w0. split; [done|]. intros b _. destruct Hinv as [H2 (c & Hc & _) H1 Hst Hs2 Hs1 _].
  split; cbn [ce_l1 ce_l2 ce_stats]; [done|by eexists|apply H1|done| |].
  - intros k. destruct (l1_view (w_l1 w0 b) k) as [d|] eqn:Hv; [|done].
    apply (Hs1 b) in Hv as (src & _ & Hw). by apply latest_write_nil in Hw.
  - intros k. destruct (l2_view (w_l2 w0) k) as [d|] eqn:Hv; [|done]. by apply Hs2, latest_write_nil in Hv.
Qed.

(** C14. The cache never answers.  From startup, after any calls of the five SQL
    functions by any backends, whatever they return, every lookup of every
    backend misses, with any settings: no function stores a decision, so each
    check asks the server. *)
Theorem checks_never_hit_the_cache config mem stats_mem :
  mem_ok config mem ->
  exists w0, cache_boot (H := H) config (Z.of_nat n) mem stats_mem = Done w0 /\
    forall w b cfg key now, sql_reaches w0 w -> (b < n)%nat ->
      exists w', run_in b (fga_cache_lookup (Z.of_nat b) cfg key now) w = (Done None, w').
Proof.
  intros Hmem. destruct (boot_cold config mem stats_mem Hmem) as (w0 & Hw0 & Hcold).
  exists w0. split; [done|]. intros w b cfg key now Hr Hb.
  destruct (cold_lookup n (Z.of_nat b) cfg key now _ (reaches_cold w0 w Hcold Hr b Hb) ltac:(lia))
    as (env' & Hl & _).
  eexists. unfold run_in. by rewrite Hl.
Qed.
End Reach.

(** A check by backend 1 that waits forever, and then a lookup of backend 0. *)
Lemma checks_never_hit_the_cache_witness :
  exists w0 w w', cache_boot (H := sample_table) sample_config (Z.of_nat 2) sample_mem sample_stats_mem = Done w0 /\
    sql_reaches (L := linked) (HX := example_hash) 2 true w0 w /\
    run_in 0 (fga_cache_lookup (Z.of_nat 0) sample_config sample_key1 8000) w = (Done None, w').
Proof.
  destruct (checks_never_hit_the_cache (L := linked) (HX := example_hash) 2 true sample_config sample_mem
    sample_stats_mem sample_mem_ok) as (w0 & Hw0 & Hmiss).
  pose (be := MkBackend (MkChanEnv sample_channel (Some false) []) (MkEnv (w_l1 w0 1) (w_l2 w0) (w_stats w0))
    false []).
  destruct (run_call (HX := example_hash) true sql_config 42 1 (CallCheck inhabitant 0 sql_args) be)
    as [r be'] eqn:Hrun.
  pose proof (ReachCall (HX := example_hash) 2 true w0 w0 1 _ _ _ be be' r (ReachBoot _ _ _) ltac:(lia) eq_refl Hrun)
    as Hr.
  destruct (Hmiss _ 0%nat sample_config sample_key1 8000 Hr ltac:(lia)) as (w' & Hl).
  eexists w0, _, w'. split; [exact Hw0|]. split; [exact Hr|exact Hl].
Defined.
