(* ===== verification/ChannelShmem.v ===== *)
(** * Channel memory: [src/channel_shmem.c]

    How many slots the channel has, how large its queue is, and where its
    parts lie in the shared segment. *)
From S2P Require Import Prelude Platform Types SlotQueue SlotPool Channel.

(** ** Rounding up to a power of two *)
Definition pow2_ceil (x : Z) : Z :=
  if x =? 0 then 1
  else
    let x := u32 (x - 1) in
    let x := Z.lor x (Z.shiftr x 1) in
    let x := Z.lor x (Z.shiftr x 2) in
    let x := Z.lor x (Z.shiftr x 4) in
    let x := Z.lor x (Z.shiftr x 8) in
    let x := Z.lor x (Z.shiftr x 16) in
    u32 (x + 1).

(** ** C's [atoi]: white space, a sign, digits; [strtol] narrowed to [int] *)
Definition is_space (c : ascii) : bool :=
  let z := Z_of_byte c in (z =? 32) || ((9 <=? z) && (z <=? 13)).
Definition digit (c : ascii) : option Z :=
  let z := Z_of_byte c in if (48 <=? z) && (z <=? 57) then Some (z - 48) else None.

Fixpoint skip_spaces (s : list ascii) : list ascii :=
  match s with
  | c :: s' => if is_space c then skip_spaces s' else s
  | [] => []
  end.
Fixpoint atoi_digits (acc : Z) (s : list ascii) : Z :=
  match s with
  | c :: s' => match digit c with Some d => atoi_digits (acc * 10 + d) s' | None => acc end
  | [] => acc
  end.

Definition INT_MAX : Z := 2 ^ 31 - 1.
Definition INT_MIN : Z := - 2 ^ 31.
(** A value that is out of range leaves [atoi] undefined. *)
Definition atoi (s : list ascii) : outcome Z :=
  let s := skip_spaces (c_str s) in
  let n := match s with
           | c :: s' => if Z_of_byte c =? 45 then - atoi_digits 0 s'
                        else if Z_of_byte c =? 43 then atoi_digits 0 s'
                        else atoi_digits 0 s
           | [] => 0
           end in
  if (INT_MIN <=? n) && (n <=? INT_MAX) then Done n else Undefined IntOverflow.

(** [GetConfigOption("max_connections")]: the option's text, [None] for NULL. *)
Definition compute_slot_size (config : FgaConfig) (max_connections : option (list ascii))
  : outcome Z :=
  if 0 <? max_slots config then Done (max_slots config)
  else
    max_conn ← match max_connections with Some s => atoi s | None => Done 100 end;
    let slots := max_conn * 2 in
    if (INT_MIN <=? slots) && (slots <=? INT_MAX) then
      let slots := if slots <? 1024 then 1024 else slots in
      let slots := if 16384 <? slots then 16384 else slots in
      Done slots
    else Undefined IntOverflow.

Section Sizes.
Context {HM : PgMem}.

Definition pool_header : Z := nth 1 (struct_offsets FgaChannelSlotPool_fields) 0.
Definition queue_header : Z := nth 3 (struct_offsets FgaChannelSlotQueue_fields) 0.

Definition pool_shmem_size (capacity : Z) : outcome Z :=
  m ← mul_size (struct_size FgaChannelSlot_fields) capacity;
  add_size pool_header m.

Definition queue_shmem_size (capacity : Z) : outcome Z :=
  m ← mul_size (fst c_uint16) capacity;
  add_size queue_header m.

Definition fga_channel_shmem_size (config : FgaConfig) (max_connections : option (list ascii))
  : outcome Z :=
  slots ← compute_slot_size config max_connections;
  let slot_count := u32 slots in
  let queue_capacity := pow2_ceil slot_count in
  size ← add_size 0 (MAXALIGN (struct_size FgaChannel_fields));
  p ← pool_shmem_size slot_count;
  size ← add_size size (MAXALIGN p);
  q ← queue_shmem_size queue_capacity;
  add_size size (MAXALIGN q).

(** Addresses are offsets from the channel struct. *)
Record channel_layout : Type := MkChannelLayout {
  cl_pool : Z;
  cl_queue : Z;
  cl_end : Z;
}.

(** Carving the parts out of the segment, and the check at the end. *)
Definition fga_channel_layout (config : FgaConfig) (max_connections : option (list ascii))
  : outcome channel_layout :=
  slots ← compute_slot_size config max_connections;
  let slot_count := u32 slots in
  let queue_capacity := pow2_ceil slot_count in
  let ptr := MAXALIGN (struct_size FgaChannel_fields) in
  let pool := ptr in
  p ← pool_shmem_size slot_count;
  let ptr := ptr + MAXALIGN p in
  let queue := ptr in
  q ← queue_shmem_size queue_capacity;
  let ptr := ptr + MAXALIGN q in
  size ← fga_channel_shmem_size config max_connections;
  if negb (ptr =? MAXALIGN size)
  then Error (PgError "ERRCODE_INTERNAL_ERROR" "postfga: channel shmem size miscalculation")
  else mret (MkChannelLayout pool queue ptr).

(** [mem_slots] and [mem_values] are what the carved memory held. *)
Definition fga_channel_shmem_init {L} `{SList L} (use_asserts : bool) (config : FgaConfig)
    (max_connections : option (list ascii)) (head : L) (mem_slots : list FgaChannelSlot)
    (mem_queue : FgaChannelSlotQueue) : outcome (FgaChannel L) :=
  slots ← compute_slot_size config max_connections;
  let slot_count := u32 slots in
  let queue_capacity := pow2_ceil slot_count in
  match pool_init slot_count (MkPool head mem_slots) with
  | (Done _, pool) =>
      queue ← queue_init use_asserts mem_queue queue_capacity;
      _ ← fga_channel_layout config max_connections;
      mret (MkChannel None None 0 pool queue)
  | (Error e, _) => Error e
  | (Undefined u, _) => Undefined u
  end.
End Sizes.

(** ** Bit smearing *)

(** Every bit of [y] says whether one of the next [n] bits of [x] is set. *)
Definition smeared (n : Z) (x y : Z) : Prop :=
  forall i, 0 <= i -> Z.testbit y i = true <-> exists j, i <= j < i + n /\ Z.testbit x j = true.

Lemma smeared_1 x : smeared 1 x x.
Proof.
  intros i Hi. split; [intros Hb; exists i; split; [lia|done]|].
  intros (j & Hj & Hb). by replace i with j by lia.
Qed.

Lemma smeared_double n x y :
  0 < n -> smeared n x y -> smeared (2 * n) x (Z.lor y (Z.shiftr y n)).
Proof.
  intros Hn Hs i Hi. rewrite Z.lor_spec, Z.shiftr_spec, orb_true_iff by done.
  rewrite (Hs i Hi), (Hs (i + n)) by lia. split.
  - intros [(j & Hj & Hb)|(j & Hj & Hb)]; exists j; (split; [lia|done]).
  - intros (j & Hj & Hb). destruct (Z.lt_ge_cases j (i + n)); [left|right]; exists j; (split; [lia|done]).
Qed.

Lemma smeared_32 x :
  let y := Z.lor x (Z.shiftr x 1) in
  let y := Z.lor y (Z.shiftr y 2) in
  let y := Z.lor y (Z.shiftr y 4) in
  let y := Z.lor y (Z.shiftr y 8) in
  let y := Z.lor y (Z.shiftr y 16) in smeared 32 x y.
Proof.
  cbv zeta. apply (smeared_double 16); [lia|]. apply (smeared_double 8); [lia|].
  apply (smeared_double 4); [lia|]. apply (smeared_double 2); [lia|].
  apply (smeared_double 1); [lia|]. apply smeared_1.
Qed.

Lemma smeared_ones x y : 0 < x < 2 ^ 32 -> smeared 32 x y -> 0 <= y -> y = 2 ^ (Z.log2 x + 1) - 1.
Proof.
  intros Hx Hs Hy.
  replace (2 ^ (Z.log2 x + 1) - 1) with (Z.ones (Z.log2 x + 1)) by (rewrite Z.ones_equiv; lia).
  pose proof (Z.log2_nonneg x) as Hl0.
  assert (Hl : Z.log2 x < 32) by (apply Z.log2_lt_pow2; lia).
  apply Z.bits_inj'. intros i Hi. apply eq_true_iff_eq. rewrite (Hs i Hi).
  destruct (Z.lt_ge_cases i (Z.log2 x + 1)) as [Hlt|Hge].
  - rewrite Z.ones_spec_low by lia. split; [done|]. intros _. exists (Z.log2 x).
    split; [lia|]. apply Z.bit_log2. lia.
  - rewrite Z.ones_spec_high by lia. split; [|done].
    intros (j & Hj & Hb). rewrite Z.bits_above_log2 in Hb by lia. done.
Qed.

Lemma lor_nonneg x n : 0 <= x -> 0 <= Z.lor x (Z.shiftr x n).
Proof. intros Hx. apply Z.lor_nonneg. split; [done|]. by apply Z.shiftr_nonneg. Qed.

Lemma pow2_ceil_log2_up x : 1 <= x <= 2 ^ 31 -> pow2_ceil x = 2 ^ Z.log2_up x.
Proof.
  intros Hx. unfold pow2_ceil. rewrite (proj2 (Z.eqb_neq x 0)) by lia.
  rewrite (u32_small (x - 1)) by lia. pose proof (smeared_32 (x - 1)) as Hs. cbv zeta in *.
  set (y := Z.lor _ (Z.shiftr _ 16)) in *.
  assert (Hy : 0 <= y) by (unfold y; repeat apply lor_nonneg; lia).
  destruct (Z.eq_dec x 1) as [->|Hne]; [reflexivity|].
  rewrite (smeared_ones (x - 1) y ltac:(lia) Hs Hy).
  rewrite Z.log2_up_eqn by lia.
  replace (Z.pred x) with (x - 1) by lia. rewrite <- Z.add_1_r.
  replace (2 ^ (Z.log2 (x - 1) + 1) - 1 + 1) with (2 ^ (Z.log2 (x - 1) + 1)) by lia.
  rewrite u32_small; [done|].
  split; [apply Z.pow_nonneg; lia|].
  apply (Z.le_lt_trans _ (2 ^ 31)); [|lia]. apply Z.pow_le_mono_r; [lia|].
  assert (Z.log2 (x - 1) < 31); [|lia]. apply Z.log2_lt_pow2; lia.
Qed.

(** ** Sizes *)

Lemma compute_slot_size_range config mc n :
  max_slots config <= 16384 -> compute_slot_size config mc = Done n -> 1 <= n <= 16384.
Proof.
  intros Hm. unfold compute_slot_size. destruct (Z.ltb_spec 0 (max_slots config)).
  - intros [= <-]. lia.
  - destruct (match mc with Some s => atoi s | None => Done 100 end) as [m| |]; try done.
    unfold mbind, outcome_bind. destruct (_ && _); [|done].
    destruct (Z.ltb_spec (m * 2) 1024); destruct (Z.ltb_spec 16384 (m * 2)); cbn;
      intros [= <-]; try lia; destruct (Z.ltb_spec 16384 1024); lia.
Qed.

Section Layout.
Context {HM : PgMem} {HL : PgMemLaws}.

Lemma pool_size_done n : 0 <= n <= 16384 ->
  pool_shmem_size n = Done (pool_header + struct_size FgaChannelSlot_fields * n).
Proof.
  intros Hn. unfold pool_shmem_size.
  assert (Hs : struct_size FgaChannelSlot_fields = 744) by reflexivity.
  assert (Hh : pool_header = 8) by reflexivity.
  rewrite mul_size_done by (rewrite ?Hs; lia). unfold mbind, outcome_bind.
  by rewrite add_size_done by (rewrite ?Hs, ?Hh; lia).
Qed.

Lemma queue_size_done n : 0 <= n <= 16384 ->
  queue_shmem_size n = Done (queue_header + 2 * n).
Proof.
  intros Hn. unfold queue_shmem_size. cbn [fst c_uint16].
  assert (Hh : queue_header = 6) by reflexivity.
  rewrite mul_size_done by lia. unfold mbind, outcome_bind.
  by rewrite add_size_done by (rewrite ?Hh; lia).
Qed.

Lemma pow2_ceil_small n : 1 <= n <= 16384 ->
  exists k, 0 <= k <= 14 /\ pow2_ceil n = 2 ^ k /\ n <= 2 ^ k /\ 2 ^ k < 2 * n.
Proof.
  intros Hn. exists (Z.log2_up n). rewrite pow2_ceil_log2_up by lia.
  assert (Hk : Z.log2_up n <= 14).
  { change 14 with (Z.log2_up 16384). apply Z.log2_up_le_mono. lia. }
  split; [pose proof (Z.log2_up_nonneg n); lia|]. split; [done|].
  destruct (Z.eq_dec n 1) as [->|Hne]; [done|].
  destruct (Z.log2_up_spec n ltac:(lia)) as [Hlo Hhi]. split; [lia|].
  replace (2 ^ Z.log2_up n) with (2 * 2 ^ Z.pred (Z.log2_up n)); [lia|].
  rewrite <- Z.pow_succ_r, Z.succ_pred; [done|].
  pose proof (Z.log2_up_pos n ltac:(lia)). lia.
Qed.

(** The total is the sum of the aligned parts, hence aligned itself. *)
Lemma shmem_size_sum config mc n :
  max_slots config <= 16384 -> compute_slot_size config mc = Done n ->
  let p := pool_header + struct_size FgaChannelSlot_fields * n in
  let q := queue_header + 2 * pow2_ceil n in
  fga_channel_shmem_size config mc =
    Done (MAXALIGN (struct_size FgaChannel_fields) + MAXALIGN p + MAXALIGN q) /\
  pool_shmem_size n = Done p /\ queue_shmem_size (pow2_ceil n) = Done q /\
  0 <= p /\ 0 <= q.
Proof.
  intros Hm Hn p q. pose proof (compute_slot_size_range config mc n Hm Hn) as Hr.
  destruct (pow2_ceil_small n Hr) as (k & Hk & Hp & Hle & _).
  assert (Hk' : 2 ^ k <= 16384) by (change 16384 with (2 ^ 14); apply Z.pow_le_mono_r; lia).
  pose proof (pool_size_done n ltac:(lia)) as Hps.
  pose proof (queue_size_done (pow2_ceil n) ltac:(lia)) as Hqs.
  assert (Hh : pool_header = 8) by reflexivity.
  assert (Hqh : queue_header = 6) by reflexivity.
  assert (Hs : struct_size FgaChannelSlot_fields = 744) by reflexivity.
  assert (Hc : struct_size FgaChannel_fields = 40) by reflexivity.
  assert (Hp0 : 0 <= p < 2 ^ 40) by (unfold p; lia).
  assert (Hq0 : 0 <= q < 2 ^ 40) by (unfold q; lia).
  pose proof (maxalign_ge p ltac:(lia)). pose proof (maxalign_ge q ltac:(lia)).
  pose proof (maxalign_ge 40 ltac:(lia)).
  split; [|by split_and!; try lia].
  unfold fga_channel_shmem_size. rewrite Hn. unfold mbind, outcome_bind.
  rewrite u32_small by lia. rewrite Hc, add_size_done by lia. rewrite Hps.
  fold p. rewrite add_size_done by lia. rewrite Hqs. fold q.
  by rewrite add_size_done by lia.
Qed.

Lemma layout_done config mc n :
  max_slots config <= 16384 -> compute_slot_size config mc = Done n ->
  exists cl p q, fga_channel_layout config mc = Done cl /\
    pool_shmem_size n = Done p /\ queue_shmem_size (pow2_ceil n) = Done q /\
    struct_size FgaChannel_fields <= cl_pool cl /\ cl_pool cl + p <= cl_queue cl /\
    cl_queue cl + q <= cl_end cl /\ fga_channel_shmem_size config mc = Done (cl_end cl) /\
    (8 | cl_pool cl) /\ (8 | cl_queue cl).
Proof.
  intros Hm Hn. destruct (shmem_size_sum config mc n Hm Hn) as (Hsz & Hps & Hqs & Hp & Hq).
  set (p := pool_header + _) in *. set (q := queue_header + _) in *.
  pose proof (compute_slot_size_range config mc n Hm Hn) as Hr.
  assert (Hc : struct_size FgaChannel_fields = 40) by reflexivity.
  pose proof (maxalign_ge p Hp). pose proof (maxalign_ge q Hq).
  pose proof (maxalign_ge (struct_size FgaChannel_fields) ltac:(lia)).
  pose proof (maxalign_aligned p) as Hap. pose proof (maxalign_aligned q) as Haq.
  pose proof (maxalign_aligned (struct_size FgaChannel_fields)) as Hac.
  unfold fga_channel_layout. rewrite Hn. unfold mbind, outcome_bind.
  rewrite u32_small by lia. rewrite Hps, Hqs, Hsz.
  set (total := MAXALIGN (struct_size FgaChannel_fields) + MAXALIGN p + MAXALIGN q) in *.
  assert (Htot : MAXALIGN total = total).
  { apply maxalign_of_aligned; [lia|]. unfold total. by repeat apply Z.divide_add_r. }
  rewrite Htot, Z.eqb_refl. cbn [negb].
  eexists _, p, q. split; [reflexivity|]. cbn. split; [done|]. split; [done|].
  split; [lia|]. split; [lia|]. split; [lia|]. split; [done|]. split; [done|].
  by apply Z.divide_add_r.
Qed.

(** ** Properties *)

(** Carving the segment: for every configuration the extension can have,
    the channel struct, the pool array and the queue array follow each other
    without overlap, aligned, inside exactly the size that was requested, and
    the size check at the end of [fga_channel_shmem_init] never fires. *)
Theorem channel_layout_fits config mc n :
  max_slots config <= 16384 -> compute_slot_size config mc = Done n ->
  exists cl p q, fga_channel_layout config mc = Done cl /\
    pool_shmem_size n = Done p /\ queue_shmem_size (pow2_ceil n) = Done q /\
    struct_size FgaChannel_fields <= cl_pool cl /\ cl_pool cl + p <= cl_queue cl /\
    cl_queue cl + q <= cl_end cl /\ fga_channel_shmem_size config mc = Done (cl_end cl) /\
    (8 | cl_pool cl) /\ (8 | cl_queue cl).
Proof. intros Hm Hn. by apply (layout_done config mc n). Qed.

Lemma channel_initialised_spec {L} {HS : SList L} {HSL : SListLaws L} use_asserts config mc n
    (head : L) mem_slots mem_queue :
  max_slots config <= 16384 -> compute_slot_size config mc = Done n ->
  length mem_slots = Z.to_nat n -> length (q_values mem_queue) = Z.to_nat (pow2_ceil n) ->
  exists c k, fga_channel_shmem_init use_asserts config mc head mem_slots mem_queue = Done c /\
    1 <= n <= 16384 /\ pow2_ceil n = 2 ^ k /\ n <= 2 ^ k < 2 * n /\
    chan_repr k c (rev (seq 0 (Z.to_nat n))) [] /\
    pool_slots (ch_pool c) = replicate (Z.to_nat n) empty_slot /\
    (n <= 2 ^ k - 1 <-> n <> 2 ^ k).
Proof.
  intros Hm Hn Hslots Hvals. pose proof (compute_slot_size_range config mc n Hm Hn) as Hr.
  destruct (pow2_ceil_small n Hr) as (k & Hk & Hp & Hle & Hlt).
  unfold fga_channel_shmem_init. rewrite Hn. unfold mbind, outcome_bind.
  rewrite (u32_small n) by lia.
  destruct (pool_init_repr (Z.to_nat n) (MkPool head mem_slots) Hslots) as (p & Hi & Hs & Hpr).
  rewrite Z2Nat.id in Hi by lia. rewrite Hi.
  destruct (queue_init_repr use_asserts k mem_queue) as (q & Hq & Hqr); [lia|lia|by rewrite Hvals, Hp|].
  rewrite Hp, Hq. destruct (layout_done config mc n Hm Hn) as (cl & _ & _ & Hcl & _).
  rewrite Hcl. exists (MkChannel None None 0 p q), k. split; [done|]. split; [done|].
  split; [done|]. split; [lia|]. split; [|split; [done|lia]].
  split; cbn; try done. rewrite Hs, length_replicate. lia.
Qed.

(** The initialised channel: between 1 and 16384 slots, all of them free and
    EMPTY, an empty queue whose capacity is the least power of two that is not
    smaller, and no 16-bit slot number is truncated.  The queue holds one
    element less than its capacity, so it has room for every slot exactly when
    the number of slots is not a power of two. *)
Theorem channel_initialised {L} {HS : SList L} {HSL : SListLaws L} use_asserts config mc n
    (head : L) mem_slots mem_queue :
  max_slots config <= 16384 -> compute_slot_size config mc = Done n ->
  length mem_slots = Z.to_nat n -> length (q_values mem_queue) = Z.to_nat (pow2_ceil n) ->
  exists c k, fga_channel_shmem_init use_asserts config mc head mem_slots mem_queue = Done c /\
    1 <= n <= 16384 /\ pow2_ceil n = 2 ^ k /\ n <= 2 ^ k < 2 * n /\
    chan_repr k c (rev (seq 0 (Z.to_nat n))) [] /\
    pool_slots (ch_pool c) = replicate (Z.to_nat n) empty_slot /\
    (n <= 2 ^ k - 1 <-> n <> 2 ^ k).
Proof.
  intros Hm Hn Hslots Hvals.
  by apply (channel_initialised_spec use_asserts config mc n head mem_slots mem_queue).
Qed.
End Layout.

(** [pow2_ceil] is the least power of two that is not smaller than its
    argument, for every argument whose answer fits 32 bits; above 2^31 the sum
    wraps to 0, and 0 gives 1. *)
Theorem pow2_ceil_least x :
  0 <= x < 2 ^ 32 ->
  (x = 0 -> pow2_ceil x = 1) /\
  (1 <= x <= 2 ^ 31 -> exists k, 0 <= k <= 31 /\ pow2_ceil x = 2 ^ k /\ x <= 2 ^ k /\
     forall j, 0 <= j -> x <= 2 ^ j -> 2 ^ k <= 2 ^ j) /\
  (2 ^ 31 < x -> pow2_ceil x = 0).
Proof.
  intros Hx. split; [by intros ->|]. split.
  - intros Hr. exists (Z.log2_up x). rewrite pow2_ceil_log2_up by done.
    assert (Hk : Z.log2_up x <= 31).
    { change 31 with (Z.log2_up (2 ^ 31)). apply Z.log2_up_le_mono. lia. }
    split; [pose proof (Z.log2_up_nonneg x); lia|]. split; [done|]. split.
    + destruct (Z.eq_dec x 1) as [->|Hne]; [done|]. apply Z.log2_up_spec. lia.
    + intros j Hj Hle. apply Z.pow_le_mono_r; [lia|]. apply Z.log2_up_le_pow2; lia.
  - intros Hbig. unfold pow2_ceil. rewrite (proj2 (Z.eqb_neq x 0)) by lia.
    rewrite (u32_small (x - 1)) by lia. pose proof (smeared_32 (x - 1)) as Hs. cbv zeta in *.
    set (y := Z.lor _ (Z.shiftr _ 16)) in *.
    assert (Hy : 0 <= y) by (unfold y; repeat apply lor_nonneg; lia).
    rewrite (smeared_ones (x - 1) y ltac:(lia) Hs Hy).
    assert (Z.log2 (x - 1) = 31) as ->; [|done]. apply Z.log2_unique; [lia|].
    change (Z.succ 31) with 32. lia.
Qed.

(** ** The theorems on the default configuration: 100 connections *)
Lemma channel_layout_fits_witness :
  exists cl, fga_channel_layout zero_config (Some (str "100")) = Done cl /\
    fga_channel_shmem_size zero_config (Some (str "100")) = Done (cl_end cl).
Proof.
  destruct (channel_layout_fits zero_config (Some (str "100")) 1024 ltac:(done) eq_refl)
    as (cl & p & q & Hcl & _ & _ & _ & _ & _ & Hs & _).
  exists cl. split; [exact Hcl|exact Hs].
Defined.

Lemma channel_initialised_witness :
  exists (c : FgaChannel linked) k,
    fga_channel_shmem_init false zero_config (Some (str " +100x")) (Linked None ∅)
      (replicate (Z.to_nat 1024) (set_pid empty_slot 5))
      (MkQueue 0 0 0 (replicate (Z.to_nat (pow2_ceil 1024)) 0)) = Done c /\
    ~ 1024 <= 2 ^ k - 1.
Proof.
  destruct (channel_initialised false zero_config (Some (str " +100x")) 1024 (Linked None ∅)
    (replicate (Z.to_nat 1024) (set_pid empty_slot 5))
    (MkQueue 0 0 0 (replicate (Z.to_nat (pow2_ceil 1024)) 0)) ltac:(done) eq_refl
    (length_replicate _ _) (length_replicate _ _))
    as (c & k & Hi & _ & Hk & _ & _ & _ & Hroom).
  exists c, k. split; [exact Hi|]. intros Hle. apply Hroom in Hle.
  apply Hle. rewrite <- Hk. reflexivity.
Defined.

Lemma pow2_ceil_least_witness :
  exists k, 0 <= k <= 31 /\ pow2_ceil 1000 = 2 ^ k /\ 1000 <= 2 ^ k /\
    forall j, 0 <= j -> 1000 <= 2 ^ j -> 2 ^ k <= 2 ^ j.
Proof. apply (pow2_ceil_least 1000); lia. Defined.
