(* ===== verification/Config.v ===== *)
(** * Configuration: [src/guc.c], [src/config.c], [src/config/config.hpp],
    [src/config/config.cpp]

    The settings the extension defines, their check hooks, the values the
    PostgreSQL configuration engine can store through them, and the C++
    configuration of the background worker that is loaded from them. *)
From S2P Require Import Prelude Platform Types.

(** ** The configuration engine of PostgreSQL

    A setting's value is stored through the address given at its definition:
    [member] names the field of [FgaConfig]. *)
Inductive GucSource : Type :=
  | PGC_S_DEFAULT | PGC_S_DYNAMIC_DEFAULT | PGC_S_ENV_VAR | PGC_S_FILE | PGC_S_ARGV
  | PGC_S_GLOBAL | PGC_S_DATABASE | PGC_S_USER | PGC_S_DATABASE_USER | PGC_S_CLIENT
  | PGC_S_OVERRIDE | PGC_S_INTERACTIVE | PGC_S_TEST | PGC_S_SESSION.
Inductive GucContext : Type := PGC_POSTMASTER | PGC_SIGHUP | PGC_SUSET | PGC_USERSET.
Inductive GucFlag : Type := GUC_SUPERUSER_ONLY | GUC_UNIT_MB | GUC_UNIT_MS.
Inductive member : Type :=
  | M_endpoint | M_store_id | M_model_id | M_cache_enabled | M_cache_size | M_cache_ttl_ms.

#[export] Instance source_eq_dec : EqDecision GucSource.
Proof. solve_decision. Defined.
#[export] Instance member_eq_dec : EqDecision member.
Proof. solve_decision. Defined.

Inductive guc_value : Type :=
  | GString (s : option (list ascii))
  | GBool (b : bool)
  | GInt (n : Z).

#[export] Instance guc_value_eq_dec : EqDecision guc_value.
Proof. solve_decision. Defined.

(** What a check hook leaves: its verdict, [*newval], and the texts it set. *)
Record check_result (A : Type) : Type := MkCheck {
  ck_ok : bool;
  ck_newval : A;
  ck_errmsg : option string;
}.
Arguments MkCheck {A} ck_ok ck_newval ck_errmsg.
Arguments ck_ok {A} c.
Arguments ck_newval {A} c.
Arguments ck_errmsg {A} c.

Inductive guc_kind : Type :=
  | StringVar (boot : option (list ascii))
      (check : option (option (list ascii) -> GucSource -> check_result (option (list ascii))))
  | BoolVar (boot : bool)
  | IntVar (boot min max : Z) (check : option (Z -> GucSource -> check_result Z)).

Record guc_def : Type := MkGuc {
  gd_name : string;
  gd_member : member;
  gd_kind : guc_kind;
  gd_context : GucContext;
  gd_flags : list GucFlag;
}.

Definition guc_boot (k : guc_kind) : guc_value :=
  match k with
  | StringVar b _ => GString b
  | BoolVar b => GBool b
  | IntVar b _ _ _ => GInt b
  end.

(** The values an assignment can store: the proposed value passes the range
    check and the check hook, and what the hook leaves in [*newval] is stored. *)
Definition accepts (k : guc_kind) (v : guc_value) : Prop :=
  match k, v with
  | StringVar _ None, GString _ => True
  | StringVar _ (Some check), GString s' =>
      exists s src, ck_ok (check s src) = true /\ ck_newval (check s src) = s'
  | BoolVar _, GBool _ => True
  | IntVar _ lo hi None, GInt n => lo <= n <= hi
  | IntVar _ lo hi (Some check), GInt n' =>
      exists n src, lo <= n <= hi /\ ck_ok (check n src) = true /\ ck_newval (check n src) = n'
  | _, _ => False
  end.

(** ** guc.c *)

(** A [char*] argument of a hook is [None] when NULL. *)
Definition empty_string (s : option (list ascii)) : bool :=
  match s with
  | None => true
  | Some [] => true
  | Some (c :: _) => bool_decide (c = NUL)
  end.

Definition env_or_default (getenv : string -> option (list ascii)) (env_name : string)
    (default_value : list ascii) : list ascii :=
  match getenv env_name with
  | Some v => if empty_string (Some v) then default_value else v
  | None => default_value
  end.

Definition default_source (source : GucSource) : bool :=
  bool_decide (source = PGC_S_DEFAULT) || bool_decide (source = PGC_S_DYNAMIC_DEFAULT).

Definition validate_endpoint (newval : option (list ascii)) (source : GucSource)
  : check_result (option (list ascii)) :=
  if default_source source then MkCheck true newval None
  else if empty_string newval
  then MkCheck true newval (Some "postfga.endpoint must not be empty"%string)
  else MkCheck true newval None.

Definition validate_store_id (newval : option (list ascii)) (source : GucSource)
  : check_result (option (list ascii)) :=
  if default_source source then MkCheck true newval None
  else if empty_string newval
  then MkCheck false newval (Some "postfga.store_id must not be empty"%string)
  else MkCheck true newval None.

Definition validate_cache_size (newval : Z) (source : GucSource) : check_result Z :=
  let v := newval in
  if default_source source then MkCheck true newval None
  else
    let v := if v <? 1 then 1 else v in
    MkCheck true v None.

(** The [DefineCustom*Variable] calls, in order. *)
Definition fga_guc_init (getenv : string -> option (list ascii)) : list guc_def :=
  [ MkGuc "fga.endpoint" M_endpoint
      (StringVar (Some (env_or_default getenv "FGA_ENDPOINT" [])) (Some validate_endpoint))
      PGC_SIGHUP [GUC_SUPERUSER_ONLY];
    MkGuc "fga.store_id" M_store_id
      (StringVar (Some (env_or_default getenv "FGA_STORE_ID" [])) (Some validate_store_id))
      PGC_USERSET [];
    MkGuc "fga.model_id" M_model_id
      (StringVar (Some (env_or_default getenv "FGA_MODEL_ID" [])) None)
      PGC_SUSET [GUC_SUPERUSER_ONLY];
    MkGuc "fga.cache_enabled" M_cache_enabled (BoolVar false) PGC_SIGHUP [];
    MkGuc "fga.cache_size" M_cache_size (IntVar 32 1 1024 (Some validate_cache_size))
      PGC_POSTMASTER [GUC_UNIT_MB];
    MkGuc "fga.cache_ttl_ms" M_cache_ttl_ms (IntVar 60000 1000 3600000 None)
      PGC_SIGHUP [GUC_UNIT_MS] ].

(** Storing a value through the address of a member; the engine never stores
    a value of another type. *)
Definition store_member (m : member) (v : guc_value) (c : FgaConfig) : FgaConfig :=
  match m, v with
  | M_endpoint, GString s =>
      MkConfig s (store_id c) (model_id c) (fallback_to_grpc_on_miss c) (cache_enabled c)
        (cache_size c) (cache_ttl_ms c) (max_slots c) (max_relations c)
  | M_store_id, GString s =>
      MkConfig (endpoint c) s (model_id c) (fallback_to_grpc_on_miss c) (cache_enabled c)
        (cache_size c) (cache_ttl_ms c) (max_slots c) (max_relations c)
  | M_model_id, GString s =>
      MkConfig (endpoint c) (store_id c) s (fallback_to_grpc_on_miss c) (cache_enabled c)
        (cache_size c) (cache_ttl_ms c) (max_slots c) (max_relations c)
  | M_cache_enabled, GBool b =>
      MkConfig (endpoint c) (store_id c) (model_id c) (fallback_to_grpc_on_miss c) b
        (cache_size c) (cache_ttl_ms c) (max_slots c) (max_relations c)
  | M_cache_size, GInt n =>
      MkConfig (endpoint c) (store_id c) (model_id c) (fallback_to_grpc_on_miss c)
        (cache_enabled c) n (cache_ttl_ms c) (max_slots c) (max_relations c)
  | M_cache_ttl_ms, GInt n =>
      MkConfig (endpoint c) (store_id c) (model_id c) (fallback_to_grpc_on_miss c)
        (cache_enabled c) (cache_size c) n (max_slots c) (max_relations c)
  | _, _ => c
  end.

(** What the engine may do with the definitions: each definition stores its
    boot value or a value from the configuration file the setting accepts ... *)
Inductive defined : list guc_def -> FgaConfig -> FgaConfig -> Prop :=
  | defined_nil c : defined [] c c
  | defined_cons d ds v c c' :
      v = guc_boot (gd_kind d) \/ accepts (gd_kind d) v ->
      defined ds (store_member (gd_member d) v c) c' -> defined (d :: ds) c c'.

(** ... and afterwards any assignment stores an accepted or the boot value. *)
Inductive configured (ds : list guc_def) : FgaConfig -> Prop :=
  | configured_init c : defined ds zero_config c -> configured ds c
  | configured_set c d v :
      configured ds c -> d ∈ ds -> v = guc_boot (gd_kind d) \/ accepts (gd_kind d) v ->
      configured ds (store_member (gd_member d) v c).

(** ** config.hpp: the worker's configuration, with the default members *)
Record RetryOptions : Type := MkRetry {
  max_retries : Z;
  initial_backoff_ms : Z;
  max_backoff_ms : Z;
  backoff_multiplier : Z;      (* float, in tenths *)
  retry_unavailable : bool;
  retry_deadline_exceeded : bool;
}.
Record GrpcTlsOptions : Type := MkTls {
  use_tls : bool;
  root_certs : list ascii;
  client_cert : list ascii;
  client_key : list ascii;
  insecure_skip_verify : bool;
  server_name_override : list ascii;
}.
Record GrpcChannelOptions : Type := MkGrpcChannel {
  max_message_size : Z;
  keepalive_time_ms : Z;
  keepalive_timeout_ms : Z;
  keepalive_without_calls : bool;
  idle_timeout_ms : Z;
  load_balancing_policy : list ascii;
}.
Record ConcurrencyOptions : Type := MkConcurrency {
  max_concurrency : Z;
  worker_threads : Z;
}.
Record Config : Type := MkWorkerConfig {
  cfg_endpoint : list ascii;
  cfg_timeout : Z;             (* milliseconds *)
  cfg_tls : GrpcTlsOptions;
  cfg_channel : GrpcChannelOptions;
  cfg_retry : RetryOptions;
  cfg_concurrency : ConcurrencyOptions;
}.

(** [operator==] of the options: member by member. *)
#[export] Instance retry_eq_dec : EqDecision RetryOptions.
Proof. solve_decision. Defined.
#[export] Instance tls_eq_dec : EqDecision GrpcTlsOptions.
Proof. solve_decision. Defined.
#[export] Instance grpc_channel_eq_dec : EqDecision GrpcChannelOptions.
Proof. solve_decision. Defined.
#[export] Instance concurrency_eq_dec : EqDecision ConcurrencyOptions.
Proof. solve_decision. Defined.
#[export] Instance worker_config_eq_dec : EqDecision Config.
Proof. solve_decision. Defined.

(** [hw] is [std::thread::hardware_concurrency()]. *)
Definition default_config (hw : Z) : Config :=
  MkWorkerConfig [] 10000 (MkTls false [] [] [] false [])
    (MkGrpcChannel (4 * 1024 * 1024) 0 0 false 0 [])
    (MkRetry 2 50 500 20 true false) (MkConcurrency 0 (Z.max 1 hw)).

Definition load_config_from_guc (hw : Z) (guc : FgaConfig) : Config :=
  let cfg := default_config hw in
  MkWorkerConfig (match endpoint guc with Some s => c_str s | None => [] end)
    (cache_ttl_ms guc) (cfg_tls cfg) (cfg_channel cfg) (cfg_retry cfg)
    (cfg_concurrency cfg).

(** ** What the settings guarantee *)
Section Guarantees.
Variable getenv : string -> option (list ascii).
Let defs := fga_guc_init getenv.

(** A member the definitions never store keeps its zero; the two integers
    stay in their ranges once they are defined. *)
Definition untouched (c : FgaConfig) : Prop :=
  fallback_to_grpc_on_miss c = false /\ max_slots c = 0 /\ max_relations c = 0.

Definition in_range (m : member) (c : FgaConfig) : Prop :=
  match m with
  | M_cache_size => 1 <= cache_size c <= 1024
  | M_cache_ttl_ms => 1000 <= cache_ttl_ms c <= 3600000
  | _ => True
  end.

Lemma store_untouched m v c : untouched c -> untouched (store_member m v c).
Proof. by destruct m, v. Qed.

Lemma store_in_range d v c m :
  d ∈ defs -> v = guc_boot (gd_kind d) \/ accepts (gd_kind d) v ->
  m = gd_member d \/ in_range m c -> in_range m (store_member (gd_member d) v c).
Proof.
  intros Hd Hv Hm. unfold defs, fga_guc_init in Hd.
  repeat (apply elem_of_cons in Hd as [->|Hd]); [..|by apply elem_of_nil in Hd];
    cbn [gd_member gd_kind guc_boot accepts] in *;
    destruct Hv as [->|Hv]; try destruct v; try (destruct m; destruct Hm; done).
  destruct Hv as (n0 & src & Hn0 & _ & <-). unfold validate_cache_size.
    destruct m; destruct Hm; cbn; try done; repeat case_match; cbn; lia.
Qed.

Lemma defined_guarantees ds c c' :
  (forall d, d ∈ ds -> d ∈ defs) -> defined ds c c' ->
  (untouched c -> untouched c') /\
  (forall m, (exists d, d ∈ ds /\ gd_member d = m) \/ in_range m c -> in_range m c').
Proof.
  intros Hds Hdef. induction Hdef as [c|d ds v c c' Hv Hdef IH].
  - split; [done|]. intros m [(d & Hd & _)|Hr]; [by apply elem_of_nil in Hd|done].
  - destruct IH as [IH1 IH2]; [set_solver|]. split.
    + intros Hu. by apply IH1, store_untouched.
    + intros m Hm. apply IH2.
      destruct Hm as [(d' & [->|Hd']%elem_of_cons & Hm)|Hr]; [right|by left; eauto|right];
        (apply store_in_range; [set_solver|done|auto]).
Qed.

Lemma configured_guarantees c :
  configured defs c -> untouched c /\ forall m, in_range m c.
Proof.
  induction 1 as [c Hdef|c d v Hc [IHu IHr] Hd Hv].
  - destruct (defined_guarantees defs zero_config c) as [Hu Hr]; [done|done|].
    split; [by apply Hu|]. intros m. apply Hr.
    destruct m; try (by right); left; eexists; split.
    + apply (list_elem_of_lookup_2 defs 4%nat). reflexivity.
    + done.
    + apply (list_elem_of_lookup_2 defs 5%nat). reflexivity.
    + done.
  - split; [by apply store_untouched|]. intros m. apply store_in_range; auto.
Qed.
End Guarantees.


(** The first definition. *)
Lemma endpoint_defined getenv :
  exists d, d ∈ fga_guc_init getenv /\ gd_member d = M_endpoint /\
    gd_kind d = StringVar (Some (env_or_default getenv "FGA_ENDPOINT" [])) (Some validate_endpoint).
Proof.
  eexists. split; [apply (list_elem_of_lookup_2 _ 0%nat); reflexivity|done].
Qed.

(** The endpoint's check hook reports an empty value and accepts it, so an
    empty endpoint can be stored by any source; the store's hook refuses it
    from every source but the defaults. *)
Theorem empty_endpoint_accepted getenv source c :
  configured (fga_guc_init getenv) c ->
  configured (fga_guc_init getenv) (store_member M_endpoint (GString (Some [])) c) /\
  (default_source source = false ->
    ck_errmsg (validate_endpoint (Some []) source) = Some "postfga.endpoint must not be empty"%string /\
    ck_ok (validate_endpoint (Some []) source) = true /\
    ck_ok (validate_store_id (Some []) source) = false).
Proof.
  intros Hc. split.
  - destruct (endpoint_defined getenv) as (d & Hd & Hm & Hk).
    rewrite <- Hm. apply (configured_set _ c d); [done|done|]. rewrite Hk.
    right. exists (Some []), PGC_S_FILE. done.
  - intros Hs. unfold validate_endpoint, validate_store_id. by rewrite Hs.
Qed.

(** ** Witnesses *)
Definition no_env (name : string) : option (list ascii) := None.
Definition boot_config : FgaConfig :=
  MkConfig (Some []) (Some []) (Some []) false false 32 60000 0 0.

Lemma boot_configured : configured (fga_guc_init no_env) boot_config.
Proof.
  apply configured_init. unfold fga_guc_init.
  repeat (eapply defined_cons; [left; reflexivity|]; cbn). apply defined_nil.
Defined.


Lemma empty_endpoint_accepted_witness :
  configured (fga_guc_init no_env) boot_config /\
  ck_ok (validate_endpoint (Some []) PGC_S_SESSION) = true /\
  ck_ok (validate_store_id (Some []) PGC_S_SESSION) = false.
Proof.
  split; [exact boot_configured|].
  destruct (empty_endpoint_accepted no_env PGC_S_SESSION boot_config boot_configured) as [_ H].
  exact (proj2 (H eq_refl)).
Defined.
