(* ===== verification/ChannelFactory.v ===== *)
(** * The gRPC channel: [src/client/channel_factory.cpp]

    The arguments and the credentials a configuration asks for.  The gRPC
    library's calls are values: an argument setter is an element of the list of
    arguments, in the order of the calls, and the channel is the result of
    [CreateCustomChannel]. *)
From S2P Require Import Prelude Platform Types Config.

Inductive channel_argument : Type :=
  | LoadBalancingPolicyName (name : list ascii)
  | MaxReceiveMessageSize (n : Z)
  | MaxSendMessageSize (n : Z)
  | KEEPALIVE_TIME_MS (n : Z)
  | KEEPALIVE_TIMEOUT_MS (n : Z)
  | KEEPALIVE_PERMIT_WITHOUT_CALLS (n : Z).

#[export] Instance channel_argument_eq_dec : EqDecision channel_argument.
Proof. solve_decision. Defined.

Inductive channel_credentials : Type :=
  | SslCredentials (pem_root_certs pem_private_key pem_cert_chain : list ascii)
  | InsecureChannelCredentials.

#[export] Instance channel_credentials_eq_dec : EqDecision channel_credentials.
Proof. solve_decision. Defined.

Definition channel_arguments (cfg : Config) : list channel_argument :=
  let ch := cfg_channel cfg in
  (if bool_decide (load_balancing_policy ch = []) then []
   else [LoadBalancingPolicyName (load_balancing_policy ch)]) ++
  (if 0 <? max_message_size ch
   then [MaxReceiveMessageSize (max_message_size ch); MaxSendMessageSize (max_message_size ch)]
   else []) ++
  (if 0 <? keepalive_time_ms ch then [KEEPALIVE_TIME_MS (keepalive_time_ms ch)] else []) ++
  (if 0 <? keepalive_timeout_ms ch then [KEEPALIVE_TIMEOUT_MS (keepalive_timeout_ms ch)] else []) ++
  [KEEPALIVE_PERMIT_WITHOUT_CALLS 1].

Definition channel_creds (cfg : Config) : channel_credentials :=
  if use_tls (cfg_tls cfg)
  then SslCredentials (root_certs (cfg_tls cfg)) (client_key (cfg_tls cfg)) (client_cert (cfg_tls cfg))
  else InsecureChannelCredentials.

Section Factory.
Context {C : Type}.
Variable CreateCustomChannel : list ascii -> channel_credentials -> list channel_argument -> C.

Definition make_channel (cfg : Config) : C :=
  CreateCustomChannel (cfg_endpoint cfg) (channel_creds cfg) (channel_arguments cfg).

(** Which settings reach the channel.  Whatever the settings of the extension
    are, the worker's channel goes to the configured endpoint without
    encryption, with 4 MB messages and keepalive permitted without calls; and
    for any options, the ones for keepalive without calls, the idle timeout,
    retries, concurrency, certificate checks and the server name have no
    influence on the channel. *)
Theorem worker_channel_settings :
  (forall hw guc, make_channel (load_config_from_guc hw guc) =
     CreateCustomChannel (match endpoint guc with Some s => c_str s | None => [] end)
       InsecureChannelCredentials
       [MaxReceiveMessageSize 4194304; MaxSendMessageSize 4194304; KEEPALIVE_PERMIT_WITHOUT_CALLS 1]) /\
  (forall e t tls ch r cc t' skip name without idle r' cc',
     make_channel (MkWorkerConfig e t tls ch r cc) =
     make_channel (MkWorkerConfig e t'
       (MkTls (use_tls tls) (root_certs tls) (client_cert tls) (client_key tls) skip name)
       (MkGrpcChannel (max_message_size ch) (keepalive_time_ms ch) (keepalive_timeout_ms ch) without
          idle (load_balancing_policy ch)) r' cc')).
Proof. done. Qed.
End Factory.
