(* ===== verification/Client.v ===== *)
(** * The OpenFGA client: [src/client/]

    A request is turned into a typed variant, then into an OpenFGA call that
    is handed to the asynchronous gRPC stub; when the reply arrives, the call's
    callback writes the response into the payload and runs the completion
    callback of the request.  Payloads are shared memory: a reference to one is
    the number of its slot.  A callback object is represented by the kind of
    call and the references it captures. *)
From stdpp Require Import pretty.
From S2P Require Import Prelude Platform Types Config.

(** ** Protobuf messages of the calls *)
Record TupleKey : Type := MkTupleKey {
  tk_object : list ascii;
  tk_user : list ascii;
  tk_relation : list ascii;
}.

#[export] Instance tuple_key_eq_dec : EqDecision TupleKey.
Proof. solve_decision. Defined.

(** A [WriteRequest] carries writes, deletes or both; an unset string field is
    empty. *)
Record WriteRequest : Type := MkWrite {
  wr_store_id : list ascii;
  wr_model_id : list ascii;
  wr_writes : option (list ascii * list TupleKey);    (* on_duplicate, keys *)
  wr_deletes : option (list ascii * list TupleKey);   (* on_missing, keys *)
}.

#[export] Instance write_request_eq_dec : EqDecision WriteRequest.
Proof. solve_decision. Defined.

Inductive rpc_request : Type :=
  | RpcCheck (store model : list ascii) (key : TupleKey)
  | RpcBatchCheck (store model : list ascii) (checks : list (list ascii * TupleKey))
  | RpcWrite (w : WriteRequest)
  | RpcCreateStore (name : list ascii)
  | RpcDeleteStore (store : list ascii).

#[export] Instance rpc_request_eq_dec : EqDecision rpc_request.
Proof. solve_decision. Defined.

(** One entry of a batch result: [allowed], [error] or neither is set. *)
Inductive BatchResult : Type :=
  | ResultAllowed (b : bool)
  | ResultError (message : list ascii)
  | ResultUnset.

Inductive rpc_response : Type :=
  | CheckResponse (allowed : bool)
  | BatchCheckResponse (result : gmap (list ascii) BatchResult)
  | WriteResponse
  | CreateStoreResponse (id name : list ascii)
  | DeleteStoreResponse.

Record GrpcStatus : Type := MkStatus { st_ok : bool; st_error_message : list ascii }.

(** ** request_variant.hpp: a variant refers to its payload *)
Inductive RequestVariant : Type :=
  | CheckTuple (p : FgaPayload)
  | WriteTuple (p : FgaPayload)
  | DeleteTuple (p : FgaPayload)
  | GetStore (p : FgaPayload)
  | CreateStore (p : FgaPayload)
  | DeleteStore (p : FgaPayload)
  | InvalidRequest (p : FgaPayload).

Definition make_request_variant (p : FgaPayload) : RequestVariant :=
  let t := req_type (request p) in
  if t =? request_type_code FGA_REQUEST_CHECK then CheckTuple p
  else if t =? request_type_code FGA_REQUEST_WRITE_TUPLE then WriteTuple p
  else if t =? request_type_code FGA_REQUEST_DELETE_TUPLE then DeleteTuple p
  else if t =? request_type_code FGA_REQUEST_GET_STORE then GetStore p
  else if t =? request_type_code FGA_REQUEST_CREATE_STORE then CreateStore p
  else if t =? request_type_code FGA_REQUEST_DELETE_STORE then DeleteStore p
  else InvalidRequest p.

(** [store_id()] and [model_id()] give the char array, which the setters of the
    messages read as a C string. *)
Definition variant_store_id (p : FgaPayload) : list ascii := c_str (req_store_id (request p)).
Definition variant_model_id (p : FgaPayload) : list ascii := c_str (req_model_id (request p)).

(** ** Building the calls *)
Definition colon : ascii := ":".

(** [std::string(type) + ":" + id] *)
Definition typed_name (type id : list ascii) : list ascii := c_str type ++ colon :: c_str id.

Definition fill_tuple_key (tuple : FgaTuple) : TupleKey :=
  MkTupleKey (typed_name (object_type tuple) (object_id tuple))
    (typed_name (subject_type tuple) (subject_id tuple)) (c_str (relation tuple)).

Definition fill_check_request (p : FgaPayload) : rpc_request :=
  RpcCheck (variant_store_id p) (variant_model_id p)
    (fill_tuple_key (body_tuple (req_body (request p)))).

Definition fill_write_request (p : FgaPayload) : rpc_request :=
  RpcWrite (MkWrite (variant_store_id p) (variant_model_id p)
    (Some (str "ignore", [fill_tuple_key (body_tuple (req_body (request p)))])) None).

Definition fill_delete_request (p : FgaPayload) : rpc_request :=
  RpcWrite (MkWrite (variant_store_id p) []
    None (Some (str "ignore", [fill_tuple_key (body_tuple (req_body (request p)))]))).

Inductive rpc_callback : Type :=
  | OnCheck (slot : nat)
  | OnBatchCheck (slots : list nat)
  | OnWrite (slot : nat)
  | OnDelete (slot : nat)
  | OnCreateStore (slot : nat)
  | OnDeleteStore (slot : nat).

#[export] Instance rpc_callback_eq_dec : EqDecision rpc_callback.
Proof. solve_decision. Defined.

(** A call handed to the stub, with its absolute deadline. *)
Record rpc_call : Type := MkCall {
  call_request : rpc_request;
  call_deadline : Z;
  call_callback : rpc_callback;
}.

#[export] Instance rpc_call_eq_dec : EqDecision rpc_call.
Proof. solve_decision. Defined.

(** [std::to_string] of a [uint64_t] *)
Definition to_string (n : Z) : list ascii := str (pretty (Z.to_N (u64 n))).

Section Client.
Variable config : Config.
Variable now : Z.     (* system_clock::now(), milliseconds *)

Definition deadline : Z := now + cfg_timeout config.

(** The overloads of [handle_request]: the calls they hand to the stub. *)
Definition handle_check (p : FgaPayload) (slot : nat) : list rpc_call :=
  [MkCall (fill_check_request p) deadline (OnCheck slot)].
Definition handle_write (p : FgaPayload) (slot : nat) : list rpc_call :=
  [MkCall (fill_write_request p) deadline (OnWrite slot)].
Definition handle_delete (p : FgaPayload) (slot : nat) : list rpc_call :=
  [MkCall (fill_delete_request p) deadline (OnDelete slot)].
Definition handle_get_store (p : FgaPayload) (slot : nat) : list rpc_call := [].
Definition handle_create_store (p : FgaPayload) (slot : nat) : list rpc_call :=
  [MkCall (RpcCreateStore (c_str (body_store_name (req_body (request p))))) deadline
     (OnCreateStore slot)].
Definition handle_delete_store (p : FgaPayload) (slot : nat) : list rpc_call :=
  [MkCall (RpcDeleteStore (variant_store_id p)) deadline (OnDeleteStore slot)].
Definition handle_invalid (p : FgaPayload) (slot : nat) : list rpc_call := [].

(** [std::visit] *)
Definition handle_request (v : RequestVariant) (slot : nat) : list rpc_call :=
  match v with
  | CheckTuple p => handle_check p slot
  | WriteTuple p => handle_write p slot
  | DeleteTuple p => handle_delete p slot
  | GetStore p => handle_get_store p slot
  | CreateStore p => handle_create_store p slot
  | DeleteStore p => handle_delete_store p slot
  | InvalidRequest p => handle_invalid p slot
  end.

Definition batch_check (item : nat * FgaPayload) : list ascii * TupleKey :=
  (to_string (request_id (request item.2)),
   fill_tuple_key (body_tuple (req_body (request item.2)))).

(** [items.front()] of an empty vector is undefined; the caller excludes it. *)
Definition handle_check_batch (items : list (nat * FgaPayload)) : outcome (list rpc_call) :=
  match items with
  | [] => Undefined OutOfBounds
  | first :: _ =>
      Done [MkCall (RpcBatchCheck (variant_store_id first.2) (variant_model_id first.2)
                     (batch_check <$> items)) deadline (OnBatchCheck items.*1)]
  end.

Definition process (slot : nat) (p : FgaPayload) : list rpc_call :=
  handle_request (make_request_variant p) slot.

Definition is_check (v : RequestVariant) : bool :=
  match v with CheckTuple _ => true | _ => false end.

(** The loop of [process_batch]: the check items, and the calls of the others. *)
Fixpoint split_batch (items : list (nat * FgaPayload))
  : list (nat * FgaPayload) * list rpc_call :=
  match items with
  | [] => ([], [])
  | item :: rest =>
      let variant := make_request_variant item.2 in
      let '(checks, calls) := split_batch rest in
      if is_check variant then (item :: checks, calls)
      else (checks, handle_request variant item.1 ++ calls)
  end.

Definition process_batch (items : list (nat * FgaPayload)) : outcome (list rpc_call) :=
  match items with
  | [] => Done []
  | [item] => Done (handle_request (make_request_variant item.2) item.1)
  | _ =>
      let '(checks, calls) := split_batch items in
      match checks with
      | [] => Done calls
      | _ => batch ← handle_check_batch checks; Done (calls ++ batch)
      end
  end.
End Client.

(** ** Life of the client object

    [GetState] of the gRPC channel, without asking it to connect. *)
Inductive grpc_connectivity_state : Type :=
  | GRPC_CHANNEL_IDLE | GRPC_CHANNEL_CONNECTING | GRPC_CHANNEL_READY
  | GRPC_CHANNEL_TRANSIENT_FAILURE | GRPC_CHANNEL_SHUTDOWN.

Record OpenFgaGrpcClient : Type := MkClient {
  client_config : Config;
  client_channel : option grpc_connectivity_state;
  stopping : bool;
}.

(** [channel]: the channel [make_channel] returned, by its state.  The stub
    and the in-flight counter hold no further state of the client. *)
Definition new_client (channel : option grpc_connectivity_state) (config : Config) : OpenFgaGrpcClient :=
  MkClient config channel false.

Definition make_client (channel : option grpc_connectivity_state) (cfg : Config) : OpenFgaGrpcClient :=
  new_client channel cfg.

Definition is_healthy (c : OpenFgaGrpcClient) : bool :=
  match client_channel c with
  | None => false
  | Some state =>
      if stopping c then false
      else match state with
           | GRPC_CHANNEL_READY | GRPC_CHANNEL_IDLE | GRPC_CHANNEL_CONNECTING => true
           | GRPC_CHANNEL_TRANSIENT_FAILURE | GRPC_CHANNEL_SHUTDOWN => false
           end
  end.

(** The compare-and-swap of [stopping_]; a second call returns at once. *)
Definition shutdown (c : OpenFgaGrpcClient) : OpenFgaGrpcClient :=
  if stopping c then c else MkClient (client_config c) (client_channel c) true.

(** The destructor. *)
Definition delete_client (c : OpenFgaGrpcClient) : OpenFgaGrpcClient := shutdown c.

(** A client that was shut down is not healthy, whatever its channel does, and
    shutting it down again changes nothing. *)
Lemma shutdown_client c :
  is_healthy (shutdown c) = false /\ delete_client (shutdown c) = shutdown c /\
  client_config (shutdown c) = client_config c.
Proof.
  unfold delete_client, shutdown, is_healthy. destruct c as [cfg [st|] []]; cbn; by split_and!.
Qed.

(** ** Completion

    What the callbacks need: the payload behind a reference, the response to
    write, and the completion callback of a request. *)
Class CompletionEnv (S : Type) : Type := {
  read_payload : nat -> CM S FgaPayload;
  update_response : nat -> (FgaResponse -> FgaResponse) -> CM S unit;
  run_callback : nat -> CM S unit;
}.

(** Their contract, over the payloads [ce_view] and the callbacks run so far. *)
Class CompletionLaws (S : Type) `{CompletionEnv S} : Type := {
  ce_inv : S -> Prop;
  ce_view : S -> gmap nat FgaPayload;
  ce_called : S -> list nat;
  read_spec i s p :
    ce_inv s -> ce_view s !! i = Some p -> read_payload i s = (Done p, s);
  update_spec i f s p :
    ce_inv s -> ce_view s !! i = Some p ->
    exists s', update_response i f s = (Done tt, s') /\ ce_inv s' /\
      ce_view s' = <[i := MkPayload (request p) (f (response p))]> (ce_view s) /\
      ce_called s' = ce_called s;
  callback_spec i s :
    ce_inv s -> is_Some (ce_view s !! i) ->
    exists s', run_callback i s = (Done tt, s') /\ ce_inv s' /\
      ce_view s' = ce_view s /\ ce_called s' = ce_called s ++ [i];
}.

Definition set_status (st : FgaResponseStatus) (r : FgaResponse) : FgaResponse :=
  MkResponse st (error_message r) (resp_body r).
Definition set_allow (b : bool) (r : FgaResponse) : FgaResponse :=
  MkResponse (status r) (error_message r) (RespCheckTuple b).
Definition set_error (msg : list ascii) (r : FgaResponse) : FgaResponse :=
  MkResponse (status r) (strlcpy (error_message r) msg FGA_RESPONSE_ERROR_MESSAGE_LEN)
    (resp_body r).
Definition set_success (b : bool) (r : FgaResponse) : FgaResponse :=
  MkResponse (status r) (error_message r) (RespDeleteTuple b).

(** The [createStore] member of the response's union; it is written over zeroed
    memory or over an earlier answer of the same kind. *)
Definition body_create_store (b : FgaResponseBody) : list ascii * list ascii :=
  match b with
  | RespCreateStore id name => (id, name)
  | _ => (zeros OPENFGA_STORE_ID_LEN, zeros OPENFGA_STORE_NAME_LEN)
  end.
Definition set_store (id name : list ascii) (r : FgaResponse) : FgaResponse :=
  let '(i, n) := body_create_store (resp_body r) in
  MkResponse (status r) (error_message r)
    (RespCreateStore (strlcpy i id OPENFGA_STORE_ID_LEN) (strlcpy n name OPENFGA_STORE_NAME_LEN)).

(** The updates of the response, in the order of the code. *)
Definition failed (st : GrpcStatus) (r : FgaResponse) : FgaResponse :=
  set_error (st_error_message st) (set_status FGA_RESPONSE_CLIENT_ERROR r).
Definition check_failed (st : GrpcStatus) (r : FgaResponse) : FgaResponse :=
  set_error (st_error_message st)
    (set_allow false (set_status FGA_RESPONSE_CLIENT_ERROR r)).

Definition batch_failed (st : GrpcStatus) (r : FgaResponse) : FgaResponse :=
  set_error (st_error_message st)
    (set_status FGA_RESPONSE_CLIENT_ERROR (set_allow false r)).

Definition batch_result (res : option BatchResult) (r : FgaResponse) : FgaResponse :=
  match res with
  | None => set_status FGA_RESPONSE_CLIENT_ERROR (set_allow false r)
  | Some (ResultAllowed b) => set_allow b (set_status FGA_RESPONSE_OK r)
  | Some (ResultError msg) =>
      set_error msg (set_allow false (set_status FGA_RESPONSE_SERVER_ERROR r))
  | Some ResultUnset =>
      set_error (str "Invalid response received")
        (set_allow false (set_status FGA_RESPONSE_CLIENT_ERROR r))
  end.

Section Completion.
Context {S : Type} `{CompletionEnv S}.

Definition answer (slot : nat) (f : FgaResponse -> FgaResponse) : CM S unit :=
  _ ← update_response slot f; run_callback slot.

(** The request number is read again when the reply arrives. *)
Fixpoint batch_reply_loop (result : gmap (list ascii) BatchResult) (slots : list nat)
  : CM S unit :=
  match slots with
  | [] => mret tt
  | slot :: rest =>
      p ← read_payload slot;
      let correlation_id := to_string (request_id (request p)) in
      _ ← answer slot (batch_result (result !! correlation_id));
      batch_reply_loop result rest
  end.

Fixpoint batch_failure_loop (st : GrpcStatus) (slots : list nat) : CM S unit :=
  match slots with
  | [] => mret tt
  | slot :: rest =>
      _ ← answer slot (batch_failed st);
      batch_failure_loop st rest
  end.

(** The callbacks of the calls. *)
Definition on_check_reply (slot : nat) (st : GrpcStatus) (allowed : bool) : CM S unit :=
  answer slot (fun r => if st_ok st then set_allow allowed (set_status FGA_RESPONSE_OK r)
                        else check_failed st r).
Definition on_batch_reply (slots : list nat) (st : GrpcStatus)
    (result : gmap (list ascii) BatchResult) : CM S unit :=
  if st_ok st then batch_reply_loop result slots else batch_failure_loop st slots.
Definition on_write_reply (slot : nat) (st : GrpcStatus) : CM S unit :=
  answer slot (fun r => if st_ok st then set_status FGA_RESPONSE_OK r else failed st r).
Definition on_delete_reply (slot : nat) (st : GrpcStatus) : CM S unit :=
  answer slot (fun r => if st_ok st then set_success true (set_status FGA_RESPONSE_OK r)
                        else failed st r).
Definition on_create_store_reply (slot : nat) (st : GrpcStatus) (id name : list ascii)
  : CM S unit :=
  answer slot (fun r => if st_ok st then set_store id name (set_status FGA_RESPONSE_OK r)
                        else failed st r).
Definition on_delete_store_reply (slot : nat) (st : GrpcStatus) : CM S unit :=
  answer slot (fun r => if st_ok st then set_status FGA_RESPONSE_OK r else failed st r).

(** The types of the stub rule out a response of another kind. *)
Definition on_reply (c : rpc_callback) (st : GrpcStatus) (resp : rpc_response) : CM S unit :=
  match c, resp with
  | OnCheck slot, CheckResponse allowed => on_check_reply slot st allowed
  | OnBatchCheck slots, BatchCheckResponse result => on_batch_reply slots st result
  | OnWrite slot, WriteResponse => on_write_reply slot st
  | OnDelete slot, WriteResponse => on_delete_reply slot st
  | OnCreateStore slot, CreateStoreResponse id name => on_create_store_reply slot st id name
  | OnDeleteStore slot, DeleteStoreResponse => on_delete_store_reply slot st
  | _, _ => cm_lift (Undefined AssertFailed)
  end.
End Completion.

(** ** Tuple keys *)

Lemma typed_name_inj t1 i1 t2 i2 :
  colon ∉ c_str t1 -> colon ∉ c_str t2 -> typed_name t1 i1 = typed_name t2 i2 ->
  c_str t1 = c_str t2 /\ c_str i1 = c_str i2.
Proof.
  unfold typed_name. generalize (c_str t1) (c_str t2) (c_str i1) (c_str i2). clear.
  intros a. induction a as [|x a IH]; intros [|y b] i j Ha Hb Heq; cbn in Heq.
  - by injection Heq as ->.
  - injection Heq as <- _. set_solver.
  - injection Heq as -> _. set_solver.
  - injection Heq as -> Heq. destruct (IH b i j) as [-> ->]; set_solver.
Qed.

(** C26. The key sent to OpenFGA determines the tuple as long as the object and
    subject types contain no colon ... *)
Theorem tuple_key_identifies_tuple t1 t2 :
  colon ∉ c_str (object_type t1) -> colon ∉ c_str (object_type t2) ->
  colon ∉ c_str (subject_type t1) -> colon ∉ c_str (subject_type t2) ->
  fill_tuple_key t1 = fill_tuple_key t2 ->
  c_str (object_type t1) = c_str (object_type t2) /\
  c_str (object_id t1) = c_str (object_id t2) /\
  c_str (subject_type t1) = c_str (subject_type t2) /\
  c_str (subject_id t1) = c_str (subject_id t2) /\
  c_str (relation t1) = c_str (relation t2).
Proof.
  intros H1 H2 H3 H4 [= Ho Hs Hr].
  apply typed_name_inj in Ho as [? ?]; [|done..].
  by apply typed_name_inj in Hs as [? ?].
Qed.

Lemma to_string_inj n m :
  0 <= n < 2 ^ 64 -> 0 <= m < 2 ^ 64 -> to_string n = to_string m -> n = m.
Proof.
  intros Hn Hm. unfold to_string, str. rewrite !u64_small by lia. intros Heq.
  apply (f_equal String.string_of_list_ascii) in Heq.
  rewrite !String.string_of_list_ascii_of_string in Heq.
  apply (inj pretty) in Heq. lia.
Qed.

(** ** What the callbacks do *)
Definition callback_slots (c : rpc_callback) : list nat :=
  match c with
  | OnBatchCheck slots => slots
  | OnCheck i | OnWrite i | OnDelete i | OnCreateStore i | OnDeleteStore i => [i]
  end.

(** The response has the type of the call. *)
Definition reply_matches (c : rpc_callback) (resp : rpc_response) : bool :=
  match c, resp with
  | OnCheck _, CheckResponse _ | OnBatchCheck _, BatchCheckResponse _
  | OnWrite _, WriteResponse | OnDelete _, WriteResponse
  | OnCreateStore _, CreateStoreResponse _ _ | OnDeleteStore _, DeleteStoreResponse => true
  | _, _ => false
  end.

(** The response a callback leaves in a payload it captures. *)
Definition reply_update (c : rpc_callback) (st : GrpcStatus) (resp : rpc_response)
    (p : FgaPayload) : FgaResponse :=
  let r := response p in
  match c, resp with
  | OnCheck _, CheckResponse allowed =>
      if st_ok st then set_allow allowed (set_status FGA_RESPONSE_OK r) else check_failed st r
  | OnBatchCheck _, BatchCheckResponse result =>
      if st_ok st then batch_result (result !! to_string (request_id (request p))) r
      else batch_failed st r
  | OnDelete _, _ =>
      if st_ok st then set_success true (set_status FGA_RESPONSE_OK r) else failed st r
  | OnCreateStore _, CreateStoreResponse id name =>
      if st_ok st then set_store id name (set_status FGA_RESPONSE_OK r) else failed st r
  | _, _ => if st_ok st then set_status FGA_RESPONSE_OK r else failed st r
  end.

Section CompletionSpec.
Context {S : Type} {HE : CompletionEnv S} {HL : CompletionLaws S}.

(** The callbacks of [slots] have answered with [f], in order. *)
Definition answered (f : FgaPayload -> FgaResponse) (slots : list nat) (s s' : S) : Prop :=
  ce_inv s' /\ ce_called s' = ce_called s ++ slots /\
  forall j, ce_view s' !! j =
    if bool_decide (j ∈ slots) then (fun p => MkPayload (request p) (f p)) <$> ce_view s !! j
    else ce_view s !! j.

Lemma answer_spec f g i s p :
  ce_inv s -> ce_view s !! i = Some p -> f (response p) = g p ->
  exists s', answer i f s = (Done tt, s') /\ answered g [i] s s'.
Proof.
  intros Hi Hp Hfg. unfold answer, mbind, cm_bind.
  destruct (update_spec i f s p Hi Hp) as (s1 & -> & Hi1 & Hv1 & Hc1).
  destruct (callback_spec i s1 Hi1) as (s2 & -> & Hi2 & Hv2 & Hc2).
  { rewrite Hv1, lookup_insert_eq. eauto. }
  exists s2. split; [done|]. split; [done|]. split; [by rewrite Hc2, Hc1|].
  intros j. rewrite Hv2, Hv1. case_bool_decide as Hj.
  - apply list_elem_of_singleton in Hj as ->. rewrite lookup_insert_eq, Hp. cbn. by rewrite Hfg.
  - rewrite lookup_insert_ne; [done|]. set_solver.
Qed.

Lemma answered_cons f i slots s s1 s2 :
  i ∉ slots -> answered f [i] s s1 -> answered f slots s1 s2 -> answered f (i :: slots) s s2.
Proof.
  intros Hi (_ & Hc1 & Hv1) (Hi2 & Hc2 & Hv2). split; [done|]. split.
  { by rewrite Hc2, Hc1, <- app_assoc. }
  intros j. rewrite Hv2, Hv1. repeat case_bool_decide; try done; set_solver.
Qed.

Lemma answered_lookup f slots s s' j :
  answered f slots s s' -> j ∉ slots -> ce_view s' !! j = ce_view s !! j.
Proof. intros (_ & _ & Hv) Hj. rewrite Hv. by rewrite bool_decide_eq_false_2. Qed.

Lemma batch_reply_spec result slots s :
  ce_inv s -> NoDup slots -> (forall i, i ∈ slots -> is_Some (ce_view s !! i)) ->
  exists s', batch_reply_loop result slots s = (Done tt, s') /\
    answered (reply_update (OnBatchCheck slots) (MkStatus true []) (BatchCheckResponse result))
      slots s s'.
Proof.
  revert s. induction slots as [|i slots IH]; intros s Hi Hn Hs; cbn [batch_reply_loop].
  - exists s. split; [done|]. split; [done|]. by rewrite app_nil_r.
  - apply NoDup_cons in Hn as [Hni Hn]. destruct (Hs i) as [p Hp]; [set_solver|].
    unfold mbind, cm_bind. rewrite (read_spec i s p Hi Hp).
    destruct (answer_spec (batch_result (result !! to_string (request_id (request p))))
      (reply_update (OnBatchCheck slots) (MkStatus true []) (BatchCheckResponse result))
      i s p Hi Hp) as (s1 & -> & Ha); [done|].
    destruct (IH s1) as (s2 & -> & Ha2); [apply Ha|done| |].
    { intros j Hj. rewrite (answered_lookup _ _ _ _ j Ha); [apply Hs|]; set_solver. }
    exists s2. split; [done|]. by eapply answered_cons.
Qed.

Lemma batch_failure_spec st slots s :
  ce_inv s -> NoDup slots -> (forall i, i ∈ slots -> is_Some (ce_view s !! i)) ->
  exists s', batch_failure_loop st slots s = (Done tt, s') /\
    answered (fun p => batch_failed st (response p)) slots s s'.
Proof.
  revert s. induction slots as [|i slots IH]; intros s Hi Hn Hs; cbn [batch_failure_loop].
  - exists s. split; [done|]. split; [done|]. by rewrite app_nil_r.
  - apply NoDup_cons in Hn as [Hni Hn]. destruct (Hs i) as [p Hp]; [set_solver|].
    unfold mbind, cm_bind.
    destruct (answer_spec (batch_failed st) (fun p => batch_failed st (response p)) i s p Hi Hp eq_refl)
      as (s1 & -> & Ha).
    destruct (IH s1) as (s2 & -> & Ha2); [apply Ha|done| |].
    { intros j Hj. rewrite (answered_lookup _ _ _ _ j Ha); [apply Hs|]; set_solver. }
    exists s2. split; [done|]. by eapply answered_cons.
Qed.

(** A reply of the call's type answers exactly the requests the callback
    captured and runs each one's completion callback once, in order. *)
Lemma on_reply_spec c st resp s :
  ce_inv s -> reply_matches c resp = true -> NoDup (callback_slots c) ->
  (forall i, i ∈ callback_slots c -> is_Some (ce_view s !! i)) ->
  exists s', on_reply c st resp s = (Done tt, s') /\
    answered (reply_update c st resp) (callback_slots c) s s'.
Proof.
  intros Hi Hm Hn Hs.
  destruct c as [i|slots|i|i|i|i], resp; try done; cbn [on_reply callback_slots] in *;
    try (destruct (Hs i) as [p Hp]; [set_solver|]; by apply (answer_spec _ _ i s p)).
  unfold on_batch_reply. destruct (st_ok st) eqn:Hok.
  - destruct (batch_reply_spec result slots s Hi Hn Hs) as (s' & ? & Ha).
    exists s'. split; [done|]. unfold reply_update. by rewrite Hok.
  - destruct (batch_failure_spec st slots s Hi Hn Hs) as (s' & ? & Ha).
    exists s'. split; [done|]. unfold reply_update. by rewrite Hok.
Qed.
End CompletionSpec.

(** ** Splitting a batch *)
Lemma split_batch_spec config now items :
  split_batch config now items =
  (filter (fun it => is_check (make_request_variant it.2)) items,
   concat ((fun it => process config now it.1 it.2) <$>
     filter (fun it => ~ is_check (make_request_variant it.2)) items)).
Proof.
  induction items as [|it items IH]; [done|]. cbn [split_batch]. rewrite IH.
  rewrite !filter_cons. destruct (is_check (make_request_variant it.2)) eqn:Hc; cbn.
  - by rewrite decide_True, decide_False by tauto.
  - by rewrite decide_False, decide_True by tauto.
Qed.

(** A batch of at least two requests: the calls of the other requests, then
    one call for all the checks. *)
Lemma process_batch_spec config now items first checks :
  (2 <= length items)%nat ->
  filter (fun it => is_check (make_request_variant it.2)) items = first :: checks ->
  process_batch config now items =
    Done (concat ((fun it => process config now it.1 it.2) <$>
            filter (fun it => ~ is_check (make_request_variant it.2)) items) ++
          [MkCall (RpcBatchCheck (variant_store_id first.2) (variant_model_id first.2)
             (batch_check <$> first :: checks)) (deadline config now)
             (OnBatchCheck (first :: checks).*1)]).
Proof.
  intros Hlen Hf. unfold process_batch.
  destruct items as [|a [|b items]]; [cbn in Hlen; lia..|].
  rewrite split_batch_spec, Hf. done.
Qed.

(** The result map of a server that decides each check of a batch. *)
Definition server_results (decides : TupleKey -> bool) (checks : list (list ascii * TupleKey))
  : gmap (list ascii) BatchResult :=
  list_to_map ((fun c => (c.1, ResultAllowed (decides c.2))) <$> checks).

Lemma server_results_lookup decides checks cid key :
  NoDup checks.*1 -> (cid, key) ∈ checks ->
  server_results decides checks !! cid = Some (ResultAllowed (decides key)).
Proof.
  intros Hn Hin. unfold server_results. apply elem_of_list_to_map_1.
  - rewrite <- list_fmap_compose. done.
  - apply (list_elem_of_fmap_2 (fun c => (c.1, ResultAllowed (decides c.2)))) in Hin. done.
Qed.

(** A server that decides the checks it is asked and accepts everything else. *)
Definition deciding_server (decides : list ascii -> list ascii -> TupleKey -> bool) (call : rpc_call)
  : GrpcStatus * rpc_response :=
  (MkStatus true [],
   match call_callback call with
   | OnCheck _ =>
       CheckResponse (match call_request call with
                      | RpcCheck store model key => decides store model key
                      | _ => false
                      end)
   | OnBatchCheck _ =>
       BatchCheckResponse (match call_request call with
                           | RpcBatchCheck store model checks =>
                               server_results (decides store model) checks
                           | _ => ∅
                           end)
   | OnWrite _ | OnDelete _ => WriteResponse
   | OnCreateStore _ => CreateStoreResponse [] []
   | OnDeleteStore _ => DeleteStoreResponse
   end).

Lemma deciding_server_matches decides call :
  reply_matches (call_callback call) (deciding_server decides call).2 = true.
Proof. unfold deciding_server. by destruct (call_callback call). Qed.

Section ClientTheorems.
Context {S : Type} {HE : CompletionEnv S} {HL : CompletionLaws S}.

(** The request types the client has a handler for. *)
Definition served_type (t : Z) : bool :=
  (t =? request_type_code FGA_REQUEST_CHECK) || (t =? request_type_code FGA_REQUEST_WRITE_TUPLE)
  || (t =? request_type_code FGA_REQUEST_DELETE_TUPLE)
  || (t =? request_type_code FGA_REQUEST_CREATE_STORE)
  || (t =? request_type_code FGA_REQUEST_DELETE_STORE).

Lemma process_served config now i p :
  served_type (req_type (request p)) = true ->
  exists c, process config now i p = [c] /\ callback_slots (call_callback c) = [i] /\
    call_deadline c = now + cfg_timeout config /\
    forall slots, call_callback c <> OnBatchCheck slots.
Proof.
  unfold served_type, process, make_request_variant. intros Hs.
  repeat case_match; cbn; try (eexists; split; [reflexivity|]; by split_and!); exfalso; unfold request_type_code in *; lia.
Qed.

(** C25. A request of a type the SQL functions send leads to exactly one call,
    with the configured deadline; whenever its reply arrives, exactly this
    request's response is written, its status is OK just when the call
    succeeded, and its completion callback runs once.  A request of any other
    type (a store lookup among them) leads to no call, so its completion
    callback never runs. *)
Theorem client_answers_each_request config now i p :
  (served_type (req_type (request p)) = true ->
    exists c, process config now i p = [c] /\ call_deadline c = now + cfg_timeout config /\
      forall s st resp, ce_inv s -> ce_view s !! i = Some p ->
        reply_matches (call_callback c) resp = true ->
        exists s' p', on_reply (call_callback c) st resp s = (Done tt, s') /\
          ce_called s' = ce_called s ++ [i] /\
          ce_view s' !! i = Some p' /\ request p' = request p /\
          (status (response p') = FGA_RESPONSE_OK <-> st_ok st = true) /\
          forall j, j <> i -> ce_view s' !! j = ce_view s !! j) /\
  (served_type (req_type (request p)) = false -> process config now i p = []).
Proof.
  split.
  - intros Hs. destruct (process_served config now i p Hs) as (c & Hc & Hsl & Hd & Hnb).
    exists c. split; [done|]. split; [done|]. intros s st resp Hi Hp Hm.
    destruct (on_reply_spec (call_callback c) st resp s Hi Hm) as (s' & Hr & Ha).
    { rewrite Hsl. apply NoDup_singleton. }
    { rewrite Hsl. intros j ->%list_elem_of_singleton. eauto. }
    destruct Ha as (Hi' & Hcd & Hv). rewrite Hsl in Hcd, Hv.
    exists s', (MkPayload (request p) (reply_update (call_callback c) st resp p)).
    split; [done|]. split; [done|]. split; [|split; [done|split]].
    + rewrite Hv, bool_decide_eq_true_2 by set_solver. by rewrite Hp.
    + cbn. destruct (call_callback c) as [|slots| | | |], resp; try done; cbn in *;
        try (destruct (st_ok st); done).
      * by destruct (Hnb slots).
      * unfold set_store. destruct (st_ok st); [|done]. by destruct (body_create_store _).
    + intros j Hj. rewrite Hv, bool_decide_eq_false_2; [done|set_solver].
  - unfold served_type, process, make_request_variant, request_type_code. intros Hs.
    repeat case_match; try done; exfalso; lia.
Qed.

(** The checks of a batch, their payloads in memory, and distinct numbers. *)
Record batch_in_memory (s : S) (batch : list (nat * FgaPayload)) : Prop := {
  bm_inv : ce_inv s;
  bm_slots : NoDup batch.*1;
  bm_ids : NoDup ((fun it => request_id (request it.2)) <$> batch);
  bm_range it : it ∈ batch -> 0 <= request_id (request it.2) < 2 ^ 64;
  bm_view it : it ∈ batch -> exists p, ce_view s !! it.1 = Some p /\ request p = request it.2;
}.

Lemma batch_correlation_nodup s batch :
  batch_in_memory s batch -> NoDup (batch_check <$> batch).*1.
Proof.
  intros [_ _ Hn Hr _]. rewrite <- list_fmap_compose. clear -Hn Hr.
  induction batch as [|it batch IH]; csimpl; [by apply NoDup_nil|].
  csimpl in Hn. apply NoDup_cons in Hn as [Hni Hn]. apply NoDup_cons. split; [|apply IH; set_solver].
  intros (it' & Heq & Hin)%list_elem_of_fmap. apply Hni.
  cbn in Heq. apply to_string_inj in Heq; [|apply Hr; set_solver..].
  rewrite Heq. apply (list_elem_of_fmap_2 (fun it => request_id (request it.2))) in Hin. done.
Qed.

Lemma batch_reply_decided decides s batch :
  batch_in_memory s batch ->
  exists s', on_reply (OnBatchCheck batch.*1) (MkStatus true [])
      (BatchCheckResponse (server_results decides (batch_check <$> batch))) s = (Done tt, s') /\
    ce_called s' = ce_called s ++ batch.*1 /\
    forall it, it ∈ batch -> exists p', ce_view s' !! it.1 = Some p' /\
      request p' = request it.2 /\ status (response p') = FGA_RESPONSE_OK /\
      body_allow (resp_body (response p')) =
        decides (fill_tuple_key (body_tuple (req_body (request it.2)))).
Proof.
  intros Hb. pose proof (batch_correlation_nodup _ _ Hb) as Hc.
  destruct Hb as [Hi Hsl _ _ Hv]. set (res := server_results _ _).
  destruct (on_reply_spec (OnBatchCheck batch.*1) (MkStatus true []) (BatchCheckResponse res) s)
    as (s' & Hr & _ & Hcd & Hview); [done|done|done| |].
  { intros i (it & -> & Hit)%list_elem_of_fmap. destruct (Hv it Hit) as (p & Hp & _). eauto. }
  exists s'. split; [done|]. split; [done|]. intros it Hit.
  destruct (Hv it Hit) as (p & Hp & Hreq). rewrite Hview, bool_decide_eq_true_2, Hp.
  2:{ by apply list_elem_of_fmap_2. }
  eexists. split; [reflexivity|]. cbn [request response]. split; [done|].
  cbn [reply_update callback_slots st_ok].
  rewrite Hreq. unfold res.
  rewrite (server_results_lookup _ _ _ (fill_tuple_key (body_tuple (req_body (request it.2)))));
    [done|done|].
  by apply (list_elem_of_fmap_2 batch_check) in Hit.
Qed.

(** A batch with checks: after the calls of the other requests one call asks
    for all the checks, in the store and the model of the first check; when a
    server decides the checks it was asked, every check of the batch gets the
    decision on its own tuple - taken in the first check's store and model - and
    is answered exactly once. *)
Theorem batch_check_answers (decides : list ascii -> list ascii -> TupleKey -> bool)
    config now items first checks s :
  (2 <= length items)%nat ->
  filter (fun it => is_check (make_request_variant it.2)) items = first :: checks ->
  batch_in_memory s (first :: checks) ->
  let store := variant_store_id first.2 in
  let model := variant_model_id first.2 in
  exists calls c, process_batch config now items = Done (calls ++ [c]) /\
    call_request c = RpcBatchCheck store model (batch_check <$> first :: checks) /\
    exists s', on_reply (call_callback c) (MkStatus true [])
        (BatchCheckResponse (server_results (decides store model)
           (batch_check <$> first :: checks))) s = (Done tt, s') /\
      ce_called s' = ce_called s ++ (first :: checks).*1 /\
      forall it, it ∈ first :: checks -> exists p', ce_view s' !! it.1 = Some p' /\
        request p' = request it.2 /\ status (response p') = FGA_RESPONSE_OK /\
        body_allow (resp_body (response p')) =
          decides store model (fill_tuple_key (body_tuple (req_body (request it.2)))).
Proof.
  intros Hlen Hf Hb store model. rewrite (process_batch_spec config now items first checks Hlen Hf).
  eexists _, _. split; [reflexivity|]. split; [done|].
  by apply batch_reply_decided.
Qed.

(** C34. So a check can be granted although its own store denies it: with a
    server on which only the first check's store grants anything, every check
    batched behind it is answered "allowed", whatever store its session asked. *)
Theorem batch_check_grants_in_foreign_store config now items first checks s it :
  (2 <= length items)%nat ->
  filter (fun it => is_check (make_request_variant it.2)) items = first :: checks ->
  batch_in_memory s (first :: checks) ->
  it ∈ checks -> variant_store_id it.2 <> variant_store_id first.2 ->
  exists (decides : list ascii -> list ascii -> TupleKey -> bool) calls store model asked cb d s' p',
    (forall model key, decides (variant_store_id it.2) model key = false) /\
    process_batch config now items =
      Done (calls ++ [MkCall (RpcBatchCheck store model asked) d cb]) /\
    on_reply cb (MkStatus true []) (BatchCheckResponse (server_results (decides store model) asked)) s
      = (Done tt, s') /\
    ce_view s' !! it.1 = Some p' /\ request p' = request it.2 /\
    status (response p') = FGA_RESPONSE_OK /\ body_allow (resp_body (response p')) = true.
Proof.
  intros Hlen Hf Hb Hit Hne.
  set (decides := fun (st _ : list ascii) (_ : TupleKey) =>
    bool_decide (st = variant_store_id first.2)).
  exists decides. rewrite (process_batch_spec config now items first checks Hlen Hf).
  destruct (batch_reply_decided (decides (variant_store_id first.2) (variant_model_id first.2))
    s (first :: checks) Hb) as (s' & Hr & _ & Ha).
  destruct (Ha it) as (p' & Hp & Hq & Hst & Hal); [by right|].
  do 6 eexists. exists s', p'. split; [by intros; apply bool_decide_eq_false_2|].
  split; [reflexivity|]. split; [exact Hr|]. split_and!; try done.
  rewrite Hal. by apply bool_decide_eq_true_2.
Qed.
(** The reference for a batch: each check sent on its own and answered by its
    own reply, in order. *)
Fixpoint check_each (decides : list ascii -> list ascii -> TupleKey -> bool)
    (items : list (nat * FgaPayload)) : CM S unit :=
  match items with
  | [] => mret tt
  | item :: rest =>
      let p := item.2 in
      _ ← on_reply (OnCheck item.1) (MkStatus true [])
            (CheckResponse (decides (variant_store_id p) (variant_model_id p)
               (fill_tuple_key (body_tuple (req_body (request p))))));
      check_each decides rest
  end.

Definition decided (decides : list ascii -> list ascii -> TupleKey -> bool) (p : FgaPayload)
  : FgaResponse :=
  set_allow (decides (variant_store_id p) (variant_model_id p)
      (fill_tuple_key (body_tuple (req_body (request p)))))
    (set_status FGA_RESPONSE_OK (response p)).

Lemma check_each_spec decides s items :
  ce_inv s -> NoDup items.*1 ->
  (forall it, it ∈ items -> exists p, ce_view s !! it.1 = Some p /\ request p = request it.2) ->
  exists s', check_each decides items s = (Done tt, s') /\
    answered (decided decides) items.*1 s s'.
Proof.
  revert s. induction items as [|it items IH]; intros s Hi Hn Hv; csimpl.
  - exists s. split; [done|]. split; [done|]. by rewrite app_nil_r.
  - csimpl in Hn. apply NoDup_cons in Hn as [Hni Hn].
    destruct (Hv it) as (p & Hp & Hq); [by left|]. unfold mbind, cm_bind.
    destruct (answer_spec (fun r => set_allow (decides (variant_store_id it.2) (variant_model_id it.2)
        (fill_tuple_key (body_tuple (req_body (request it.2))))) (set_status FGA_RESPONSE_OK r))
      (decided decides) it.1 s p Hi Hp) as (s1 & Ha & Hans).
    { unfold decided, variant_store_id, variant_model_id. by rewrite Hq. }
    unfold on_reply, on_check_reply. cbn [st_ok]. rewrite Ha.
    destruct (IH s1) as (s2 & -> & Ha2); [apply Hans|done| |].
    { intros it' Hit. rewrite (answered_lookup _ _ _ _ it'.1 Hans); [apply Hv; by right|].
      intros Heq%list_elem_of_singleton. apply Hni. rewrite <- Heq. by apply (list_elem_of_fmap_2 fst). }
    exists s2. split; [done|]. by eapply answered_cons.
Qed.

End ClientTheorems.

(** ** A plain instance of the contract: payloads in a map *)
Record payload_map : Type := PayloadMap {
  pm_view : gmap nat FgaPayload;
  pm_called : list nat;
}.

#[export] Instance payload_map_env : CompletionEnv payload_map := {
  read_payload i := fun m =>
    match pm_view m !! i with
    | Some p => (Done p, m)
    | None => (Undefined OutOfBounds, m)
    end;
  update_response i f := fun m =>
    match pm_view m !! i with
    | Some p => (Done tt, PayloadMap (<[i := MkPayload (request p) (f (response p))]> (pm_view m))
                            (pm_called m))
    | None => (Undefined OutOfBounds, m)
    end;
  run_callback i := fun m => (Done tt, PayloadMap (pm_view m) (pm_called m ++ [i]));
}.

#[export] Instance payload_map_laws : CompletionLaws payload_map.
Proof.
  refine (Build_CompletionLaws payload_map _ (fun _ => True) pm_view pm_called _ _ _).
  - intros i s p _ Hp. cbn. by rewrite Hp.
  - intros i f s p _ Hp. cbn. rewrite Hp. eexists. split; [reflexivity|done].
  - intros i s _ _. eexists. split; [reflexivity|done].
Defined.

(** ** Witnesses *)
Definition client_config_sample : Config := load_config_from_guc 4 boot_config.

Definition check_payload (id : Z) (store obj : string) : FgaPayload :=
  MkPayload
    (MkRequest id (request_type_code FGA_REQUEST_CHECK) (str store) (zeros 4)
       (ReqCheckTuple (MkTuple (str "doc") (str obj) (str "user") (str "ann") (str "read"))))
    zero_response.

Definition sample_items : list (nat * FgaPayload) :=
  [(3%nat, check_payload 7 "s1" "a"); (5%nat, check_payload 8 "s2" "b")].
Definition sample_memory : payload_map := PayloadMap (list_to_map sample_items) [].

Lemma sample_in_memory : batch_in_memory sample_memory sample_items.
Proof.
  split.
  - done.
  - decide_now.
  - decide_now.
  - intros it Hit. unfold sample_items in Hit.
    repeat (apply elem_of_cons in Hit as [->|Hit]); [cbn; lia..|by apply elem_of_nil in Hit].
  - intros it Hit. unfold sample_items in Hit.
    repeat (apply elem_of_cons in Hit as [->|Hit]); [by eexists..|by apply elem_of_nil in Hit].
Qed.

Lemma sample_checks :
  filter (fun it => is_check (make_request_variant it.2)) sample_items = sample_items.
Proof. reflexivity. Qed.

Lemma client_answers_each_request_witness :
  exists s' p', on_reply (OnCheck 3) (MkStatus true []) (CheckResponse true) sample_memory = (Done tt, s') /\
    ce_view s' !! 3%nat = Some p' /\ status (response p') = FGA_RESPONSE_OK.
Proof.
  destruct (client_answers_each_request (S := payload_map) client_config_sample 0 3
    (check_payload 7 "s1" "a")) as [Hc _].
  destruct (Hc eq_refl) as (c & Hp & _ & Hr). injection Hp as <-.
  destruct (Hr sample_memory (MkStatus true []) (CheckResponse true) I eq_refl eq_refl)
    as (s' & p' & H1 & _ & H2 & _ & H3 & _).
  exists s', p'. split; [exact H1|]. split; [exact H2|]. by apply H3.
Defined.

(** The same name, in arrays that differ behind the NUL. *)
Definition dirty_tuple : FgaTuple :=
  MkTuple (str "doc") (str "a" ++ NUL :: str "old") (str "user") (str "ann") (str "read").
Definition clean_tuple : FgaTuple :=
  MkTuple (str "doc") (str "a" ++ [NUL]) (str "user") (str "ann") (str "read").

Lemma tuple_key_identifies_tuple_witness :
  c_str (object_id dirty_tuple) = c_str (object_id clean_tuple).
Proof.
  destruct (tuple_key_identifies_tuple dirty_tuple clean_tuple) as (_ & H & _);
    [decide_now|decide_now|decide_now|decide_now|reflexivity|exact H].
Defined.

Lemma batch_check_answers_witness :
  exists calls c, process_batch client_config_sample 0 sample_items = Done (calls ++ [c]) /\
    call_request c = RpcBatchCheck (str "s1") [] (batch_check <$> sample_items).
Proof.
  destruct (batch_check_answers (fun _ _ key => bool_decide (tk_object key = str "doc:a"))
    client_config_sample 0 sample_items (3%nat, check_payload 7 "s1" "a")
    [(5%nat, check_payload 8 "s2" "b")] sample_memory) as (calls & c & H1 & H2 & _).
  - cbn. lia.
  - exact sample_checks.
  - exact sample_in_memory.
  - exists calls, c. split; [exact H1|exact H2].
Defined.

Lemma batch_check_grants_in_foreign_store_witness :
  exists (decides : list ascii -> list ascii -> TupleKey -> bool),
    forall model key, decides (str "s2") model key = false.
Proof.
  destruct (batch_check_grants_in_foreign_store client_config_sample 0 sample_items
    (3%nat, check_payload 7 "s1" "a") [(5%nat, check_payload 8 "s2" "b")] sample_memory
    (5%nat, check_payload 8 "s2" "b")) as (decides & calls & store & model & asked & cb & d & s' & p' & H & _).
  - cbn. lia.
  - exact sample_checks.
  - exact sample_in_memory.
  - by left.
  - discriminate.
  - exists decides. exact H.
Defined.

Definition one_store_items : list (nat * FgaPayload) :=
  [(3%nat, check_payload 7 "s1" "a"); (5%nat, check_payload 8 "s1" "b")].
Definition one_store_memory : payload_map := PayloadMap (list_to_map one_store_items) [].

