(* ===== verification/Processor.v ===== *)
(** * The worker's request processor: [src/bgw/processor.cpp]

    One turn of the background worker takes queued slots, starts the calls of
    the requests whose backends still wait, and hands the completed requests
    back: the backend is woken, or the slot returned when the backend has given
    up or is gone.  The completion callbacks run on the gRPC threads and only
    append to the list of completed slots, under its mutex. *)
From S2P Require Import Prelude Platform Types SlotQueue SlotPool Channel Config Client.

Definition MAX_BATCH : Z := 50.

(** What the worker and the gRPC threads share: the channel, the live backends
    by pid with their latches, the worker's own latch, the completed slots, the
    calls whose reply is pending, and the warnings of the log. *)
Record worker_env (L : Type) : Type := MkWorkerEnv {
  we_channel : FgaChannel L;
  we_procs : gmap Z bool;
  we_latch : bool;
  completed_queue : list nat;
  we_calls : list rpc_call;
  we_log : list string;
}.
Arguments MkWorkerEnv {L} we_channel we_procs we_latch completed_queue we_calls we_log.
Arguments we_channel {L} w.
Arguments we_procs {L} w.
Arguments we_latch {L} w.
Arguments completed_queue {L} w.
Arguments we_calls {L} w.
Arguments we_log {L} w.

Section Processor.
Context {L : Type} {HS : SList L}.
Variable config : Config.
Variable now : Z.

Definition on_shared {A} (m : CM (FgaChannel L) A) : CM (worker_env L) A := fun w =>
  let '(r, c) := m (we_channel w) in
  (r, MkWorkerEnv c (we_procs w) (we_latch w) (completed_queue w) (we_calls w) (we_log w)).

Definition warning (msg : string) : CM (worker_env L) unit := cm_modify (fun w =>
  MkWorkerEnv (we_channel w) (we_procs w) (we_latch w) (completed_queue w) (we_calls w)
    (we_log w ++ [msg])).

(** The calls handed to the asynchronous stub. *)
Definition submit (calls : list rpc_call) : CM (worker_env L) unit := cm_modify (fun w =>
  MkWorkerEnv (we_channel w) (we_procs w) (we_latch w) (completed_queue w)
    (we_calls w ++ calls) (we_log w)).

Definition set_completed (l : list nat) : CM (worker_env L) unit := cm_modify (fun w =>
  MkWorkerEnv (we_channel w) (we_procs w) (we_latch w) l (we_calls w) (we_log w)).

Definition slot_of (i : nat) : CM (worker_env L) FgaChannelSlot := on_shared (on_pool (read_slot i)).
Definition write_slot (i : nat) (f : FgaChannelSlot -> FgaChannelSlot) : CM (worker_env L) unit :=
  on_shared (on_pool (update_slot i f)).

(** The compare-and-swap of the slot's state; on failure [expected] holds the
    state found. *)
Definition beginProcessing (i : nat) : CM (worker_env L) bool :=
  s ← slot_of i;
  if decide (slot_state s = FGA_CHANNEL_SLOT_PENDING) then
    _ ← write_slot i (fun s => set_state s FGA_CHANNEL_SLOT_PROCESSING);
    mret true
  else
    _ ← (if decide (slot_state s = FGA_CHANNEL_SLOT_CANCELED)
         then on_shared (fga_channel_release_slot i)
         else warning "postfga: slot state changed unexpectedly (state=%u)");
    mret false.

(** [push_back] under the mutex, then [SetLatch(MyLatch)]. *)
Definition enqueueCompleted (i : nat) : CM (worker_env L) unit := cm_modify (fun w =>
  MkWorkerEnv (we_channel w) (we_procs w) true (completed_queue w ++ [i]) (we_calls w) (we_log w)).

Definition wakeBackend (i : nat) : CM (worker_env L) unit :=
  w ← cm_get;
  woken ← cm_lift (fga_channel_wake_backend (we_channel w) i (we_procs w));
  _ ← cm_modify (fun w => MkWorkerEnv (we_channel w) woken.2 (we_latch w) (completed_queue w)
                            (we_calls w) (we_log w));
  if negb woken.1 then on_shared (fga_channel_release_slot i) else mret tt.

Definition handleResponse (i : nat) : CM (worker_env L) unit :=
  s ← slot_of i;
  if decide (slot_state s = FGA_CHANNEL_SLOT_CANCELED) then
    on_shared (fga_channel_release_slot i)
  else
    _ ← write_slot i (fun s => set_state s FGA_CHANNEL_SLOT_DONE);
    wakeBackend i.

(** [strncpy] into the zeroed message; NULL and the empty text leave it empty. *)
Definition exception_response (msg : option (list ascii)) : FgaResponse :=
  let text := match msg with Some m => c_str m | None => [] end in
  let n := (FGA_RESPONSE_ERROR_MESSAGE_LEN - 1)%nat in
  MkResponse FGA_RESPONSE_SERVER_ERROR
    (take n text ++ zeros (FGA_RESPONSE_ERROR_MESSAGE_LEN - length (take n text))) RespZero.

Definition handleException (i : nat) (msg : option (list ascii)) : CM (worker_env L) unit :=
  _ ← warning "postfga: exception in processing request: %s";
  _ ← write_slot i (fun s =>
         set_payload s (MkPayload (request (payload s)) (exception_response msg)));
  handleResponse i.

Fixpoint handle_all (slots : list nat) : CM (worker_env L) unit :=
  match slots with
  | [] => mret tt
  | i :: rest => _ ← handleResponse i; handle_all rest
  end.

(** The list is swapped out under the mutex. *)
Definition drainCompleted : CM (worker_env L) unit :=
  w ← cm_get;
  match completed_queue w with
  | [] => mret tt
  | local => _ ← set_completed []; handle_all local
  end.

(** The loop over the drained slots: the items of the batch. *)
Fixpoint begin_all (slots : list nat) : CM (worker_env L) (list (nat * FgaPayload)) :=
  match slots with
  | [] => mret []
  | i :: rest =>
      ok ← beginProcessing i;
      items ← begin_all rest;
      if (ok : bool) then s ← slot_of i; mret ((i, payload s) :: items)
      else mret items
  end.

Definition execute : CM (worker_env L) unit :=
  slots ← on_shared (fga_channel_drain_slots MAX_BATCH);
  _ ← (match Z.to_nat <$> slots with
       | [] => mret tt
       | [i] =>
           ok ← beginProcessing i;
           if (ok : bool) then s ← slot_of i; submit (process config now i (payload s))
           else mret tt
       | slots =>
           items ← begin_all slots;
           match items with
           | [] => mret tt
           | _ => calls ← cm_lift (process_batch config now items); submit calls
           end
       end);
  drainCompleted.
End Processor.

(** ** The completion callbacks of the worker *)
#[export] Instance worker_completion {L} `{SList L} : CompletionEnv (worker_env L) := {
  read_payload i := s ← slot_of i; mret (payload s);
  update_response i f :=
    write_slot i (fun s => set_payload s (MkPayload (request (payload s)) (f (response (payload s)))));
  run_callback := enqueueCompleted;
}.

(** The reply to pending call number [n] arrives. *)
Definition deliver {L} `{SList L} (n : nat) (st : GrpcStatus) (resp : rpc_response)
  : CM (worker_env L) unit :=
  w ← cm_get;
  match we_calls w !! n with
  | None => mret tt
  | Some call =>
      _ ← cm_modify (fun w => MkWorkerEnv (we_channel w) (we_procs w) (we_latch w)
             (completed_queue w) (delete n (we_calls w)) (we_log w));
      on_reply (call_callback call) st resp
  end.
