(* ===== verification/Protocol.v ===== *)
(** * Backends and worker together: the life of a request slot

    The system of all backends and the background worker over one channel, as
    an executable step function over labels: each label runs the functions of
    [Channel], [Processor] and [Client] that one process executes between two
    scheduling points.  The granularity is the one the code's comments assume:
    the error handler of [wait_response] reads and writes the slot's state
    without the worker in between, and [handleResponse] likewise.

    A backend that is interrupted or finds the queue full leaves its slot as
    [src/channel.c] does, and that is all [fga_check] does.  The handlers of the
    four other SQL functions release the slot once more.  The system leaves this
    second release out: [Hazards] and [SqlFuncs] show what it does, and a run in
    which one of these four functions is interrupted or turned away by a full
    queue is a run of the system only up to that point.

    The invariant gives every slot exactly one role, which determines who may
    touch it, in which list it is, and what its state word says. *)
From S2P Require Import Prelude Platform Types SlotQueue SlotPool Channel Config Client Processor.

(** What a backend is doing: writing its request, waiting for the answer, or
    reading it. *)
Inductive phase : Type := Owning | Waiting | Reading.

#[export] Instance phase_eq_dec : EqDecision phase.
Proof. solve_decision. Defined.

Record system (L : Type) : Type := MkSystem {
  sys_worker : worker_env L;
  sys_backends : gmap Z (phase * nat);     (* the backends with a slot, by pid *)
}.
Arguments MkSystem {L} sys_worker sys_backends.
Arguments sys_worker {L} s.
Arguments sys_backends {L} s.

Inductive label : Type :=
  | LAcquire (pid : Z) (type : Z) (store model : list ascii) (body : FgaRequestBody)
  | LEnqueue (pid : Z)
  | LPoll (pid : Z)
  | LInterrupt (pid : Z)
  | LRelease (pid : Z)
  | LExit (pid : Z)
  | LWorker (now : Z)
  | LReply (n : nat) (st : GrpcStatus) (resp : rpc_response).

Section System.
Context {L : Type} {HS : SList L}.
Variable config : Config.

(** The request the SQL function writes into its slot. *)
Definition fill_slot (i : nat) (type : Z) (store model : list ascii) (body : FgaRequestBody)
  : CM (FgaChannel L) unit :=
  on_pool (update_slot i (fun s => set_payload s (MkPayload
    (MkRequest (request_id (request (payload s))) type store model body) (response (payload s))))).

Definition start (pid type : Z) (store model : list ascii) (body : FgaRequestBody)
  : CM (FgaChannel L) nat :=
  i ← fga_channel_acquire_slot pid;
  _ ← fill_slot i type store model body;
  mret i.

(** The part of [fga_channel_execute_slot] before the wait. *)
Definition enqueue_slot (i : nat) : CM (FgaChannel L) bool :=
  _ ← lock_queue;
  ok ← on_queue (queue_enqueue (u16 (Z.of_nat i)));
  if negb ok then
    _ ← unlock_queue;
    _ ← fga_channel_release_slot i;
    mret false
  else
    _ ← unlock_queue;
    mret true.

(** Running a channel operation of a backend; an error leaves the backend idle. *)
Definition run_channel {A} (m : CM (FgaChannel L) A) (w : worker_env L)
  : outcome (option A) * worker_env L :=
  match on_shared m w with
  | (Done a, w') => (Done (Some a), w')
  | (Error _, w') => (Done None, w')
  | (Undefined u, w') => (Undefined u, w')
  end.

Definition with_latch (w : worker_env L) : worker_env L :=
  MkWorkerEnv (we_channel w) (we_procs w) true (completed_queue w) (we_calls w) (we_log w).
Definition without_proc (pid : Z) (w : worker_env L) : worker_env L :=
  MkWorkerEnv (we_channel w) (delete pid (we_procs w)) (we_latch w) (completed_queue w)
    (we_calls w) (we_log w).

(** A label that is not enabled changes nothing. *)
Definition sys_step (lab : label) (σ : system L) : outcome (system L) :=
  let w := sys_worker σ in
  let B := sys_backends σ in
  match lab with
  | LAcquire pid type store model body =>
      if decide (is_Some (we_procs w !! pid) /\ B !! pid = None /\ served_type type = true) then
        match run_channel (start pid type store model body) w with
        | (Done (Some i), w') => Done (MkSystem w' (<[pid := (Owning, i)]> B))
        | (Done None, w') => Done (MkSystem w' B)
        | (Error e, _) => Error e
        | (Undefined u, _) => Undefined u
        end
      else Done σ
  | LEnqueue pid =>
      match B !! pid with
      | Some (Owning, i) =>
          match run_channel (enqueue_slot i) w with
          | (Done (Some true), w') => Done (MkSystem (with_latch w') (<[pid := (Waiting, i)]> B))
          | (Done _, w') => Done (MkSystem w' (delete pid B))
          | (Error e, _) => Error e
          | (Undefined u, _) => Undefined u
          end
      | _ => Done σ
      end
  | LPoll pid =>
      match B !! pid with
      | Some (Waiting, i) =>
          match chan_slot (we_channel w) i with
          | None => Undefined OutOfBounds
          | Some s =>
              match slot_state s with
              | FGA_CHANNEL_SLOT_DONE => Done (MkSystem w (<[pid := (Reading, i)]> B))
              | FGA_CHANNEL_SLOT_CANCELED =>
                  match run_channel (fga_channel_release_slot i) w with
                  | (Done _, w') => Done (MkSystem w' (delete pid B))
                  | (Error e, _) => Error e
                  | (Undefined u, _) => Undefined u
                  end
              | _ => Done σ
              end
          end
      | _ => Done σ
      end
  | LInterrupt pid =>
      match B !! pid with
      | Some (Waiting, i) =>
          match run_channel (wait_catch i) w with
          | (Done _, w') => Done (MkSystem w' (delete pid B))
          | (Error e, _) => Error e
          | (Undefined u, _) => Undefined u
          end
      | _ => Done σ
      end
  | LRelease pid =>
      match B !! pid with
      | Some (Reading, i) =>
          match run_channel (fga_channel_release_slot i) w with
          | (Done _, w') => Done (MkSystem w' (delete pid B))
          | (Error e, _) => Error e
          | (Undefined u, _) => Undefined u
          end
      | _ => Done σ
      end
  | LExit pid =>
      (* the process ends without unwinding, before its answer is there *)
      match B !! pid with
      | Some (Waiting, i) =>
          match slot_state <$> chan_slot (we_channel w) i with
          | Some FGA_CHANNEL_SLOT_DONE => Done σ
          | _ => Done (MkSystem (without_proc pid w) (delete pid B))
          end
      | Some _ => Done σ
      | None => Done (MkSystem (without_proc pid w) B)
      end
  | LWorker now =>
      match execute config now w with
      | (Done _, w') => Done (MkSystem w' B)
      | (Error e, _) => Error e
      | (Undefined u, _) => Undefined u
      end
  | LReply n st resp =>
      match we_calls w !! n with
      | Some call =>
          if reply_matches (call_callback call) resp then
            match deliver n st resp w with
            | (Done _, w') => Done (MkSystem w' B)
            | (Error e, _) => Error e
            | (Undefined u, _) => Undefined u
            end
          else Done σ
      | None => Done σ
      end
  end.

Fixpoint sys_run (labs : list label) (σ : system L) : outcome (system L) :=
  match labs with
  | [] => Done σ
  | lab :: labs' => σ' ← sys_step lab σ; sys_run labs' σ'
  end.
End System.

(** ** Roles *)
Inductive stage : Type := Queued | InFlight | Completed.

Inductive role : Type :=
  | Free
  | Owned (pid : Z)
  | Awaited (pid : Z) (st : stage)
  | Ready (pid : Z)
  | Read (pid : Z)
  | Abandoned (st : stage)
  | Orphaned (pid : Z) (st : stage).

Definition role_stage (r : role) : option stage :=
  match r with
  | Awaited _ st | Abandoned st | Orphaned _ st => Some st
  | _ => None
  end.

(** The backend that holds the slot, and what it is doing. *)
Definition role_phase (r : role) : option (Z * phase) :=
  match r with
  | Owned pid => Some (pid, Owning)
  | Awaited pid _ | Ready pid => Some (pid, Waiting)
  | Read pid => Some (pid, Reading)
  | _ => None
  end.

(** The state word of a request in the pipeline that is still wanted. *)
Definition stage_state (st : stage) : FgaChannelSlotState :=
  match st with
  | Queued => FGA_CHANNEL_SLOT_PENDING
  | InFlight | Completed => FGA_CHANNEL_SLOT_PROCESSING
  end.

Definition slot_ok (procs : gmap Z bool) (r : role) (s : FgaChannelSlot) : Prop :=
  match r with
  | Free => True
  | Owned pid =>
      slot_state s = FGA_CHANNEL_SLOT_PENDING /\ backend_pid s = pid /\ is_Some (procs !! pid)
  | Awaited pid st =>
      slot_state s = stage_state st /\ backend_pid s = pid /\ is_Some (procs !! pid)
  | Ready pid | Read pid => slot_state s = FGA_CHANNEL_SLOT_DONE /\ is_Some (procs !! pid)
  | Abandoned st => slot_state s = FGA_CHANNEL_SLOT_CANCELED
  | Orphaned pid st =>
      slot_state s = stage_state st /\ backend_pid s = pid /\ procs !! pid = None
  end.

Definition staged (R : gmap nat role) (st : stage) (i : nat) : Prop :=
  exists r, R !! i = Some r /\ role_stage r = Some st.

Definition inflight {L} (w : worker_env L) : list nat :=
  concat (callback_slots ∘ call_callback <$> we_calls w).

Section Invariant.
Context {L : Type} {HS : SList L} {HL : SListLaws L}.
Variable k : Z.     (* the queue holds 2^k numbers *)

(** [lq], [lf] and [lc] are slots a running function has taken from the queue,
    is about to submit, or has taken from the completed ones. *)
Record proto_inv (lq lf lc : list nat) (R : gmap nat role) (free : list nat) (l : list Z)
    (B : gmap Z (phase * nat)) (w : worker_env L) : Prop := {
  pi_chan : chan_repr k (we_channel w) free l;
  pi_dom i : is_Some (R !! i) <-> (i < length (pool_slots (ch_pool (we_channel w))))%nat;
  pi_free i : i ∈ free <-> R !! i = Some Free;
  pi_nonneg v : v ∈ l -> 0 <= v;
  pi_queue : NoDup (lq ++ (Z.to_nat <$> l));
  pi_queued i : i ∈ lq ++ (Z.to_nat <$> l) <-> staged R Queued i;
  pi_flight : NoDup (lf ++ inflight w);
  pi_inflight i : i ∈ lf ++ inflight w <-> staged R InFlight i;
  pi_done : NoDup (lc ++ completed_queue w);
  pi_completed i : i ∈ lc ++ completed_queue w <-> staged R Completed i;
  pi_slot i r s : R !! i = Some r -> chan_slot (we_channel w) i = Some s ->
    slot_ok (we_procs w) r s;
  pi_served i s : is_Some (R !! i) -> R !! i <> Some Free -> chan_slot (we_channel w) i = Some s ->
    served_type (req_type (request (payload s))) = true;
  pi_backend pid ph i : B !! pid = Some (ph, i) <->
    exists r, R !! i = Some r /\ role_phase r = Some (pid, ph);
}.

Lemma slot_ok_procs procs procs' r s :
  (forall pid, is_Some (procs' !! pid) <-> is_Some (procs !! pid)) ->
  slot_ok procs r s -> slot_ok procs' r s.
Proof.
  intros Hp. destruct r; cbn; rewrite ?Hp; try done.
  intros (H1 & H2 & H3). split_and!; try done.
  apply eq_None_not_Some. rewrite Hp. by apply eq_None_not_Some.
Qed.

(** The change of one list when slot [i] changes its role from [r] to [r']. *)
Definition moved (st : stage) (i : nat) (r' : role) (l l' : list nat) : Prop :=
  NoDup l' /\ (i ∈ l' <-> role_stage r' = Some st) /\ forall j, j <> i -> (j ∈ l' <-> j ∈ l).

Lemma moved_same st i r r' l :
  NoDup l -> (i ∈ l <-> role_stage r = Some st) -> role_stage r = role_stage r' ->
  moved st i r' l l.
Proof. intros Hn Hi Hr. split; [done|]. split; [by rewrite <- Hr|done]. Qed.

Lemma staged_insert R st i r' j :
  j <> i -> staged (<[i := r']> R) st j <-> staged R st j.
Proof. intros Hj. unfold staged. by rewrite lookup_insert_ne. Qed.

Lemma staged_at R st i r : R !! i = Some r -> staged R st i <-> role_stage r = Some st.
Proof. unfold staged. intros ->. naive_solver. Qed.

Lemma moved_staged R st i r' l l' :
  moved st i r' l l' -> (forall j, j ∈ l <-> staged R st j) ->
  forall j, j ∈ l' <-> staged (<[i := r']> R) st j.
Proof.
  intros (Hn & Hi & Hj) Hl j. destruct (decide (j = i)) as [->|Hne].
  - rewrite Hi. unfold staged. rewrite lookup_insert_eq. naive_solver.
  - rewrite Hj, Hl, staged_insert by done. done.
Qed.

(** One slot changes its role; everything else stays. *)
Lemma inv_update lq lf lc R free l B w lq' lf' lc' free' l' B' w' i r r' s' :
  proto_inv lq lf lc R free l B w -> R !! i = Some r ->
  chan_repr k (we_channel w') free' l' ->
  chan_slot (we_channel w') i = Some s' ->
  (forall j, j <> i -> chan_slot (we_channel w') j = chan_slot (we_channel w) j) ->
  (forall j r s, j <> i -> R !! j = Some r ->
     slot_ok (we_procs w) r s -> slot_ok (we_procs w') r s) ->
  slot_ok (we_procs w') r' s' ->
  (r' <> Free -> served_type (req_type (request (payload s'))) = true) ->
  (i ∈ free' <-> r' = Free) -> (forall j, j <> i -> (j ∈ free' <-> j ∈ free)) ->
  (forall v, v ∈ l' -> 0 <= v) ->
  moved Queued i r' (lq ++ (Z.to_nat <$> l)) (lq' ++ (Z.to_nat <$> l')) ->
  moved InFlight i r' (lf ++ inflight w) (lf' ++ inflight w') ->
  moved Completed i r' (lc ++ completed_queue w) (lc' ++ completed_queue w') ->
  (forall pid ph j, j <> i -> (B' !! pid = Some (ph, j) <-> B !! pid = Some (ph, j))) ->
  (forall pid ph, B' !! pid = Some (ph, i) <-> role_phase r' = Some (pid, ph)) ->
  proto_inv lq' lf' lc' (<[i := r']> R) free' l' B' w'.
Proof.
  intros Hinv Hi Hc Hs Hj Hok Hok' Hsv Hf Hfj Hnn Hq Hfl Hd HBj HBi.
  split; [done| | |exact Hnn|apply Hq| |apply Hfl| |apply Hd| | | |].
  - intros j. pose proof (pi_dom _ _ _ _ _ _ _ _ Hinv j) as Hd0.
    rewrite <- lookup_lt_is_Some in Hd0. rewrite <- lookup_lt_is_Some.
    destruct (decide (j = i)) as [->|Hne].
    + unfold chan_slot in Hs. rewrite lookup_insert_eq, Hs. by split; eauto.
    + specialize (Hj j Hne). unfold chan_slot in Hj. by rewrite lookup_insert_ne, Hj.
  - intros j. destruct (decide (j = i)) as [->|Hne].
    + rewrite lookup_insert_eq, Hf. naive_solver.
    + rewrite lookup_insert_ne, Hfj by done. apply Hinv.
  - apply (moved_staged R _ _ _ _ _ Hq), Hinv.
  - apply (moved_staged R _ _ _ _ _ Hfl), Hinv.
  - apply (moved_staged R _ _ _ _ _ Hd), Hinv.
  - intros j rj sj. destruct (decide (j = i)) as [->|Hne].
    + rewrite lookup_insert_eq, Hs. by intros [= <-] [= <-].
    + rewrite lookup_insert_ne, Hj by done. intros H1 H2.
      eapply Hok; [done|done|]. by eapply Hinv.
  - intros j sj. destruct (decide (j = i)) as [->|Hne].
    + rewrite lookup_insert_eq, Hs. intros _ Hr [= <-]. apply Hsv. congruence.
    + rewrite lookup_insert_ne, Hj by done. apply Hinv.
  - intros pid ph j. destruct (decide (j = i)) as [->|Hne].
    + rewrite HBi, lookup_insert_eq. naive_solver.
    + rewrite HBj, lookup_insert_ne by done. apply Hinv.
Qed.

(** ** How the lists change *)
Lemma moved_keep R st i r r' l :
  NoDup l -> (forall j, j ∈ l <-> staged R st j) -> R !! i = Some r ->
  (role_stage r = Some st <-> role_stage r' = Some st) -> moved st i r' l l.
Proof.
  intros Hn Hl Hi Hr. split; [done|]. split; [|done].
  by rewrite Hl, (staged_at R st i r Hi), Hr.
Qed.

Lemma moved_add R st i r r' l :
  NoDup l -> (forall j, j ∈ l <-> staged R st j) -> R !! i = Some r ->
  role_stage r <> Some st -> role_stage r' = Some st -> moved st i r' l (l ++ [i]).
Proof.
  intros Hn Hl Hi Hr Hr'.
  assert (Hni : i ∉ l) by (by rewrite Hl, (staged_at R st i r Hi)).
  split; [|split].
  - apply NoDup_app. split; [done|]. split; [|apply NoDup_singleton]. set_solver.
  - rewrite Hr'. set_solver.
  - set_solver.
Qed.

Lemma moved_remove st i r' l :
  NoDup (i :: l) -> role_stage r' <> Some st -> moved st i r' (i :: l) l.
Proof.
  intros [Hi Hn]%NoDup_cons Hr. split; [done|]. split; [|set_solver].
  split; [done|by intros].
Qed.

(** The worker's environment with another channel. *)
Definition with_channel (w : worker_env L) (c : FgaChannel L) : worker_env L :=
  MkWorkerEnv c (we_procs w) (we_latch w) (completed_queue w) (we_calls w) (we_log w).

Lemma on_shared_eq {A} (m : CM (FgaChannel L) A) w r c :
  m (we_channel w) = (r, c) -> on_shared m w = (r, with_channel w c).
Proof. unfold on_shared. by intros ->. Qed.

Lemma inv_slot lq lf lc R free l B w i r :
  proto_inv lq lf lc R free l B w -> R !! i = Some r ->
  exists s, chan_slot (we_channel w) i = Some s /\ slot_ok (we_procs w) r s /\
    (r <> Free -> served_type (req_type (request (payload s))) = true) /\ Z.of_nat i < 65536.
Proof.
  intros Hinv Hi. assert (Hlt : is_Some (R !! i)) by eauto.
  rewrite (pi_dom _ _ _ _ _ _ _ _ Hinv) in Hlt.
  pose proof (cr_index _ _ _ _ (pi_chan _ _ _ _ _ _ _ _ Hinv)) as Hx.
  destruct (lookup_lt_is_Some_2 _ _ Hlt) as [s Hs]. exists s. split; [done|].
  split; [by eapply Hinv|]. split; [|lia].
  intros Hr. apply (pi_served _ _ _ _ _ _ _ _ Hinv i); [eauto|congruence|done].
Qed.

(** A step on slot [i] alone that leaves the three lists alone, or changes only
    the freelist. *)
Lemma inv_channel lq lf lc R free l B w free' B' c' i r r' s' :
  proto_inv lq lf lc R free l B w -> R !! i = Some r ->
  chan_repr k c' free' l -> chan_slot c' i = Some s' ->
  (forall j, j <> i -> chan_slot c' j = chan_slot (we_channel w) j) ->
  slot_ok (we_procs w) r' s' ->
  (r' <> Free -> served_type (req_type (request (payload s'))) = true) ->
  role_stage r = role_stage r' ->
  (i ∈ free' <-> r' = Free) -> (forall j, j <> i -> (j ∈ free' <-> j ∈ free)) ->
  (forall pid ph j, j <> i -> (B' !! pid = Some (ph, j) <-> B !! pid = Some (ph, j))) ->
  (forall pid ph, B' !! pid = Some (ph, i) <-> role_phase r' = Some (pid, ph)) ->
  proto_inv lq lf lc (<[i := r']> R) free' l B' (with_channel w c').
Proof.
  intros Hinv Hi Hc Hs Hj Hok Hsv Hst Hf Hfj HBj HBi.
  eapply (inv_update lq lf lc R free l B w); try done.
  - apply Hinv.
  - eapply (moved_keep R); [apply Hinv|apply Hinv|done|by rewrite Hst].
  - eapply (moved_keep R); [apply Hinv|apply Hinv|done|by rewrite Hst].
  - eapply (moved_keep R); [apply Hinv|apply Hinv|done|by rewrite Hst].
Qed.

(** ** The map of backends *)
Definition other_slots (i : nat) (B B' : gmap Z (phase * nat)) : Prop :=
  forall pid ph j, j <> i -> (B' !! pid = Some (ph, j) <-> B !! pid = Some (ph, j)).
Definition holders (i : nat) (r : role) (B : gmap Z (phase * nat)) : Prop :=
  forall pid ph, B !! pid = Some (ph, i) <-> role_phase r = Some (pid, ph).

Lemma inv_holders lq lf lc R free l B w i r :
  proto_inv lq lf lc R free l B w -> R !! i = Some r -> holders i r B.
Proof.
  intros Hinv Hi pid ph. rewrite (pi_backend _ _ _ _ _ _ _ _ Hinv), Hi. naive_solver.
Qed.

Lemma backends_insert i r r' B pid ph :
  holders i r B -> role_phase r' = Some (pid, ph) ->
  (B !! pid = None /\ role_phase r = None) \/ (exists ph0, B !! pid = Some (ph0, i)) ->
  other_slots i B (<[pid := (ph, i)]> B) /\ holders i r' (<[pid := (ph, i)]> B).
Proof.
  unfold holders. intros Hh Hr' Hcase. split.
  - intros pid' ph' j Hj. destruct (decide (pid' = pid)) as [->|Hne].
    + rewrite lookup_insert_eq. destruct Hcase as [[-> _]|[ph0 ->]]; split; congruence.
    + by rewrite lookup_insert_ne.
  - intros pid' ph'. rewrite Hr'. destruct (decide (pid' = pid)) as [->|Hne].
    + rewrite lookup_insert_eq. naive_solver.
    + rewrite lookup_insert_ne, Hh by done. destruct Hcase as [[_ ->]|[ph0 H0]]; [naive_solver|].
      apply Hh in H0. naive_solver.
Qed.

Lemma backends_delete i r r' B pid ph0 :
  holders i r B -> role_phase r' = None -> B !! pid = Some (ph0, i) ->
  other_slots i B (delete pid B) /\ holders i r' (delete pid B).
Proof.
  unfold holders. intros Hh Hr' H0. split.
  - intros pid' ph' j Hj. destruct (decide (pid' = pid)) as [->|Hne].
    + rewrite lookup_delete_eq, H0. split; congruence.
    + by rewrite lookup_delete_ne.
  - intros pid' ph'. rewrite Hr'. destruct (decide (pid' = pid)) as [->|Hne].
    + by rewrite lookup_delete_eq.
    + rewrite lookup_delete_ne, Hh by done. apply Hh in H0. naive_solver.
Qed.

Definition sys_inv (σ : system L) : Prop :=
  exists R free l, proto_inv [] [] [] R free l (sys_backends σ) (sys_worker σ).

(** ** The backends' steps *)
Variable config : Config.

Lemma start_spec c free l i pid type store model body :
  chan_repr k c (i :: free) l ->
  exists c' s, start pid type store model body c = (Done i, c') /\ chan_repr k c' free l /\
    i ∉ free /\ chan_slot c' i = Some s /\ slot_state s = FGA_CHANNEL_SLOT_PENDING /\
    backend_pid s = pid /\ req_type (request (payload s)) = type /\
    (forall j, j <> i -> chan_slot c' j = chan_slot c j).
Proof.
  intros Hc. destruct (chan_acquire_spec k c i free l pid Hc) as (c1 & Ha & Hc1 & Hs1 & Ho1 & Hif & _).
  unfold start, mbind, cm_bind. rewrite Ha. unfold fill_slot.
  match goal with |- context [update_slot i ?f] =>
    destruct (chan_update_slot k c1 free l i f _ Hc1 Hs1 Hif) as (c2 & -> & Hc2 & Hsl & _) end.
  destruct (chan_slot_insert c1 c2 i _ _ Hs1 Hsl) as [Hs2 Ho2].
  eexists c2, _. split; [done|]. split; [done|]. split; [done|]. split; [exact Hs2|].
  split_and!; try done. intros j Hj. by rewrite Ho2, Ho1.
Qed.

Lemma acquire_step pid type store model body σ :
  sys_inv σ -> exists σ', sys_step config (LAcquire pid type store model body) σ = Done σ' /\ sys_inv σ'.
Proof.
  intros (R & free & l & Hinv). unfold sys_step. case_decide as Hg; [|exists σ; split; [done|]; by exists R, free, l].
  destruct Hg as (Hp & Hb & Hsv). unfold run_channel.
  destruct free as [|i free].
  - pose proof (chan_acquire_exhausted k _ l pid (pi_chan _ _ _ _ _ _ _ _ Hinv)) as Ha.
    rewrite (on_shared_eq (start pid type store model body) _
      (Error (PgError "ERRCODE_OUT_OF_MEMORY" "channel slot pool exhausted")) (we_channel (sys_worker σ))).
    2:{ unfold start, mbind, cm_bind. by rewrite Ha. }
    eexists. split; [reflexivity|]. exists R, [], l. cbn.
    replace (with_channel _ _) with (sys_worker σ) by (by destruct σ as [[] ?]). done.
  - destruct (start_spec _ free l i pid type store model body (pi_chan _ _ _ _ _ _ _ _ Hinv))
      as (c' & s & Hst & Hc' & Hif & Hs & Hs1 & Hs2 & Hs3 & Ho).
    rewrite (on_shared_eq _ _ _ _ Hst). eexists. split; [reflexivity|].
    assert (Hi : R !! i = Some Free) by (apply Hinv; by left).
    destruct (backends_insert i Free (Owned pid) (sys_backends σ) pid Owning) as [HB1 HB2];
      [by eapply inv_holders|done|by left|].
    exists (<[i := Owned pid]> R), free, l. cbn.
    eapply inv_channel; try done; [by intros; rewrite Hs3|set_solver].
Qed.

Lemma enqueue_slot_spec c free l i s :
  chan_repr k c free l -> chan_slot c i = Some s -> Z.of_nat i < 65536 -> i ∉ free ->
  exists c' ok, enqueue_slot i c = (Done ok, c') /\
    chan_repr k c' (if ok then free else i :: free) (if ok then l ++ [Z.of_nat i] else l) /\
    chan_slot c' i = Some (if ok then s else set_state s FGA_CHANNEL_SLOT_EMPTY) /\
    (forall j, j <> i -> chan_slot c' j = chan_slot c j).
Proof.
  intros Hc Hs Hi Hif. destruct (chan_enqueue_spec k c free l i Hc Hi) as (c1 & ok & He & Hp & _ & Hc1 & _).
  unfold enqueue_slot, mbind, cm_bind, lock_queue. rewrite (cr_queue_lock _ _ _ _ Hc), He.
  assert (Hu : set_queue_lock None (set_queue_lock (Some LW_EXCLUSIVE) c1) = c1).
  { pose proof (cr_queue_lock _ _ _ _ Hc1) as Hq. destruct c1. cbn in *. by rewrite Hq. }
  assert (Hs1 : forall j, chan_slot c1 j = chan_slot c j) by (intros j; unfold chan_slot; by rewrite Hp).
  destruct ok; cbn [negb]; unfold unlock_queue; rewrite Hu.
  - exists c1, true. split; [done|]. split; [done|]. by rewrite Hs1.
  - destruct (chan_release_spec k c1 i free l s Hc1) as (c2 & -> & Hc2 & Hs2 & Ho2); [by rewrite Hs1|done|].
    exists c2, false. split; [done|]. split; [done|]. split; [done|].
    intros j Hj. by rewrite Ho2, Hs1.
Qed.

Lemma backend_role lq lf lc R free l B w pid ph i :
  proto_inv lq lf lc R free l B w -> B !! pid = Some (ph, i) ->
  exists r, R !! i = Some r /\ role_phase r = Some (pid, ph).
Proof. intros Hinv HB. by apply (pi_backend _ _ _ _ _ _ _ _ Hinv). Qed.

Lemma role_not_free lq lf lc R free l B w i r :
  proto_inv lq lf lc R free l B w -> R !! i = Some r -> r <> Free -> i ∉ free.
Proof. intros Hinv Hi Hr. rewrite (pi_free _ _ _ _ _ _ _ _ Hinv). congruence. Qed.

(** The latch is not part of the invariant. *)
Lemma inv_latch lq lf lc R free l B w :
  proto_inv lq lf lc R free l B w -> proto_inv lq lf lc R free l B (with_latch w).
Proof. intros [? ? ? ? ? ? ? ? ? ? ? ? ?]. by split. Qed.

(** Handing a slot back to the pool. *)
Lemma inv_release lq lf lc R free l B w B' i r :
  proto_inv lq lf lc R free l B w -> R !! i = Some r -> r <> Free -> role_stage r = None ->
  other_slots i B B' -> holders i Free B' ->
  exists c', fga_channel_release_slot i (we_channel w) = (Done tt, c') /\
    proto_inv lq lf lc (<[i := Free]> R) (i :: free) l B' (with_channel w c').
Proof.
  intros Hinv Hi Hr Hst HB1 HB2.
  destruct (inv_slot _ _ _ _ _ _ _ _ i r Hinv Hi) as (s & Hs & _).
  assert (Hif : i ∉ free) by by eapply role_not_free.
  destruct (chan_release_spec k _ i free l s (pi_chan _ _ _ _ _ _ _ _ Hinv) Hs Hif)
    as (c' & Hrel & Hc' & Hs' & Ho).
  exists c'. split; [done|]. eapply inv_channel; try done; set_solver.
Qed.

Lemma enqueue_step pid σ :
  sys_inv σ -> exists σ', sys_step config (LEnqueue pid) σ = Done σ' /\ sys_inv σ'.
Proof.
  intros (R & free & l & Hinv). unfold sys_step.
  destruct (sys_backends σ !! pid) as [[[] i]|] eqn:HB;
    try (exists σ; split; [done|]; by exists R, free, l).
  destruct (backend_role _ _ _ _ _ _ _ _ _ _ _ Hinv HB) as (r & Hi & Hr).
  destruct r; try done. injection Hr as ->.
  destruct (inv_slot _ _ _ _ _ _ _ _ i _ Hinv Hi) as (s & Hs & (Hs1 & Hs2 & Hs3) & Hsv & Hlt).
  assert (Hif : i ∉ free) by by eapply role_not_free.
  destruct (enqueue_slot_spec _ free l i s (pi_chan _ _ _ _ _ _ _ _ Hinv) Hs Hlt Hif)
    as (c' & ok & He & Hc' & Hs' & Ho).
  unfold run_channel. rewrite (on_shared_eq _ _ _ _ He). destruct ok.
  - eexists. split; [reflexivity|]. exists (<[i := Awaited pid Queued]> R), free, (l ++ [Z.of_nat i]).
    apply inv_latch. cbn [sys_worker sys_backends].
    destruct (backends_insert i (Owned pid) (Awaited pid Queued) (sys_backends σ) pid Waiting)
      as [HB1 HB2]; [by eapply inv_holders|done|right; by eexists|].
    eapply (inv_update [] [] [] R free l (sys_backends σ)); try done.
    + by intros; apply Hsv.
    + intros v [Hv| ->%list_elem_of_singleton]%elem_of_app; [by eapply Hinv|lia].
    + rewrite fmap_app. cbn [fmap list_fmap]. rewrite Nat2Z.id. cbn [app].
      eapply (moved_add R); [apply Hinv|apply Hinv|done..].
    + eapply (moved_keep R); [apply Hinv|apply Hinv|done|done].
    + eapply (moved_keep R); [apply Hinv|apply Hinv|done|done].
  - eexists. split; [reflexivity|]. exists (<[i := Free]> R), (i :: free), l.
    cbn [sys_worker sys_backends].
    destruct (backends_delete i (Owned pid) Free (sys_backends σ) pid Owning)
      as [HB1 HB2]; [by eapply inv_holders|done|done|].
    eapply inv_channel; try done; set_solver.
Qed.

Lemma poll_step pid σ :
  sys_inv σ -> exists σ', sys_step config (LPoll pid) σ = Done σ' /\ sys_inv σ'.
Proof.
  intros (R & free & l & Hinv). unfold sys_step.
  destruct (sys_backends σ !! pid) as [[[] i]|] eqn:HB;
    try (exists σ; split; [done|]; by exists R, free, l).
  destruct (backend_role _ _ _ _ _ _ _ _ _ _ _ Hinv HB) as (r & Hi & Hr).
  destruct (inv_slot _ _ _ _ _ _ _ _ i _ Hinv Hi) as (s & Hs & Hok & Hsv & Hlt). rewrite Hs.
  destruct r as [|?|? st|?|?|?|?]; try done; injection Hr as ->; cbn in Hok.
  - destruct Hok as (Hst & _). destruct st; rewrite Hst;
      (exists σ; split; [done|]; by exists R, free, l).
  - destruct Hok as (Hst & Hp). rewrite Hst. eexists. split; [reflexivity|].
    assert (Hif : i ∉ free) by by eapply role_not_free.
    exists (<[i := Read pid]> R), free, l. cbn [sys_worker sys_backends].
    destruct (backends_insert i (Ready pid) (Read pid) (sys_backends σ) pid Reading)
      as [HB1 HB2]; [by eapply inv_holders|done|right; by eexists|].
    replace (sys_worker σ) with (with_channel (sys_worker σ) (we_channel (sys_worker σ)))
      by (by destruct σ as [[] ?]).
    eapply inv_channel; try done; [apply Hinv|by intros; apply Hsv].
Qed.

Lemma release_step pid σ :
  sys_inv σ -> exists σ', sys_step config (LRelease pid) σ = Done σ' /\ sys_inv σ'.
Proof.
  intros (R & free & l & Hinv). unfold sys_step.
  destruct (sys_backends σ !! pid) as [[[] i]|] eqn:HB;
    try (exists σ; split; [done|]; by exists R, free, l).
  destruct (backend_role _ _ _ _ _ _ _ _ _ _ _ Hinv HB) as (r & Hi & Hr).
  destruct r; try done. injection Hr as ->.
  destruct (backends_delete i (Read pid) Free (sys_backends σ) pid Reading)
    as [HB1 HB2]; [by eapply inv_holders|done|done|].
  destruct (inv_release _ _ _ _ _ _ _ _ _ i _ Hinv Hi ltac:(done) eq_refl HB1 HB2)
    as (c' & Hrel & Hinv').
  unfold run_channel. rewrite (on_shared_eq _ _ _ _ Hrel). eexists. split; [reflexivity|].
  by exists (<[i := Free]> R), (i :: free), l.
Qed.

(** The error handler of a backend that waits: the slot is given up while the
    worker has it, and returned when the answer is already there. *)
Lemma wait_catch_spec c free l i s :
  chan_repr k c free l -> chan_slot c i = Some s -> i ∉ free ->
  slot_state s <> FGA_CHANNEL_SLOT_EMPTY -> slot_state s <> FGA_CHANNEL_SLOT_CANCELED ->
  let answered := bool_decide (slot_state s = FGA_CHANNEL_SLOT_DONE) in
  exists c' s', wait_catch i c = (Done tt, c') /\
    chan_repr k c' (if answered then i :: free else free) l /\
    chan_slot c' i = Some s' /\ payload s' = payload s /\
    (answered = false -> slot_state s' = FGA_CHANNEL_SLOT_CANCELED) /\
    (forall j, j <> i -> chan_slot c' j = chan_slot c j).
Proof.
  intros Hc Hs Hif He Hca. unfold wait_catch, wait_catch_act, wait_catch_pid, mbind, cm_bind. rewrite (chan_read_slot c i s Hs).
  destruct (slot_state s) eqn:Hst; try done; cbn.
  1,2: destruct (chan_update_slot k c free l i (fun s => set_state s FGA_CHANNEL_SLOT_CANCELED) s
      Hc Hs Hif) as (c1 & -> & Hc1 & Hsl & _);
    destruct (chan_slot_insert c c1 i s _ Hs Hsl) as [Hs1 Ho1];
    destruct (chan_update_pid k c1 free l i InvalidPid _ Hc1 Hs1) as (c2 & -> & Hc2 & Hs2 & Ho2);
    eexists c2, _; split; [done|]; split; [done|]; split; [done|]; split_and!; try done;
    intros j Hj; by rewrite Ho2, Ho1.
  destruct (chan_release_spec k c i free l s Hc Hs Hif) as (c1 & -> & Hc1 & Hs1 & Ho1).
  destruct (chan_update_pid k c1 _ l i InvalidPid _ Hc1 Hs1) as (c2 & -> & Hc2 & Hs2 & Ho2).
  eexists c2, _. split; [done|]. split; [done|]. split; [done|]. split_and!; try done.
  intros j Hj. by rewrite Ho2, Ho1.
Qed.

Lemma interrupt_step pid σ :
  sys_inv σ -> exists σ', sys_step config (LInterrupt pid) σ = Done σ' /\ sys_inv σ'.
Proof.
  intros (R & free & l & Hinv). unfold sys_step.
  destruct (sys_backends σ !! pid) as [[[] i]|] eqn:HB;
    try (exists σ; split; [done|]; by exists R, free, l).
  destruct (backend_role _ _ _ _ _ _ _ _ _ _ _ Hinv HB) as (r & Hi & Hr).
  destruct (inv_slot _ _ _ _ _ _ _ _ i _ Hinv Hi) as (s & Hs & Hok & Hsv & Hlt).
  assert (Hif : i ∉ free) by (eapply role_not_free; [done..|by destruct r]).
  assert (Hne : slot_state s <> FGA_CHANNEL_SLOT_EMPTY /\ slot_state s <> FGA_CHANNEL_SLOT_CANCELED).
  { destruct r as [|?|? []|?|?|?|?]; try done; cbn in Hok; by destruct Hok as [-> _]. }
  destruct (wait_catch_spec _ free l i s (pi_chan _ _ _ _ _ _ _ _ Hinv) Hs Hif (proj1 Hne) (proj2 Hne))
    as (c' & s' & Hcatch & Hc' & Hs' & Hpay & Hcan & Ho).
  unfold run_channel. rewrite (on_shared_eq _ _ _ _ Hcatch). eexists. split; [reflexivity|].
  destruct r as [|?|pid0 st|pid0|?|?|?]; try done; injection Hr as ->.
  - destruct (backends_delete i (Awaited pid st) (Abandoned st) (sys_backends σ) pid Waiting)
      as [HB1 HB2]; [by eapply inv_holders|done|done|].
    assert (Hd : bool_decide (slot_state s = FGA_CHANNEL_SLOT_DONE) = false).
    { apply bool_decide_eq_false_2. cbn in Hok. destruct Hok as [-> _]. by destruct st. }
    rewrite Hd in *. exists (<[i := Abandoned st]> R), free, l. cbn [sys_worker sys_backends].
    eapply inv_channel; try done; [by apply Hcan|by intros; rewrite Hpay; apply Hsv].
  - destruct (backends_delete i (Ready pid) Free (sys_backends σ) pid Waiting)
      as [HB1 HB2]; [by eapply inv_holders|done|done|].
    cbn in Hok. destruct Hok as [Hst _].
    rewrite (bool_decide_eq_true_2 _ Hst) in *.
    exists (<[i := Free]> R), (i :: free), l. cbn [sys_worker sys_backends].
    eapply inv_channel; try done; set_solver.
Qed.

(** A process that ends takes itself off the list of live processes. *)
Lemma exit_step pid σ :
  sys_inv σ -> exists σ', sys_step config (LExit pid) σ = Done σ' /\ sys_inv σ'.
Proof.
  intros (R & free & l & Hinv). unfold sys_step.
  assert (Hgone : forall r s, slot_ok (we_procs (sys_worker σ)) r s ->
      (forall ph, role_phase r <> Some (pid, ph)) ->
      slot_ok (delete pid (we_procs (sys_worker σ))) r s).
  { intros r s Hok Hr. destruct r as [|p|p st|p|p|st|p st]; cbn in *; try done;
      (destruct (decide (p = pid)) as [->|Hne];
        [try (by destruct (Hr Owning)); try (by destruct (Hr Waiting)); try (by destruct (Hr Reading))
        |by rewrite lookup_delete_ne]).
    rewrite lookup_delete_eq. naive_solver. }
  destruct (sys_backends σ !! pid) as [[[] i]|] eqn:HB;
    try (exists σ; split; [done|]; by exists R, free, l).
  - destruct (backend_role _ _ _ _ _ _ _ _ _ _ _ Hinv HB) as (r & Hi & Hr).
    destruct (inv_slot _ _ _ _ _ _ _ _ i _ Hinv Hi) as (s & Hs & Hok & Hsv & Hlt). rewrite Hs.
    cbn [fmap option_fmap option_map].
    assert (Hif : i ∉ free) by (eapply role_not_free; [done..|by destruct r]).
    destruct r as [|?|pid0 st|pid0|?|?|?]; try done; injection Hr as ->; cbn in Hok.
    + destruct (backends_delete i (Awaited pid st) (Orphaned pid st) (sys_backends σ) pid Waiting)
        as [HB1 HB2]; [by eapply inv_holders|done|done|].
      destruct Hok as (Hst & Hpid & Hp).
      assert (Hsys : sys_inv (MkSystem (without_proc pid (sys_worker σ)) (delete pid (sys_backends σ)))).
      { exists (<[i := Orphaned pid st]> R), free, l. cbn [sys_worker sys_backends].
        eapply (inv_update [] [] [] R free l (sys_backends σ) (sys_worker σ)); try done.
        - apply Hinv.
        - intros j r' s' Hj HRj Hok'. apply Hgone; [done|]. intros ph Hph.
          assert (HBj : sys_backends σ !! pid = Some (ph, j)) by (apply Hinv; eauto). congruence.
        - cbn. rewrite lookup_delete_eq. done.
        - by intros; apply Hsv.
        - apply Hinv.
        - eapply (moved_keep R); [apply Hinv|apply Hinv|done|done].
        - eapply (moved_keep R); [apply Hinv|apply Hinv|done|done].
        - eapply (moved_keep R); [apply Hinv|apply Hinv|done|done]. }
      destruct st; rewrite Hst; (eexists; split; [reflexivity|exact Hsys]).
    + destruct Hok as [-> _]. exists σ. split; [done|]. by exists R, free, l.
  - eexists. split; [reflexivity|]. exists R, free, l. cbn [sys_worker sys_backends].
    destruct Hinv. split; try done. intros j r s HRj Hsj. apply Hgone; [by eapply pi_slot0|].
    intros ph Hph. assert (sys_backends σ !! pid = Some (ph, j)) by (apply pi_backend0; eauto).
    congruence.
Qed.

(** ** The worker's turn *)
Lemma moved_perm st i r' l l1 l2 : moved st i r' l l1 -> l1 ≡ₚ l2 -> moved st i r' l l2.
Proof.
  intros (Hn & Hi & Hj) Hp. split; [by rewrite <- Hp|]. split; [by rewrite <- Hp|].
  intros j. rewrite <- Hp. apply Hj.
Qed.

(** Permuting the slots in flight, and submitting what was about to be. *)
Lemma inv_flight_perm lq lf lf' lc R free l B w w' :
  proto_inv lq lf lc R free l B w ->
  we_channel w' = we_channel w -> we_procs w' = we_procs w ->
  completed_queue w' = completed_queue w -> lf ++ inflight w ≡ₚ lf' ++ inflight w' ->
  proto_inv lq lf' lc R free l B w'.
Proof.
  intros [? ? ? ? ? ? ? ? ? ? ? ? ?] Hc Hp Hd Hperm.
  split; rewrite ?Hc, ?Hp, ?Hd, <- ?Hperm; try done.
  intros i. by rewrite <- Hperm.
Qed.

Lemma slot_of_spec (w : worker_env L) i s :
  chan_slot (we_channel w) i = Some s -> slot_of i w = (Done s, w).
Proof.
  intros Hs. unfold slot_of, on_shared. rewrite (chan_read_slot _ i s Hs). by destruct w.
Qed.

(** Setting a slot's state word. *)
Lemma write_state_spec (w : worker_env L) free l i s st :
  chan_repr k (we_channel w) free l -> chan_slot (we_channel w) i = Some s -> i ∉ free ->
  exists c', write_slot i (fun s => set_state s st) w = (Done tt, with_channel w c') /\
    chan_repr k c' free l /\ chan_slot c' i = Some (set_state s st) /\
    forall j, j <> i -> chan_slot c' j = chan_slot (we_channel w) j.
Proof.
  intros Hc Hs Hif.
  destruct (chan_update_slot k _ free l i (fun s => set_state s st) s Hc Hs Hif)
    as (c' & Hu & Hc' & Hsl & _).
  destruct (chan_slot_insert _ c' i s _ Hs Hsl) as [Hs' Ho].
  exists c'. unfold write_slot. by rewrite (on_shared_eq _ _ _ _ Hu).
Qed.

Lemma moved_dequeued i lq lf lc R free l B w r' :
  proto_inv (i :: lq) lf lc R free l B w -> role_stage r' <> Some Queued ->
  moved Queued i r' ((i :: lq) ++ (Z.to_nat <$> l)) (lq ++ (Z.to_nat <$> l)).
Proof. intros Hinv Hr'. apply moved_remove; [apply (pi_queue _ _ _ _ _ _ _ _ Hinv)|done]. Qed.

(** A queued slot whose request is wanted goes in flight. *)
Lemma inv_begun i lq lf lc R free l B w r r' s c' :
  proto_inv (i :: lq) lf lc R free l B w -> R !! i = Some r -> role_stage r = Some Queued ->
  role_stage r' = Some InFlight -> role_phase r' = role_phase r ->
  chan_slot (we_channel w) i = Some s ->
  chan_repr k c' free l -> chan_slot c' i = Some (set_state s FGA_CHANNEL_SLOT_PROCESSING) ->
  (forall j, j <> i -> chan_slot c' j = chan_slot (we_channel w) j) ->
  slot_ok (we_procs w) r' (set_state s FGA_CHANNEL_SLOT_PROCESSING) ->
  proto_inv lq (lf ++ [i]) lc (<[i := r']> R) free l B (with_channel w c').
Proof.
  intros Hinv Hi Hst Hr' Hph Hs Hc' Hs' Ho Hok.
  destruct (inv_slot _ _ _ _ _ _ _ _ i r Hinv Hi) as (s0 & Hs0 & _ & Hsv & _).
  rewrite Hs in Hs0. injection Hs0 as <-.
  assert (Hif : i ∉ free) by (eapply role_not_free; [done..|by intros ->]).
  eapply (inv_update (i :: lq) lf lc R free l B w); try done.
  - intros _. cbn. apply Hsv. by intros ->.
  - split; [done|by intros ->].
  - apply Hinv.
  - eapply moved_dequeued; [exact Hinv|by rewrite Hr'].
  - eapply moved_perm; [eapply (moved_add R); [apply Hinv|apply Hinv|done|by rewrite Hst|done]|].
    cbn. rewrite <- !app_assoc. apply Permutation_app_head, Permutation_app_comm.
  - eapply (moved_keep R); [apply Hinv|apply Hinv|done|by rewrite Hst, Hr'].
  - intros pid ph. rewrite Hph. by eapply inv_holders.
Qed.

(** What [beginProcessing] does to the system: the slot goes in flight, or back
    to the pool when its backend has given up. *)
(** The backend of the request has not given it up. *)
Definition wanted (w : worker_env L) (i : nat) : bool :=
  negb (bool_decide (slot_state <$> chan_slot (we_channel w) i = Some FGA_CHANNEL_SLOT_CANCELED)).
Definition wanted_slots (w : worker_env L) (slots : list nat) : list nat :=
  List.filter (wanted w) slots.

Lemma wanted_slots_ext (w w' : worker_env L) slots :
  (forall i, i ∈ slots -> chan_slot (we_channel w') i = chan_slot (we_channel w) i) ->
  wanted_slots w' slots = wanted_slots w slots.
Proof.
  intros Hs. apply filter_ext_in. intros i Hi. unfold wanted. by rewrite Hs by by apply list_elem_of_In.
Qed.

Lemma begin_spec i lq lf lc R free l B w :
  proto_inv (i :: lq) lf lc R free l B w ->
  exists ok w' R' free', beginProcessing i w = (Done ok, w') /\
    proto_inv lq (if ok then lf ++ [i] else lf) lc R' free' l B w' /\
    (forall j, j <> i -> chan_slot (we_channel w') j = chan_slot (we_channel w) j) /\
    we_log w' = we_log w /\ we_calls w' = we_calls w /\ ok = wanted w i.
Proof.
  intros Hinv. assert (Hq : staged R Queued i) by (apply Hinv; by left).
  destruct Hq as (r & Hi & Hst).
  destruct (inv_slot _ _ _ _ _ _ _ _ i r Hinv Hi) as (s & Hs & Hok & Hsv & Hlt).
  assert (Hif : i ∉ free) by (eapply role_not_free; [done..|by intros ->]).
  unfold beginProcessing, mbind, cm_bind. rewrite (slot_of_spec w i s Hs).
  pose proof (pi_chan _ _ _ _ _ _ _ _ Hinv) as Hc.
  destruct (write_state_spec w free l i s FGA_CHANNEL_SLOT_PROCESSING Hc Hs Hif)
    as (c' & Hw & Hc' & Hs' & Ho).
  destruct r as [|?|pid st|?|?|st|pid st]; try done; injection Hst as ->; cbn in Hok.
  - rewrite decide_True, Hw by apply Hok.
    exists true, (with_channel w c'), (<[i := Awaited pid InFlight]> R), free.
    split; [done|]. split; [|split_and!; try done; unfold wanted; rewrite Hs; cbn; by rewrite (proj1 Hok)]. eapply inv_begun; try done. cbn. by destruct Hok as (_ & ? & ?).
  - rewrite decide_False by (by rewrite Hok). rewrite decide_True by done.
    destruct (chan_release_spec k _ i free l s Hc Hs Hif) as (c1 & Hrel & Hc1 & Hs1 & Ho1).
    exists false, (with_channel w c1), (<[i := Free]> R), (i :: free).
    rewrite (on_shared_eq _ _ _ _ Hrel). split; [done|].
    split; [|split_and!; try done; unfold wanted; rewrite Hs; cbn; by rewrite Hok].
    eapply (inv_update (i :: lq) lf lc R free l B w); try done.
    + split; [done|by left].
    + intros j Hj. rewrite elem_of_cons. naive_solver.
    + apply Hinv.
    + by eapply moved_dequeued.
    + eapply (moved_keep R); [apply Hinv|apply Hinv|done|done].
    + eapply (moved_keep R); [apply Hinv|apply Hinv|done|done].
    + intros pid ph. rewrite (inv_holders _ _ _ _ _ _ _ _ _ _ Hinv Hi pid ph). done.
  - rewrite decide_True, Hw by apply Hok.
    exists true, (with_channel w c'), (<[i := Orphaned pid InFlight]> R), free.
    split; [done|]. split; [|split_and!; try done; unfold wanted; rewrite Hs; cbn; by rewrite (proj1 Hok)]. eapply inv_begun; try done. cbn. by destruct Hok as (_ & ? & ?).
Qed.

(** The items of a batch: the begun slots with the payloads they hold. *)
Definition items_of (w : worker_env L) (items : list (nat * FgaPayload)) : Prop :=
  forall it, it ∈ items -> exists s, chan_slot (we_channel w) it.1 = Some s /\ it.2 = payload s.

Lemma begin_all_spec slots lf lc R free l B w :
  proto_inv slots lf lc R free l B w ->
  exists items w' R' free', begin_all slots w = (Done items, w') /\
    proto_inv [] (lf ++ items.*1) lc R' free' l B w' /\ items_of w' items /\
    (forall j, j ∉ slots -> chan_slot (we_channel w') j = chan_slot (we_channel w) j) /\
    we_log w' = we_log w /\ we_calls w' = we_calls w /\ items.*1 = wanted_slots w slots.
Proof.
  revert lf R free w. induction slots as [|i slots IH]; intros lf R free w Hinv; cbn [begin_all].
  - exists [], w, R, free. cbn. rewrite app_nil_r. split_and!; try done.
    by intros it Hit%elem_of_nil.
  - assert (Hni : i ∉ slots).
    { pose proof (pi_queue _ _ _ _ _ _ _ _ Hinv) as Hn. cbn in Hn.
      apply NoDup_cons in Hn as [Hn _]. intros Hin. apply Hn, elem_of_app. by left. }
    destruct (begin_spec i slots lf lc R free l B w Hinv)
      as (ok & w1 & R1 & free1 & Hb & Hinv1 & Ho1 & Hl1 & Hca1 & Hw1).
    unfold mbind, cm_bind. rewrite Hb.
    destruct (IH _ _ _ _ Hinv1) as (items & w2 & R2 & free2 & Ha & Hinv2 & Hit & Ho2 & Hl2 & Hca2 & Hw2).
    rewrite (wanted_slots_ext w w1) in Hw2 by (intros j Hj; apply Ho1; by intros ->).
    unfold mbind, cm_bind in Ha. rewrite Ha. unfold wanted_slots in *. cbn [List.filter]. rewrite <- Hw1. destruct ok.
    + assert (Hi2 : staged R2 InFlight i).
      { apply (pi_inflight _ _ _ _ _ _ _ _ Hinv2). rewrite !elem_of_app, list_elem_of_singleton. tauto. }
      destruct Hi2 as (r & Hr & _).
      destruct (inv_slot _ _ _ _ _ _ _ _ i r Hinv2 Hr) as (s & Hs & _).
      rewrite (slot_of_spec w2 i s Hs). exists ((i, payload s) :: items), w2, R2, free2.
      split; [done|]. split; [|split; [|split]].
      * cbn [fmap list_fmap fst]. by rewrite <- app_assoc in Hinv2.
      * intros it [->|Hin]%elem_of_cons; [by exists s|by apply Hit].
      * intros j [Hj Hj']%not_elem_of_cons. by rewrite Ho2, Ho1.
      * split; [by rewrite Hl2|]. split; [by rewrite Hca2|]. cbn. by rewrite Hw2.
    + exists items, w2, R2, free2. split_and!; try done; [|by rewrite Hl2|by rewrite Hca2].
      intros j [Hj Hj']%not_elem_of_cons. by rewrite Ho2, Ho1.
Qed.
End Invariant.

(** ** The calls of a turn cover the begun slots *)
Definition covers (calls : list rpc_call) (slots : list nat) : Prop :=
  concat (callback_slots ∘ call_callback <$> calls) ≡ₚ slots.

Lemma covers_app c1 c2 s1 s2 : covers c1 s1 -> covers c2 s2 -> covers (c1 ++ c2) (s1 ++ s2).
Proof. unfold covers. intros H1 H2. by rewrite fmap_app, concat_app, H1, H2. Qed.

Lemma process_covers config now i p :
  served_type (req_type (request p)) = true -> covers (process config now i p) [i].
Proof.
  intros Hs. destruct (process_served config now i p Hs) as (c & -> & Hc & _).
  unfold covers. cbn. by rewrite Hc.
Qed.

Lemma others_cover config now (items : list (nat * FgaPayload)) :
  (forall it, it ∈ items -> served_type (req_type (request it.2)) = true) ->
  covers (concat ((fun it => process config now it.1 it.2) <$> items)) items.*1.
Proof.
  induction items as [|it items IH]; intros Hs; [by unfold covers|]. cbn.
  apply (covers_app _ _ [it.1]); [apply process_covers, Hs; by left|].
  apply IH. intros it' Hit. apply Hs. by right.
Qed.

Lemma process_batch_covers config now items :
  (forall it, it ∈ items -> served_type (req_type (request it.2)) = true) ->
  exists calls, process_batch config now items = Done calls /\ covers calls items.*1.
Proof.
  intros Hs. destruct items as [|a [|b items]].
  - exists []. by unfold covers.
  - eexists. split; [reflexivity|]. apply process_covers, Hs. by left.
  - set (all := a :: b :: items) in *.
    set (P := fun it : nat * FgaPayload => is_check (make_request_variant it.2)).
    assert (Hperm : (filter (fun it => ~ P it) all).*1 ++ (filter P all).*1 ≡ₚ all.*1).
    { rewrite <- fmap_app. apply fmap_Permutation. rewrite Permutation_app_comm.
      by rewrite filter_app_complement. }
    assert (Ho : covers (concat ((fun it => process config now it.1 it.2) <$> filter (fun it => ~ P it) all))
        (filter (fun it => ~ P it) all).*1).
    { apply others_cover. intros it [_ Hit]%list_elem_of_filter. by apply Hs. }
    destruct (filter P all) as [|first checks] eqn:Hf.
    + assert (Hb : process_batch config now all =
        let '(checks, calls) := split_batch config now all in
        match checks with
        | [] => Done calls
        | _ => batch ← handle_check_batch config now checks; Done (calls ++ batch)
        end) by done.
      rewrite Hb, split_batch_spec. unfold P in *. rewrite Hf.
      eexists. split; [reflexivity|]. unfold covers in *. rewrite Ho, <- Hperm. by rewrite app_nil_r.
    + rewrite (process_batch_spec config now all first checks); [|cbn; lia|done].
      eexists. split; [reflexivity|]. unfold covers. rewrite <- Hperm.
      apply covers_app; [done|]. unfold covers. cbn. by rewrite app_nil_r.
Qed.

Section WorkerSteps.
Context {L : Type} {HS : SList L} {HL : SListLaws L}.
Variable k : Z.
Variable config : Config.
Abbreviation proto_inv := (proto_inv k) (only parsing).
Abbreviation sys_inv := (sys_inv (L := L) k) (only parsing).

Lemma wake_found (w : worker_env L) i s b :
  chan_slot (we_channel w) i = Some s -> we_procs w !! backend_pid s = Some b ->
  exists w', wakeBackend i w = (Done tt, w') /\ we_channel w' = we_channel w /\
    completed_queue w' = completed_queue w /\ we_calls w' = we_calls w /\ we_log w' = we_log w /\
    (forall pid, is_Some (we_procs w' !! pid) <-> is_Some (we_procs w !! pid)).
Proof.
  intros Hs Hb. unfold wakeBackend, mbind, cm_bind, cm_get, cm_lift, fga_channel_wake_backend.
  unfold chan_slot in Hs. rewrite Hs, Hb. cbn.
  eexists. split; [reflexivity|]. split_and!; try done. intros pid. cbn.
  destruct (decide (pid = backend_pid s)) as [->|Hne];
    [rewrite lookup_insert_eq, Hb|by rewrite lookup_insert_ne]. by split; eauto.
Qed.

Lemma wake_gone (w : worker_env L) i s :
  chan_slot (we_channel w) i = Some s -> we_procs w !! backend_pid s = None ->
  wakeBackend i w = on_shared (fga_channel_release_slot i) w.
Proof.
  intros Hs Hb. unfold wakeBackend, mbind, cm_bind, cm_get, cm_lift, fga_channel_wake_backend.
  unfold chan_slot in Hs. rewrite Hs, Hb. cbn. by destruct w.
Qed.

(** What handing back slots leaves alone. *)
Definition worker_only (w w' : worker_env L) : Prop :=
  completed_queue w' = completed_queue w /\ we_calls w' = we_calls w /\ we_log w' = we_log w.

(** A completed slot is handed back: its backend finds the answer, or the slot
    returns to the pool when nobody waits for it any more. *)
Lemma moved_undone i lq lf lc R free l B w r' :
  proto_inv lq lf (i :: lc) R free l B w -> role_stage r' <> Some Completed ->
  moved Completed i r' ((i :: lc) ++ completed_queue w) (lc ++ completed_queue w).
Proof. intros Hinv Hr'. apply moved_remove; [apply (pi_done _ _ _ _ _ _ _ _ _ Hinv)|done]. Qed.

(** A completed slot that nobody waits for goes back to the pool. *)
Lemma inv_returned i lq lf lc R free l B w r c' s' :
  proto_inv lq lf (i :: lc) R free l B w -> R !! i = Some r -> role_stage r = Some Completed ->
  role_phase r = None -> chan_repr k c' (i :: free) l -> chan_slot c' i = Some s' ->
  (forall j, j <> i -> chan_slot c' j = chan_slot (we_channel w) j) ->
  proto_inv lq lf lc (<[i := Free]> R) (i :: free) l B (with_channel w c').
Proof.
  intros Hinv Hi Hst Hph Hc' Hs' Ho.
  eapply (inv_update k lq lf (i :: lc) R free l B w); try done.
  - split; [done|by left].
  - intros j Hj. rewrite elem_of_cons. naive_solver.
  - apply Hinv.
  - eapply (moved_keep R); [apply Hinv|apply Hinv|done|by rewrite Hst].
  - eapply (moved_keep R); [apply Hinv|apply Hinv|done|by rewrite Hst].
  - by apply (moved_undone i lq lf lc R free l B w Free Hinv).
  - intros pid ph. rewrite (inv_holders k _ _ _ _ _ _ _ _ _ _ Hinv Hi pid ph), Hph. done.
Qed.

Lemma handle_spec i lq lf lc R free l B w :
  proto_inv lq lf (i :: lc) R free l B w ->
  exists w' R' free', handleResponse i w = (Done tt, w') /\
    proto_inv lq lf lc R' free' l B w' /\ worker_only w w'.
Proof.
  intros Hinv. assert (Hd : staged R Completed i) by (apply Hinv; by left).
  destruct Hd as (r & Hi & Hst).
  destruct (inv_slot k _ _ _ _ _ _ _ _ i r Hinv Hi) as (s & Hs & Hok & Hsv & Hlt).
  assert (Hif : i ∉ free) by (eapply (role_not_free k); [done..|by intros ->]).
  pose proof (pi_chan _ _ _ _ _ _ _ _ _ Hinv) as Hc.
  unfold handleResponse, mbind, cm_bind. rewrite (slot_of_spec w i s Hs).
  destruct (write_state_spec k w free l i s FGA_CHANNEL_SLOT_DONE Hc Hs Hif)
    as (c' & Hw & Hc' & Hs' & Ho).
  destruct r as [|?|pid st|?|?|st|pid st]; try done; injection Hst as ->; cbn in Hok.
  - destruct Hok as (Hsp & Hpid & b & Hb). rewrite decide_False by (by rewrite Hsp). rewrite Hw.
    destruct (wake_found (with_channel w c') i _ b Hs') as (w' & Hwk & Hch & Hco & Hca & Hlg & Hpr);
      [cbn; by rewrite Hpid|].
    exists w', (<[i := Ready pid]> R), free. split; [done|]. split; [|done].
    eapply (inv_update k lq lf (i :: lc) R free l B w); try done; rewrite ?Hch; try done.
    + intros j rj sj Hj HRj. by apply slot_ok_procs.
    + cbn. rewrite Hpr. split; [done|by exists b].
    + intros _. cbn. by apply Hsv.
    + apply Hinv.
    + eapply (moved_keep R); [apply Hinv|apply Hinv|done|done].
    + unfold inflight. rewrite Hca. eapply (moved_keep R); [apply Hinv|apply Hinv|done|done].
    + rewrite Hco. by apply (moved_undone i lq lf lc R free l B w (Ready pid) Hinv).
    + intros pid' ph. by rewrite (inv_holders k _ _ _ _ _ _ _ _ _ _ Hinv Hi pid' ph).
  - rewrite decide_True by done.
    destruct (chan_release_spec k _ i free l s Hc Hs Hif) as (c1 & Hrel & Hc1 & Hs1 & Ho1).
    rewrite (on_shared_eq _ _ _ _ Hrel). eexists _, _, (i :: free). split; [reflexivity|].
    split; [|done]. by eapply inv_returned.
  - destruct Hok as (Hsp & Hpid & Hp). rewrite decide_False by (by rewrite Hsp). rewrite Hw.
    rewrite (wake_gone (with_channel w c') i _ Hs') by (cbn; by rewrite Hpid).
    destruct (chan_release_spec k c' i free l _ Hc' Hs' Hif) as (c1 & Hrel & Hc1 & Hs1 & Ho1).
    rewrite (on_shared_eq (fga_channel_release_slot i) (with_channel w c') _ _ Hrel).
    eexists _, _, (i :: free). split; [reflexivity|]. split; [|done].
    change (with_channel (with_channel w c') c1) with (with_channel w c1).
    eapply inv_returned; try done. intros j Hj. by rewrite Ho1, Ho.
Qed.

Lemma handle_all_spec slots lq lf lc R free l B w :
  proto_inv lq lf (slots ++ lc) R free l B w ->
  exists w' R' free', handle_all slots w = (Done tt, w') /\
    proto_inv lq lf lc R' free' l B w' /\ worker_only w w'.
Proof.
  revert R free w. induction slots as [|i slots IH]; intros R free w Hinv; cbn [handle_all].
  - by exists w, R, free.
  - destruct (handle_spec i lq lf (slots ++ lc) R free l B w Hinv)
      as (w1 & R1 & free1 & Hh & Hinv1 & Hc1 & Ha1 & Hl1).
    unfold mbind, cm_bind. rewrite Hh.
    destruct (IH _ _ _ Hinv1) as (w2 & R2 & free2 & Ha & Hinv2 & Hc2 & Ha2 & Hl2).
    exists w2, R2, free2. split; [done|]. split; [done|].
    by split; [rewrite Hc2|split; [rewrite Ha2|rewrite Hl2]].
Qed.

Lemma drain_completed_spec R free l B w :
  proto_inv [] [] [] R free l B w ->
  exists w' R' free', drainCompleted w = (Done tt, w') /\
    proto_inv [] [] [] R' free' l B w' /\
    completed_queue w' = [] /\ we_calls w' = we_calls w /\ we_log w' = we_log w.
Proof.
  intros Hinv. unfold drainCompleted, mbind, cm_bind, cm_get.
  destruct (completed_queue w) as [|i local] eqn:Hcq; [by exists w, R, free|].
  unfold set_completed, cm_modify. set (w1 := MkWorkerEnv _ _ _ _ _ _).
  destruct (handle_all_spec (i :: local) [] [] [] R free l B w1) as (w' & R' & free' & Hh & Hinv' & Hc & Ha & Hl).
  { destruct Hinv. split; try done; cbn [completed_queue w1]; rewrite !app_nil_r, <- Hcq; done. }
  by exists w', R', free'.
Qed.

(** Taking slots from the queue. *)
Lemma drain_spec R free l B w n :
  proto_inv [] [] [] R free l B w -> 0 <= n <= FGA_CHANNEL_DRAIN_MAX ->
  exists w', on_shared (fga_channel_drain_slots n) w = (Done (take (Z.to_nat n) l), w') /\
    proto_inv (Z.to_nat <$> take (Z.to_nat n) l) [] [] R free (drop (Z.to_nat n) l) B w' /\
    we_log w' = we_log w /\ we_calls w' = we_calls w /\ completed_queue w' = completed_queue w /\
    forall i, chan_slot (we_channel w') i = chan_slot (we_channel w) i.
Proof.
  intros Hinv Hn.
  destruct (chan_drain_spec k _ free l n (pi_chan _ _ _ _ _ _ _ _ _ Hinv) Hn) as (c' & Hd & Hc' & Ho).
  exists (with_channel w c'). split; [by apply on_shared_eq|]. split; [|by split_and!].
  assert (Hl : (Z.to_nat <$> take (Z.to_nat n) l) ++ (Z.to_nat <$> drop (Z.to_nat n) l)
    = Z.to_nat <$> l) by (by rewrite <- fmap_app, take_drop).
  destruct Hinv. split; try done; rewrite ?Hl; try done.
  - intros i. rewrite <- lookup_lt_is_Some. specialize (Ho i). unfold chan_slot in Ho.
    cbn. by rewrite Ho, lookup_lt_is_Some.
  - intros v Hv. apply pi_nonneg0. rewrite <- (take_drop (Z.to_nat n) l), elem_of_app. by right.
  - intros i r s HRi. cbn. rewrite Ho. by apply pi_slot0.
  - intros i s HRi Hf. cbn. rewrite Ho. by apply pi_served0.
Qed.

Definition with_calls (w : worker_env L) (calls : list rpc_call) : worker_env L :=
  MkWorkerEnv (we_channel w) (we_procs w) (we_latch w) (completed_queue w) (we_calls w ++ calls)
    (we_log w).

Lemma inv_submit lq lf lc R free l B w calls :
  proto_inv lq lf lc R free l B w -> covers calls lf ->
  proto_inv lq [] lc R free l B (with_calls w calls).
Proof.
  intros Hinv Hc. eapply (inv_flight_perm k); [exact Hinv|done..|].
  unfold inflight, with_calls. cbn. rewrite fmap_app, concat_app.
  rewrite (Permutation_app_comm lf). apply Permutation_app_head. by rewrite Hc.
Qed.

Lemma item_served R free l B w lf lc it s :
  proto_inv [] lf lc R free l B w -> it.1 ∈ lf -> chan_slot (we_channel w) it.1 = Some s ->
  it.2 = payload s -> served_type (req_type (request it.2)) = true.
Proof.
  intros Hinv Hit Hs ->.
  assert (Hf : staged R InFlight it.1) by (apply Hinv, elem_of_app; by left).
  destruct Hf as (r & Hr & Hst).
  apply (pi_served _ _ _ _ _ _ _ _ _ Hinv it.1); [eauto| |done].
  rewrite Hr. intros [= ->]. done.
Qed.

(** What a turn does with the slots it drained. *)
Definition take_on (now : Z) (slots : list nat) : CM (worker_env L) unit :=
  match slots with
  | [] => mret tt
  | [i] => ok ← beginProcessing i;
           if (ok : bool) then s ← slot_of i; submit (process config now i (payload s)) else mret tt
  | slots => items ← begin_all slots;
             match items with
             | [] => mret tt
             | _ => calls ← cm_lift (process_batch config now items); submit calls
             end
  end.

Lemma execute_take_on now w : execute config now w =
  (slots ← on_shared (fga_channel_drain_slots MAX_BATCH);
   _ ← take_on now (Z.to_nat <$> slots); drainCompleted) w.
Proof.
  unfold execute, take_on, mbind, cm_bind. destruct (on_shared _ w) as [[slots|?|?] w1]; [|done..].
  by destruct (Z.to_nat <$> slots) as [|i [|j l]].
Qed.

(** New calls are made for the requests that are still wanted. *)
Definition calls_wanted (slots : list nat) (w w' : worker_env L) : Prop :=
  exists calls, we_calls w' = we_calls w ++ calls /\ covers calls (wanted_slots w slots) /\
    (wanted_slots w slots = [] -> calls = []).

Lemma no_calls_wanted slots (w w' : worker_env L) :
  we_calls w' = we_calls w -> wanted_slots w slots = [] -> calls_wanted slots w w'.
Proof. intros Hca Hn. exists []. rewrite app_nil_r, Hn. split; [done|]. by split; [apply Permutation_refl|]. Qed.

Lemma take_one_spec now i R free l B w :
  proto_inv [i] [] [] R free l B w ->
  exists w' R' free', take_on now [i] w = (Done tt, w') /\
    proto_inv [] [] [] R' free' l B w' /\ we_log w' = we_log w /\ calls_wanted [i] w w'.
Proof.
  intros Hinv. destruct (begin_spec k i [] [] [] R free _ B w Hinv)
    as (ok & w2 & R2 & free2 & Hb & Hinv2 & _ & Hl2 & Hca2 & Hw2).
  assert (Hws : wanted_slots w [i] = if ok then [i] else []) by (rewrite Hw2; cbn; by destruct (wanted w i)).
  unfold take_on, mbind, cm_bind. rewrite Hb. destruct ok;
    [|exists w2, R2, free2; split_and!; try done; by apply no_calls_wanted].
  assert (Hf : staged R2 InFlight i) by (apply Hinv2, elem_of_app; left; by left).
  destruct Hf as (r & Hr & _). destruct (inv_slot k _ _ _ _ _ _ _ _ i r Hinv2 Hr) as (s & Hs & _).
  rewrite (slot_of_spec w2 i s Hs). exists (with_calls w2 (process config now i (payload s))), R2, free2.
  assert (Hcov : covers (process config now i (payload s)) [i]).
  { apply process_covers. eapply (item_served _ _ _ _ _ _ _ (i, payload s)); [exact Hinv2|by left|done..]. }
  split; [done|]. split; [by eapply inv_submit|]. split; [done|].
  eexists. split; [cbn; by rewrite Hca2|]. by rewrite Hws.
Qed.

Lemma take_many_spec now i j slots R free l B w :
  proto_inv (i :: j :: slots) [] [] R free l B w ->
  exists w' R' free', take_on now (i :: j :: slots) w = (Done tt, w') /\
    proto_inv [] [] [] R' free' l B w' /\ we_log w' = we_log w /\ calls_wanted (i :: j :: slots) w w'.
Proof.
  intros Hinv. destruct (begin_all_spec k _ [] [] R free _ B w Hinv)
    as (items & w2 & R2 & free2 & Hb & Hinv2 & Hit & _ & Hl2 & Hca2 & Hw2).
  unfold take_on, mbind, cm_bind. rewrite Hb. cbn [app] in Hinv2.
  assert (Hsv : forall it, it ∈ items -> served_type (req_type (request it.2)) = true).
  { intros it Hin. destruct (Hit it Hin) as (s & Hs & Hp).
    eapply item_served; [exact Hinv2|by apply list_elem_of_fmap_2|exact Hs|exact Hp]. }
  destruct (process_batch_covers config now items Hsv) as (calls & Hp & Hcov).
  destruct items as [|it items]; [exists w2, R2, free2; split_and!; try done; by apply no_calls_wanted|].
  unfold cm_lift. rewrite Hp. exists (with_calls w2 calls), R2, free2.
  split; [done|]. split; [by eapply inv_submit|]. split; [done|].
  exists calls. split; [cbn; by rewrite Hca2|]. by rewrite <- Hw2.
Qed.

(** The turn of the worker: after it the invariant holds again. *)
Lemma sys_execute_spec now R free l B w :
  proto_inv [] [] [] R free l B w ->
  exists w' R' free', execute config now w = (Done tt, w') /\
    proto_inv [] [] [] R' free' (drop 50 l) B w' /\
    completed_queue w' = [] /\ we_log w' = we_log w /\ calls_wanted (Z.to_nat <$> take 50 l) w w'.
Proof.
  intros Hinv. destruct (drain_spec R free l B w MAX_BATCH Hinv ltac:(done))
    as (w1 & Hd & Hinv1 & Hl1 & Ha1 & _ & Hs1).
  change (Z.to_nat MAX_BATCH) with 50%nat in *.
  assert (Hmid : exists w2 R2 free2, take_on now (Z.to_nat <$> take 50 l) w1 = (Done tt, w2) /\
    proto_inv [] [] [] R2 free2 (drop 50 l) B w2 /\ we_log w2 = we_log w1 /\
    calls_wanted (Z.to_nat <$> take 50 l) w1 w2).
  { destruct (Z.to_nat <$> take 50 l) as [|i [|j slots]];
      [|by eapply take_one_spec|by eapply take_many_spec].
    exists w1, R, free. split_and!; try done. by apply no_calls_wanted. }
  destruct Hmid as (w2 & R2 & free2 & Hm & Hinv2 & Hl2 & calls & Ha2 & Hcov & Hnil).
  destruct (drain_completed_spec _ _ _ _ _ Hinv2) as (w3 & R3 & free3 & Hc & Hinv3 & Hc3 & Ha3 & Hl3).
  rewrite (wanted_slots_ext w w1) in Hcov, Hnil by (intros; apply Hs1).
  rewrite execute_take_on. unfold mbind at 1, cm_bind at 1. rewrite Hd.
  unfold mbind, cm_bind. rewrite Hm, Hc. exists w3, R3, free3.
  split_and!; try done; [by rewrite Hl3, Hl2, Hl1|]. exists calls. by rewrite Ha3, Ha2, Ha1.
Qed.

Lemma worker_step now σ :
  sys_inv σ -> exists σ', sys_step config (LWorker now) σ = Done σ' /\ sys_inv σ'.
Proof.
  intros (R & free & l & Hinv).
  destruct (sys_execute_spec now R free l _ _ Hinv) as (w' & R' & free' & He & Hinv' & _).
  unfold sys_step. rewrite He. eexists. split; [reflexivity|]. by exists R', free', (drop 50 l).
Qed.
End WorkerSteps.

(** ** The completion callbacks write responses and nothing else *)
Section Replies.
Context {L : Type} {HS : SList L}.

Definition slot_same (o o' : option FgaChannelSlot) : Prop :=
  match o, o' with
  | Some s, Some s' =>
      slot_state s' = slot_state s /\ backend_pid s' = backend_pid s /\
      request (payload s') = request (payload s)
  | None, None => True
  | _, _ => False
  end.

Record reply_frame (w0 w : worker_env L) : Prop := {
  rf_pool_lock : pool_lock (we_channel w) = pool_lock (we_channel w0);
  rf_queue_lock : queue_lock (we_channel w) = queue_lock (we_channel w0);
  rf_queue : ch_queue (we_channel w) = ch_queue (we_channel w0);
  rf_head : pool_head (ch_pool (we_channel w)) = pool_head (ch_pool (we_channel w0));
  rf_procs : we_procs w = we_procs w0;
  rf_calls : we_calls w = we_calls w0;
  rf_slots i : slot_same (chan_slot (we_channel w0) i) (chan_slot (we_channel w) i);
  rf_id : ch_request_id (we_channel w) = ch_request_id (we_channel w0);
}.

Lemma slot_same_refl o : slot_same o o.
Proof. by destruct o. Qed.

Lemma reply_frame_refl w : reply_frame w w.
Proof. split; try done. intros i. apply slot_same_refl. Qed.

Definition payloads (w : worker_env L) : gmap nat FgaPayload :=
  map_seq 0 (payload <$> pool_slots (ch_pool (we_channel w))).

Lemma payloads_lookup w i p :
  payloads w !! i = Some p <-> exists s, chan_slot (we_channel w) i = Some s /\ payload s = p.
Proof.
  unfold payloads. rewrite lookup_map_seq_0, list_lookup_fmap. unfold chan_slot.
  destruct (pool_slots _ !! i) as [s|]; cbn; naive_solver.
Qed.

Definition worker_laws (w0 : worker_env L) : CompletionLaws (worker_env L).
Proof.
  refine (Build_CompletionLaws _ _ (reply_frame w0) payloads completed_queue _ _ _).
  - intros i w p _ (s & Hs & <-)%payloads_lookup. cbn. unfold mbind, cm_bind.
    by rewrite (slot_of_spec w i s Hs).
  - intros i f w p Hw (s & Hs & <-)%payloads_lookup. cbn. unfold write_slot.
    set (g := fun s => set_payload s _).
    assert (Hu : on_pool (update_slot i g) (we_channel w) = (Done tt,
      MkChannel (pool_lock (we_channel w)) (queue_lock (we_channel w)) (ch_request_id (we_channel w))
        (MkPool (pool_head (ch_pool (we_channel w))) (<[i := g s]> (pool_slots (ch_pool (we_channel w)))))
        (ch_queue (we_channel w)))).
    { unfold on_pool. by rewrite (update_slot_spec _ i g s Hs). }
    rewrite (on_shared_eq _ _ _ _ Hu). eexists. split; [reflexivity|]. split; [|split; [|done]].
    + destruct Hw as [H1 H2 H3 H4 H5 H6 H7 H8]. split; try done.
      intros j. specialize (H7 j). unfold chan_slot in *. cbn.
      destruct (decide (j = i)) as [->|Hne]; [|by rewrite list_lookup_insert_ne].
      rewrite Hs in H7. rewrite list_lookup_insert_eq by by eapply lookup_lt_Some.
      by destruct (pool_slots (ch_pool (we_channel w0)) !! i).
    + apply map_eq. intros j. unfold payloads. cbn.
      rewrite lookup_map_seq_0, list_lookup_fmap.
      destruct (decide (j = i)) as [->|Hne].
      * rewrite list_lookup_insert_eq by by eapply lookup_lt_Some. by rewrite lookup_insert_eq.
      * rewrite list_lookup_insert_ne, lookup_insert_ne by done.
        by rewrite lookup_map_seq_0, list_lookup_fmap.
  - intros i w Hw Hs. eexists. split; [reflexivity|]. split; [|done].
    destruct Hw as [H1 H2 H3 H4 H5 H6 H7 H8]. by split.
Defined.
End Replies.

Section ReplyStep.
Context {L : Type} {HS : SList L} {HL : SListLaws L}.
Variable k : Z.
Variable config : Config.
Abbreviation proto_inv := (proto_inv k) (only parsing).
Abbreviation sys_inv := (sys_inv (L := L) k) (only parsing).

(** A slot in flight becomes a completed one; the state word stays. *)
Lemma inv_complete i lq lf lc R free l B w :
  proto_inv lq (i :: lf) lc R free l B w ->
  exists R', proto_inv lq lf (lc ++ [i]) R' free l B w.
Proof.
  intros Hinv. assert (Hd : staged R InFlight i) by (apply Hinv; by left).
  destruct Hd as (r & Hi & Hst).
  destruct (inv_slot k _ _ _ _ _ _ _ _ i r Hinv Hi) as (s & Hs & Hok & Hsv & Hlt).
  assert (Hif : i ∉ free) by (eapply (role_not_free k); [done..|by intros ->]).
  assert (Hh : holders i r B) by by eapply (inv_holders k).
  assert (Hgen : forall r', role_stage r' = Some Completed -> role_phase r' = role_phase r ->
    slot_ok (we_procs w) r' s -> proto_inv lq lf (lc ++ [i]) (<[i := r']> R) free l B w).
  { intros r' Hr' Hph Hok'. eapply (inv_update k lq (i :: lf) lc R free l B w); try done.
    - apply Hinv.
    - intros _. apply Hsv. by intros ->.
    - split; [done|by intros ->].
    - apply Hinv.
    - eapply (moved_keep R); [apply Hinv|apply Hinv|done|by rewrite Hst, Hr'].
    - apply moved_remove; [apply (pi_flight _ _ _ _ _ _ _ _ _ Hinv)|by rewrite Hr'].
    - eapply moved_perm; [eapply (moved_add R); [apply Hinv|apply Hinv|done|by rewrite Hst|done]|].
      rewrite <- !app_assoc. apply Permutation_app_head, Permutation_app_comm.
    - intros pid ph. rewrite Hph. apply Hh. }
  destruct r as [|?|pid st|?|?|st|pid st]; try done; injection Hst as ->; cbn in Hok.
  - exists (<[i := Awaited pid Completed]> R). by apply Hgen.
  - exists (<[i := Abandoned Completed]> R). by apply Hgen.
  - exists (<[i := Orphaned pid Completed]> R). by apply Hgen.
Qed.

Lemma inv_complete_all slots lq lf lc R free l B w :
  proto_inv lq (slots ++ lf) lc R free l B w ->
  exists R', proto_inv lq lf (lc ++ slots) R' free l B w.
Proof.
  revert lc R. induction slots as [|i slots IH]; intros lc R Hinv.
  - exists R. by rewrite app_nil_r.
  - destruct (inv_complete i _ _ _ _ _ _ _ _ Hinv) as (R1 & Hinv1).
    destruct (IH _ _ Hinv1) as (R2 & Hinv2). exists R2. by rewrite <- app_assoc in Hinv2.
Qed.

Lemma frame_length (w w' : worker_env L) :
  reply_frame w w' -> length (pool_slots (ch_pool (we_channel w')))
      = length (pool_slots (ch_pool (we_channel w))).
Proof.
  intros Hf. apply Nat.le_antisymm; apply Nat.nlt_ge; intros [s Hs]%lookup_lt_is_Some_2;
    pose proof (lookup_lt_Some _ _ _ Hs); pose proof (rf_slots _ _ Hf) as H7;
    [specialize (H7 (length (pool_slots (ch_pool (we_channel w)))))
    |specialize (H7 (length (pool_slots (ch_pool (we_channel w')))))];
    unfold chan_slot in H7; rewrite Hs in H7;
    by rewrite (proj2 (lookup_ge_None _ _)) in H7 by lia.
Qed.

Lemma frame_chan_repr (w w' : worker_env L) free l :
  reply_frame w w' -> chan_repr k (we_channel w) free l -> chan_repr k (we_channel w') free l.
Proof.
  intros Hf [Hpl Hql Hp Hq Hix]. pose proof (frame_length _ _ Hf) as Hll.
  destruct Hf as [H1 H2 H3 H4 _ _ H7 _]. split; [by rewrite H1|by rewrite H2| |by rewrite H3|by rewrite Hll].
  destruct Hp as [Hr Hnd Hlt He]. split; [by rewrite H4|done| |].
  - intros i Hi. rewrite Hll. by apply Hlt.
  - intros i s Hi Hs. specialize (H7 i). unfold chan_slot in H7. rewrite Hs in H7.
    destruct (pool_slots (ch_pool (we_channel w)) !! i) as [s0|] eqn:Hs0; [|done].
    destruct H7 as [-> _]. by eapply He.
Qed.

Lemma inv_frame lq lf lc R free l B w w' :
  proto_inv lq lf lc R free l B w -> reply_frame w w' ->
  completed_queue w' = completed_queue w ++ lc -> proto_inv lq lf [] R free l B w'.
Proof.
  intros [Hc ? ? ? ? ? ? ? Hn Hcm Hsl Hsv ?] Hf Hd.
  pose proof (frame_length _ _ Hf) as Hll. pose proof (frame_chan_repr _ _ _ _ Hf Hc) as Hc'.
  destruct Hf as [H1 H2 H3 H4 H5 H6 H7 H8].
  split; rewrite ?H5, ?Hd; unfold inflight; rewrite ?H6; try done.
  - intros i. by rewrite Hll.
  - cbn. by rewrite Permutation_app_comm.
  - intros i. cbn. rewrite elem_of_app, <- Hcm, elem_of_app. tauto.
  - intros i r s HRi Hs. specialize (H7 i). rewrite Hs in H7.
    destruct (chan_slot (we_channel w) i) as [s0|] eqn:Hs0; [|done].
    destruct H7 as (Ha & Hb & _). specialize (Hsl i r s0 HRi Hs0).
    destruct r; cbn in *; rewrite ?Ha, ?Hb; done.
  - intros i s HRi Hf Hs. specialize (H7 i). rewrite Hs in H7.
    destruct (chan_slot (we_channel w) i) as [s0|] eqn:Hs0; [|done].
    destruct H7 as (_ & _ & ->). by eapply Hsv.
Qed.

Lemma deliver_spec n st resp R free l B (w : worker_env L) call :
  proto_inv [] [] [] R free l B w -> we_calls w !! n = Some call ->
  reply_matches (call_callback call) resp = true ->
  exists w' R', deliver n st resp w = (Done tt, w') /\ proto_inv [] [] [] R' free l B w' /\
    we_calls w' = delete n (we_calls w) /\
    completed_queue w' = completed_queue w ++ callback_slots (call_callback call) /\
    reply_frame w (MkWorkerEnv (we_channel w') (we_procs w') (we_latch w') (completed_queue w')
      (we_calls w) (we_log w')) /\
    forall j, payloads w' !! j =
      if bool_decide (j ∈ callback_slots (call_callback call))
      then (fun p => MkPayload (request p) (reply_update (call_callback call) st resp p))
             <$> payloads w !! j
      else payloads w !! j.
Proof.
  intros Hinv Hn Hm. set (slots := callback_slots (call_callback call)).
  unfold deliver, mbind, cm_bind, cm_get, cm_modify. rewrite Hn.
  set (w1 := MkWorkerEnv _ _ _ _ _ _).
  assert (Hinv1 : proto_inv [] (slots ++ []) [] R free l B w1).
  { eapply (inv_flight_perm k); [exact Hinv|done..|]. unfold inflight, w1. cbn.
    rewrite app_nil_r. fold slots. rewrite (delete_Permutation _ _ _ Hn) at 1. cbn. done. }
  assert (Hsl : forall i, i ∈ slots -> exists s, chan_slot (we_channel w1) i = Some s).
  { intros i Hi. assert (Hf : staged R InFlight i).
    { apply (pi_inflight _ _ _ _ _ _ _ _ _ Hinv1). rewrite !elem_of_app. tauto. }
    destruct Hf as (r & Hr & _).
    destruct (inv_slot k _ _ _ _ _ _ _ _ i r Hinv1 Hr) as (s & Hs & _). by exists s. }
  destruct (on_reply_spec (HL := worker_laws w1) (call_callback call) st resp w1)
    as (w2 & Hr & Hfr & Hcq & Hview).
  - apply reply_frame_refl.
  - done.
  - pose proof (pi_flight _ _ _ _ _ _ _ _ _ Hinv1) as Hnd.
    apply NoDup_app in Hnd as (Hnd & _ & _). rewrite app_nil_r in Hnd. done.
  - intros i Hi. destruct (Hsl i Hi) as (s & Hs). exists (payload s).
    apply payloads_lookup. by exists s.
  - destruct (inv_complete_all _ _ _ _ _ _ _ _ _ Hinv1) as (R2 & Hinv2).
    exists w2, R2. split; [exact Hr|]. split; [|split; [|split; [|split]]].
    + eapply inv_frame; [exact Hinv2|exact Hfr|exact Hcq].
    + exact (rf_calls _ _ Hfr).
    + exact Hcq.
    + destruct Hfr as [H1 H2 H3 H4 H5 H6 H7 H8]. by split.
    + exact Hview.
Qed.

Lemma reply_step n st resp σ :
  sys_inv σ -> exists σ', sys_step config (LReply n st resp) σ = Done σ' /\ sys_inv σ'.
Proof.
  intros (R & free & l & Hinv). unfold sys_step.
  destruct (we_calls (sys_worker σ) !! n) as [call|] eqn:Hn;
    [|exists σ; split; [done|]; by exists R, free, l].
  destruct (reply_matches (call_callback call) resp) eqn:Hm;
    [|exists σ; split; [done|]; by exists R, free, l].
  destruct (deliver_spec n st resp _ _ _ _ _ call Hinv Hn Hm) as (w' & R' & Hd & Hinv' & _).
  rewrite Hd. eexists. split; [reflexivity|]. by exists R', free, l.
Qed.

(** Every step of every process keeps the roles consistent. *)
Lemma sys_step_inv lab σ :
  sys_inv σ -> exists σ', sys_step config lab σ = Done σ' /\ sys_inv σ'.
Proof.
  destruct lab.
  - apply acquire_step.
  - apply enqueue_step.
  - apply poll_step.
  - apply interrupt_step.
  - apply release_step.
  - apply exit_step.
  - apply worker_step.
  - apply reply_step.
Qed.

Lemma sys_run_inv labs σ :
  sys_inv σ -> exists σ', sys_run config labs σ = Done σ' /\ sys_inv σ'.
Proof.
  revert σ. induction labs as [|lab labs IH]; intros σ Hi; [by exists σ|]. cbn [sys_run].
  destruct (sys_step_inv lab σ Hi) as (σ1 & -> & Hi1). by apply IH.
Qed.
End ReplyStep.

(** ** Serving the waiting backends *)
Section Service.
Context {L : Type} {HS : SList L}.
Variable config : Config.
Variable answers : rpc_call -> GrpcStatus * rpc_response.

(** Replies to the first [n] pending calls. *)
Fixpoint reply_all (n : nat) (σ : system L) : outcome (system L) :=
  match n with
  | O => Done σ
  | S n' =>
      match we_calls (sys_worker σ) with
      | [] => Done σ
      | call :: _ =>
          σ' ← sys_step config (LReply 0 (answers call).1 (answers call).2) σ;
          reply_all n' σ'
      end
  end.

(** One turn of the worker, then the replies to everything it asked. *)
Definition serve_round (now : Z) (σ : system L) : outcome (system L) :=
  σ' ← sys_step config (LWorker now) σ;
  reply_all (length (we_calls (sys_worker σ'))) σ'.

Fixpoint serve (rounds : nat) (now : Z) (σ : system L) : outcome (system L) :=
  match rounds with
  | O => sys_step config (LWorker now) σ
  | S n => σ' ← serve_round now σ; serve n now σ'
  end.
End Service.

(** The slots some process other than a backend has to return. *)
Definition pipeline {L} (l : list Z) (w : worker_env L) : list nat :=
  (Z.to_nat <$> l) ++ inflight w ++ completed_queue w.

Section ProtocolTheorems.
Context {L : Type} {HS : SList L} {HL : SListLaws L}.
Variable k : Z.
Variable config : Config.
Abbreviation proto_inv := (proto_inv k) (only parsing).
Abbreviation sys_inv := (sys_inv (L := L) k) (only parsing).

(** The system after startup: a channel whose slots are all free (what
    [channel_initialised] establishes), no calls, no backends with a slot. *)
Definition initial_system (σ : system L) : Prop :=
  exists free, chan_repr k (we_channel (sys_worker σ)) free [] /\
    (forall i, i ∈ free <-> (i < length (pool_slots (ch_pool (we_channel (sys_worker σ)))))%nat) /\
    we_calls (sys_worker σ) = [] /\ completed_queue (sys_worker σ) = [] /\
    sys_backends σ = ∅.

Lemma initial_inv σ : initial_system σ -> sys_inv σ.
Proof.
  intros (free & Hc & Hf & Hca & Hco & HB). exists (gset_to_gmap Free (list_to_set free)), free, [].
  assert (HR : forall i r, (gset_to_gmap Free (list_to_set free : gset nat)) !! i = Some r <->
    i ∈ free /\ r = Free).
  { intros i r. rewrite lookup_gset_to_gmap_Some, elem_of_list_to_set. naive_solver. }
  assert (Hst : forall st i, ~ staged (gset_to_gmap Free (list_to_set free)) st i).
  { intros st i (r & [_ ->]%HR & Hr). done. }
  split; unfold inflight; rewrite ?Hca, ?Hco, ?HB; cbn; try done; try apply NoDup_nil_2;
    try (intros i; split; [by intros ?%elem_of_nil|by intros ?%Hst]).
  - intros i. rewrite <- Hf. unfold is_Some. setoid_rewrite HR. naive_solver.
  - intros i. rewrite HR. naive_solver.
  - by intros v Hv%elem_of_nil.
  - intros i r s [_ ->]%HR Hs. done.
  - intros i s [r [Hi ->]%HR] Hne. destruct Hne. by apply HR.
  - intros pid ph i. rewrite lookup_empty. split; [done|].
    intros (r & [_ ->]%HR & Hr). done.
Qed.

Lemma inv_pipeline_nodup R free l B w :
  proto_inv [] [] [] R free l B w -> NoDup (pipeline l w).
Proof.
  intros Hinv. destruct Hinv as [_ _ _ _ Hq Hqi Hf Hfi Hd Hdi _ _ _]. cbn in *.
  unfold pipeline. apply NoDup_app. split; [done|]. split.
  - intros i Hi Hin. apply Hqi in Hi as (r & Hr & Hst).
    apply elem_of_app in Hin as [(r' & Hr' & Hst')%Hfi|(r' & Hr' & Hst')%Hdi]; congruence.
  - apply NoDup_app. split; [done|]. split; [|done].
    intros i (r & Hr & Hst)%Hfi (r' & Hr' & Hst')%Hdi. congruence.
Qed.

Lemma inv_pipeline R free l B w i :
  proto_inv [] [] [] R free l B w ->
  i ∈ pipeline l w <-> exists r st, R !! i = Some r /\ role_stage r = Some st.
Proof.
  intros [_ _ _ _ _ Hqi _ Hfi _ Hdi _ _ _]. cbn in *. unfold pipeline.
  rewrite !elem_of_app, Hqi, Hfi, Hdi. unfold staged. split.
  - intros [(r & ? & ?)|[(r & ? & ?)|(r & ? & ?)]]; eauto.
  - intros (r & [] & ? & ?); eauto.
Qed.


Section Served.
Variable answers : rpc_call -> GrpcStatus * rpc_response.
Hypothesis Hanswers : forall call, reply_matches (call_callback call) (answers call).2 = true.

Lemma reply_all_spec n R free l σ :
  proto_inv [] [] [] R free l (sys_backends σ) (sys_worker σ) ->
  length (we_calls (sys_worker σ)) = n ->
  exists σ' R', reply_all config answers n σ = Done σ' /\
    proto_inv [] [] [] R' free l (sys_backends σ') (sys_worker σ') /\
    sys_backends σ' = sys_backends σ /\ we_calls (sys_worker σ') = [].
Proof.
  revert R σ. induction n as [|n IH]; intros R σ Hinv Hn; cbn [reply_all].
  - exists σ, R. apply length_zero_iff_nil in Hn. by rewrite Hn.
  - destruct (we_calls (sys_worker σ)) as [|call calls] eqn:Hca; [done|].
    assert (H0 : we_calls (sys_worker σ) !! 0%nat = Some call) by by rewrite Hca.
    destruct (deliver_spec k 0 (answers call).1 (answers call).2 _ _ _ _ _ call Hinv H0 (Hanswers call))
      as (w' & R' & Hd & Hinv' & Hca' & _).
    cbn [sys_step]. rewrite H0, Hanswers, Hd. cbn [mbind outcome_bind].
    destruct (IH R' (MkSystem w' (sys_backends σ))) as (σ' & R'' & Hr & Hi' & HB & Hc').
    + exact Hinv'.
    + cbn. rewrite Hca', Hca. cbn in *. lia.
    + exists σ', R''. by split_and!.
Qed.

Lemma serve_spec n now R free l σ :
  proto_inv [] [] [] R free l (sys_backends σ) (sys_worker σ) ->
  (length l <= 50 * n)%nat -> n <> 0%nat \/ we_calls (sys_worker σ) = [] ->
  exists σ' R' free', serve config answers n now σ = Done σ' /\
    proto_inv [] [] [] R' free' [] (sys_backends σ') (sys_worker σ') /\
    sys_backends σ' = sys_backends σ /\ pipeline [] (sys_worker σ') = [].
Proof.
  revert R free l σ. induction n as [|n IH]; intros R free l σ Hinv Hl Hn; cbn [serve].
  - assert (l = []) as -> by (apply length_zero_iff_nil; lia). destruct Hn as [Hn|Hca]; [done|].
    destruct (sys_execute_spec k config now R free [] _ _ Hinv) as (w' & R' & free' & He & Hinv' & Hcq & _ & calls & Hca' & _ & Hnil).
    rewrite Hnil, app_nil_r in Hca' by done.
    cbn [sys_step]. rewrite He. eexists _, R', free'. split; [reflexivity|]. split; [exact Hinv'|].
    split; [done|]. unfold pipeline, inflight. cbn. by rewrite Hcq, Hca', Hca.
  - destruct (sys_execute_spec k config now R free l _ _ Hinv) as (w' & R' & free' & He & Hinv' & _).
    unfold serve_round. cbn [sys_step]. rewrite He. cbn [mbind outcome_bind sys_worker].
    destruct (reply_all_spec _ R' free' (drop 50 l) (MkSystem w' (sys_backends σ)) Hinv' eq_refl)
      as (σ1 & R1 & Hr & Hinv1 & HB1 & Hca1).
    cbn [sys_worker] in Hr. rewrite Hr. cbn [mbind outcome_bind].
    destruct (IH R1 free' (drop 50 l) σ1 Hinv1) as (σ' & R2 & free2 & Hs & Hinv2 & HB2 & Hp).
    + rewrite length_drop. lia.
    + by right.
    + exists σ', R2, free2. rewrite HB2, HB1. split_and!; try done. by rewrite HB2, HB1 in Hinv2.
Qed.
End Served.

(** From any consistent state, enough rounds answer every waiting backend. *)
Lemma serve_answers answers n now σ :
  (forall call, reply_matches (call_callback call) (answers call).2 = true) -> sys_inv σ ->
  queue_size (ch_queue (we_channel (sys_worker σ))) <= 50 * Z.of_nat (S n) ->
  exists σ', serve config answers (S n) now σ = Done σ' /\
    sys_backends σ' = sys_backends σ /\ pipeline [] (sys_worker σ') = [] /\
    queue_is_empty (ch_queue (we_channel (sys_worker σ'))) = true /\
    forall pid i, sys_backends σ !! pid = Some (Waiting, i) ->
      exists s, chan_slot (we_channel (sys_worker σ')) i = Some s /\
        slot_state s = FGA_CHANNEL_SLOT_DONE.
Proof.
  intros Hans (R & free & l & Hinv) Hq.
  rewrite (repr_queue_size (cr_queue _ _ _ _ (pi_chan _ _ _ _ _ _ _ _ _ Hinv))) in Hq.
  destruct (serve_spec answers Hans (S n) now R free l σ Hinv) as (σ' & R' & free' & Hs & Hinv' & HB & Hp);
    [lia|by left|].
  exists σ'. split; [done|]. split; [done|]. split; [done|]. split.
  - rewrite (repr_is_empty (cr_queue _ _ _ _ (pi_chan _ _ _ _ _ _ _ _ _ Hinv'))). done.
  - intros pid i HBi. rewrite <- HB in HBi.
    destruct (backend_role k _ _ _ _ _ _ _ _ _ _ _ Hinv' HBi) as (r & Hr & Hph).
    destruct (inv_slot k _ _ _ _ _ _ _ _ i r Hinv' Hr) as (s & Hsl & Hok & _).
    exists s. split; [done|]. destruct r as [|?|pid0 st|?|?|?|?]; try done; cbn in Hok; [|apply Hok].
    assert (Hin : i ∈ pipeline [] (sys_worker σ')).
    { rewrite (inv_pipeline _ _ _ _ _ i Hinv'). eexists _, _. by split. }
    rewrite Hp in Hin. by apply elem_of_nil in Hin.
Qed.

(** No waiting backend starves.  From every state the processes can reach,
    with a server that answers each call (successfully or not), one worker turn
    and the replies per fifty queued requests, and a last turn, empty the
    pipeline; no backend has been taken its slot, and every waiting backend
    finds its request done. *)
Theorem waiting_backends_are_served answers labs σ0 σ n now :
  initial_system σ0 ->
  (forall call, reply_matches (call_callback call) (answers call).2 = true) ->
  sys_run config labs σ0 = Done σ ->
  queue_size (ch_queue (we_channel (sys_worker σ))) <= 50 * Z.of_nat (S n) ->
  exists σ', serve config answers (S n) now σ = Done σ' /\
    sys_backends σ' = sys_backends σ /\ pipeline [] (sys_worker σ') = [] /\
    queue_is_empty (ch_queue (we_channel (sys_worker σ'))) = true /\
    forall pid i, sys_backends σ !! pid = Some (Waiting, i) ->
      exists s, chan_slot (we_channel (sys_worker σ')) i = Some s /\
        slot_state s = FGA_CHANNEL_SLOT_DONE.
Proof.
  intros H0 Hans Hrun Hq. apply serve_answers; [done| |done].
  destruct (sys_run_inv k config labs σ0 (initial_inv σ0 H0)) as (σ1 & Hrun1 & Hi).
  rewrite Hrun in Hrun1. by injection Hrun1 as <-.
Qed.
End ProtocolTheorems.

(** ** A system of two backends over two slots *)
Definition sample_system : system linked :=
  MkSystem (MkWorkerEnv sample_channel {[11 := false; 12 := false]} false [] [] []) ∅.

Lemma sample_initial : initial_system 2 sample_system.
Proof.
  exists [0%nat; 1%nat]. split; [exact sample_channel_repr|]. split; [|done].
  intros i. cbn. rewrite !elem_of_cons, elem_of_nil. lia.
Qed.

Definition check_label (pid : Z) : label :=
  LAcquire pid (request_type_code FGA_REQUEST_CHECK) (str "s1") [] (ReqCheckTuple zero_tuple).

(** A server that allows every check. *)
Definition yes_server (call : rpc_call) : GrpcStatus * rpc_response :=
  (MkStatus true [],
   match call_callback call with
   | OnCheck _ => CheckResponse true
   | OnBatchCheck _ => BatchCheckResponse ∅
   | OnWrite _ | OnDelete _ => WriteResponse
   | OnCreateStore _ => CreateStoreResponse [] []
   | OnDeleteStore _ => DeleteStoreResponse
   end).

Definition sample_labels : list label :=
  [check_label 11; LEnqueue 11; check_label 12; LEnqueue 12; LInterrupt 12].


Lemma waiting_backends_are_served_witness :
  exists σ σ', sys_run client_config_sample sample_labels sample_system = Done σ /\
    serve client_config_sample yes_server 1 0 σ = Done σ' /\ pipeline [] (sys_worker σ') = [].
Proof.
  destruct (sys_run_inv 2 client_config_sample sample_labels sample_system
    (initial_inv 2 sample_system sample_initial)) as (σ & Hrun & _).
  destruct (waiting_backends_are_served 2 client_config_sample yes_server sample_labels
    sample_system σ 0 0 sample_initial) as (σ' & Hs & _ & Hp & _).
  - intros [rq d cb]. unfold yes_server. destruct cb; reflexivity.
  - exact Hrun.
  - vm_compute in Hrun. injection Hrun as <-. vm_compute. discriminate.
  - exists σ, σ'. split; [exact Hrun|]. split; [exact Hs|exact Hp].
Defined.
