(* ===== verification/Frames.v ===== *)
(** * What the operations on the channel leave alone

    Between its acquisition by a backend and its next one, a slot's request and
    response change only where a completion callback writes a response
    ([src/client/]).  Every other operation of [src/channel.c] and
    [src/bgw/processor.cpp] is calm: it keeps all payloads and the counter of
    request ids, and only the hand-back of a completed slot reports an answer.
    The relation composes, so the whole turn of the worker is calm as well. *)
From S2P Require Import Prelude Platform Types SlotQueue SlotPool Channel Config Client Processor.
From S2P Require Import Protocol.

(** ** Calm operations on the channel *)
Section Calm.
Context {L : Type} {HS : SList L}.

Definition slot_done (c : FgaChannel L) (i : nat) : Prop :=
  slot_state <$> chan_slot c i = Some FGA_CHANNEL_SLOT_DONE.

(** Only slots in [D] can become DONE. *)
Record calm (D : nat -> Prop) (c c' : FgaChannel L) : Prop := {
  cm_payload i : payload <$> chan_slot c' i = payload <$> chan_slot c i;
  cm_id : ch_request_id c' = ch_request_id c;
  cm_done i : slot_done c' i -> D i \/ slot_done c i;
}.

#[export] Instance calm_preorder D : PreOrder (calm D).
Proof.
  split.
  - intros c. split; auto.
  - intros a b c [H1 H2 H3] [H4 H5 H6]. split.
    + intros i. by rewrite H4.
    + by rewrite H5.
    + intros i [Hi|Hi]%H6; auto.
Qed.

Lemma calm_mono (D D' : nat -> Prop) c c' : (forall i, D i -> D' i) -> calm D c c' -> calm D' c c'.
Proof. intros HD [H1 H2 H3]. split; auto. intros i [Hi|Hi]%H3; auto. Qed.

(** A write to a slot that keeps its payload. *)
Definition slot_calm (D : nat -> Prop) (i : nat) (f : FgaChannelSlot -> FgaChannelSlot) : Prop :=
  forall s, payload (f s) = payload s /\
    (slot_state (f s) = FGA_CHANNEL_SLOT_DONE -> D i \/ slot_state s = FGA_CHANNEL_SLOT_DONE).

Lemma update_calm D i f : slot_calm D i f -> keeps (calm D) (on_pool (L := L) (update_slot i f)).
Proof.
  intros Hf c. unfold on_pool, update_slot. destruct (pool_slots (ch_pool c) !! i) as [s|] eqn:Hs;
    [|by destruct c]. cbn.
  destruct (Hf s) as [Hp Hd]. split; [|done|]; intros j; unfold slot_done, chan_slot; cbn;
    destruct (decide (j = i)) as [->|Hne]; try (rewrite list_lookup_insert_ne by done; first [done|by right]);
    rewrite (list_lookup_insert_eq _ _ _ (lookup_lt_Some _ _ _ Hs)), Hs; cbn.
  - by rewrite Hp.
  - intros [= Hj]. destruct (Hd Hj) as [|Hj']; [by left|right; by rewrite Hj'].
Qed.

Lemma read_calm D i : keeps (calm D) (on_pool (L := L) (read_slot i)).
Proof.
  intros c. unfold on_pool, read_slot. by destruct (pool_slots (ch_pool c) !! i), c.
Qed.

Lemma push_calm D i : keeps (calm D) (on_pool (L := L) (push_node i)).
Proof. intros c. split; auto. Qed.

Lemma queue_calm {A} D (m : CM FgaChannelSlotQueue A) : keeps (calm D) (on_queue (L := L) m).
Proof. intros c. unfold on_queue. destruct (m (ch_queue c)). split; auto. Qed.

Lemma lock_pool_calm D : keeps (calm D) (lock_pool (L := L)).
Proof. intros c. unfold lock_pool. destruct (pool_lock c); split; auto. Qed.
Lemma unlock_pool_calm D : keeps (calm D) (unlock_pool (L := L)).
Proof. intros c. split; auto. Qed.
Lemma lock_queue_calm D : keeps (calm D) (lock_queue (L := L)).
Proof. intros c. unfold lock_queue. destruct (queue_lock c); split; auto. Qed.
Lemma unlock_queue_calm D : keeps (calm D) (unlock_queue (L := L)).
Proof. intros c. split; auto. Qed.

Lemma set_state_calm (D : nat -> Prop) i st :
  (st = FGA_CHANNEL_SLOT_DONE -> D i) -> slot_calm D i (fun s => set_state s st).
Proof. intros Hst s. split; [done|]. cbn. auto. Qed.

Lemma set_pid_calm D i pid : slot_calm D i (fun s => set_pid s pid).
Proof. intros s. split; [done|]. cbn. auto. Qed.

Lemma release_slot_calm D i : keeps (calm D) (on_pool (L := L) (release_slot i)).
Proof.
  intros c. pose proof (update_calm D i (fun s => set_state s FGA_CHANNEL_SLOT_EMPTY)
    (set_state_calm D i FGA_CHANNEL_SLOT_EMPTY ltac:(done)) c) as Hu.
  unfold on_pool, release_slot, mbind, cm_bind in *.
  destruct (update_slot i _ (ch_pool c)) as [[[]|e|u] p]; cbn in *; [|done..].
  destruct Hu as [H1 H2 H3]. by split.
Qed.

#[local] Hint Resolve update_calm read_calm push_calm queue_calm lock_pool_calm unlock_pool_calm
  lock_queue_calm unlock_queue_calm set_pid_calm release_slot_calm : keeps.

Lemma fga_release_calm D i : keeps (calm D) (fga_channel_release_slot (L := L) i).
Proof. unfold fga_channel_release_slot. eauto 8 with keeps typeclass_instances. Qed.

Lemma fga_drain_calm D n : keeps (calm D) (fga_channel_drain_slots (L := L) n).
Proof. unfold fga_channel_drain_slots. eauto 8 with keeps typeclass_instances. Qed.

Lemma enqueue_slot_calm D i : keeps (calm D) (enqueue_slot (L := L) i).
Proof.
  unfold enqueue_slot. apply keeps_bind; [apply _|auto with keeps|intros _].
  apply keeps_bind; [apply _|auto with keeps|intros []]; cbn;
    eauto 8 using fga_release_calm with keeps typeclass_instances.
Qed.

Lemma wait_catch_calm D i : keeps (calm D) (wait_catch (L := L) i).
Proof.
  unfold wait_catch, wait_catch_pid. apply keeps_bind; [apply _|auto with keeps|intros s].
  apply keeps_bind; [apply _| |auto with keeps].
  unfold wait_catch_act. destruct (slot_state s); auto using fga_release_calm with keeps typeclass_instances;
    apply update_calm, set_state_calm; done.
Qed.
(** ** Operations that leave the queue alone *)
Definition same_queue (c c' : FgaChannel L) : Prop := ch_queue c' = ch_queue c.

#[export] Instance same_queue_preorder : PreOrder same_queue.
Proof. split; [by intros c|intros a b c H1 H2; unfold same_queue in *; congruence]. Qed.

Lemma on_pool_same_queue {A} (m : CM (FgaChannelSlotPool L) A) : keeps same_queue (on_pool m).
Proof. intros c. unfold on_pool. by destruct (m (ch_pool c)). Qed.

Lemma lock_pool_same_queue : keeps same_queue (lock_pool (L := L)).
Proof. intros c. unfold lock_pool. by destruct (pool_lock c). Qed.

Lemma release_same_queue i : keeps same_queue (fga_channel_release_slot (L := L) i).
Proof.
  unfold fga_channel_release_slot. apply keeps_bind; [apply _|apply lock_pool_same_queue|intros _].
  apply keeps_bind; [apply _|apply on_pool_same_queue|intros _]. by intros c.
Qed.

Lemma wait_catch_same_queue i : keeps same_queue (wait_catch (L := L) i).
Proof.
  unfold wait_catch, wait_catch_pid. apply keeps_bind; [apply _|apply on_pool_same_queue|intros s].
  apply keeps_bind; [apply _| |intros; apply on_pool_same_queue].
  unfold wait_catch_act. destruct (slot_state s);
    auto using on_pool_same_queue, release_same_queue, keeps_ret with typeclass_instances.
Qed.
End Calm.

(** ** The worker *)
Section WorkerFrames.
Context {L : Type} {HS : SList L}.
Variable config : Config.
Variable now : Z.

(** Calm on the channel, and neither a call nor a completed request comes or goes. *)
Record worker_calm (D : nat -> Prop) (w w' : worker_env L) : Prop := {
  wc_channel : calm D (we_channel w) (we_channel w');
  wc_calls : we_calls w' = we_calls w;
  wc_completed : completed_queue w' = completed_queue w;
}.

#[export] Instance worker_calm_preorder D : PreOrder (worker_calm D).
Proof.
  split.
  - intros w. split; reflexivity.
  - intros a b c [H1 H2 H3] [H4 H5 H6]. split; [by etransitivity|by rewrite H5|by rewrite H6].
Qed.

Lemma worker_calm_mono (D D' : nat -> Prop) w w' :
  (forall i, D i -> D' i) -> worker_calm D w w' -> worker_calm D' w w'.
Proof. intros HD [H1 H2 H3]. split; [by eapply calm_mono|done|done]. Qed.

Lemma on_shared_calm {A} D (m : CM (FgaChannel L) A) :
  keeps (calm D) m -> keeps (worker_calm D) (on_shared m).
Proof. intros Hm w. specialize (Hm (we_channel w)). unfold on_shared. by destruct (m (we_channel w)). Qed.

Lemma warning_calm D msg : keeps (worker_calm D) (warning msg).
Proof. intros w. by split. Qed.

#[local] Hint Resolve on_shared_calm warning_calm read_calm fga_release_calm fga_drain_calm : keeps.

Lemma slot_of_calm D i : keeps (worker_calm D) (slot_of i).
Proof. unfold slot_of. auto with keeps. Qed.

Lemma write_slot_calm D i f : slot_calm D i f -> keeps (worker_calm D) (write_slot i f).
Proof. intros Hf. apply on_shared_calm. by apply update_calm. Qed.

#[local] Hint Resolve slot_of_calm : keeps.

Lemma begin_calm D i : keeps (worker_calm D) (beginProcessing i).
Proof.
  unfold beginProcessing. apply keeps_bind; [apply _|auto with keeps|intros s].
  case_decide; apply keeps_bind; try apply _; try (intros; apply keeps_ret, _).
  - by apply write_slot_calm, set_state_calm.
  - case_decide; auto with keeps.
Qed.

Lemma wake_calm D i : keeps (worker_calm D) (wakeBackend i).
Proof.
  unfold wakeBackend. apply keeps_bind; [apply _|apply keeps_get, _|intros w].
  apply keeps_bind; [apply _|apply keeps_lift, _|intros [woken procs]].
  apply keeps_bind; [apply _|by intros v; split|intros _].
  destruct (negb _); auto with keeps typeclass_instances.
Qed.

Lemma handle_calm i : keeps (worker_calm (fun j => j = i)) (handleResponse i).
Proof.
  unfold handleResponse. apply keeps_bind; [apply _|auto with keeps|intros s].
  case_decide; [auto with keeps|]. apply keeps_bind; [apply _| |intros _; apply wake_calm].
  by apply write_slot_calm, set_state_calm.
Qed.

Lemma handle_all_calm slots : keeps (worker_calm (fun j => j ∈ slots)) (handle_all slots).
Proof.
  induction slots as [|i slots IH]; cbn [handle_all]; [apply keeps_ret, _|].
  apply keeps_bind; [apply _| |intros _].
  - intros w. eapply worker_calm_mono; [|apply handle_calm]. intros j ->. by left.
  - intros w. eapply worker_calm_mono; [|apply IH]. intros j Hj. by right.
Qed.

(** Completed requests are handed back; the rest is calm. *)
Lemma drain_completed_frame w w' :
  drainCompleted w = (Done tt, w') ->
  calm (fun i => i ∈ completed_queue w) (we_channel w) (we_channel w') /\
  we_calls w' = we_calls w /\ completed_queue w' = [].
Proof.
  unfold drainCompleted, mbind, cm_bind, cm_get.
  destruct (completed_queue w) as [|i local] eqn:Hq; [by intros [= <-]|].
  unfold set_completed, cm_modify. intros Hh.
  pose proof (keeps_done _ _ _ _ _ (handle_all_calm (i :: local)) Hh) as [H1 H2 H3]. done.
Qed.

(** What a call of this turn asks: about queued slots, with the payloads they
    hold; a batch holds each slot once. *)
Inductive call_from (slots : list nat) (c : FgaChannel L) : rpc_call -> Prop :=
  | FromOne i s call : i ∈ slots -> chan_slot c i = Some s ->
      call ∈ process config now i (payload s) -> call_from slots c call
  | FromBatch items call : handle_check_batch config now items = Done [call] ->
      sublist items.*1 slots ->
      (forall it, it ∈ items -> is_check (make_request_variant it.2) = true /\
        payload <$> chan_slot c it.1 = Some it.2) -> call_from slots c call.

Lemma sublist_filter_fst {A} (P : nat * A -> Prop) `{forall x, Decision (P x)} items :
  sublist (filter P items).*1 items.*1.
Proof. apply fmap_sublist, sublist_filter. Qed.

Lemma process_batch_from slots c items calls call :
  process_batch config now items = Done calls -> call ∈ calls -> sublist items.*1 slots ->
  (forall it, it ∈ items -> payload <$> chan_slot c it.1 = Some it.2) ->
  call_from slots c call.
Proof.
  intros Hp Hc Hsub Hit.
  assert (Hone : forall it, it ∈ items -> call ∈ process config now it.1 it.2 -> call_from slots c call).
  { intros it Hin Hcall. specialize (Hit it Hin).
    destruct (chan_slot c it.1) as [s|] eqn:Hs; [|done]. injection Hit as Hpl. rewrite <- Hpl in Hcall.
    apply (FromOne _ _ it.1 s); [|done|done]. eapply elem_of_sublist; [|exact Hsub].
    by apply list_elem_of_fmap_2. }
  destruct items as [|a [|b items]]; [by injection Hp as <-; apply elem_of_nil in Hc| |].
  - injection Hp as <-. apply (Hone a); [by left|done].
  - set (all := a :: b :: items) in *.
    assert (Hb : process_batch config now all = let '(checks, calls) := split_batch config now all in
      match checks with
      | [] => Done calls
      | _ => batch ← handle_check_batch config now checks; Done (calls ++ batch)
      end) by done.
    rewrite Hb, split_batch_spec in Hp.
    assert (Hoth : call ∈ concat ((fun it => process config now it.1 it.2) <$>
        filter (fun it => ~ is_check (make_request_variant it.2)) all) -> call_from slots c call).
    { intros (l & Hl & Hcl)%list_elem_of_In%in_concat. apply list_elem_of_In in Hl, Hcl.
      apply list_elem_of_fmap in Hl as (it & -> & [_ Hin]%list_elem_of_filter). by apply (Hone it). }
    destruct (filter _ all) as [|first checks] eqn:Hf in Hp; [injection Hp as <-; by apply Hoth|].
    injection Hp as <-. apply elem_of_app in Hc as [Hc|Hc]; [by apply Hoth|].
    apply list_elem_of_singleton in Hc. apply (FromBatch _ _ (first :: checks)).
    + by rewrite Hc.
    + etransitivity; [|exact Hsub]. rewrite <- Hf. apply sublist_filter_fst.
    + intros it Hin. rewrite <- Hf in Hin. apply list_elem_of_filter in Hin as [Hch Hin].
      split; [by apply Is_true_true|by apply Hit].
Qed.
Lemma slot_of_done (w : worker_env L) i s w' :
  slot_of i w = (Done s, w') -> chan_slot (we_channel w) i = Some s.
Proof.
  unfold slot_of, on_shared, on_pool, read_slot, chan_slot.
  destruct (pool_slots (ch_pool (we_channel w)) !! i) as [s0|]; [by intros [= -> _]|done].
Qed.

Lemma calm_lookup D (c c' : FgaChannel L) i s :
  calm D c c' -> chan_slot c' i = Some s -> payload <$> chan_slot c i = Some (payload s).
Proof. intros [Hp _ _] Hs. by rewrite <- Hp, Hs. Qed.

Lemma begin_all_frame slots w items w' :
  begin_all slots w = (Done items, w') ->
  worker_calm (fun _ => False) w w' /\ sublist items.*1 slots /\
  (forall it, it ∈ items -> payload <$> chan_slot (we_channel w) it.1 = Some it.2).
Proof.
  revert w items w'. induction slots as [|i slots IH]; intros w items w'; cbn [begin_all].
  { intros [= <- <-]. split; [reflexivity|]. split; [constructor|]. by intros it Hit%elem_of_nil. }
  unfold mbind, cm_bind. destruct (beginProcessing i w) as [[ok|e|u] w1] eqn:Hb; try done.
  destruct (begin_all slots w1) as [[rest|e|u] w2] eqn:Ha; try done.
  destruct (IH _ _ _ Ha) as (Hc2 & Hsub & Hit).
  pose proof (keeps_done _ _ _ _ _ (begin_calm (fun _ => False) i) Hb) as Hc1.
  assert (Hrest : forall it, it ∈ rest -> payload <$> chan_slot (we_channel w) it.1 = Some it.2).
  { intros it Hin. rewrite <- (cm_payload _ _ _ (wc_channel _ _ _ Hc1)). by apply Hit. }
  destruct ok.
  - destruct (slot_of i w2) as [[s|e|u] w3] eqn:Hs; try done. intros [= <- <-].
    pose proof (keeps_done _ _ _ _ _ (slot_of_calm (fun _ => False) i) Hs) as Hc3.
    assert (Hc : worker_calm (fun _ => False) w w2) by by etransitivity.
    split; [by etransitivity|]. split; [by constructor|].
    intros it [->|Hin]%elem_of_cons; [|by apply Hrest].
    exact (calm_lookup _ _ _ i s (wc_channel _ _ _ Hc) (slot_of_done _ _ _ _ Hs)).
  - intros [= <- <-]. split; [by etransitivity|]. split; [by constructor|done].
Qed.

Lemma take_on_frame slots w w' :
  take_on config now slots w = (Done tt, w') ->
  calm (fun _ => False) (we_channel w) (we_channel w') /\
  completed_queue w' = completed_queue w /\
  exists new, we_calls w' = we_calls w ++ new /\
    forall call, call ∈ new -> call_from slots (we_channel w) call.
Proof.
  assert (Hnone : forall w1, worker_calm (fun _ => False) w w1 ->
    calm (fun _ => False) (we_channel w) (we_channel w1) /\ completed_queue w1 = completed_queue w /\
    exists new, we_calls w1 = we_calls w ++ new /\
      forall call, call ∈ new -> call_from slots (we_channel w) call).
  { intros w1 [H1 H2 H3]. split; [done|]. split; [done|]. exists []. rewrite app_nil_r.
    split; [done|]. by intros call Hc%elem_of_nil. }
  destruct slots as [|i [|j slots]]; unfold take_on, mbind, cm_bind.
  - intros [= <-]. by apply Hnone.
  - destruct (beginProcessing i w) as [[ok|e|u] w1] eqn:Hb; try done.
    pose proof (keeps_done _ _ _ _ _ (begin_calm (fun _ => False) i) Hb) as Hc1.
    destruct ok; [|intros [= <-]; by apply Hnone].
    destruct (slot_of i w1) as [[s|e|u] w2] eqn:Hs; try done.
    pose proof (keeps_done _ _ _ _ _ (slot_of_calm (fun _ => False) i) Hs) as Hc2.
    assert (Hc : worker_calm (fun _ => False) w w2) by by etransitivity. destruct Hc as [H1 H2 H3].
    intros [= <-]. cbn. split; [done|]. split; [done|]. eexists. split; [by rewrite H2|].
    pose proof (calm_lookup _ _ _ i s (wc_channel _ _ _ Hc1) (slot_of_done _ _ _ _ Hs)) as Hp.
    intros call Hcall. destruct (chan_slot (we_channel w) i) as [s0|] eqn:Hs0; [|done].
    injection Hp as Hp. rewrite <- Hp in Hcall. by apply (FromOne _ _ i s0); [left| |].
  - destruct (begin_all (i :: j :: slots) w) as [[items|e|u] w1] eqn:Ha; try done.
    destruct (begin_all_frame _ _ _ _ Ha) as (Hc & Hsub & Hit).
    destruct items as [|it items]; [intros [= <-]; by apply Hnone|].
    unfold cm_lift. destruct (process_batch config now (it :: items)) as [calls|e|u] eqn:Hp; try done.
    destruct Hc as [H1 H2 H3]. intros [= <-]. cbn. split; [done|]. split; [done|].
    exists calls. split; [by rewrite H2|]. intros call Hcall.
    by apply (process_batch_from _ _ (it :: items) calls).
Qed.

(** A whole turn, given the slots it drains. *)
Lemma execute_frame w w' l c0 :
  fga_channel_drain_slots MAX_BATCH (we_channel w) = (Done l, c0) ->
  execute config now w = (Done tt, w') ->
  calm (fun i => i ∈ completed_queue w) (we_channel w) (we_channel w') /\ completed_queue w' = [] /\
  exists new, we_calls w' = we_calls w ++ new /\
    forall call, call ∈ new -> call_from (Z.to_nat <$> l) (we_channel w) call.
Proof.
  intros Hd. rewrite execute_take_on. unfold mbind, cm_bind. rewrite (on_shared_eq _ _ _ _ Hd).
  pose proof (keeps_done _ _ _ _ _ (fga_drain_calm (fun _ => False) MAX_BATCH) Hd) as Hc0.
  destruct (take_on _ _ _ _) as [[[]|e|u] w1] eqn:Ht; try done. intros Hdr.
  destruct (take_on_frame _ _ _ Ht) as (Hc1 & Hq1 & new & Hn & Hfrom). cbn in Hc1, Hq1, Hn.
  destruct (drain_completed_frame _ _ Hdr) as (Hc2 & Ha2 & Hq2). rewrite Hq1 in Hc2.
  split; [|split; [done|]].
  - etransitivity; [|exact Hc2]. eapply calm_mono; [|etransitivity; [exact Hc0|exact Hc1]]. done.
  - exists new. split; [by rewrite Ha2|]. intros call Hcall. specialize (Hfrom call Hcall).
    destruct Hfrom as [i s call Hi Hs Hp|items call Hb Hsub Hit].
    + pose proof (calm_lookup _ _ _ _ _ Hc0 Hs) as Hpl.
      destruct (chan_slot (we_channel w) i) as [s0|] eqn:Hs0; [|done]. injection Hpl as Hpl.
      apply (FromOne _ _ i s0); [done..|by rewrite Hpl].
    + apply (FromBatch _ _ items); [done..|]. intros it Hin.
      rewrite <- (cm_payload _ _ _ Hc0). by apply Hit.
Qed.
End WorkerFrames.
