(* ===== verification/Service.v ===== *)
(** * A question-answer service, and what the processes of the system observe

    The abstract service: a process asks a question, at some later moment the
    server answers it, and the process takes the answer or leaves without it;
    the question of a process that has left may still be served, once.  The
    events of a run are the questions and the answers taken.  For the system of
    [Protocol] the same events are what its backends write into their slots and
    read from them. *)
From S2P Require Import Prelude Platform Types SlotQueue SlotPool Channel Config Client Processor.
From S2P Require Import Protocol.

(** ** The abstract service *)
Inductive session : Type :=
  | Asked (req : FgaRequest)
  | Answered (req : FgaRequest) (resp : FgaResponse).

Inductive event : Type :=
  | EvAsk (pid : Z) (req : FgaRequest)
  | EvTake (pid : Z) (req : FgaRequest) (resp : FgaResponse).

Section AbstractService.
Context {S : Type}.     (* the state of the server *)
Variable answers : S -> FgaRequest -> FgaResponse -> S -> Prop.

(** The sessions by process, the open requests of processes that have left, and
    the server. *)
Record service : Type := MkService {
  sv_sessions : gmap Z session;
  sv_late : list FgaRequest;
  sv_server : S;
}.

(** The request of a process that leaves may still be served, once. *)
Inductive service_step (v : service) : option event -> service -> Prop :=
  | ServiceAsk pid req : sv_sessions v !! pid = None ->
      service_step v (Some (EvAsk pid req))
        (MkService (<[pid := Asked req]> (sv_sessions v)) (sv_late v) (sv_server v))
  | ServiceAnswer pid req resp s' : sv_sessions v !! pid = Some (Asked req) ->
      answers (sv_server v) req resp s' ->
      service_step v None (MkService (<[pid := Answered req resp]> (sv_sessions v)) (sv_late v) s')
  | ServiceTake pid req resp : sv_sessions v !! pid = Some (Answered req resp) ->
      service_step v (Some (EvTake pid req resp))
        (MkService (delete pid (sv_sessions v)) (sv_late v) (sv_server v))
  | ServiceLeave pid :
      service_step v None (MkService (delete pid (sv_sessions v))
        (match sv_sessions v !! pid with
         | Some (Asked req) => req :: sv_late v
         | _ => sv_late v
         end) (sv_server v))
  | ServiceLate l1 req l2 resp s' : sv_late v = l1 ++ req :: l2 ->
      answers (sv_server v) req resp s' ->
      service_step v None (MkService (sv_sessions v) (l1 ++ l2) s').

(** Runs by the events they show. *)
Inductive service_run : service -> list event -> service -> Prop :=
  | RunNil v : service_run v [] v
  | RunSilent v v1 evs v' : service_step v None v1 -> service_run v1 evs v' -> service_run v evs v'
  | RunEvent v ev v1 evs v' : service_step v (Some ev) v1 -> service_run v1 evs v' ->
      service_run v (ev :: evs) v'.

Lemma service_run_app v evs1 v1 evs2 v2 :
  service_run v evs1 v1 -> service_run v1 evs2 v2 -> service_run v (evs1 ++ evs2) v2.
Proof. induction 1; cbn; [done| |]; intros; [eapply RunSilent|eapply RunEvent]; eauto. Qed.

Lemma service_run_app_inv v evs1 evs2 v2 :
  service_run v (evs1 ++ evs2) v2 -> exists v1, service_run v evs1 v1 /\ service_run v1 evs2 v2.
Proof.
  remember (evs1 ++ evs2) as evs eqn:Heq. intros Hr. revert evs1 Heq.
  induction Hr as [v|v v1 evs v' Hs Hr IH|v ev v1 evs v' Hs Hr IH]; intros evs1 Heq.
  - destruct evs1; [|done]. cbn in Heq. subst. exists v. split; constructor.
  - destruct (IH evs1 Heq) as (v2 & H1 & H2). exists v2. split; [by eapply RunSilent|done].
  - destruct evs1 as [|e evs1]; cbn in Heq.
    + subst. exists v. split; [constructor|by eapply RunEvent].
    + injection Heq as <- ->. destruct (IH evs1 eq_refl) as (v2 & H1 & H2). exists v2.
      split; [by eapply RunEvent|done].
Qed.

(** The moment of an event. *)
Lemma service_run_split v evs1 ev evs2 v2 : service_run v (evs1 ++ ev :: evs2) v2 ->
  exists u u', service_run v evs1 u /\ service_step u (Some ev) u' /\ service_run u' evs2 v2.
Proof.
  intros (w & H1 & H2)%service_run_app_inv. cut (exists u u', service_run w [] u /\
    service_step u (Some ev) u' /\ service_run u' evs2 v2).
  - intros (u & u' & Hu & Hs & Hr). exists u, u'. split; [|done].
    rewrite <- (app_nil_r evs1). by eapply service_run_app.
  - clear H1. remember (ev :: evs2) as evs eqn:Heq.
    induction H2 as [w|w w1 evs v' Hs Hr IH|w e w1 evs v' Hs Hr IH]; [done| |].
    + destruct (IH Heq) as (u & u' & Hu & Hrest). exists u, u'. split; [by eapply RunSilent|done].
    + injection Heq as -> ->. exists w, w1. split; [constructor|done].
Qed.

(** What every step that shows only events of a kind keeps. *)
Lemma service_run_keeps (I : service -> Prop) (ok : event -> Prop) v evs v' :
  (forall v o v', service_step v o v' -> (forall ev, o = Some ev -> ok ev) -> I v -> I v') ->
  service_run v evs v' -> (forall ev, ev ∈ evs -> ok ev) -> I v -> I v'.
Proof.
  intros Hstep Hr. induction Hr as [v|v v1 evs v' Hs Hr IH|v ev v1 evs v' Hs Hr IH]; intros Hok HI.
  - done.
  - apply IH; [done|]. by eapply Hstep.
  - apply IH; [intros e He; apply Hok; by right|]. eapply Hstep; [exact Hs| |done].
    intros e [= <-]. apply Hok. by left.
Qed.

(** A process takes the answer to the question it asked last. *)
Definition session_request (se : session) : FgaRequest :=
  match se with Asked req | Answered req _ => req end.

Lemma service_run_own v evs1 pid req evs2 req' resp evs3 v' :
  service_run v (evs1 ++ EvAsk pid req :: evs2 ++ EvTake pid req' resp :: evs3) v' ->
  (forall r, EvAsk pid r ∉ evs2) -> req' = req.
Proof.
  intros (u1 & v1 & _ & S1 & R)%service_run_split Hno.
  apply service_run_split in R as (u2 & v2 & R2 & S2 & _). inversion S1; inversion S2; subst.
  assert (Hown : forall se, sv_sessions u2 !! pid = Some se -> session_request se = req).
  { eapply (service_run_keeps (fun v => forall se, sv_sessions v !! pid = Some se -> session_request se = req)
      (fun ev => forall r, ev <> EvAsk pid r)); [|exact R2| |].
    - intros v0 o v1 Hs Hok HI se. destruct Hs as [p rq|p rq rs s' Ha|p rq rs|p|]; cbn;
        try (destruct (decide (pid = p)) as [->|Hne];
          [rewrite ?lookup_insert_eq, ?lookup_delete_eq|rewrite ?lookup_insert_ne, ?lookup_delete_ne by done]);
        try done; try apply HI.
      + by destruct (Hok _ eq_refl rq).
      + intros [= <-]. exact (HI _ Ha).
    - intros ev Hin r ->. by apply (Hno r).
    - intros se. cbn. rewrite lookup_insert_eq. by intros [= <-]. }
  by eapply (Hown (Answered _ _)).
Qed.

(** The answer a process takes was made between its question and the taking. *)
Definition answered_within (v : service) (pid : Z) (req : FgaRequest) (e2 : list event) (e3 : list event)
    (resp : FgaResponse) (v' : service) : Prop :=
  exists e2a e2b u u', e2 = e2a ++ e2b /\ service_run v e2a u /\ service_step u None u' /\
    answers (sv_server u) req resp (sv_server u') /\
    service_run u' (e2b ++ EvTake pid req resp :: e3) v'.

Lemma service_run_moment v evs v' e2 pid req' resp e3 :
  service_run v evs v' -> evs = e2 ++ EvTake pid req' resp :: e3 -> (forall r, EvAsk pid r ∉ e2) ->
  match sv_sessions v !! pid with
  | None => False
  | Some (Answered req r) => req' = req /\ resp = r
  | Some (Asked req) => req' = req /\ answered_within v pid req e2 e3 resp v'
  end.
Proof.
  intros Hr. revert e2. induction Hr as [v|v v1 evs v' Hs Hr IH|v ev v1 evs v' Hs Hr IH]; intros e2 Heq Hno.
  { by destruct e2. }
  - specialize (IH e2 Heq Hno).
    assert (Hkeep : sv_sessions v1 !! pid = sv_sessions v !! pid \/
      (exists req, sv_sessions v !! pid = Some (Asked req) /\ sv_sessions v1 !! pid = Some (Answered req resp) /\
         req' = req /\ answers (sv_server v) req resp (sv_server v1))).
    { inversion Hs as [|p req rs s' Ha Hans| |p|]; subst; cbn in *; [|destruct (decide (pid = p)) as [->|Hne]|by left].
      - destruct (decide (pid = p)) as [->|Hne]; [|left; by rewrite lookup_insert_ne].
        rewrite lookup_insert_eq in *. destruct IH as [-> ->]. right. by exists req.
      - by rewrite lookup_delete_eq in IH.
      - left. by rewrite lookup_delete_ne. }
    destruct Hkeep as [Hkeep|(req & Ha & Ha1 & -> & Hans)].
    + rewrite Hkeep in IH. destruct (sv_sessions v !! pid) as [[req|req r]|]; try done.
      destruct IH as [-> (e2a & e2b & u & u' & -> & H1 & H2 & H3 & H4)]. split; [done|].
      exists e2a, e2b, u, u'. split_and!; try done. by eapply RunSilent.
    + rewrite Ha. split; [done|]. exists [], e2, v, v1. split_and!; try done; [constructor|by rewrite <- Heq].
  - destruct e2 as [|e e2]; cbn in Heq; injection Heq as -> ->.
    { inversion Hs as [| |p req rs Ha| |]; subst. by rewrite Ha. }
    specialize (IH e2 eq_refl ltac:(intros r Hin; apply (Hno r); by right)).
    assert (Hkeep : sv_sessions v1 !! pid = sv_sessions v !! pid).
    { inversion Hs as [p req Hn| |p req rs Ha| |]; subst; cbn in *; destruct (decide (pid = p)) as [->|Hne].
      - destruct (Hno req). by left.
      - by rewrite lookup_insert_ne.
      - by rewrite lookup_delete_eq in IH.
      - by rewrite lookup_delete_ne. }
    rewrite Hkeep in IH. destruct (sv_sessions v !! pid) as [[req|req r]|]; try done.
    destruct IH as [-> (e2a & e2b & u & u' & -> & H1 & H2 & H3 & H4)]. split; [done|].
    exists (e :: e2a), e2b, u, u'. split_and!; try done. by eapply RunEvent.
Qed.

(** The server between two moments: it has answered some calls. *)
Definition server_step (s s' : S) : Prop := exists req resp, answers s req resp s'.

Lemma service_run_server v evs v' : service_run v evs v' -> rtc server_step (sv_server v) (sv_server v').
Proof.
  assert (Hone : forall v o v', service_step v o v' -> rtc server_step (sv_server v) (sv_server v')).
  { intros v0 o v1 []; cbn; try reflexivity; apply rtc_once; eexists _, _; eassumption. }
  induction 1; [done|by etransitivity; eauto..].
Qed.

(** Every answer taken answers the question it comes with. *)
Definition sessions_answered (v : service) : Prop :=
  forall pid req resp, sv_sessions v !! pid = Some (Answered req resp) ->
    exists s s', answers s req resp s'.

Lemma service_step_answered v ev v' :
  service_step v ev v' -> sessions_answered v -> sessions_answered v'.
Proof.
  intros Hs HA p rq rs. destruct Hs as [pid req Hn|pid req resp s' Ha Hans|pid req resp Ha|pid|]; cbn;
    try (destruct (decide (p = pid)) as [->|Hne];
      [rewrite ?lookup_insert_eq, ?lookup_delete_eq|rewrite ?lookup_insert_ne, ?lookup_delete_ne by done]);
    try done; try apply HA. intros [= <- <-]. eauto.
Qed.

Lemma service_run_answered v evs v' pid req resp :
  service_run v evs v' -> sessions_answered v -> EvTake pid req resp ∈ evs ->
  exists s s', answers s req resp s'.
Proof.
  intros Hr. induction Hr as [v|v v1 evs v' Hs Hr IH|v ev v1 evs v' Hs Hr IH]; intros HA Hin.
  - by apply elem_of_nil in Hin.
  - apply IH; [by eapply service_step_answered|done].
  - apply elem_of_cons in Hin as [<-|Hin]; [|apply IH; [by eapply service_step_answered|done]].
    inversion Hs; subst. by eapply HA.
Qed.
End AbstractService.
Arguments MkService {S} sv_sessions sv_late sv_server.

(** ** What the processes of the system observe *)
Section Observed.
Context {L : Type} {HS : SList L}.
Variable config : Config.

Definition slot_read (σ : system L) (i : nat) : option FgaPayload :=
  payload <$> chan_slot (we_channel (sys_worker σ)) i.

(** A backend shows the request it has written when it takes a slot, and what
    it reads when it gives the slot back. *)
Definition observe (lab : label) (σ σ' : system L) : list event :=
  match lab with
  | LAcquire pid _ _ _ _ =>
      match sys_backends σ !! pid, sys_backends σ' !! pid with
      | None, Some (_, i) =>
          match slot_read σ' i with Some p => [EvAsk pid (request p)] | None => [] end
      | _, _ => []
      end
  | LRelease pid =>
      match sys_backends σ !! pid with
      | Some (Reading, i) =>
          match slot_read σ i with
          | Some p => [EvTake pid (request p) (response p)]
          | None => []
          end
      | _ => []
      end
  | _ => []
  end.

Fixpoint sys_trace (labs : list label) (σ : system L) : outcome (list event * system L) :=
  match labs with
  | [] => Done ([], σ)
  | lab :: labs' =>
      σ1 ← sys_step config lab σ;
      rest ← sys_trace labs' σ1;
      Done (observe lab σ σ1 ++ rest.1, rest.2)
  end.

(** What is known of the requests of the backends, and the server: which reply
    it may give to a call, and what becomes of its state. *)
Variable P : FgaRequest -> Prop.
Context {S : Type}.
Variable serves : S -> rpc_call -> GrpcStatus -> rpc_response -> S -> Prop.

Definition lab_ok (lab : label) (σ : system L) (s s' : S) : Prop :=
  match lab with
  | LAcquire _ type store model body => s' = s /\ forall id, P (MkRequest id type store model body)
  | LReply n st resp =>
      match we_calls (sys_worker σ) !! n with
      | Some call => if reply_matches (call_callback call) resp then serves s call st resp s' else s' = s
      | None => s' = s
      end
  | _ => s' = s
  end.

Fixpoint labs_ok (labs : list label) (σ : system L) (s : S) : Prop :=
  match labs with
  | [] => True
  | lab :: labs' => exists s', lab_ok lab σ s s' /\
      forall σ', sys_step config lab σ = Done σ' -> labs_ok labs' σ' s'
  end.

Lemma labs_ok_cons lab labs σ σ' s s' :
  lab_ok lab σ s s' -> sys_step config lab σ = Done σ' -> labs_ok labs σ' s' -> labs_ok (lab :: labs) σ s.
Proof.
  intros Hok Hs Hr. exists s'. split; [done|]. intros σ1 H1. rewrite Hs in H1. by injection H1 as <-.
Qed.

(** The same with the state the server ends in. *)
Fixpoint labs_end (labs : list label) (σ : system L) (s sf : S) : Prop :=
  match labs with
  | [] => sf = s
  | lab :: labs' => exists s', lab_ok lab σ s s' /\
      forall σ', sys_step config lab σ = Done σ' -> labs_end labs' σ' s' sf
  end.

Lemma labs_ok_end labs σ s : labs_ok labs σ s -> exists sf, labs_end labs σ s sf.
Proof.
  revert σ s. induction labs as [|lab labs IH]; intros σ s; cbn; [by exists s|]. intros (s' & Hok & Hrest).
  destruct (sys_step config lab σ) as [σ1| |] eqn:Hs.
  2,3: exists s, s'; (split; [done|]); by intros σ' [=].
  destruct (IH _ _ (Hrest _ eq_refl)) as [sf Hend]. exists sf, s'. split; [done|]. by intros σ' [= <-].
Qed.
End Observed.

(** ** Calls and the requests they carry *)
Section Calls.
Variable config : Config.
Variable P : FgaRequest -> Prop.
Context {S : Type}.
Variable serves : S -> rpc_call -> GrpcStatus -> rpc_response -> S -> Prop.

(** A call made for this request alone, or a batch of checks with the request
    among them, under a correlation id of its own. *)
Inductive call_asks (call : rpc_call) (req : FgaRequest) : Prop :=
  | AsksOne now i : call ∈ process config now i (MkPayload req zero_response) -> P req ->
      call_asks call req
  | AsksBatch now items i : handle_check_batch config now items = Done [call] ->
      (i, MkPayload req zero_response) ∈ items -> NoDup (batch_check <$> items).*1 ->
      (forall it, it ∈ items -> is_check (make_request_variant it.2) = true /\ P (request it.2)) ->
      call_asks call req.

(** [resp] is what the completion callback of such a call makes of the reply of
    the server in state [s]. *)
Definition answered_by (s : S) (req : FgaRequest) (resp : FgaResponse) (s' : S) : Prop :=
  exists call st reply, call_asks call req /\ reply_matches (call_callback call) reply = true /\
    serves s call st reply s' /\
    resp = reply_update (call_callback call) st reply (MkPayload req zero_response).
End Calls.
