(* ===== verification/Ledger.v ===== *)
(** * The ledger: why the system refines the service

    The ledger records, for each slot, the request of its last tenant and the
    reply that was written for it.  Every step of the system keeps it true, and
    the service makes the same step: a slot given up becomes a late request, a
    reply answers the sessions of the slots its call was made for. *)
From S2P Require Import Prelude Platform Types SlotQueue SlotPool Channel Config Client Processor.
From S2P Require Import Protocol Frames Service.

(** ** The ledger *)
Record entry : Type := MkEntry {
  e_request : FgaRequest;
  e_reply : option (rpc_call * GrpcStatus * rpc_response);
}.

Definition entry_response (e : entry) : FgaResponse :=
  match e_reply e with
  | None => zero_response
  | Some (call, st, reply) =>
      reply_update (call_callback call) st reply (MkPayload (e_request e) zero_response)
  end.

Definition entry_payload (e : entry) : FgaPayload := MkPayload (e_request e) (entry_response e).

Definition entry_session (e : entry) : session :=
  match e_reply e with
  | None => Asked (e_request e)
  | Some _ => Answered (e_request e) (entry_response e)
  end.

Definition asked (G : gmap nat entry) (i : nat) : Prop :=
  exists e, G !! i = Some e /\ e_reply e = None.
Definition replied (G : gmap nat entry) (i : nat) : Prop :=
  exists e, G !! i = Some e /\ is_Some (e_reply e).

(** The sessions of the backends that hold a slot. *)
Definition sessions (B : gmap Z (phase * nat)) (G : gmap nat entry) : gmap Z session :=
  omap (fun h => entry_session <$> G !! h.2) B.
Arguments sessions : simpl never.

Lemma sessions_phase B G pid ph ph' i :
  B !! pid = Some (ph, i) -> sessions (<[pid := (ph', i)]> B) G = sessions B G.
Proof.
  intros HB. apply map_eq. intros p. unfold sessions. rewrite !lookup_omap.
  destruct (decide (p = pid)) as [->|Hne]; [by rewrite lookup_insert_eq, HB|].
  by rewrite lookup_insert_ne.
Qed.

Lemma sessions_delete B G pid : sessions (delete pid B) G = delete pid (sessions B G).
Proof. apply omap_delete. Qed.

Lemma sessions_lookup B G pid ph i e :
  B !! pid = Some (ph, i) -> G !! i = Some e -> sessions B G !! pid = Some (entry_session e).
Proof. intros HB HG. unfold sessions. rewrite lookup_omap, HB. cbn. by rewrite HG. Qed.

Lemma same_phase (B : gmap Z (phase * nat)) pid ph ph0 i :
  B !! pid = Some (ph0, i) -> (ph = Owning -> ph0 = Owning) ->
  forall p ph1 j, <[pid := (ph, i)]> B !! p = Some (ph1, j) -> exists ph2,
    B !! p = Some (ph2, j) /\ (ph1 = Owning -> ph2 = Owning).
Proof.
  intros HB Hph p ph1 j. destruct (decide (p = pid)) as [->|Hne].
  - rewrite lookup_insert_eq. intros [= <- <-]. eauto.
  - rewrite lookup_insert_ne by done. eauto.
Qed.

Lemma fewer_phases (B : gmap Z (phase * nat)) pid :
  forall p ph1 j, delete pid B !! p = Some (ph1, j) -> exists ph2,
    B !! p = Some (ph2, j) /\ (ph1 = Owning -> ph2 = Owning).
Proof. intros p ph1 j [_ H]%lookup_delete_Some. eauto. Qed.

Section Ledger.
Context {L : Type} {HS : SList L} {HL : SListLaws L}.
Variable k : Z.
Variable config : Config.
Variable P : FgaRequest -> Prop.
Context {S : Type}.
Variable serves : S -> rpc_call -> GrpcStatus -> rpc_response -> S -> Prop.
Abbreviation sys_inv := (sys_inv (L := L) k) (only parsing).
Abbreviation call_asks := (call_asks config P) (only parsing).
Abbreviation answered_by := (answered_by config P serves) (only parsing).
Abbreviation service_run := (service_run answered_by) (only parsing).
Abbreviation chan_of σ := (we_channel (sys_worker σ)) (only parsing).

(** The ledger tells the truth: a slot holds what its entry says, request ids
    are distinct, a call carries the requests of its slots, and an answer is
    there exactly where the states and the lists of the worker say so. *)
Record data_inv (G : gmap nat entry) (σ : system L) : Prop := {
  di_entry i e : G !! i = Some e -> slot_read σ i = Some (entry_payload e) /\ P (e_request e);
  di_fresh i e : G !! i = Some e -> 0 <= request_id (e_request e) <= ch_request_id (chan_of σ);
  di_ids i j e e' : i <> j -> G !! i = Some e -> G !! j = Some e' ->
    request_id (e_request e) <> request_id (e_request e');
  di_call call i : call ∈ we_calls (sys_worker σ) -> i ∈ callback_slots (call_callback call) ->
    exists e, G !! i = Some e /\ e_reply e = None /\ call_asks call (e_request e);
  di_queue free l v : chan_repr k (chan_of σ) free l -> v ∈ l -> asked G (Z.to_nat v);
  di_completed i : i ∈ completed_queue (sys_worker σ) -> replied G i;
  di_done i : slot_done (chan_of σ) i -> replied G i;
  di_holder pid ph i : sys_backends σ !! pid = Some (ph, i) ->
    exists e, G !! i = Some e /\ (ph = Owning -> e_reply e = None);
}.

(** Calm steps keep the ledger. *)
Lemma data_calm G σ σ' D :
  data_inv G σ -> calm D (chan_of σ) (chan_of σ') -> (forall i, D i -> replied G i) ->
  (forall call i, call ∈ we_calls (sys_worker σ') -> i ∈ callback_slots (call_callback call) ->
     call ∈ we_calls (sys_worker σ) \/
     exists e, G !! i = Some e /\ e_reply e = None /\ call_asks call (e_request e)) ->
  (forall i, i ∈ completed_queue (sys_worker σ') -> i ∈ completed_queue (sys_worker σ)) ->
  (forall free l v, chan_repr k (chan_of σ') free l -> v ∈ l -> asked G (Z.to_nat v)) ->
  (forall pid ph i, sys_backends σ' !! pid = Some (ph, i) -> exists ph0,
     sys_backends σ !! pid = Some (ph0, i) /\ (ph = Owning -> ph0 = Owning)) ->
  data_inv G σ'.
Proof.
  intros [He Hf Hids Hc Hq Hcq Hdn Hh] [Hp Hid Hd] HD Hca Hco Hqu HB. split; auto.
  - intros i e HG. unfold slot_read. rewrite Hp. by apply He.
  - intros i e HG. rewrite Hid. by apply (Hf i).
  - intros call i Hcall Hi. destruct (Hca call i Hcall Hi); eauto.
  - intros i Hi. destruct (Hd i Hi); auto.
  - intros pid ph i HBi. destruct (HB pid ph i HBi) as (ph0 & HB0 & Hph).
    destruct (Hh pid ph0 i HB0) as (e & HG & Hr). exists e. auto.
Qed.

(** The service shows the sessions of the backends; the requests that wait for
    an answer nobody will take are among the late ones. *)
Record shows (G : gmap nat entry) (B : gmap Z (phase * nat)) (v : service (S := S)) : Prop := {
  sh_sessions : sv_sessions v = sessions B G;
  sh_late i e : G !! i = Some e -> e_reply e = None -> (forall pid ph, B !! pid <> Some (ph, i)) ->
    e_request e ∈ sv_late v;
}.

Lemma shows_phase G B v pid ph ph' i :
  B !! pid = Some (ph, i) -> shows G B v -> shows G (<[pid := (ph', i)]> B) v.
Proof.
  intros HB [Hs Hl]. split; [by rewrite (sessions_phase _ _ _ _ _ _ HB)|].
  intros j e HG Hn Hh. apply (Hl j); [done..|]. intros p ph1 HBp.
  destruct (decide (p = pid)) as [->|Hp]; [|apply (Hh p ph1); by rewrite lookup_insert_ne].
  rewrite HB in HBp. injection HBp as -> ->. apply (Hh pid ph'). by rewrite lookup_insert_eq.
Qed.

(** A backend gives up: its request, when still open, becomes a late one. *)
Lemma shows_leave G B v pid :
  shows G B v -> (forall ph i, B !! pid = Some (ph, i) -> is_Some (G !! i)) ->
  exists v', service_run v [] v' /\ shows G (delete pid B) v' /\ sv_server v' = sv_server v.
Proof.
  intros [Hs Hl] HB. eexists. split; [eapply RunSilent; [apply (ServiceLeave _ _ pid)|constructor]|].
  split; [|done]. split; cbn.
  - by rewrite sessions_delete, Hs.
  - intros i e HG Hn Hh. destruct (B !! pid) as [[ph j]|] eqn:HBp.
    + destruct (HB ph j eq_refl) as [ej HGj]. rewrite Hs, (sessions_lookup _ _ _ _ _ _ HBp HGj).
      destruct (decide (i = j)) as [->|Hij].
      * rewrite HG in HGj. injection HGj as <-. unfold entry_session. rewrite Hn. by left.
      * assert (Hin : e_request e ∈ sv_late v).
        { apply (Hl i); [done..|]. intros p ph1 HBq. destruct (decide (p = pid)) as [->|Hp]; [congruence|].
          apply (Hh p ph1). by rewrite lookup_delete_ne. }
        destruct (entry_session ej); [by right|done].
    + rewrite Hs. unfold sessions. rewrite lookup_omap, HBp. cbn. apply (Hl i); [done..|].
      intros p ph1 HBq. apply (Hh p ph1). rewrite lookup_delete_ne; [done|]. congruence.
Qed.

(** A step that is one operation on the channel. *)
Lemma run_channel_done {A} (m : CM (FgaChannel L) A) w B' σ' :
  match run_channel m w with
  | (Done _, w') => Done (MkSystem w' B')
  | (Error e, _) => Error e
  | (Undefined u, _) => Undefined u
  end = Done σ' -> σ' = MkSystem (with_channel w (m (we_channel w)).2) B'.
Proof.
  unfold run_channel, on_shared. destruct (m (we_channel w)) as [[a|e|u] c]; cbn; [| |done];
    by intros [= <-].
Qed.

Lemma same_queue_asked G σ c' : sys_inv σ -> data_inv G σ -> same_queue (chan_of σ) c' ->
  forall free l v, chan_repr k c' free l -> v ∈ l -> asked G (Z.to_nat v).
Proof.
  intros (R & free0 & l0 & Hinv) Hd Hq free l v Hc Hv.
  pose proof (pi_chan _ _ _ _ _ _ _ _ _ Hinv) as Hc0. apply (di_queue _ _ Hd free0 l0); [done|].
  replace l0 with l; [done|]. apply (queue_repr_fun k (ch_queue c')); [apply Hc|].
  rewrite Hq. apply Hc0.
Qed.

Lemma reading_done σ pid i :
  sys_inv σ -> sys_backends σ !! pid = Some (Reading, i) -> slot_done (chan_of σ) i.
Proof.
  intros (R & free & l & Hinv) HB.
  destruct (backend_role k _ _ _ _ _ _ _ _ _ _ _ Hinv HB) as (r & Hr & Hph).
  destruct (inv_slot k _ _ _ _ _ _ _ _ i r Hinv Hr) as (s & Hs & Hok & _).
  unfold slot_done. rewrite Hs. destruct r; try done; destruct Hok as [Hst _]; cbn; by rewrite Hst.
Qed.

Lemma replied_session G i e : G !! i = Some e -> replied G i ->
  entry_session e = Answered (e_request e) (entry_response e).
Proof.
  intros HG (e' & HG' & Hre). rewrite HG in HG'. injection HG' as <-.
  unfold entry_session. by destruct (e_reply e); [|destruct Hre].
Qed.

(** One step of the system and what the service does meanwhile. *)
Definition simulated (lab : label) (σ : system L) (G : gmap nat entry) (v : service) (s' : S) : Prop :=
  exists σ' G' v', sys_step config lab σ = Done σ' /\ sys_inv σ' /\ data_inv G' σ' /\
    service_run v (observe lab σ σ') v' /\ shows G' (sys_backends σ') v' /\ sv_server v' = s' /\
    0 <= ch_request_id (chan_of σ') <= ch_request_id (chan_of σ) + 1.

Section Step.
Variable σ : system L.
Variable G : gmap nat entry.
Variable v : service (S := S).
Hypothesis Hi : sys_inv σ.
Hypothesis Hd : data_inv G σ.
Hypothesis Hv : shows G (sys_backends σ) v.
Hypothesis Hid : 0 <= ch_request_id (chan_of σ) < 2 ^ 64 - 1.

Lemma simulated_idle lab :
  sys_step config lab σ = Done σ -> observe lab σ σ = [] -> simulated lab σ G v (sv_server v).
Proof. intros Hs Ho. exists σ, G, v. rewrite Ho. split_and!; try done; [constructor|lia..]. Qed.

(** A calm step of one backend on its slot. *)
Lemma simulated_backend lab σ' v' :
  sys_step config lab σ = Done σ' -> sys_inv σ' ->
  calm (fun _ => False) (chan_of σ) (chan_of σ') ->
  we_calls (sys_worker σ') = we_calls (sys_worker σ) ->
  completed_queue (sys_worker σ') = completed_queue (sys_worker σ) ->
  (forall free l v, chan_repr k (chan_of σ') free l -> v ∈ l -> asked G (Z.to_nat v)) ->
  (forall pid ph i, sys_backends σ' !! pid = Some (ph, i) -> exists ph0,
     sys_backends σ !! pid = Some (ph0, i) /\ (ph = Owning -> ph0 = Owning)) ->
  service_run v (observe lab σ σ') v' -> shows G (sys_backends σ') v' -> sv_server v' = sv_server v ->
  simulated lab σ G v (sv_server v).
Proof.
  intros Hs Hi' Hc Hca Hco Hq HB Hrun Hsh Hsv. exists σ', G, v'.
  split; [done|]. split; [done|]. split; [|split_and!; try done; rewrite (cm_id _ _ _ Hc); lia].
  eapply data_calm; eauto; rewrite ?Hca, ?Hco; auto. done.
Qed.

Lemma held_entries ph i pid : sys_backends σ !! pid = Some (ph, i) -> is_Some (G !! i).
Proof. intros HB. destruct (di_holder _ _ Hd pid ph i HB) as (e & HG & _). by exists e. Qed.

Lemma leaving pid : exists v', service_run v [] v' /\
  shows G (delete pid (sys_backends σ)) v' /\ sv_server v' = sv_server v.
Proof. apply shows_leave; [done|]. intros ph i. apply held_entries. Qed.

(** A backend gives its slot up or back. *)
Lemma simulated_gone {A} (m : CM (FgaChannel L) A) lab pid v' :
  (exists σ', sys_step config lab σ = Done σ' /\ sys_inv σ') ->
  keeps (calm (fun _ => False)) m -> keeps same_queue m ->
  sys_step config lab σ = match run_channel m (sys_worker σ) with
    | (Done _, w') => Done (MkSystem w' (delete pid (sys_backends σ)))
    | (Error e, _) => Error e
    | (Undefined u, _) => Undefined u
    end ->
  (forall σ', service_run v (observe lab σ σ') v') -> shows G (delete pid (sys_backends σ)) v' ->
  sv_server v' = sv_server v -> simulated lab σ G v (sv_server v).
Proof.
  intros (σ' & Hs & Hi') Hcalm Hqueue Heq Hrun Hsh Hsv.
  pose proof Hs as Hs2. rewrite Heq in Hs2. apply run_channel_done in Hs2 as ->.
  eapply (simulated_backend _ _ v'); eauto; cbn; [apply (same_queue_asked G σ _ Hi Hd (Hqueue _))|].
  intros p ph i. apply fewer_phases.
Qed.

Lemma release_simulated pid : simulated (LRelease pid) σ G v (sv_server v).
Proof.
  destruct (sys_backends σ !! pid) as [[[] i]|] eqn:HB; try (apply simulated_idle; cbn; rewrite ?HB; done).
  pose proof (di_done _ _ Hd i (reading_done σ pid i Hi HB)) as (e & HG & Hsome).
  assert (Hse : entry_session e = Answered (e_request e) (entry_response e))
    by (apply (replied_session G i e HG); by exists e).
  eapply (simulated_gone (fga_channel_release_slot i) _ pid
    (MkService (delete pid (sv_sessions v)) (sv_late v) (sv_server v)));
    auto using fga_release_calm, release_same_queue.
  - by apply release_step.
  - cbn. by rewrite HB.
  - intros σ'. cbn. rewrite HB. destruct (di_entry _ _ Hd i e HG) as [-> _]. cbn.
    eapply RunEvent; [|constructor]. eapply ServiceTake.
    by rewrite (sh_sessions _ _ _ Hv), (sessions_lookup _ G pid _ i e HB HG), Hse.
  - split; cbn; [by rewrite sessions_delete, (sh_sessions _ _ _ Hv)|].
    intros j ej HGj Hn Hh. apply (sh_late _ _ _ Hv j); [done..|]. intros p ph HBp.
    destruct (decide (p = pid)) as [->|Hp].
    + rewrite HB in HBp. injection HBp as <- <-. rewrite HG in HGj. injection HGj as <-.
      destruct Hsome as [r Hr]. congruence.
    + apply (Hh p ph). by rewrite lookup_delete_ne.
Qed.

Lemma interrupt_simulated pid : simulated (LInterrupt pid) σ G v (sv_server v).
Proof.
  destruct (sys_backends σ !! pid) as [[[] i]|] eqn:HB; try (apply simulated_idle; cbn; rewrite ?HB; done).
  destruct (leaving pid) as (v' & Hrun & Hsh & Hsv).
  eapply (simulated_gone (wait_catch i) _ pid v'); auto using wait_catch_calm, wait_catch_same_queue.
  - by apply interrupt_step.
  - cbn. by rewrite HB.
Qed.

Lemma poll_simulated pid : simulated (LPoll pid) σ G v (sv_server v).
Proof.
  destruct (sys_backends σ !! pid) as [[[] i]|] eqn:HB; try (apply simulated_idle; cbn; rewrite ?HB; done).
  destruct (poll_step k config pid σ Hi) as (σ' & Hs & Hi'). pose proof Hs as Hs2. cbn in Hs2.
  rewrite HB in Hs2. destruct (chan_slot (chan_of σ) i) as [s|] eqn:Hsl; [|done].
  destruct (slot_state s) eqn:Hst; try (apply simulated_idle; cbn; rewrite ?HB, ?Hsl, ?Hst; done).
  - destruct (leaving pid) as (v' & Hrun & Hsh & Hsv).
    eapply (simulated_gone (fga_channel_release_slot i) _ pid v');
      auto using fga_release_calm, release_same_queue; [by exists σ'|cbn; by rewrite HB, Hsl, Hst].
  - injection Hs2 as <-. eapply (simulated_backend _ _ v); eauto.
    + reflexivity.
    + apply (same_queue_asked G σ _ Hi Hd eq_refl).
    + by apply same_phase with Waiting.
    + constructor.
    + by apply shows_phase with Waiting.
Qed.

Lemma exit_simulated pid : simulated (LExit pid) σ G v (sv_server v).
Proof.
  destruct (exit_step k config pid σ Hi) as (σ' & Hs & Hi').
  assert (Hcase : σ' = σ \/ σ' = MkSystem (without_proc pid (sys_worker σ)) (delete pid (sys_backends σ))).
  { cbn in Hs. destruct (sys_backends σ !! pid) as [[[] i]|] eqn:HB; try (injection Hs as <-; auto; fail).
    - destruct (slot_state <$> chan_slot (chan_of σ) i) as [[]|]; injection Hs as <-; auto.
    - injection Hs as <-. right. by rewrite delete_id. }
  destruct Hcase as [->| ->]; [by apply simulated_idle|].
  destruct (leaving pid) as (v' & Hrun & Hsh & Hsv). eapply (simulated_backend _ _ v'); eauto.
  - reflexivity.
  - apply (same_queue_asked G σ _ Hi Hd eq_refl).
  - apply fewer_phases.
Qed.

Lemma enqueue_simulated pid : simulated (LEnqueue pid) σ G v (sv_server v).
Proof.
  destruct (sys_backends σ !! pid) as [[[] i]|] eqn:HB; try (apply simulated_idle; cbn; rewrite ?HB; done).
  destruct (enqueue_step k config pid σ Hi) as (σ' & Hs & Hi').
  pose proof Hi as (R & free & l & Hinv). pose proof (pi_chan _ _ _ _ _ _ _ _ _ Hinv) as Hc.
  destruct (backend_role k _ _ _ _ _ _ _ _ _ _ _ Hinv HB) as (r & Hr & Hph).
  destruct (inv_slot k _ _ _ _ _ _ _ _ i r Hinv Hr) as (s & Hsl & _ & _ & Hlt).
  assert (Hif : i ∉ free) by (eapply (role_not_free k); [exact Hinv|exact Hr|by intros ->]).
  destruct (enqueue_slot_spec k _ free l i s Hc Hsl Hlt Hif) as (c' & ok & He & Hc' & _).
  pose proof (keeps_done _ _ _ _ _ (enqueue_slot_calm (fun _ => False) i) He) as Hcalm.
  pose proof Hs as Hs2. cbn in Hs2. rewrite HB in Hs2. unfold run_channel in Hs2.
  rewrite (on_shared_eq _ _ _ _ He) in Hs2.
  assert (Hold : forall x, x ∈ l -> asked G (Z.to_nat x)) by (intros x; by apply (di_queue _ _ Hd free)).
  destruct ok; injection Hs2 as <-.
  - eapply (simulated_backend _ _ v); eauto; cbn.
    + intros free1 l1 x H1 Hx. rewrite (chan_repr_fun k _ _ _ _ _ H1 Hc') in Hx.
      apply elem_of_app in Hx as [Hx| ->%list_elem_of_singleton]; [auto|]. rewrite Nat2Z.id.
      destruct (di_holder _ _ Hd pid Owning i HB) as (e & HG & Hn). exists e. auto.
    + by apply same_phase with Owning.
    + constructor.
    + by apply shows_phase with Owning.
  - destruct (leaving pid) as (v' & Hrun & Hsh & Hsv). eapply (simulated_backend _ _ v'); eauto; cbn.
    + intros free1 l1 x H1 Hx. rewrite (chan_repr_fun k _ _ _ _ _ H1 Hc') in Hx. auto.
    + apply fewer_phases.
Qed.
End Step.

(** ** The worker's turn *)
Lemma process_slots now i p call :
  call ∈ process config now i p -> callback_slots (call_callback call) = [i].
Proof.
  unfold process, make_request_variant. intros Hin.
  repeat (destruct (_ =? _) in Hin;
    [first [by apply elem_of_nil in Hin|by apply list_elem_of_singleton in Hin as ->]|]).
  by apply elem_of_nil in Hin.
Qed.

Lemma asked_payload G σ i p : data_inv G σ -> asked G i -> slot_read σ i = Some p ->
  exists e, G !! i = Some e /\ e_reply e = None /\ p = MkPayload (e_request e) zero_response /\
    P (e_request e).
Proof.
  intros Hd (e & HG & Hn) Hp. destruct (di_entry _ _ Hd i e HG) as [He HP].
  rewrite He in Hp. injection Hp as <-. exists e. unfold entry_payload, entry_response. by rewrite Hn.
Qed.

(** The correlation ids of a batch are distinct. *)
Lemma batch_ids G σ items :
  data_inv G σ -> ch_request_id (chan_of σ) < 2 ^ 64 -> NoDup items.*1 ->
  (forall it : nat * FgaPayload, it ∈ items ->
     exists e, G !! it.1 = Some e /\ it.2 = MkPayload (e_request e) zero_response) ->
  NoDup (batch_check <$> items).*1.
Proof.
  intros Hd Hid Hn Hit. rewrite <- list_fmap_compose. apply NoDup_fmap_2_strong; [|by eapply NoDup_fmap_1].
  intros [i p] [j q] Ha Hb. destruct (Hit _ Ha) as (ea & HGa & Hra), (Hit _ Hb) as (eb & HGb & Hrb).
  cbn in *. subst. pose proof (di_fresh _ _ Hd _ _ HGa). pose proof (di_fresh _ _ Hd _ _ HGb).
  cbn. intros Heq%to_string_inj; [|lia..].
  destruct (decide (i = j)) as [->|Hne]; [congruence|by destruct (di_ids _ _ Hd _ _ _ _ Hne HGa HGb)].
Qed.

(** The calls of a turn carry the requests of their slots. *)
Lemma call_from_asks now G σ slots call i :
  data_inv G σ -> ch_request_id (chan_of σ) < 2 ^ 64 -> NoDup slots ->
  (forall j, j ∈ slots -> asked G j) -> call_from config now slots (chan_of σ) call ->
  i ∈ callback_slots (call_callback call) ->
  exists e, G !! i = Some e /\ e_reply e = None /\ call_asks call (e_request e).
Proof.
  intros Hd Hid Hnd Hask [j s c Hj Hs Hc|items c Hb Hsub Hit] Hi.
  - rewrite (process_slots _ _ _ _ Hc) in Hi. apply list_elem_of_singleton in Hi as ->.
    destruct (asked_payload G σ j (payload s) Hd (Hask j Hj)) as (e & HG & Hn & Hp & HP).
    { unfold slot_read. by rewrite Hs. }
    exists e. rewrite Hp in Hc. eauto using AsksOne.
  - assert (Hall : forall it, it ∈ items -> exists e, G !! it.1 = Some e /\ e_reply e = None /\
      it.2 = MkPayload (e_request e) zero_response /\ P (e_request e)).
    { intros it Hin. destruct (Hit it Hin) as [_ Hp]. apply (asked_payload G σ); [done| |exact Hp].
      apply Hask. eapply elem_of_sublist; [|exact Hsub]. by apply list_elem_of_fmap_2. }
    destruct items as [|first items]; [done|]. injection Hb as <-.
    change (callback_slots _) with ((first :: items).*1) in Hi.
    apply list_elem_of_fmap in Hi as (it & -> & Hin). destruct (Hall it Hin) as (e & HG & Hn & Hp & HP).
    exists e. split; [done|]. split; [done|].
    eapply (AsksBatch _ _ _ _ now (first :: items) it.1); [done|by destruct it; cbn in *; subst| |].
    + apply (batch_ids G σ); [done|done|by eapply sublist_NoDup|].
      intros it' Hin'. destruct (Hall it' Hin') as (e' & ? & _ & ? & _). by exists e'.
    + intros it' Hin'. split; [by apply Hit|].
      destruct (Hall it' Hin') as (e' & _ & _ & -> & ?). done.
Qed.

Lemma worker_simulated now σ G v :
  sys_inv σ -> data_inv G σ -> shows G (sys_backends σ) v -> 0 <= ch_request_id (chan_of σ) < 2 ^ 64 - 1 ->
  simulated (LWorker now) σ G v (sv_server v).
Proof.
  intros (R & free & l & Hinv) Hd Hv Hid. pose proof (pi_chan _ _ _ _ _ _ _ _ _ Hinv) as Hc.
  destruct (sys_execute_spec k config now R free l _ _ Hinv)
    as (w' & R' & free' & He & Hinv' & _).
  destruct (chan_drain_spec k _ free l MAX_BATCH Hc ltac:(done)) as (c0 & Hdr & _).
  destruct (execute_frame config now _ _ _ _ Hdr He) as (Hcalm & Hq & new & Hca & Hnew).
  change (Z.to_nat MAX_BATCH) with 50%nat in *.
  assert (Hask : forall x, x ∈ l -> asked G (Z.to_nat x)) by (intros x; by apply (di_queue _ _ Hd free)).
  exists (MkSystem w' (sys_backends σ)), G, v. split; [cbn; by rewrite He|].
  split; [by exists R', free', (drop 50 l)|].
  split; [|split_and!; try done; [constructor|cbn; rewrite (cm_id _ _ _ Hcalm); lia..]].
  eapply data_calm; [exact Hd|exact Hcalm|apply (di_completed _ _ Hd)|..]; cbn.
  - intros call i Hcall Hi. rewrite Hca in Hcall. apply elem_of_app in Hcall as [Hcall|Hcall]; [by left|right].
    apply (call_from_asks now G σ (Z.to_nat <$> take 50 l) call); [done|lia| | |auto|done].
    + pose proof (pi_queue _ _ _ _ _ _ _ _ _ Hinv) as Hn. cbn in Hn.
      rewrite <- (take_drop 50 l), fmap_app in Hn. by apply NoDup_app in Hn as (? & _).
    + intros j (x & -> & Hx)%list_elem_of_fmap. apply Hask.
      rewrite <- (take_drop 50 l), elem_of_app. by left.
  - rewrite Hq. by intros i Hi%elem_of_nil.
  - intros free1 l1 x H1 Hx.
    rewrite (chan_repr_fun k _ _ _ _ _ H1 (pi_chan _ _ _ _ _ _ _ _ _ Hinv')) in Hx.
    apply Hask. rewrite <- (take_drop 50 l), elem_of_app. by right.
  - eauto.
Qed.

(** ** A reply arrives *)
Definition reply_to : Type := rpc_call * GrpcStatus * rpc_response.

Definition record_reply (r : reply_to) (slots : list nat) (G : gmap nat entry) : gmap nat entry :=
  map_imap (fun i e => Some (if bool_decide (i ∈ slots) then MkEntry (e_request e) (Some r) else e)) G.

Lemma record_reply_lookup r slots G i :
  record_reply r slots G !! i =
    (fun e => if bool_decide (i ∈ slots) then MkEntry (e_request e) (Some r) else e) <$> G !! i.
Proof. unfold record_reply. rewrite map_lookup_imap. by destruct (G !! i). Qed.

Lemma record_reply_other r slots G i : i ∉ slots -> record_reply r slots G !! i = G !! i.
Proof.
  intros Hi. rewrite record_reply_lookup, bool_decide_eq_false_2 by done. by destruct (G !! i).
Qed.

Lemma record_reply_here r slots G i e :
  i ∈ slots -> G !! i = Some e -> record_reply r slots G !! i = Some (MkEntry (e_request e) (Some r)).
Proof. intros Hi HG. by rewrite record_reply_lookup, HG, bool_decide_eq_true_2. Qed.

Lemma record_reply_some r slots G i e' :
  record_reply r slots G !! i = Some e' -> exists e, G !! i = Some e /\ e_request e' = e_request e.
Proof.
  rewrite record_reply_lookup. destruct (G !! i) as [e|]; [|done]. intros [= <-]. exists e.
  split; [done|]. by case_bool_decide.
Qed.

Lemma record_reply_replied r slots G i : replied G i -> replied (record_reply r slots G) i.
Proof.
  intros (e & HG & Hs). unfold replied. rewrite record_reply_lookup, HG. cbn. eexists. split; [done|].
  by case_bool_decide.
Qed.

Lemma record_reply_nil r G : record_reply r [] G = G.
Proof. apply map_eq. intros i. apply record_reply_other, not_elem_of_nil. Qed.

Lemma record_reply_cons r i slots G e : G !! i = Some e ->
  record_reply r (i :: slots) G = record_reply r slots (<[i := MkEntry (e_request e) (Some r)]> G).
Proof.
  intros HG. apply map_eq. intros j. rewrite !record_reply_lookup. destruct (decide (j = i)) as [->|Hj].
  - rewrite lookup_insert_eq, HG, bool_decide_eq_true_2 by by left. cbn. by case_bool_decide.
  - rewrite lookup_insert_ne by done. destruct (G !! j) as [ej|]; [|done]. cbn. f_equal.
    rewrite (bool_decide_ext (j ∈ i :: slots) (j ∈ slots)); [done|]. rewrite elem_of_cons. naive_solver.
Qed.

(** The service answers the session, or serves the late request, of one slot. *)
Lemma answer_slot G B v i e r s' role :
  shows G B v -> G !! i = Some e -> e_reply e = None -> holders i role B ->
  (forall j e', j <> i -> G !! j = Some e' -> request_id (e_request e') <> request_id (e_request e)) ->
  answered_by (sv_server v) (e_request e) (entry_response (MkEntry (e_request e) (Some r))) s' ->
  exists v', service_run v [] v' /\ shows (<[i := MkEntry (e_request e) (Some r)]> G) B v' /\
    sv_server v' = s'.
Proof.
  intros [Hs Hl] HG Hn Hh Hids Hans. set (e1 := MkEntry (e_request e) (Some r)) in *.
  assert (Hsame : forall pid h, B !! pid = Some h -> h.2 <> i ->
    (entry_session <$> (<[i := e1]> G) !! h.2) = (entry_session <$> G !! h.2)).
  { intros pid h HB Hne. by rewrite lookup_insert_ne by done. }
  assert (Hother : forall j ej, (<[i := e1]> G) !! j = Some ej -> e_reply ej = None ->
    j <> i /\ G !! j = Some ej).
  { intros j ej. destruct (decide (j = i)) as [->|Hj]; [rewrite lookup_insert_eq; by intros [= <-]|].
    by rewrite lookup_insert_ne. }
  destruct (role_phase role) as [[pid ph]|] eqn:Hr.
  - assert (HB : B !! pid = Some (ph, i)) by by apply Hh.
    assert (Hopen : sv_sessions v !! pid = Some (Asked (e_request e))).
    { rewrite Hs, (sessions_lookup B G pid ph i e HB HG). unfold entry_session. by rewrite Hn. }
    eexists. split; [eapply RunSilent; [by eapply ServiceAnswer|constructor]|]. split; [|done]. split; cbn.
    + apply map_eq. intros p. unfold sessions. rewrite lookup_omap. destruct (decide (p = pid)) as [->|Hp].
      * rewrite lookup_insert_eq, HB. cbn. by rewrite lookup_insert_eq.
      * rewrite lookup_insert_ne, Hs by done. unfold sessions. rewrite lookup_omap.
        destruct (B !! p) as [h|] eqn:HBp; [|done]. cbn. symmetry. apply (Hsame p h HBp).
        intros Heq. destruct h as [ph' j]. cbn in Heq. subst j. apply Hh in HBp. congruence.
    + intros j ej HGj Hnj Hhj. apply Hother in HGj as [_ HGj]; [|done]. by apply (Hl j).
  - assert (Hnone : forall p ph, B !! p <> Some (ph, i)) by (intros p ph HB; apply Hh in HB; congruence).
    destruct (list_elem_of_split _ _ (Hl i e HG Hn Hnone)) as (l1 & l2 & Hlate).
    eexists. split; [eapply RunSilent; [by eapply ServiceLate|constructor]|]. split; [|done]. split; cbn.
    + rewrite Hs. apply map_eq. intros p. unfold sessions. rewrite !lookup_omap.
      destruct (B !! p) as [h|] eqn:HBp; [|done]. cbn. symmetry. apply (Hsame p h HBp).
      intros Heq. destruct h as [ph' j]. cbn in Heq. subst j. by destruct (Hnone p ph').
    + intros j ej HGj Hnj Hhj. apply Hother in HGj as [Hj HGj]; [|done].
      pose proof (Hl j ej HGj Hnj Hhj) as Hin. rewrite Hlate in Hin.
      apply elem_of_app in Hin as [Hin|[Heq|Hin]%elem_of_cons]; [set_solver| |set_solver].
      destruct (Hids j ej Hj HGj). by rewrite Heq.
Qed.

(** Where the slots of a pending call are, and are not. *)
Lemma call_slots_apart (R : gmap nat role) free l B (w : worker_env L) n call :
  Protocol.proto_inv k [] [] [] R free l B w -> we_calls w !! n = Some call ->
  let slots := callback_slots (call_callback call) in
  NoDup slots /\
  (forall call' i, call' ∈ delete n (we_calls w) -> i ∈ callback_slots (call_callback call') -> i ∉ slots) /\
  (forall v, v ∈ l -> Z.to_nat v ∉ slots) /\
  (forall pid i, B !! pid = Some (Owning, i) -> i ∉ slots) /\
  (forall i, i ∈ slots -> exists r, holders i r B).
Proof.
  intros Hinv Hn slots.
  assert (Hperm : inflight w ≡ₚ slots ++ concat (callback_slots ∘ call_callback <$> delete n (we_calls w))).
  { unfold inflight. by rewrite (delete_Permutation _ _ _ Hn) at 1. }
  assert (Hst : forall i, i ∈ slots -> staged R InFlight i).
  { intros i Hi. apply (pi_inflight _ _ _ _ _ _ _ _ _ Hinv). cbn. rewrite Hperm, elem_of_app. by left. }
  pose proof (pi_flight _ _ _ _ _ _ _ _ _ Hinv) as Hnd. cbn in Hnd. rewrite Hperm in Hnd.
  apply NoDup_app in Hnd as (Hnd1 & Hnd & _).
  split; [done|]. split; [|split; [|split]].
  - intros call' i Hc Hi Hin. apply (Hnd i Hin).
    apply list_elem_of_In, in_concat. exists (callback_slots (call_callback call')).
    split; apply list_elem_of_In; [|done].
    by apply (list_elem_of_fmap_2 (callback_slots ∘ call_callback)).
  - intros v Hv Hin. destruct (Hst _ Hin) as (r & Hr & Hs).
    assert (Hq : staged R Queued (Z.to_nat v)).
    { apply (pi_queued _ _ _ _ _ _ _ _ _ Hinv). cbn. by apply list_elem_of_fmap_2. }
    destruct Hq as (r' & Hr' & Hs'). congruence.
  - intros pid i HB Hin. destruct (Hst _ Hin) as (r & Hr & Hs).
    destruct (backend_role k _ _ _ _ _ _ _ _ _ _ _ Hinv HB) as (r' & Hr' & Hph).
    rewrite Hr in Hr'. injection Hr' as <-. by destruct r.
  - intros i Hi. destruct (Hst i Hi) as (r & Hr & _). exists r. by eapply (inv_holders k).
Qed.

Lemma slot_read_payloads (σ : system L) i : slot_read σ i = payloads (sys_worker σ) !! i.
Proof. unfold slot_read, payloads. by rewrite lookup_map_seq_0, list_lookup_fmap. Qed.

Section Reply.
Variable σ : system L.
Variable n : nat.
Variable call : rpc_call.
Variable st : GrpcStatus.
Variable reply : rpc_response.
Hypothesis Hn : we_calls (sys_worker σ) !! n = Some call.
Hypothesis Hm : reply_matches (call_callback call) reply = true.
Abbreviation slots := (callback_slots (call_callback call)) (only parsing).
Abbreviation r := (call, st, reply) (only parsing).

Lemma reply_entry G i : data_inv G σ -> i ∈ slots -> exists e, G !! i = Some e /\ e_reply e = None /\
  call_asks call (e_request e).
Proof. intros Hd. apply (di_call _ _ Hd). by eapply list_elem_of_lookup_2. Qed.

(** The slots answered one after the other by a call that keeps the server. *)
Lemma answer_all pending G B v s :
  NoDup pending -> shows G B v -> sv_server v = s -> serves s call st reply s ->
  (forall i, i ∈ pending -> exists r, holders i r B) ->
  (forall i, i ∈ pending -> exists e, G !! i = Some e /\ e_reply e = None /\ call_asks call (e_request e)) ->
  (forall i j e e', i <> j -> G !! i = Some e -> G !! j = Some e' ->
     request_id (e_request e) <> request_id (e_request e')) ->
  exists v', service_run v [] v' /\ shows (record_reply r pending G) B v' /\ sv_server v' = s.
Proof.
  revert G v. induction pending as [|i pending IH]; intros G v Hnd Hv Hs Hserve Hh Hask Hids.
  { exists v. rewrite record_reply_nil. split; [constructor|done]. }
  apply NoDup_cons in Hnd as [Hni Hnd].
  destruct (Hask i ltac:(by left)) as (e & HG & Hnone & Hc), (Hh i ltac:(by left)) as (role & Hrole).
  destruct (answer_slot G B v i e r s role Hv HG Hnone Hrole) as (v1 & Hr1 & Hv1 & Hs1).
  { intros j e' Hj HGj. by apply (Hids j i). }
  { rewrite Hs. exists call, st, reply. by split_and!. }
  destruct (IH (<[i := MkEntry (e_request e) (Some r)]> G) v1) as (v2 & Hr2 & Hv2 & Hs2); try done.
  - intros j Hj. apply Hh. by right.
  - intros j Hj. rewrite lookup_insert_ne by (by intros ->). apply Hask. by right.
  - intros i1 j1 e1 e2 Hij H1 H2.
    assert (Hlook : forall j ej, (<[i := MkEntry (e_request e) (Some r)]> G) !! j = Some ej ->
      exists e0, G !! j = Some e0 /\ e_request ej = e_request e0).
    { intros j ej. destruct (decide (j = i)) as [->|Hj]; [rewrite lookup_insert_eq; intros [= <-]; eauto|].
      rewrite lookup_insert_ne by done. eauto. }
    destruct (Hlook _ _ H1) as (a & Ha & ->), (Hlook _ _ H2) as (b & Hb & ->). by apply (Hids i1 j1).
  - exists v2. rewrite (record_reply_cons _ _ _ _ e HG). split; [|done].
    exact (service_run_app _ v [] v1 [] v2 Hr1 Hr2).
Qed.

(** Calls for a single request may change the server. *)
Lemma reply_sessions G v s' :
  data_inv G σ -> shows G (sys_backends σ) v -> NoDup slots ->
  (forall i, i ∈ slots -> exists r, holders i r (sys_backends σ)) ->
  serves (sv_server v) call st reply s' ->
  (forall l, call_callback call = OnBatchCheck l -> s' = sv_server v) ->
  exists v', service_run v [] v' /\ shows (record_reply r slots G) (sys_backends σ) v' /\ sv_server v' = s'.
Proof.
  intros Hd Hv Hnd Hh Hserve Hbatch.
  assert (Hone : forall i, slots = [i] -> exists v', service_run v [] v' /\
    shows (record_reply r slots G) (sys_backends σ) v' /\ sv_server v' = s').
  { intros i Hi. assert (Hin : i ∈ slots) by (rewrite Hi; by left).
    destruct (reply_entry G i Hd Hin) as (e & HG & Hnone & Hc), (Hh i Hin) as (role & Hrole).
    rewrite Hi, (record_reply_cons _ _ _ _ e HG), record_reply_nil.
    apply (answer_slot G _ v i e r s' role); try done.
    - intros j e' Hj HGj. by apply (di_ids _ _ Hd j i).
    - exists call, st, reply. by split_and!. }
  assert (Hcase : (exists l, call_callback call = OnBatchCheck l) \/ exists i, slots = [i])
    by (destruct (call_callback call); cbn; eauto).
  destruct Hcase as [[l Hl]|[i Hi]]; [|by apply (Hone i)]. pose proof (Hbatch l Hl) as ->.
  eapply answer_all; try done; [|apply (di_ids _ _ Hd)]. intros i Hi. by apply (reply_entry G i Hd).
Qed.

Lemma reply_data G w' free l :
  data_inv G σ -> chan_repr k (chan_of σ) free l -> chan_repr k (we_channel w') free l ->
  (forall call' i, call' ∈ delete n (we_calls (sys_worker σ)) ->
     i ∈ callback_slots (call_callback call') -> i ∉ slots) ->
  (forall v, v ∈ l -> Z.to_nat v ∉ slots) ->
  (forall pid i, sys_backends σ !! pid = Some (Owning, i) -> i ∉ slots) ->
  we_calls w' = delete n (we_calls (sys_worker σ)) ->
  completed_queue w' = completed_queue (sys_worker σ) ++ slots ->
  ch_request_id (we_channel w') = ch_request_id (chan_of σ) ->
  (forall i, slot_same (chan_slot (chan_of σ) i) (chan_slot (we_channel w') i)) ->
  (forall j, payloads w' !! j = if bool_decide (j ∈ slots)
     then (fun p => MkPayload (request p) (reply_update (call_callback call) st reply p))
            <$> payloads (sys_worker σ) !! j
     else payloads (sys_worker σ) !! j) ->
  data_inv (record_reply r slots G) (MkSystem w' (sys_backends σ)).
Proof.
  intros Hd Hc Hc' Hother Hq Hown Hca Hcq Hid Hsame Hview. split; cbn.
  - intros i e'. rewrite slot_read_payloads. cbn. rewrite Hview, <- slot_read_payloads.
    rewrite record_reply_lookup. destruct (G !! i) as [e|] eqn:HG; [|done]. cbn.
    destruct (di_entry _ _ Hd i e HG) as [Hp HP]. rewrite Hp.
    case_bool_decide as Hi; intros [= <-]; [|done].
    destruct (reply_entry G i Hd Hi) as (e1 & HG1 & Hnone & _). rewrite HG in HG1. injection HG1 as <-.
    unfold entry_payload, entry_response. by rewrite Hnone.
  - intros i e' (e & HG & ->)%record_reply_some. rewrite Hid. by apply (di_fresh _ _ Hd i).
  - intros i j ei ej Hij (e1 & H1 & ->)%record_reply_some (e2 & H2 & ->)%record_reply_some.
    by apply (di_ids _ _ Hd i j).
  - intros call' i Hcall Hi. rewrite Hca in Hcall. rewrite record_reply_other by by eapply Hother.
    apply (di_call _ _ Hd call'); [|done]. by eapply elem_of_sublist, sublist_delete.
  - intros free1 l1 v H1 Hv. rewrite (chan_repr_fun k _ _ _ _ _ H1 Hc') in Hv.
    destruct (di_queue _ _ Hd free l v Hc Hv) as (e & HG & Hnone). exists e.
    by rewrite record_reply_other by by apply Hq.
  - intros i. rewrite Hcq, elem_of_app. intros [Hi|Hi]; [by apply record_reply_replied, (di_completed _ _ Hd)|].
    destruct (reply_entry G i Hd Hi) as (e & HG & _). eexists. by rewrite (record_reply_here _ _ _ _ _ Hi HG).
  - intros i Hi. apply record_reply_replied, (di_done _ _ Hd). unfold slot_done in *. specialize (Hsame i).
    destruct (chan_slot (we_channel w') i) as [s2|], (chan_slot (chan_of σ) i) as [s1|]; try done.
    destruct Hsame as [Hst _]. cbn in *. by rewrite <- Hst.
  - intros pid ph i HB. destruct (di_holder _ _ Hd pid ph i HB) as (e & HG & Ho).
    rewrite record_reply_lookup, HG. cbn. eexists. split; [done|]. intros ->.
    rewrite bool_decide_eq_false_2 by by eapply Hown. by apply Ho.
Qed.
End Reply.

(** A batch of checks does not change the server. *)
Definition batches_read : Prop := forall s call st reply s' l,
  serves s call st reply s' -> call_callback call = OnBatchCheck l -> s' = s.

Lemma reply_simulated n st reply σ G v s' :
  batches_read -> sys_inv σ -> data_inv G σ -> shows G (sys_backends σ) v ->
  0 <= ch_request_id (chan_of σ) < 2 ^ 64 - 1 ->
  lab_ok P serves (LReply n st reply) σ (sv_server v) s' -> simulated (LReply n st reply) σ G v s'.
Proof.
  intros Hread Hi Hd Hv Hid Hok. cbn in Hok. destruct (we_calls (sys_worker σ) !! n) as [call|] eqn:Hn;
    [|subst; by apply simulated_idle; cbn; rewrite ?Hn].
  destruct (reply_matches (call_callback call) reply) eqn:Hm;
    [|subst; by apply simulated_idle; cbn; rewrite ?Hn, ?Hm].
  destruct Hi as (R & free & l & Hinv).
  destruct (deliver_spec k n st reply R free l _ _ call Hinv Hn Hm)
    as (w' & R' & Hdel & Hinv' & Hca & Hcq & Hfr & Hview).
  destruct (call_slots_apart R free l _ _ n call Hinv Hn) as (H0 & H1 & H2 & H3 & H4).
  destruct (reply_sessions σ n call st reply Hn Hm G v s' Hd Hv H0 H4 Hok) as (v' & Hrun & Hsh & Hs').
  { intros l0. by apply Hread with st reply. }
  exists (MkSystem w' (sys_backends σ)), (record_reply (call, st, reply) (callback_slots (call_callback call)) G), v'.
  split; [cbn; by rewrite Hn, Hm, Hdel|]. split; [by exists R', free, l|]. split.
  - eapply (reply_data σ n call st reply Hn G w' free l); try done; try apply Hinv; try apply Hinv';
      [apply (rf_id _ _ Hfr)|apply (rf_slots _ _ Hfr)].
  - split_and!; try done; pose proof (rf_id _ _ Hfr) as Hsame; cbn in *; lia.
Qed.

(** ** A backend takes a slot *)
Lemma start_full c i free l pid type store model body :
  chan_repr k c (i :: free) l ->
  let req := MkRequest (u64 (ch_request_id c + 1)) type store model body in
  exists c', start pid type store model body c = (Done i, c') /\ chan_repr k c' free l /\
    chan_slot c' i = Some (MkSlot FGA_CHANNEL_SLOT_PENDING pid (MkPayload req zero_response)) /\
    (forall j, j <> i -> chan_slot c' j = chan_slot c j) /\ ch_request_id c' = u64 (ch_request_id c + 1).
Proof.
  intros Hc req. destruct (chan_acquire_spec k c i free l pid Hc) as (c1 & Ha & Hc1 & Hs1 & Ho1 & Hif & Hid).
  unfold start, mbind, cm_bind. rewrite Ha. unfold fill_slot.
  match goal with |- context [update_slot i ?f] =>
    destruct (chan_update_slot k c1 free l i f _ Hc1 Hs1 Hif) as (c2 & -> & Hc2 & Hsl & Hid2 & _) end.
  destruct (chan_slot_insert c1 c2 i _ _ Hs1 Hsl) as [Hs2 Ho2].
  exists c2. split; [done|]. split; [done|]. split; [exact Hs2|]. split; [|congruence].
  intros j Hj. by rewrite Ho2, Ho1.
Qed.

(** The new tenant's entry replaces the old one's. *)
Lemma acquire_data G σ i pid req c' l free' :
  data_inv G σ -> P req -> 0 <= ch_request_id (chan_of σ) < request_id req ->
  request_id req = ch_request_id c' ->
  chan_repr k (chan_of σ) (i :: free') l -> chan_repr k c' free' l ->
  i ∉ pipeline l (sys_worker σ) -> (forall p ph, sys_backends σ !! p <> Some (ph, i)) ->
  chan_slot c' i = Some (MkSlot FGA_CHANNEL_SLOT_PENDING pid (MkPayload req zero_response)) ->
  (forall j, j <> i -> chan_slot c' j = chan_slot (chan_of σ) j) ->
  data_inv (<[i := MkEntry req None]> G)
    (MkSystem (with_channel (sys_worker σ) c') (<[pid := (Owning, i)]> (sys_backends σ))).
Proof.
  intros Hd HP Hid Hreq Hc Hc' Hpipe Hheld Hs Ho. unfold pipeline in Hpipe.
  rewrite !not_elem_of_app in Hpipe. destruct Hpipe as (Hq & Hfl & Hcq).
  assert (Hkeep : forall j, j <> i -> (<[i := MkEntry req None]> G) !! j = G !! j)
    by (intros j Hj; by rewrite lookup_insert_ne).
  split; cbn.
  - intros j e. unfold slot_read. cbn. destruct (decide (j = i)) as [->|Hj].
    + rewrite lookup_insert_eq, Hs. by intros [= <-].
    + rewrite Hkeep, Ho by done. apply (di_entry _ _ Hd).
  - intros j e. destruct (decide (j = i)) as [->|Hj].
    + rewrite lookup_insert_eq. intros [= <-]. cbn. lia.
    + rewrite Hkeep by done. intros HG. pose proof (di_fresh _ _ Hd j e HG). lia.
  - intros j1 j2 e1 e2 Hj. destruct (decide (j1 = i)) as [->|H1], (decide (j2 = i)) as [->|H2]; try done;
      rewrite ?lookup_insert_eq, ?Hkeep by done.
    + intros [= <-] HG. pose proof (di_fresh _ _ Hd _ _ HG). cbn. lia.
    + intros HG [= <-]. pose proof (di_fresh _ _ Hd _ _ HG). cbn. lia.
    + by apply (di_ids _ _ Hd).
  - intros call j Hcall Hj. assert (Hji : j <> i).
    { intros ->. apply Hfl. unfold inflight. apply list_elem_of_In, in_concat.
      exists (callback_slots (call_callback call)). split; apply list_elem_of_In; [|done].
      by apply (list_elem_of_fmap_2 (callback_slots ∘ call_callback)). }
    rewrite Hkeep by done. by apply (di_call _ _ Hd call).
  - intros free1 l1 v H1 Hv. rewrite (chan_repr_fun k _ _ _ _ _ H1 Hc') in Hv.
    destruct (di_queue _ _ Hd _ l v Hc Hv) as (e & HG & Hn). exists e.
    rewrite Hkeep; [done|]. intros <-. apply Hq. by apply list_elem_of_fmap_2.
  - intros j Hj. destruct (di_completed _ _ Hd j Hj) as (e & HG & Hn). exists e.
    rewrite Hkeep; [done|]. by intros ->.
  - intros j. unfold slot_done. destruct (decide (j = i)) as [->|Hj]; [by rewrite Hs|].
    rewrite Ho by done. intros Hdn. destruct (di_done _ _ Hd j Hdn) as (e & HG & Hn). exists e.
    by rewrite Hkeep.
  - intros p ph j. destruct (decide (p = pid)) as [->|Hp].
    + rewrite lookup_insert_eq. intros [= <- <-]. rewrite lookup_insert_eq. by eexists.
    + rewrite lookup_insert_ne by done. intros HB. rewrite Hkeep; [by apply (di_holder _ _ Hd p)|].
      intros ->. by destruct (Hheld p ph).
Qed.

Lemma acquire_shows G B v pid i req :
  shows G B v -> B !! pid = None -> (forall p ph, B !! p <> Some (ph, i)) ->
  shows (<[i := MkEntry req None]> G) (<[pid := (Owning, i)]> B)
    (MkService (<[pid := Asked req]> (sv_sessions v)) (sv_late v) (sv_server v)).
Proof.
  intros [Hs Hl] HB Hheld. split; cbn.
  - apply map_eq. intros p. rewrite Hs. unfold sessions. destruct (decide (p = pid)) as [->|Hp].
    + rewrite lookup_insert_eq, lookup_omap, lookup_insert_eq. cbn. by rewrite lookup_insert_eq.
    + rewrite lookup_insert_ne, !lookup_omap, lookup_insert_ne by done.
      destruct (B !! p) as [[ph j]|] eqn:HBp; [|done]. cbn.
      rewrite lookup_insert_ne; [done|]. intros ->. by destruct (Hheld p ph).
  - intros j e HG Hn Hh. destruct (decide (j = i)) as [->|Hj].
    + destruct (Hh pid Owning). by rewrite lookup_insert_eq.
    + rewrite lookup_insert_ne in HG by done. apply (Hl j); [done..|]. intros p ph HBp.
      apply (Hh p ph). rewrite lookup_insert_ne; [done|]. congruence.
Qed.

Lemma acquire_simulated pid type store model body σ G v :
  sys_inv σ -> data_inv G σ -> shows G (sys_backends σ) v -> 0 <= ch_request_id (chan_of σ) < 2 ^ 64 - 1 ->
  (forall id, P (MkRequest id type store model body)) ->
  simulated (LAcquire pid type store model body) σ G v (sv_server v).
Proof.
  intros Hi Hd Hv Hid Hok. pose proof Hi as (R & free & l & Hinv). pose proof (pi_chan _ _ _ _ _ _ _ _ _ Hinv) as Hc.
  destruct (acquire_step k config pid type store model body σ Hi) as (σ' & Hs & Hi').
  assert (Hidle : σ' = σ -> simulated (LAcquire pid type store model body) σ G v (sv_server v)).
  { intros ->. apply simulated_idle; try done. cbn. by destruct (sys_backends σ !! pid). }
  pose proof Hs as Hs2. cbn in Hs2. case_decide as Hg; [|injection Hs2 as <-; by apply Hidle].
  destruct Hg as (_ & HB & _). unfold run_channel in Hs2. destruct free as [|i free].
  - pose proof (chan_acquire_exhausted k _ l pid Hc) as Ha.
    rewrite (on_shared_eq (start pid type store model body) _
      (Error (PgError "ERRCODE_OUT_OF_MEMORY" "channel slot pool exhausted")) (chan_of σ)) in Hs2
      by (unfold start, mbind, cm_bind; by rewrite Ha).
    injection Hs2 as <-. apply Hidle. by destruct σ as [[] ?].
  - destruct (start_full _ i free l pid type store model body Hc) as (c' & Hst & Hc' & Hsl & Ho & Hid').
    rewrite (on_shared_eq _ _ _ _ Hst) in Hs2. injection Hs2 as <-. rewrite u64_small in * by lia.
    assert (HR : R !! i = Some Free) by (apply Hinv; by left).
    assert (Hheld : forall p ph, sys_backends σ !! p <> Some (ph, i)).
    { intros p ph HBp. destruct (backend_role k _ _ _ _ _ _ _ _ _ _ _ Hinv HBp) as (r & Hr & Hph).
      rewrite HR in Hr. by injection Hr as <-. }
    set (req := MkRequest (ch_request_id (chan_of σ) + 1) type store model body) in *.
    exists (MkSystem (with_channel (sys_worker σ) c') (<[pid := (Owning, i)]> (sys_backends σ))),
      (<[i := MkEntry req None]> G),
      (MkService (<[pid := Asked req]> (sv_sessions v)) (sv_late v) (sv_server v)).
    split; [done|]. split; [done|]. split; [|split_and!; [|by apply acquire_shows|done|cbn; lia..]].
    + eapply acquire_data; try done; [apply Hok|cbn; lia|].
      rewrite (inv_pipeline k R (i :: free) l _ _ i Hinv). intros (r & st & Hr & Hst'). rewrite HR in Hr.
      by injection Hr as <-.
    + cbn. rewrite HB, lookup_insert_eq. unfold slot_read. cbn. rewrite Hsl. cbn.
      eapply RunEvent; [|constructor]. apply ServiceAsk. rewrite (sh_sessions _ _ _ Hv).
      unfold sessions. by rewrite lookup_omap, HB.
Qed.

Lemma step_simulated lab σ G v s' :
  batches_read -> sys_inv σ -> data_inv G σ -> shows G (sys_backends σ) v ->
  0 <= ch_request_id (chan_of σ) < 2 ^ 64 - 1 ->
  lab_ok P serves lab σ (sv_server v) s' -> simulated lab σ G v s'.
Proof.
  intros Hread Hi Hd Hv Hid Hok. destruct lab; try (cbn in Hok; subst s').
  - destruct Hok as [-> Hok]. by apply acquire_simulated.
  - by apply enqueue_simulated.
  - by apply poll_simulated.
  - by apply interrupt_simulated.
  - by apply release_simulated.
  - by apply exit_simulated.
  - by apply worker_simulated.
  - by apply reply_simulated.
Qed.

Lemma trace_simulated labs σ G v sf :
  batches_read -> sys_inv σ -> data_inv G σ -> shows G (sys_backends σ) v -> 0 <= ch_request_id (chan_of σ) ->
  ch_request_id (chan_of σ) + Z.of_nat (length labs) < 2 ^ 64 ->
  labs_end config P serves labs σ (sv_server v) sf ->
  exists evs σ' G' v', sys_trace config labs σ = Done (evs, σ') /\ service_run v evs v' /\ sv_server v' = sf /\
    sys_inv σ' /\ data_inv G' σ' /\ shows G' (sys_backends σ') v' /\
    0 <= ch_request_id (chan_of σ') <= ch_request_id (chan_of σ) + Z.of_nat (length labs).
Proof.
  intros Hread. revert σ G v. induction labs as [|lab labs IH]; intros σ G v Hi Hd Hv Hid Hlen Hok; cbn [sys_trace].
  { exists [], σ, G, v. split_and!; try done; [constructor|cbn; lia]. }
  cbn [length] in *. destruct Hok as (s' & Hok & Hrest).
  destruct (step_simulated lab σ G v s' Hread Hi Hd Hv ltac:(lia) Hok)
    as (σ1 & G1 & v1 & Hs & Hi1 & Hd1 & Hrun & Hv1 & Hs1 & Hid1).
  pose proof (Hrest σ1 Hs) as Hrest1. rewrite <- Hs1 in Hrest1.
  destruct (IH σ1 G1 v1 Hi1 Hd1 Hv1 ltac:(lia) ltac:(lia) Hrest1)
    as (evs & σ' & G' & v' & Ht & Hrun' & Hend & Hi' & Hd' & Hv' & Hid').
  rewrite Hs. cbn. rewrite Ht. cbn. eexists _, σ', G', v'.
  split_and!; try done; [by eapply service_run_app|lia..].
Qed.

Lemma initial_data σ : initial_system k σ -> data_inv ∅ σ.
Proof.
  intros (free & Hc & Hf & Hca & Hco & HB). split; rewrite ?Hca, ?Hco, ?HB; try done.
  - by intros call i H%elem_of_nil.
  - intros free1 l v H1 Hv. rewrite (chan_repr_fun k _ _ _ _ _ H1 Hc) in Hv. by apply elem_of_nil in Hv.
  - by intros i H%elem_of_nil.
  - intros i. unfold slot_done, chan_slot. destruct (pool_slots _ !! i) as [s|] eqn:Hs; [|done]. cbn.
    intros [= Hst]. pose proof (pr_empty _ _ (cr_pool _ _ _ _ Hc) i s) as He.
    rewrite He in Hst; [done| |done]. apply Hf. by eapply lookup_lt_Some.
Qed.

(** The runs of the system from startup are runs of the service. *)
Lemma system_ends_service labs σ s sf :
  batches_read -> initial_system k σ -> 0 <= ch_request_id (chan_of σ) ->
  ch_request_id (chan_of σ) + Z.of_nat (length labs) < 2 ^ 64 -> labs_end config P serves labs σ s sf ->
  exists evs σ' G' v, sys_trace config labs σ = Done (evs, σ') /\ service_run (MkService ∅ [] s) evs v /\
    sv_server v = sf /\ sys_inv σ' /\ data_inv G' σ' /\ shows G' (sys_backends σ') v /\
    0 <= ch_request_id (chan_of σ') <= ch_request_id (chan_of σ) + Z.of_nat (length labs).
Proof.
  intros Hread H0 Hid Hlen Hok. pose proof H0 as (_ & _ & _ & _ & _ & HB).
  apply (trace_simulated labs σ ∅ (MkService ∅ [] s) sf Hread); try done;
    [by apply initial_inv|by apply initial_data|]. rewrite HB. split; [done|]. done.
Qed.

(** A run in two parts, and the server in between. *)
Lemma system_ends_service_twice before labs σ0 σ evs0 s sb sa :
  batches_read -> initial_system k σ0 -> 0 <= ch_request_id (chan_of σ0) ->
  ch_request_id (chan_of σ0) + Z.of_nat (length (before ++ labs)) < 2 ^ 64 ->
  labs_end config P serves before σ0 s sb -> sys_trace config before σ0 = Done (evs0, σ) ->
  labs_end config P serves labs σ sb sa ->
  exists v0 evs σ' v,
    service_run (MkService ∅ [] s) evs0 v0 /\ sv_server v0 = sb /\
    sys_trace config labs σ = Done (evs, σ') /\ service_run v0 evs v /\ sv_server v = sa.
Proof.
  intros Hread H0 Hid Hlen Hok0 Hrun Hok. rewrite length_app in Hlen.
  destruct (system_ends_service before σ0 s sb Hread H0 Hid ltac:(lia) Hok0)
    as (evs1 & σ1 & G & v0 & Ht0 & Hr0 & <- & Hi & Hd & Hv & Hid1).
  rewrite Hrun in Ht0. injection Ht0 as <- <-.
  destruct (trace_simulated labs σ G v0 sa Hread Hi Hd Hv ltac:(lia) ltac:(lia) Hok)
    as (evs & σ' & G' & v & Ht & Hr & Hs & _).
  exists v0, evs, σ', v. by split_and!.
Qed.

Lemma system_runs_service labs σ s :
  batches_read -> initial_system k σ -> 0 <= ch_request_id (chan_of σ) ->
  ch_request_id (chan_of σ) + Z.of_nat (length labs) < 2 ^ 64 -> labs_ok config P serves labs σ s ->
  exists evs σ' v, sys_trace config labs σ = Done (evs, σ') /\ service_run (MkService ∅ [] s) evs v.
Proof.
  intros Hread H0 Hid Hlen [sf Hend]%labs_ok_end.
  destruct (system_ends_service labs σ s sf Hread H0 Hid Hlen Hend) as (evs & σ' & G' & v & Ht & Hr & _).
  by exists evs, σ', v.
Qed.
End Ledger.
