(* ===== verification/Refinement.v ===== *)
(** * The system refines the service, and what follows for its users

    The refinement of [Service] by the system of [Protocol], for any server; the
    decisions that concurrent, batched checks read; and the visibility of a
    write for the checks of all backends that are asked after it. *)
From S2P Require Import Prelude Platform Types SlotQueue SlotPool Channel Config Client Processor.
From S2P Require Import Protocol Frames Service Ledger.

Section Refinement.
Context {L : Type} {HS : SList L} {HL : SListLaws L}.
Variable k : Z.
Variable config : Config.
Variable P : FgaRequest -> Prop.
Context {S : Type}.
Variable serves : S -> rpc_call -> GrpcStatus -> rpc_response -> S -> Prop.

(** C4. The system refines the question-answer service.  From startup, for fewer
    than 2^64 steps in any order, with backends that are interrupted or die,
    batched calls and a server that replies in any order and whose state only
    calls for a single request change: no step is undefined, and what the
    processes see is a run of the service.  So a process reads the answer to
    its own request and never another's, each question is served at most once,
    and every answer is what the completion callback makes of a reply of the
    server to a call that carries exactly the request of the process: a call of
    its own, or a batch in which its correlation id is unique.  Interrupted
    backends release their slot once, as [fga_check] does. *)
Theorem system_refines_service labs (σ : system L) s :
  batches_read serves -> initial_system k σ -> 0 <= ch_request_id (we_channel (sys_worker σ)) ->
  ch_request_id (we_channel (sys_worker σ)) + Z.of_nat (length labs) < 2 ^ 64 ->
  labs_ok config P serves labs σ s ->
  exists evs σ' v, sys_trace config labs σ = Done (evs, σ') /\
    service_run (answered_by config P serves) (MkService ∅ [] s) evs v.
Proof. apply system_runs_service. Qed.
End Refinement.

(** ** Servers that decide checks

    The server's state and its reaction to a call; a check, alone or in a batch,
    is decided in the present state and does not change it. *)
Class CheckServer (S : Type) : Type := {
  srv_exec : S -> rpc_call -> S * (GrpcStatus * rpc_response);
  srv_decides : S -> list ascii -> list ascii -> TupleKey -> bool;
  srv_check s call : (exists i, call_callback call = OnCheck i) \/ (exists l, call_callback call = OnBatchCheck l) ->
    srv_exec s call = (s, deciding_server (srv_decides s) call);
}.

Definition served_by {S} `{CheckServer S} (s : S) (call : rpc_call) (st : GrpcStatus)
    (reply : rpc_response) (s' : S) : Prop := srv_exec s call = (s', (st, reply)).

Lemma served_by_batches {S} `{CheckServer S} : batches_read (S := S) served_by.
Proof.
  intros s call st reply s' l Hs Hl. unfold served_by in Hs. rewrite srv_check in Hs by eauto.
  by injection Hs.
Qed.

(** The server that always decides by one function. *)
#[export, refine] Instance constant_server (decides : list ascii -> list ascii -> TupleKey -> bool) :
  CheckServer unit := {
  srv_exec s call := (s, deciding_server decides call);
  srv_decides _ := decides;
}.
Proof. done. Defined.

Definition granted_response (allowed : bool) : FgaResponse :=
  MkResponse FGA_RESPONSE_OK (error_message zero_response) (RespCheckTuple allowed).

Section OneStore.
Context {S : Type} {HC : CheckServer S}.
Variable config : Config.
Variables store model : list ascii.
Variable Q : FgaRequest -> Prop.     (* what else is known of the requests *)

(** The requests about tuples; the others create and delete stores. *)
Definition about_tuple (req : FgaRequest) : Prop :=
  req_type req ∈ request_type_code <$> [FGA_REQUEST_CHECK; FGA_REQUEST_WRITE_TUPLE; FGA_REQUEST_DELETE_TUPLE].

(** All backends check, write and delete tuples in one store and model. *)
Definition one_store (req : FgaRequest) : Prop :=
  (about_tuple req -> req_store_id req = store /\ req_model_id req = model) /\ Q req.

Lemma one_store_at t req : one_store req -> req_type req = request_type_code t ->
  t ∈ [FGA_REQUEST_CHECK; FGA_REQUEST_WRITE_TUPLE; FGA_REQUEST_DELETE_TUPLE] ->
  req_store_id req = store /\ req_model_id req = model.
Proof.
  intros [Hone _] Ht Hin. apply Hone. unfold about_tuple. rewrite Ht. by apply list_elem_of_fmap_2.
Qed.

Lemma is_check_type p : is_check (make_request_variant p) = true ->
  req_type (request p) = request_type_code FGA_REQUEST_CHECK.
Proof.
  unfold make_request_variant. repeat case_match; try done. intros _. by apply Z.eqb_eq.
Qed.

Definition decided_tuple (s : S) (req : FgaRequest) : bool :=
  srv_decides s (c_str store) (c_str model) (fill_tuple_key (body_tuple (req_body req))).

Lemma check_answer s req resp s' :
  answered_by config one_store served_by s req resp s' ->
  req_type req = request_type_code FGA_REQUEST_CHECK ->
  s' = s /\ resp = granted_response (decided_tuple s req).
Proof.
  intros (call & st & reply & Hask & _ & Hs & ->) Ht. unfold served_by in Hs. unfold decided_tuple.
  destruct Hask as [now i Hin HP|now items i Hb Hin Hnd Hall].
  - destruct (one_store_at _ _ HP Ht ltac:(by left)) as [Hst Hm].
    unfold process, make_request_variant in Hin. cbn [request] in Hin. rewrite Ht, Z.eqb_refl in Hin.
    apply list_elem_of_singleton in Hin as ->. rewrite srv_check in Hs by eauto. injection Hs as <- <- <-.
    unfold fill_check_request, variant_store_id, variant_model_id. cbn. by rewrite Hst, Hm.
  - destruct items as [|first items]; [done|]. injection Hb as <-.
    rewrite srv_check in Hs by eauto. injection Hs as <- <- <-. split; [done|].
    destruct (Hall first ltac:(by left)) as [Hc HP].
    destruct (one_store_at _ _ HP (is_check_type _ Hc) ltac:(by left)) as [Hst Hm].
    set (key := fill_tuple_key (body_tuple (req_body req))).
    assert (Hl : server_results (srv_decides s (c_str store) (c_str model)) (batch_check <$> first :: items)
      !! to_string (request_id req) = Some (ResultAllowed (srv_decides s (c_str store) (c_str model) key))).
    { apply server_results_lookup; [done|]. exact (list_elem_of_fmap_2 batch_check _ _ Hin). }
    unfold variant_store_id, variant_model_id.
    cbn [call_callback call_request fst snd reply_update st_ok request response].
    rewrite Hst, Hm. etransitivity; [exact (f_equal (fun r => batch_result r zero_response) Hl)|done].
Qed.

Lemma answered_request s req resp s' :
  answered_by config one_store served_by s req resp s' -> one_store req.
Proof.
  intros (call & st & reply & [now i _ HP|now items i _ Hin _ Hall] & _); [done|].
  by apply (Hall _ Hin).
Qed.
End OneStore.

Section System.
Context {L : Type} {HS : SList L} {HL : SListLaws L}.
Variable k : Z.
Variable config : Config.
Variables store model : list ascii.

(** Checks are decided right under any concurrency.  Whatever the number of
    backends, the batching of their requests, the order of turns, replies,
    interrupts and deaths: with one store and model configured and a server
    that decides the checks it is asked, every backend that reads the answer to
    a check reads an OK response with the decision for its own tuple. *)
Theorem concurrent_checks_are_decided decides labs (σ : system L) :
  initial_system k σ -> 0 <= ch_request_id (we_channel (sys_worker σ)) ->
  ch_request_id (we_channel (sys_worker σ)) + Z.of_nat (length labs) < 2 ^ 64 ->
  labs_ok config (one_store store model (fun _ => True))
    (served_by (H := constant_server decides)) labs σ tt ->
  exists evs σ', sys_trace config labs σ = Done (evs, σ') /\
    forall pid req resp, EvTake pid req resp ∈ evs ->
      req_type req = request_type_code FGA_REQUEST_CHECK ->
      resp = granted_response
        (decides (c_str store) (c_str model) (fill_tuple_key (body_tuple (req_body req)))).
Proof.
  intros H0 Hid Hlen Hok. set (HC := constant_server decides) in *.
  destruct (system_runs_service k config _ _ labs σ tt served_by_batches H0 Hid Hlen Hok)
    as (evs & σ' & v & Ht & Hrun).
  exists evs, σ'. split; [done|]. intros pid req resp Hin Hty.
  destruct (service_run_answered _ _ _ _ _ _ _ Hrun ltac:(by intros ???) Hin) as (s & s' & Ha).
  by apply check_answer in Ha as [_ ->].
Qed.

(** ** Changes of a tuple *)
Context {S : Type} {HC : CheckServer S}.
Variable Q : FgaRequest -> Prop.
Variable key : TupleKey.
Variable b : bool.                   (* the tuple is written, or deleted *)

Definition asks_tuple (type : FgaRequestType) (req : FgaRequest) : Prop :=
  req_type req = request_type_code type /\ fill_tuple_key (body_tuple (req_body req)) = key.

Definition changing_type : FgaRequestType :=
  if b then FGA_REQUEST_WRITE_TUPLE else FGA_REQUEST_DELETE_TUPLE.

Definition change_rpc : rpc_request :=
  RpcWrite (if b then MkWrite (c_str store) (c_str model) (Some (str "ignore", [key])) None
            else MkWrite (c_str store) [] None (Some (str "ignore", [key]))).

Definition settled (s : S) : Prop := srv_decides s (c_str store) (c_str model) key = b.

(** What the server promises: a change it accepts settles the decision, and no
    request of the backends unsettles it. *)
Definition changes_settle : Prop := forall s call req s' st reply,
  call_asks config (one_store store model Q) call req ->
  srv_exec s call = (s', (st, reply)) -> st_ok st = true -> call_request call = change_rpc -> settled s'.
Definition stays_settled : Prop := forall s call req s' st reply,
  call_asks config (one_store store model Q) call req ->
  srv_exec s call = (s', (st, reply)) -> settled s -> settled s'.

Abbreviation answers := (answered_by config (one_store store model Q) served_by) (only parsing).

Lemma change_answer s req resp s' :
  changes_settle -> answers s req resp s' -> asks_tuple changing_type req ->
  status resp = FGA_RESPONSE_OK -> settled s'.
Proof.
  intros Hch (call & st & reply & Hask & _ & Hs & ->) [Ht Hk] HOK. pose proof Hask as Hask0.
  destruct Hask as [now i Hin HP|now items i _ Hin _ Hall].
  - destruct (one_store_at _ _ _ _ _ HP Ht ltac:(unfold changing_type; destruct b; set_solver)) as [Hst Hm].
    unfold process, make_request_variant in Hin. cbn [request] in Hin. rewrite Ht in Hin.
    apply (Hch s call req s' st reply Hask0 Hs); unfold changing_type, change_rpc in *; destruct b;
      cbn in Hin; apply list_elem_of_singleton in Hin as ->; cbn in HOK;
      try (by destruct (st_ok st)); cbn;
      unfold fill_write_request, fill_delete_request, variant_store_id, variant_model_id; cbn;
      by rewrite Hk, Hst, ?Hm.
  - destruct (Hall _ Hin) as [Hc _]. unfold make_request_variant in Hc. cbn [snd request] in Hc.
    rewrite Ht in Hc. unfold changing_type in Hc. by destruct b.
Qed.

Lemma answer_settled s req resp s' :
  stays_settled -> answers s req resp s' -> settled s -> settled s'.
Proof. intros Hst (call & st & reply & Hask & _ & Hs & _). by eapply Hst. Qed.

(** Once the answer to a change is there, the server has settled. *)
Definition changed (v : service (S := S)) : Prop := forall pid req resp,
  sv_sessions v !! pid = Some (Answered req resp) -> asks_tuple changing_type req ->
  status resp = FGA_RESPONSE_OK -> settled (sv_server v).

Lemma step_stays_settled v o v' :
  stays_settled -> service_step answers v o v' -> settled (sv_server v) -> settled (sv_server v').
Proof. intros Hst []; cbn; try done; by eapply answer_settled. Qed.

Lemma step_changed v o v' :
  changes_settle -> stays_settled -> service_step answers v o v' -> changed v -> changed v'.
Proof.
  intros Hch Hst Hs Hcd p rq rs Hp Ht HOK. revert Hp.
  assert (Hold : sv_sessions v !! p = Some (Answered rq rs) -> settled (sv_server v')).
  { intros Hp. eapply step_stays_settled; [done..|]. by eapply Hcd. }
  destruct Hs as [pid req|pid req resp s' Ha Hans|pid req resp|pid|l1 req l2 resp s' _ Hans]; cbn in *;
    try (destruct (decide (p = pid)) as [->|Hne];
      [rewrite ?lookup_insert_eq, ?lookup_delete_eq|rewrite ?lookup_insert_ne, ?lookup_delete_ne by done]);
    try done.
  intros [= <- <-]. by eapply change_answer.
Qed.

(** A question asked once the server has settled. *)
Definition asked_settled (pid : Z) (creq : FgaRequest) (v : service (S := S)) : Prop :=
  settled (sv_server v) /\
  forall se, sv_sessions v !! pid = Some se -> se = Asked creq \/ se = Answered creq (granted_response b).

Lemma step_asked_settled pid creq v o v' :
  stays_settled -> asks_tuple FGA_REQUEST_CHECK creq -> service_step answers v o v' ->
  (forall ev, o = Some ev -> forall req, ev <> EvAsk pid req) ->
  asked_settled pid creq v -> asked_settled pid creq v'.
Proof.
  intros Hst [Hct Hck] Hs Hno [Hset Hse]. split; [by eapply step_stays_settled|]. intros se.
  destruct Hs as [p req|p req resp s' Ha Hans|p req resp|p|l1 req l2 resp s' _ Hans]; cbn in *;
    try (destruct (decide (pid = p)) as [->|Hne];
      [rewrite ?lookup_insert_eq, ?lookup_delete_eq|rewrite ?lookup_insert_ne, ?lookup_delete_ne by done]);
    try done; try apply Hse.
  - by destruct (Hno _ eq_refl req).
  - destruct (Hse _ Ha) as [[= ->]|[=]]. intros [= <-]. right.
    destruct (check_answer _ _ _ _ _ _ _ _ Hans Hct) as [_ ->]. unfold decided_tuple.
    by rewrite Hck, Hset.
Qed.

(** A check that is asked after the answer to a change. *)
Lemma service_change_visible s e1 pid wreq wresp e2 pid' creq e3 creq' cresp e4 v :
  changes_settle -> stays_settled ->
  service_run answers (MkService ∅ [] s)
    (e1 ++ EvTake pid wreq wresp :: e2 ++ EvAsk pid' creq :: e3 ++ EvTake pid' creq' cresp :: e4) v ->
  asks_tuple changing_type wreq -> status wresp = FGA_RESPONSE_OK ->
  asks_tuple FGA_REQUEST_CHECK creq -> (forall req, EvAsk pid' req ∉ e3) ->
  creq' = creq /\ cresp = granted_response b.
Proof.
  intros Hch Hst Hrun Hw HOK Hcr Hno.
  apply service_run_split in Hrun as (u1 & v1 & R1 & S1 & R).
  apply service_run_split in R as (u2 & v2 & R2 & S2 & R).
  apply service_run_split in R as (u3 & v3 & R3 & S3 & _).
  inversion S1; inversion S2; inversion S3; subst.
  assert (Hset : settled (sv_server u1)).
  { eapply (service_run_keeps answers changed (fun _ => True)); [|exact R1|done..].
    intros ?????. by eapply step_changed. }
  assert (Hset2 : settled (sv_server u2)).
  { eapply (service_run_keeps answers (fun v => settled (sv_server v)) (fun _ => True)); [|exact R2|done..].
    intros ?????. by eapply step_stays_settled. }
  assert (Hset3 : asked_settled pid' creq u3).
  { eapply (service_run_keeps answers (asked_settled pid' creq) (fun ev => forall req, ev <> EvAsk pid' req));
      [|exact R3| |].
    - intros ?????. by eapply step_asked_settled.
    - intros ev Hin req ->. by apply (Hno req).
    - split; [done|]. intros se. cbn. rewrite lookup_insert_eq. intros [= <-]. by left. }
  destruct Hset3 as [_ Hse]. edestruct Hse as [Hf|Hf]; [eassumption|done|]. by injection Hf as -> ->.
Qed.

(** Changes of tuples are visible to all backends.  When a backend has read an
    OK answer to its write (or deletion) of a tuple, then every check of that
    tuple that any backend asks from then on is granted (or denied), however the
    requests of other backends are interleaved and batched, as long as the
    server settles on the changes it accepts and no request of the backends
    unsettles it.  The backend reads the answer to its own check. *)
Theorem tuple_changes_are_visible labs (σ : system L) s :
  changes_settle -> stays_settled ->
  initial_system k σ -> 0 <= ch_request_id (we_channel (sys_worker σ)) ->
  ch_request_id (we_channel (sys_worker σ)) + Z.of_nat (length labs) < 2 ^ 64 ->
  labs_ok config (one_store store model Q) served_by labs σ s ->
  exists evs σ', sys_trace config labs σ = Done (evs, σ') /\
    forall e1 pid wreq wresp e2 pid' creq e3 creq' cresp e4,
      evs = e1 ++ EvTake pid wreq wresp :: e2 ++ EvAsk pid' creq :: e3 ++ EvTake pid' creq' cresp :: e4 ->
      asks_tuple changing_type wreq -> status wresp = FGA_RESPONSE_OK ->
      asks_tuple FGA_REQUEST_CHECK creq -> (forall req, EvAsk pid' req ∉ e3) ->
      creq' = creq /\ cresp = granted_response b.
Proof.
  intros Hch Hst H0 Hid Hlen Hok.
  destruct (system_runs_service k config _ _ labs σ s served_by_batches H0 Hid Hlen Hok)
    as (evs & σ' & v & Ht & Hrun).
  exists evs, σ'. split; [done|]. intros e1 pid wreq wresp e2 pid' creq e3 creq' cresp e4 ->.
  by apply (service_change_visible s e1 pid wreq wresp e2 pid' creq e3 creq' cresp e4 v).
Qed.
End System.

(** ** Two backends and a server *)
Definition doc_tuple (id : string) : FgaTuple :=
  MkTuple (str "doc") (str id) (str "user") (str "bob") (str "read").
Definition doc_body (type : FgaRequestType) (id : string) : FgaRequestBody :=
  if decide (type = FGA_REQUEST_CHECK) then ReqCheckTuple (doc_tuple id) else ReqWriteTuple (doc_tuple id).
Definition ask_label (type : FgaRequestType) (pid : Z) (id : string) : label :=
  LAcquire pid (request_type_code type) (str "s1") [] (doc_body type id).
Definition doc_request (type : FgaRequestType) (id : Z) (doc : string) : FgaRequest :=
  MkRequest id (request_type_code type) (str "s1") [] (doc_body type doc).

(** The system after [labs], for the server to see the calls. *)
Definition after (labs : list label) : system linked :=
  match sys_run client_config_sample labs sample_system with
  | Done σ => σ
  | _ => sample_system
  end.

(** The server replies to call [n]. *)
Definition serve_label {S} `{CheckServer S} (s : S) (σ : system linked) (n : nat) : label :=
  match we_calls (sys_worker σ) !! n with
  | Some call => LReply n (srv_exec s call).2.1 (srv_exec s call).2.2
  | None => LWorker 0
  end.

(** The store and model of a concrete request, if it is about a tuple. *)
Ltac one_store_now :=
  let Hin := fresh in
  intros Hin;
  first [by split | exfalso; unfold about_tuple in Hin; apply (bool_decide_eq_true_2 _) in Hin;
                   vm_compute in Hin; discriminate].

(** One label of a concrete run, with the server's reply evaluated. *)
Ltac lab_step :=
  eapply labs_ok_cons;
    [lazymatch goal with
     | |- lab_ok _ _ (serve_label _ _ _) _ _ _ => vm_compute; reflexivity
     | |- lab_ok _ _ ?lab _ _ _ =>
         lazymatch eval hnf in lab with
         | LAcquire _ _ _ _ _ => split; [exact eq_refl|intros id; split; [one_store_now|done]]
         | _ => exact eq_refl
         end
     end
    |vm_compute; reflexivity|].

(** The checks of two backends in one batch. *)
Definition ask_labels : list label :=
  [ask_label FGA_REQUEST_CHECK 11 "1"; LEnqueue 11; ask_label FGA_REQUEST_CHECK 12 "2"; LEnqueue 12;
   LWorker 0].

Definition only_doc_1 : list ascii -> list ascii -> TupleKey -> bool :=
  fun _ _ key => bool_decide (tk_object key = str "doc:1").

Definition concurrent_labels : list label :=
  ask_labels ++ [serve_label (H := constant_server only_doc_1) tt (after ask_labels) 0;
                 LWorker 1; LPoll 11; LPoll 12; LRelease 12; LRelease 11].

Definition concurrent_events : list event :=
  let check := doc_request FGA_REQUEST_CHECK in
  [EvAsk 11 (check 8 "1"); EvAsk 12 (check 9 "2");
   EvTake 12 (check 9 "2") (granted_response false); EvTake 11 (check 8 "1") (granted_response true)].

Lemma concurrent_labels_ok :
  labs_ok client_config_sample (one_store (str "s1") [] (fun _ => True))
    (served_by (H := constant_server only_doc_1)) concurrent_labels sample_system tt.
Proof.
  unfold concurrent_labels, ask_labels. cbn [app].
  do 11 lab_step.
  exact I.
Qed.

Lemma system_refines_service_witness :
  exists v, service_run (answered_by client_config_sample (one_store (str "s1") [] (fun _ => True))
    (served_by (H := constant_server only_doc_1))) (MkService ∅ [] tt) concurrent_events v.
Proof.
  destruct (system_refines_service 2 client_config_sample (one_store (str "s1") [] (fun _ => True))
    (served_by (H := constant_server only_doc_1)) concurrent_labels sample_system tt served_by_batches
    sample_initial ltac:(decide_now) ltac:(decide_now) concurrent_labels_ok) as (evs & σ' & v & Ht & Hrun).
  exists v. vm_compute in Ht. injection Ht as <- _. exact Hrun.
Defined.

Lemma concurrent_checks_are_decided_witness :
  exists evs σ', sys_trace client_config_sample concurrent_labels sample_system = Done (evs, σ') /\
    EvTake 12 (doc_request FGA_REQUEST_CHECK 9 "2") (granted_response false) ∈ evs /\
    granted_response false = granted_response (only_doc_1 (str "s1") [] (fill_tuple_key (doc_tuple "2"))).
Proof.
  destruct (concurrent_checks_are_decided 2 client_config_sample (str "s1") [] only_doc_1
    concurrent_labels sample_system sample_initial ltac:(decide_now) ltac:(decide_now)
    concurrent_labels_ok) as (evs & σ' & Ht & Hdec).
  exists evs, σ'. split; [exact Ht|]. pose proof Ht as Ht2. vm_compute in Ht2. injection Ht2 as <- _.
  assert (Hin : EvTake 12 (doc_request FGA_REQUEST_CHECK 9 "2") (granted_response false) ∈ concurrent_events)
    by (right; right; by left).
  split; [exact Hin|]. exact (Hdec _ _ _ Hin eq_refl).
Defined.

(** ** A write that is visible to the check of another backend

    A server of one store: it grants the tuples it holds. *)
Definition tuple_server (s : list TupleKey) (call : rpc_call) : list TupleKey * (GrpcStatus * rpc_response) :=
  (match call_callback call, call_request call with
   | (OnWrite _ | OnDelete _), RpcWrite w =>
       from_option snd [] (wr_writes w) ++
       filter (fun key => key ∉ from_option snd [] (wr_deletes w)) s
   | _, _ => s
   end, deciding_server (fun _ _ key => bool_decide (key ∈ s)) call).

#[export, refine] Instance tuple_store : CheckServer (list TupleKey) := {
  srv_exec := tuple_server;
  srv_decides s _ _ key := bool_decide (key ∈ s);
}.
Proof.
  intros s call [[i Hc]|[l Hc]]; unfold tuple_server; by rewrite Hc.
Defined.

Section TupleStore.
Variable key : TupleKey.
Variables store model : list ascii.

Definition not_deleting (req : FgaRequest) : Prop :=
  req_type req <> request_type_code FGA_REQUEST_DELETE_TUPLE.

(** What the calls of backends that do not delete do to the server's tuples. *)
Lemma tuple_server_call s call req :
  call_asks client_config_sample (one_store store model not_deleting) call req ->
  (tuple_server s call).1 = s /\ (forall w, call_request call <> RpcWrite w) \/
  exists key' st m, call_request call = RpcWrite (MkWrite st m (Some (str "ignore", [key'])) None) /\
    (tuple_server s call).1 = key' :: filter (fun key => key ∉ []) s.
Proof.
  intros [now i Hin [_ Hreq]|now items i Hb _ _ _].
  - unfold process, make_request_variant in Hin. cbn [request] in Hin. unfold not_deleting in Hreq.
    repeat case_match; cbn in Hin;
      try (by apply elem_of_nil in Hin); apply list_elem_of_singleton in Hin as ->; try (by left).
    + right. unfold tuple_server. cbn. eauto 10.
    + exfalso. apply Hreq. by apply Z.eqb_eq.
  - destruct items; [done|]. injection Hb as <-. by left.
Qed.

Lemma tuple_server_settles :
  changes_settle client_config_sample store model not_deleting key true.
Proof.
  intros s call req s' st reply Hask Hs _ Hreq. change (tuple_server s call = (s', (st, reply))) in Hs.
  apply (bool_decide_eq_true_2 (key ∈ s')).
  apply (tuple_server_call s) in Hask as [[_ Hn]|(key' & st' & m & Hc & He)]; [by destruct (Hn _ Hreq)|].
  rewrite Hs in He. cbn in He. subst s'. rewrite Hreq in Hc. injection Hc as _ _ <-. by left.
Qed.

Lemma tuple_server_stays : stays_settled client_config_sample store model not_deleting key true.
Proof.
  intros s call req s' st reply Hask Hs Hset. change (tuple_server s call = (s', (st, reply))) in Hs.
  apply (bool_decide_eq_true_1 (key ∈ s)) in Hset. apply (bool_decide_eq_true_2 (key ∈ s')).
  apply (tuple_server_call s) in Hask as [[He _]|(key' & st' & m & _ & He)];
    rewrite Hs in He; cbn in He; subst s'; [done|].
  right. apply list_elem_of_filter. by split; [apply not_elem_of_nil|].
Qed.
End TupleStore.

(** Backend 11 writes a tuple and takes the answer; then backend 12 checks it. *)
Definition write_labels : list label :=
  [ask_label FGA_REQUEST_WRITE_TUPLE 11 "1"; LEnqueue 11; LWorker 0].
Definition written_labels : list label :=
  write_labels ++ [serve_label [] (after write_labels) 0; LWorker 1; LPoll 11; LRelease 11;
                   ask_label FGA_REQUEST_CHECK 12 "1"; LEnqueue 12; LWorker 2].
Definition doc_key : TupleKey := fill_tuple_key (doc_tuple "1").
Definition visible_labels : list label :=
  written_labels ++ [serve_label [doc_key] (after written_labels) 0; LWorker 3; LPoll 12; LRelease 12].

Lemma visible_labels_ok :
  labs_ok client_config_sample (one_store (str "s1") [] not_deleting) served_by
    visible_labels sample_system [].
Proof.
  unfold visible_labels, written_labels, write_labels. cbn [app]. do 14 lab_step. exact I.
Qed.

Lemma tuple_changes_are_visible_witness :
  exists evs σ', sys_trace client_config_sample visible_labels sample_system = Done (evs, σ') /\
    EvTake 12 (doc_request FGA_REQUEST_CHECK 9 "1") (granted_response true) ∈ evs.
Proof.
  destruct (tuple_changes_are_visible 2 client_config_sample (str "s1") [] not_deleting doc_key true
    visible_labels sample_system [] (tuple_server_settles _ _ _) (tuple_server_stays _ _ _)
    sample_initial ltac:(decide_now) ltac:(decide_now) visible_labels_ok) as (evs & σ' & Ht & Hvis).
  exists evs, σ'. split; [exact Ht|]. vm_compute in Ht. injection Ht as <- _.
  specialize (Hvis [EvAsk 11 (doc_request FGA_REQUEST_WRITE_TUPLE 8 "1")] _ _ _ []
    _ _ [] _ _ [] eq_refl).
  edestruct Hvis as [_ Hc]; [by split|done|by split|intros req; apply not_elem_of_nil|].
  rewrite <- Hc. do 3 right. by left.
Defined.
