(* ===== verification/Effects.v ===== *)
(** * How often a request reaches the server

    Counting on runs of the service: a request that a process asked is answered
    at most once, and every answer taken was given.  With the log of the calls
    as the server's state this bounds how often the program sends a change. *)
From S2P Require Import Prelude Platform Types SlotQueue SlotPool Channel Config Client Processor.
From S2P Require Import Protocol Frames Service Ledger Refinement.

(** ** Sessions by number *)
Definition sessions_that (f : session -> bool) (m : gmap Z session) : nat :=
  length (filter (fun se => f se = true) (map_to_list m).*2).

Lemma sessions_that_insert (f : session -> bool) m pid se : m !! pid = None ->
  sessions_that f (<[pid := se]> m) = ((if f se then 1 else 0) + sessions_that f m)%nat.
Proof.
  intros Hn. unfold sessions_that. rewrite map_to_list_insert by done. csimpl.
  rewrite filter_cons. by destruct (f se).
Qed.

Lemma sessions_that_delete (f : session -> bool) m pid se : m !! pid = Some se ->
  sessions_that f m = ((if f se then 1 else 0) + sessions_that f (delete pid m))%nat.
Proof.
  intros Hs. rewrite <- (sessions_that_insert f (delete pid m) pid se) by apply lookup_delete_eq.
  by rewrite insert_delete_id.
Qed.

Lemma sessions_that_replace (f : session -> bool) m pid se se' : m !! pid = Some se ->
  ((if f se then 1 else 0) + sessions_that f (<[pid := se']> m) =
   (if f se' then 1 else 0) + sessions_that f m)%nat.
Proof.
  intros Hs. rewrite (sessions_that_delete f (<[pid := se']> m) pid se') by apply lookup_insert_eq.
  rewrite delete_insert_eq, (sessions_that_delete f m pid se Hs). lia.
Qed.

(** ** Counting *)
Section Counting.
Variable config : Config.
Variable rq : rpc_request.

(** The single call a request of a backend leads to. *)
Definition asks_rpc (req : FgaRequest) : bool :=
  bool_decide (call_request <$> process config 0 0 (MkPayload req zero_response) = [rq]).

Definition times_asked (evs : list event) : nat :=
  length (filter (fun ev => match ev with EvAsk _ req => asks_rpc req | _ => false end = true) evs).
Definition times_told (evs : list event) : nat :=
  length (filter (fun ev => match ev with EvTake _ req _ => asks_rpc req | _ => false end = true) evs).
Definition times_sent (log : list rpc_request) : nat := length (filter (fun r => r = rq) log).

(** The server as a log of the calls for single requests. *)
Definition is_batch (call : rpc_call) : bool :=
  match call_callback call with OnBatchCheck _ => true | _ => false end.
Definition log_call (call : rpc_call) (log : list rpc_request) : list rpc_request :=
  if is_batch call then log else log ++ [call_request call].
Definition logged (log : list rpc_request) (call : rpc_call) (st : GrpcStatus) (reply : rpc_response)
    (log' : list rpc_request) : Prop := log' = log_call call log.

Lemma logged_batches : batches_read logged.
Proof. intros s call st reply s' l -> Hl. unfold log_call, is_batch. by rewrite Hl. Qed.

(** Checks are batched, so only the other requests are counted from below. *)
Definition changes : bool :=
  match rq with RpcWrite _ | RpcCreateStore _ | RpcDeleteStore _ => true | _ => false end.

Lemma process_requests now i p :
  call_request <$> process config now i p = call_request <$> process config 0 0 p.
Proof. unfold process. by destruct (make_request_variant p). Qed.

Lemma process_single now i p call : call ∈ process config now i p ->
  process config now i p = [call] /\ is_batch call = false.
Proof.
  unfold process. destruct (make_request_variant p); cbn; try (intros []%elem_of_nil);
    by intros ->%list_elem_of_singleton.
Qed.

(** One answer is one call, of the request asked. *)
Lemma answer_counts P log req resp log' :
  answered_by config P logged log req resp log' ->
  (times_sent log' <= times_sent log + (if asks_rpc req then 1 else 0) /\
   (changes = true -> times_sent log + (if asks_rpc req then 1 else 0) <= times_sent log'))%nat.
Proof.
  intros (call & st & reply & Hask & _ & -> & _). unfold log_call, asks_rpc.
  destruct Hask as [now i Hin _|now items i Hb Hin _ Hall].
  - rewrite <- (process_requests now i). apply process_single in Hin as [-> ->].
    unfold times_sent. rewrite filter_app, length_app, filter_cons, filter_nil. csimpl.
    rewrite (bool_decide_ext _ (call_request call = rq)) by (cbn; split; [by intros [=]|by intros ->]).
    case_bool_decide; case_decide; csimpl; try lia; done.
  - destruct items as [|first items]; [done|]. injection Hb as <-. cbn [is_batch call_callback].
    split; [lia|]. intros Hch. destruct (Hall _ Hin) as [Hc _]. cbn [snd] in Hc.
    rewrite bool_decide_eq_false_2; [lia|]. intros Heq. unfold process in Heq.
    destruct (make_request_variant _); try done. cbn in Heq. injection Heq as Heq. unfold changes in Hch. by rewrite <- Heq in Hch.
Qed.

Definition open_count (v : service (S := list rpc_request)) : nat :=
  sessions_that (fun se => match se with Asked req => asks_rpc req | _ => false end) (sv_sessions v) +
  length (filter (fun req => asks_rpc req = true) (sv_late v)).
Definition answered_count (v : service (S := list rpc_request)) : nat :=
  sessions_that (fun se => match se with Answered req _ => asks_rpc req | _ => false end) (sv_sessions v).

Definition counted (v : service (S := list rpc_request)) (evs : list event) (v' : service) : Prop :=
  (times_sent (sv_server v') + open_count v' <= times_sent (sv_server v) + open_count v + times_asked evs /\
   (changes = true -> times_told evs + answered_count v' + times_sent (sv_server v) <=
      times_sent (sv_server v') + answered_count v))%nat.

Lemma step_counted P v o v' :
  service_step (answered_by config P logged) v o v' -> counted v ((match o with Some ev => [ev] | None => [] end)) v'.
Proof.
  intros Hs. destruct Hs as [pid req Hn|pid req resp s' Ha Hans|pid req resp Ha|pid|l1 req l2 resp s' Hl Hans];
    unfold counted, open_count, answered_count; cbn [sv_sessions sv_late sv_server].
  - rewrite !sessions_that_insert by done. unfold times_asked, times_told. rewrite !filter_cons. cbn.
    destruct (asks_rpc req); csimpl; lia.
  - apply answer_counts in Hans.
    pose proof (sessions_that_replace (fun se => match se with Asked req => asks_rpc req | _ => false end)
      _ _ _ (Answered req resp) Ha).
    pose proof (sessions_that_replace (fun se => match se with Answered req _ => asks_rpc req | _ => false end)
      _ _ _ (Answered req resp) Ha).
    change (times_asked []) with 0%nat. change (times_told []) with 0%nat.
    cbn in *. destruct (asks_rpc req); split; [lia|intros Hch|lia|intros Hch]; destruct Hans as [_ Hans];
      specialize (Hans Hch); lia.
  - rewrite !(sessions_that_delete _ (sv_sessions v) _ _ Ha). unfold times_asked, times_told.
    rewrite !filter_cons. cbn. destruct (asks_rpc req); csimpl; lia.
  - change (times_asked []) with 0%nat. change (times_told []) with 0%nat.
    destruct (sv_sessions v !! pid) as [se|] eqn:Hse; [|rewrite delete_id by done; lia].
    rewrite !(sessions_that_delete _ (sv_sessions v) _ _ Hse). destruct se as [req|req resp]; cbv beta iota; [|lia].
    rewrite filter_cons. destruct (asks_rpc req); csimpl; lia.
  - apply answer_counts in Hans. rewrite Hl, !filter_app, !length_app, filter_cons.
    change (times_asked []) with 0%nat. change (times_told []) with 0%nat.
    destruct (asks_rpc req); csimpl; split; [lia|intros Hch|lia|intros Hch]; destruct Hans as [_ Hans];
      specialize (Hans Hch); lia.
Qed.

Lemma run_counted P v evs v' : service_run (answered_by config P logged) v evs v' -> counted v evs v'.
Proof.
  assert (Htrans : forall v evs v1 evs' v', counted v evs v1 -> counted v1 evs' v' -> counted v (evs ++ evs') v').
  { intros v0 evs1 v1 evs2 v2 [Hu1 Hl1] [Hu2 Hl2]. unfold counted, times_asked, times_told in *.
    rewrite !filter_app, !length_app. split; [lia|]. intros Hch. specialize (Hl1 Hch). specialize (Hl2 Hch). lia. }
  induction 1 as [v|v v1 evs v' Hs Hr IH|v ev v1 evs v' Hs Hr IH].
  - unfold counted. cbn. lia.
  - apply step_counted in Hs. exact (Htrans _ [] _ _ _ Hs IH).
  - apply step_counted in Hs. exact (Htrans _ [ev] _ _ _ Hs IH).
Qed.

End Counting.

(** ** The calls of a run *)
Section Sent.
Context {L : Type} {HS : SList L} {HL : SListLaws L}.
Variable k : Z.
Variable config : Config.

(** The calls for single requests that the server has answered. *)
Fixpoint calls_answered (labs : list label) (σ : system L) : list rpc_request :=
  match labs with
  | [] => []
  | lab :: labs' =>
      match lab with
      | LReply n _ resp =>
          match we_calls (sys_worker σ) !! n with
          | Some call => if reply_matches (call_callback call) resp then log_call call [] else []
          | None => []
          end
      | _ => []
      end ++ match sys_step config lab σ with Done σ' => calls_answered labs' σ' | _ => [] end
  end.

Lemma calls_answered_end labs σ log :
  labs_end config (fun _ => True) logged labs σ log (log ++ calls_answered labs σ).
Proof.
  revert σ log. induction labs as [|lab labs IH]; intros σ log; cbn [labs_end calls_answered].
  { by rewrite app_nil_r. }
  rewrite app_assoc. eexists. split; [|intros σ' Hs; rewrite Hs; apply IH].
  destruct lab; cbn; rewrite ?app_nil_r; try done. repeat case_match; rewrite ?app_nil_r; try done.
  unfold logged, log_call. case_match; by rewrite ?app_nil_r.
Qed.

(** C5. Requests reach the server once.  From startup, in every run of backends,
    worker and gRPC threads, with interrupts and deaths at any point and with a
    server that may refuse or fail: the calls a server answers for one and the
    same request are at most as many as the backends that asked it, and for a
    write, a deletion or the creation or deletion of a store at least as many as
    the backends that read an answer.  So no call is repeated, none is made up,
    and a backend that was told the outcome has had its own call made.
    Interrupted backends release their slot once, as [fga_check] does. *)
Theorem requests_reach_the_server_once labs σ rq :
  initial_system k σ -> 0 <= ch_request_id (we_channel (sys_worker σ)) ->
  ch_request_id (we_channel (sys_worker σ)) + Z.of_nat (length labs) < 2 ^ 64 ->
  exists evs σ', sys_trace config labs σ = Done (evs, σ') /\
    (times_sent rq (calls_answered labs σ) <= times_asked config rq evs)%nat /\
    (changes rq = true -> times_told config rq evs <= times_sent rq (calls_answered labs σ))%nat.
Proof.
  intros H0 Hid Hlen.
  destruct (system_ends_service k config (fun _ => True) logged labs σ [] (calls_answered labs σ)
    logged_batches H0 Hid Hlen (calls_answered_end labs σ [])) as (evs & σ' & G & v & Ht & Hrun & Hend & _).
  exists evs, σ'. split; [done|]. apply (run_counted config rq) in Hrun as [Hup Hlow]. rewrite Hend in *.
  assert (H1 : open_count config rq (MkService ∅ [] []) = 0%nat) by done.
  assert (H2 : answered_count config rq (MkService ∅ [] []) = 0%nat) by done.
  change (times_sent rq (sv_server (MkService ∅ [] []))) with 0%nat in *. rewrite H1 in Hup. rewrite H2 in Hlow.
  split; [lia|]. intros Hch. specialize (Hlow Hch). lia.
Qed.
End Sent.

(** ** Two backends write one tuple, and one of them gives up *)
Definition two_writes : list label :=
  [ask_label FGA_REQUEST_WRITE_TUPLE 11 "1"; LEnqueue 11; ask_label FGA_REQUEST_WRITE_TUPLE 12 "1"; LEnqueue 12;
   LWorker 0; LInterrupt 12; LReply 1 (MkStatus true []) WriteResponse; LReply 0 (MkStatus true []) WriteResponse;
   LWorker 1; LPoll 11; LRelease 11].

Definition write_doc_1 : rpc_request :=
  change_rpc (str "s1") [] (fill_tuple_key (doc_tuple "1")) true.

Lemma requests_reach_the_server_once_witness :
  exists evs σ', sys_trace client_config_sample two_writes sample_system = Done (evs, σ') /\
    times_told client_config_sample write_doc_1 evs = 1%nat /\
    times_asked client_config_sample write_doc_1 evs = 2%nat /\
    (1 <= times_sent write_doc_1 (calls_answered client_config_sample two_writes sample_system) <= 2)%nat.
Proof.
  destruct (requests_reach_the_server_once 2 client_config_sample two_writes sample_system write_doc_1
    sample_initial ltac:(decide_now) ltac:(decide_now)) as (evs & σ' & Ht & Hup & Hlow).
  specialize (Hlow eq_refl). exists evs, σ'. split; [exact Ht|].
  assert (Hevs : times_told client_config_sample write_doc_1 evs = 1%nat /\
    times_asked client_config_sample write_doc_1 evs = 2%nat).
  { pose proof Ht as Ht2. vm_compute in Ht2. injection Ht2 as <- _. split; vm_compute; reflexivity. }
  destruct Hevs as [H1 H2]. split; [exact H1|]. split; [exact H2|]. rewrite H1 in Hlow. rewrite H2 in Hup.
  split; [exact Hlow|exact Hup].
Defined.
