(* ===== verification/Races.v ===== *)
(** * Interrupts that race with the worker

    [Protocol] lets the error handler of [wait_response] run without the worker
    in between.  The code does not enforce that: the handler reads the state,
    acts on it and clears the owner in three unsynchronised accesses.  Here the
    worker or another backend runs between two of them; the executions are
    evaluated on the sample system of two slots. *)
From S2P Require Import Prelude Platform Types SlotQueue SlotPool Channel Config Client.
From S2P Require Import Processor Protocol.

(** A backend's own access to shared memory, and the end of its request. *)
Definition access {L A} (m : CM (FgaChannel L) A) (σ : system L) : system L :=
  MkSystem (on_shared m (sys_worker σ)).2 (sys_backends σ).
Definition leaves {L} (pid : Z) (σ : system L) : system L :=
  MkSystem (sys_worker σ) (delete pid (sys_backends σ)).

Definition state_of {L} (i : nat) (σ : system L) : option FgaChannelSlotState :=
  slot_state <$> chan_slot (we_channel (sys_worker σ)) i.
Definition owner_of {L} (i : nat) (σ : system L) : option Z :=
  backend_pid <$> chan_slot (we_channel (sys_worker σ)) i.

Definition run (labs : list label) (σ : system linked) : outcome (system linked) :=
  sys_run client_config_sample labs σ.

(** A request of [pid] up to the reply of the server; the slot is 0. *)
Definition until_reply (pid : Z) : list label :=
  [check_label pid; LEnqueue pid; LWorker 0; LReply 0 (MkStatus true []) (CheckResponse true)].

(** The handler of backend 11 reads PROCESSING; before it writes CANCELED the
    worker hands the answer back. *)
Definition answered_under_the_handler : outcome (system linked) :=
  σ1 ← run (until_reply 11) sample_system;
  σ2 ← run [LWorker 0] σ1;
  match state_of 0 σ1 with
  | Some cur => Done (leaves 11 (access (wait_catch_pid 0) (access (wait_catch_act cur 0) σ2)))
  | None => Undefined OutOfBounds
  end.

(** The handler of backend 11 finds the answer and returns the slot; backend 12
    takes it before the handler clears the owner. *)
Definition reused_under_the_handler : outcome (system linked) :=
  σ1 ← run (until_reply 11 ++ [LWorker 0]) sample_system;
  match state_of 0 σ1 with
  | Some cur =>
      σ2 ← run [check_label 12; LEnqueue 12] (leaves 11 (access (wait_catch_act cur 0) σ1));
      run [LWorker 0; LReply 0 (MkStatus true []) (CheckResponse true); LWorker 0]
        (access (wait_catch_pid 0) σ2)
  | None => Undefined OutOfBounds
  end.

