(* ===== verification/Worker.v ===== *)
(** * The background worker: [src/bgw/worker.cpp], [src/bgw/bgw.c]

    The worker registers its latch, then serves requests with a processor built
    from the configuration until it is told to stop; a reload rebuilds the
    processor.  One turn of the loop is one return of [WaitLatch]: what other
    processes and threads did since the last turn, the signals that arrived, and
    the configuration file a reload would read are its inputs. *)
From S2P Require Import Prelude Platform Types SlotQueue SlotPool Channel Config Client Processor Protocol.

(** ** Registration: [fga_bgw_init] *)
Inductive BgWorkerStartTime : Type :=
  BgWorkerStart_PostmasterStart | BgWorkerStart_ConsistentState | BgWorkerStart_RecoveryFinished.

Record BackgroundWorker : Type := MkBackgroundWorker {
  bgw_shmem_access : bool;           (* bgw_flags = BGWORKER_SHMEM_ACCESS *)
  bgw_start_time : BgWorkerStartTime;
  bgw_restart_time : Z;
  bgw_notify_pid : Z;
  bgw_main_arg : Z;
  bgw_library_name : list ascii;
  bgw_function_name : list ascii;
  bgw_name : list ascii;
  bgw_type : list ascii;
}.

Definition MAXPGPATH : nat := 1024.
Definition BGW_MAXLEN : nat := 96.

Definition fga_bgw_init : BackgroundWorker :=
  MkBackgroundWorker true BgWorkerStart_RecoveryFinished 1 0 0
    (strlcpy (zeros MAXPGPATH) (str "postfga") MAXPGPATH)
    (strlcpy (zeros BGW_MAXLEN) (str "postfga_bgw_work") BGW_MAXLEN)
    (strlcpy (zeros BGW_MAXLEN) (str "postfga_bgw") BGW_MAXLEN)
    (strlcpy (zeros BGW_MAXLEN) (str "postfga_worker") BGW_MAXLEN).

(** ** The worker process *)
Inductive bgw_signal : Type := SIGTERM | SIGHUP.

#[export] Instance bgw_signal_eq_dec : EqDecision bgw_signal.
Proof. solve_decision. Defined.

(** [bw_dangling] are the pending calls whose callbacks refer to a processor
    that has been destroyed; [bw_state_latch] is [state_->bgw_latch]. *)
Record bgw (L : Type) : Type := MkBgw {
  bw_env : worker_env L;
  bw_processor : option Config;
  bw_dangling : list rpc_call;
  shutdown_requested : bool;
  reload_requested : bool;
  bw_state_latch : bool;
  bw_guc : FgaConfig;
}.
Arguments MkBgw {L} bw_env bw_processor bw_dangling shutdown_requested reload_requested
  bw_state_latch bw_guc.
Arguments bw_env {L} b.
Arguments bw_processor {L} b.
Arguments bw_dangling {L} b.
Arguments shutdown_requested {L} b.
Arguments reload_requested {L} b.
Arguments bw_state_latch {L} b.
Arguments bw_guc {L} b.

(** One return of [WaitLatch]. *)
Record turn (L : Type) : Type := MkTurn {
  tn_others : worker_env L -> worker_env L;
  tn_signals : list bgw_signal;
  tn_latch_set : bool;                 (* rc & WL_LATCH_SET *)
  tn_interrupt : option pg_error;      (* what CHECK_FOR_INTERRUPTS raises *)
  tn_file : FgaConfig;                 (* what ProcessConfigFile would load *)
  tn_now : Z;
}.
Arguments MkTurn {L} tn_others tn_signals tn_latch_set tn_interrupt tn_file tn_now.
Arguments tn_others {L} t.
Arguments tn_signals {L} t.
Arguments tn_latch_set {L} t.
Arguments tn_interrupt {L} t.
Arguments tn_file {L} t.
Arguments tn_now {L} t.

Section Worker.
Context {L : Type} {HS : SList L}.
Variable hw : Z.      (* std::thread::hardware_concurrency() *)

Definition set_latch (b : bool) (w : worker_env L) : worker_env L :=
  MkWorkerEnv (we_channel w) (we_procs w) b (completed_queue w) (we_calls w) (we_log w).

Definition with_env (b : bgw L) (w : worker_env L) : bgw L :=
  MkBgw w (bw_processor b) (bw_dangling b) (shutdown_requested b) (reload_requested b)
    (bw_state_latch b) (bw_guc b).
Definition with_reload (b : bgw L) (r : bool) : bgw L :=
  MkBgw (bw_env b) (bw_processor b) (bw_dangling b) (shutdown_requested b) r
    (bw_state_latch b) (bw_guc b).
Definition with_guc (b : bgw L) (g : FgaConfig) : bgw L :=
  MkBgw (bw_env b) (bw_processor b) (bw_dangling b) (shutdown_requested b) (reload_requested b)
    (bw_state_latch b) g.
Definition with_state_latch (b : bgw L) (l : bool) : bgw L :=
  MkBgw (bw_env b) (bw_processor b) (bw_dangling b) (shutdown_requested b) (reload_requested b)
    l (bw_guc b).

Definition bgw_sigterm_handler (b : bgw L) : bgw L :=
  MkBgw (set_latch true (bw_env b)) (bw_processor b) (bw_dangling b) true (reload_requested b)
    (bw_state_latch b) (bw_guc b).
Definition bgw_sighup_handler (b : bgw L) : bgw L :=
  MkBgw (set_latch true (bw_env b)) (bw_processor b) (bw_dangling b) (shutdown_requested b) true
    (bw_state_latch b) (bw_guc b).

Definition handle_signal (b : bgw L) (s : bgw_signal) : bgw L :=
  match s with SIGTERM => bgw_sigterm_handler b | SIGHUP => bgw_sighup_handler b end.

(** The end of a processor: its list of completed slots goes with it, and the
    callbacks of its calls keep a pointer to it. *)
Definition destroy_processor (b : bgw L) : bgw L :=
  let w := bw_env b in
  MkBgw (MkWorkerEnv (we_channel w) (we_procs w) (we_latch w) [] [] (we_log w)) None
    (bw_dangling b ++ we_calls w) (shutdown_requested b) (reload_requested b)
    (bw_state_latch b) (bw_guc b).

(** [processor.emplace(config)]; [processor.reset()] is [destroy_processor]. *)
Definition emplace_processor (config : Config) (b : bgw L) : bgw L :=
  let b := destroy_processor b in
  MkBgw (bw_env b) (Some config) (bw_dangling b) (shutdown_requested b) (reload_requested b)
    (bw_state_latch b) (bw_guc b).

(** The reply to a call of a destroyed processor runs [enqueueCompleted] on it. *)
Definition dangling_reply (n : nat) : CM (bgw L) unit := fun b =>
  match bw_dangling b !! n with
  | None => (Done tt, b)
  | Some _ => (Undefined UseAfterFree, b)
  end.

Definition reload (config : Config) (t : turn L) (b : bgw L) : bgw L :=
  let b := with_guc (with_reload b false) (tn_file t) in
  let new_config := load_config_from_guc hw (bw_guc b) in
  if decide (new_config = config) then b
  else if decide (cfg_endpoint new_config = []) then destroy_processor b
  else emplace_processor new_config b.

(** [config] is the local variable of [process], set once before the loop. *)
Definition process_turn (config : Config) (t : turn L) : CM (bgw L) unit := fun b =>
  let b := with_env b (tn_others t (bw_env b)) in
  let b := foldl handle_signal b (tn_signals t) in
  let b := with_env b (set_latch false (bw_env b)) in
  match tn_interrupt t with
  | Some err => (Error err, b)
  | None =>
      if negb (tn_latch_set t) then (Done tt, b)
      else
        let b := if reload_requested b then reload config t b else b in
        match bw_processor b with
        | None => (Done tt, b)
        | Some cfg =>
            let '(r, w) := execute cfg (tn_now t) (bw_env b) in (r, with_env b w)
        end
  end.

(** The loop; when the turns are used up the worker waits on its latch. *)
Fixpoint process_loop (config : Config) (turns : list (turn L)) : CM (bgw L) unit := fun b =>
  if shutdown_requested b then (Done tt, b)
  else
    match turns with
    | [] => (Undefined WaitsForever, b)
    | t :: rest => cm_bind _ _ (fun _ => process_loop config rest) (process_turn config t) b
    end.

Definition process (turns : list (turn L)) : CM (bgw L) unit := fun b =>
  let config := load_config_from_guc hw (bw_guc b) in
  let b := if decide (cfg_endpoint config = []) then b else emplace_processor config b in
  process_loop config turns b.

(** [Worker::run]: an error of the loop leaves by a long jump, past the code
    that takes the latch off the shared state. *)
Definition run (turns : list (turn L)) : CM (bgw L) unit := fun b =>
  match process turns (with_state_latch b true) with
  | (Done _, b') => (Done tt, with_state_latch b' false)
  | r => r
  end.

(** The exit code of the process. *)
Definition postfga_bgw_work (turns : list (turn L)) (b : bgw L) : outcome Z * bgw L :=
  match run turns b with
  | (Done _, b') => (Done 0, b')
  | (Error _, b') => (Done 1, b')
  | (Undefined u, b') => (Undefined u, b')
  end.
End Worker.

(** ** Reloading *)
Section WorkerSpec.
Context {L : Type} {HS : SList L}.
Variable hw : Z.

(** Serving does not touch the processor itself. *)
Lemma after_execute (b1 : bgw L) now :
  let b' := (match bw_processor b1 with
             | None => (Done tt, b1)
             | Some cfg => let '(r, w) := execute cfg now (bw_env b1) in (r, with_env b1 w)
             end).2 in
  bw_processor b' = bw_processor b1 /\ bw_guc b' = bw_guc b1.
Proof.
  destruct (bw_processor b1) as [cfg|] eqn:Hp; [|done].
  by destruct (execute cfg now (bw_env b1)).
Qed.

(** What a turn with an undisturbed SIGHUP does to the processor. *)
Lemma sighup_turn config (t : turn L) b :
  tn_signals t = [SIGHUP] -> tn_interrupt t = None -> tn_latch_set t = true ->
  let new := load_config_from_guc hw (tn_file t) in
  let b' := (process_turn hw config t b).2 in
  bw_guc b' = tn_file t /\
  bw_processor b' = (if decide (new = config) then bw_processor b
                     else if decide (cfg_endpoint new = []) then None else Some new).
Proof.
  intros Hs Hi Hl new b'. unfold b', process_turn. rewrite Hs, Hi, Hl. cbn.
  set (b1 := handle_signal (with_env b (tn_others t (bw_env b))) SIGHUP).
  destruct (after_execute (reload hw config t (with_env b1 (set_latch false (bw_env b1)))) (tn_now t))
    as [H1 H2].
  cbn in H1, H2. rewrite H1, H2. unfold reload. cbn. fold new.
  repeat case_decide; done.
Qed.

(** A reload compares the new configuration with the one the worker was
    started with, never with the one in use.  Started with A, reloaded to B and
    reloaded back to A, the worker goes on with B although the settings say A. *)
Theorem reload_back_is_ignored (b : bgw L) (t1 t2 : turn L) :
  let A := load_config_from_guc hw (bw_guc b) in
  let B := load_config_from_guc hw (tn_file t1) in
  load_config_from_guc hw (tn_file t2) = A -> B <> A -> cfg_endpoint B <> [] ->
  tn_signals t1 = [SIGHUP] -> tn_interrupt t1 = None -> tn_latch_set t1 = true ->
  tn_signals t2 = [SIGHUP] -> tn_interrupt t2 = None -> tn_latch_set t2 = true ->
  let b1 := (process_turn hw A t1 b).2 in
  let b2 := (process_turn hw A t2 b1).2 in
  load_config_from_guc hw (bw_guc b2) = A /\ bw_processor b2 = Some B.
Proof.
  intros A B H2 HB HBe Hs1 Hi1 Hl1 Hs2 Hi2 Hl2 b1 b2.
  destruct (sighup_turn A t1 b Hs1 Hi1 Hl1) as [_ Hp1].
  destruct (sighup_turn A t2 b1 Hs2 Hi2 Hl2) as [Hg2 Hp2].
  fold b1 in Hp1. fold b2 in Hg2, Hp2. rewrite Hg2, Hp2. split; [done|].
  rewrite decide_True by done. rewrite Hp1, decide_False by done. by rewrite decide_False.
Qed.

End WorkerSpec.

(** ** The end of the worker *)
Section WorkerEnd.
Context {L : Type} {HS : SList L} {HL : SListLaws L}.
Variable hw k : Z.

Definition env_ok (w : worker_env L) : Prop :=
  exists R free l B, proto_inv k [] [] [] R free l B w.

(** A turn without a reload, in which the others keep the channel consistent. *)
Definition calm_turn (t : turn L) : Prop :=
  (forall w, env_ok w -> env_ok (tn_others t w)) /\ SIGHUP ∉ tn_signals t.

Lemma env_ok_latch b w : env_ok w -> env_ok (set_latch b w).
Proof. intros (R & free & l & B & [? ? ? ? ? ? ? ? ? ? ? ? ?]). by exists R, free, l, B. Qed.

Lemma signals_spec sigs (b : bgw L) :
  env_ok (bw_env b) -> SIGHUP ∉ sigs -> reload_requested b = false ->
  let b' := foldl handle_signal b sigs in
  env_ok (bw_env b') /\ reload_requested b' = false /\
  bw_state_latch b' = bw_state_latch b /\ bw_guc b' = bw_guc b /\
  shutdown_requested b' = (shutdown_requested b || bool_decide (SIGTERM ∈ sigs)).
Proof.
  revert b. induction sigs as [|[] sigs IH]; intros b Hok Hn Hr; cbn [foldl].
  - split_and!; try done. by rewrite orb_false_r.
  - destruct (IH (handle_signal b SIGTERM)) as (H1 & H2 & H3 & H4 & H5);
      [by apply env_ok_latch|by apply not_elem_of_cons in Hn as [_ ?]|done|].
    split_and!; try done. rewrite H5. cbn. rewrite (bool_decide_eq_true_2 (SIGTERM ∈ _)) by left.
    by rewrite orb_true_r.
  - destruct Hn. by left.
Qed.

Lemma calm_turn_spec config t b :
  env_ok (bw_env b) -> reload_requested b = false -> shutdown_requested b = false -> calm_turn t ->
  exists r b', process_turn hw config t b = (r, b') /\
    env_ok (bw_env b') /\ reload_requested b' = false /\ bw_state_latch b' = bw_state_latch b /\
    shutdown_requested b' = bool_decide (SIGTERM ∈ tn_signals t) /\
    match tn_interrupt t with Some err => r = Error err | None => r = Done tt end.
Proof.
  intros Hok Hr Hsd [Ho Hh]. unfold process_turn.
  destruct (signals_spec (tn_signals t) (with_env b (tn_others t (bw_env b)))) as (H1 & H2 & H3 & _ & H5);
    [by apply Ho|done|done|].
  set (b1 := foldl handle_signal _ _) in *. cbn in H3, H5. rewrite Hsd in H5. cbn [orb] in H5.
  destruct (tn_interrupt t) as [err|].
  { eexists _, _. split; [reflexivity|]. split_and!; try done. by apply env_ok_latch. }
  destruct (tn_latch_set t); cbn [negb].
  2:{ eexists _, _. split; [reflexivity|]. split_and!; try done. by apply env_ok_latch. }
  cbn [reload_requested with_env]. rewrite H2. cbn [bw_processor with_env].
  destruct (bw_processor b1) as [cfg|].
  2:{ eexists _, _. split; [reflexivity|]. split_and!; try done. by apply env_ok_latch. }
  cbn [bw_env with_env].
  destruct (env_ok_latch false _ H1) as (R & free & l & B & Hinv).
  destruct (sys_execute_spec k cfg (tn_now t) R free l B _ Hinv) as (w' & R' & free' & -> & Hinv' & _).
  eexists _, _. split; [reflexivity|]. split_and!; try done. by exists R', free', (drop 50 l), B.
Qed.

Lemma calm_loop_ends config turns b :
  env_ok (bw_env b) -> reload_requested b = false -> shutdown_requested b = false ->
  Forall calm_turn turns -> Exists (fun t => SIGTERM ∈ tn_signals t) turns ->
  exists r b', process_loop hw config turns b = (r, b') /\ bw_state_latch b' = bw_state_latch b /\
    ((r = Done tt /\ shutdown_requested b' = true) \/
     exists err, r = Error err /\ Exists (fun t => tn_interrupt t = Some err) turns).
Proof.
  revert b. induction turns as [|t turns IH]; intros b Hok Hr Hsd Hcalm Hex.
  { by apply Exists_nil in Hex. }
  apply Forall_cons in Hcalm as [Ht Hcalm]. cbn [process_loop]. rewrite Hsd. unfold cm_bind.
  destruct (calm_turn_spec config t b Hok Hr Hsd Ht) as (r & b1 & -> & Hok1 & Hr1 & Hl1 & Hsd1 & Hi).
  destruct (tn_interrupt t) as [err|] eqn:Hint; subst r.
  { eexists _, b1. split; [done|]. split; [done|]. right. exists err. split; [done|]. by left. }
  destruct (decide (SIGTERM ∈ tn_signals t)) as [Hin|Hni].
  - rewrite bool_decide_eq_true_2 in Hsd1 by done. exists (Done tt), b1.
    destruct turns; cbn [process_loop]; rewrite Hsd1; by eauto.
  - rewrite bool_decide_eq_false_2 in Hsd1 by done.
    apply Exists_cons in Hex as [Hin|Hex]; [done|].
    destruct (IH b1 Hok1 Hr1 Hsd1 Hcalm Hex) as (r & b' & -> & Hl & Hres).
    exists r, b'. split; [done|]. split; [by rewrite Hl|].
    destruct Hres as [?|(err & ? & ?)]; [by left|]. right. exists err. split; [done|]. by right.
Qed.

(** C27. A stop request ends the worker.  If the backends keep the channel
    consistent and no reload intervenes, a worker that gets SIGTERM exits: with
    code 0 and its latch off the shared state, or, when an error interrupted it
    first, with code 1 and the shared state still naming its latch. *)
Theorem worker_exits_on_sigterm turns b :
  env_ok (bw_env b) -> bw_processor b = None -> we_calls (bw_env b) = [] ->
  completed_queue (bw_env b) = [] ->
  reload_requested b = false -> shutdown_requested b = false ->
  Forall calm_turn turns -> Exists (fun t => SIGTERM ∈ tn_signals t) turns ->
  exists code b', postfga_bgw_work hw turns b = (Done code, b') /\
    ((code = 0 /\ bw_state_latch b' = false /\ shutdown_requested b' = true) \/
     (code = 1 /\ bw_state_latch b' = true /\
      Exists (fun t => is_Some (tn_interrupt t)) turns)).
Proof.
  intros Hok Hp Hca Hcq Hr Hsd Hcalm Hex. unfold postfga_bgw_work, run, process.
  set (config := load_config_from_guc hw _). set (b0 := with_state_latch b true).
  set (b1 := if decide _ then b0 else _).
  assert (Hb1 : env_ok (bw_env b1) /\ reload_requested b1 = false /\ shutdown_requested b1 = false /\
    bw_state_latch b1 = true).
  { unfold b1. case_decide; split_and!; try done. cbn. rewrite <- Hcq at 1. rewrite <- Hca at 1.
    by destruct (bw_env b). }
  destruct Hb1 as (Hok1 & Hr1 & Hsd1 & Hl1).
  destruct (calm_loop_ends config turns b1 Hok1 Hr1 Hsd1 Hcalm Hex) as (r & b' & -> & Hl & Hres).
  destruct Hres as [[-> Hs]|(err & -> & He)].
  - eexists 0, _. split; [reflexivity|]. left. by split_and!.
  - eexists 1, _. split; [reflexivity|]. right. split; [done|]. split; [by rewrite Hl|].
    eapply Exists_impl; [exact He|]. cbn. intros t Ht. rewrite Ht. by eexists.
Qed.
End WorkerEnd.

(** ** Witnesses *)
Definition guc_with_endpoint (e : string) : FgaConfig :=
  MkConfig (Some (str e)) (Some []) (Some []) false false 32 60000 0 0.
Definition sample_bgw : bgw linked :=
  MkBgw (sys_worker sample_system) None [] false false false (guc_with_endpoint "a:1").
Definition sighup_to (e : string) : turn linked :=
  MkTurn (fun w => w) [SIGHUP] true None (guc_with_endpoint e) 0.
Definition sigterm_turn : turn linked :=
  MkTurn (fun w => w) [SIGTERM] true None (guc_with_endpoint "a:1") 0.

Lemma reload_back_is_ignored_witness :
  let A := load_config_from_guc 4 (guc_with_endpoint "a:1") in
  let b2 := (process_turn 4 A (sighup_to "a:1") (process_turn 4 A (sighup_to "b:1") sample_bgw).2).2 in
  bw_processor b2 = Some (load_config_from_guc 4 (guc_with_endpoint "b:1")).
Proof.
  assert (Hd : load_config_from_guc 4 (guc_with_endpoint "b:1")
    <> load_config_from_guc 4 (guc_with_endpoint "a:1")) by discriminate.
  destruct (reload_back_is_ignored 4 sample_bgw (sighup_to "b:1") (sighup_to "a:1")
    eq_refl Hd ltac:(discriminate) eq_refl eq_refl eq_refl eq_refl eq_refl eq_refl) as [_ H].
  exact H.
Defined.

Definition busy_bgw : bgw linked :=
  MkBgw (MkWorkerEnv sample_channel ∅ false [1%nat]
    [MkCall (RpcDeleteStore []) 0 (OnDeleteStore 0)] []) None [] false false false
    (guc_with_endpoint "a:1").


Lemma worker_exits_on_sigterm_witness :
  exists b', postfga_bgw_work 4 [sigterm_turn] sample_bgw = (Done 0, b').
Proof.
  destruct (worker_exits_on_sigterm 4 2 [sigterm_turn] sample_bgw) as (code & b' & Hr & Hc).
  - destruct (initial_inv 2 sample_system sample_initial) as (R & free & l & Hinv).
    exists R, free, l, ∅. exact Hinv.
  - reflexivity.
  - reflexivity.
  - reflexivity.
  - reflexivity.
  - reflexivity.
  - apply Forall_cons. split; [|apply Forall_nil; exact I]. split.
    + intros w Hw. exact Hw.
    + decide_now.
  - left. left.
  - exists b'. destruct Hc as [(-> & _)|(_ & _ & He)]; [exact Hr|].
    exfalso. apply Exists_cons in He as [[? He]|He]; [discriminate He|by apply Exists_nil in He].
Defined.
