(* ===== verification/State.v ===== *)
(** * Module load and shared memory: [src/state.c], [src/state.h], [src/init.c]

    The shared segment of the extension holds the state struct, the request
    channel, the L2 cache and the statistics, one after the other.  The first
    process that starts up carves and initialises it; the others attach.  The
    request and the startup run from hooks that [_PG_init] chains. *)
From S2P Require Import Prelude Platform Types CacheKey CacheL1 CacheL2 Stats Cache SlotQueue.
From S2P Require Import SlotPool Channel ChannelShmem Config Client Processor Protocol.

Definition FGA_LWLOCK_TRANCHE_NAME : string := "postfga".
Definition FGA_LWLOCK_TRANCHE_NUM : nat := 4.

Definition FgaState_fields : list (Z * Z) := [c_ptr; c_ptr; c_uint64; c_ptr; c_ptr; c_ptr].

(** The members behind the pointers; the locks are the elements of the tranche
    given by their numbers. *)
Record FgaState (L : Type) : Type := MkState {
  st_lock : nat;
  st_bgw_latch : option bool;
  hash_seed : Z;
  st_channel : FgaChannel L;
  st_channel_locks : nat * nat;
  st_cache : FgaL2AclCache;
  st_cache_lock : nat;
  st_stats : FgaStats;
}.
Arguments MkState {L} st_lock st_bgw_latch hash_seed st_channel st_channel_locks st_cache
  st_cache_lock st_stats.
Arguments st_lock {L} f.
Arguments st_bgw_latch {L} f.
Arguments hash_seed {L} f.
Arguments st_channel {L} f.
Arguments st_channel_locks {L} f.
Arguments st_cache {L} f.
Arguments st_cache_lock {L} f.
Arguments st_stats {L} f.

(** What the carved memory held before. *)
Record segment (L : Type) : Type := MkSegment {
  sg_head : L;
  sg_slots : list FgaChannelSlot;
  sg_queue : FgaChannelSlotQueue;
  sg_entries : list FgaL2AclEntry;
  sg_stats : FgaStats;
}.
Arguments MkSegment {L} sg_head sg_slots sg_queue sg_entries sg_stats.
Arguments sg_head {L} s.
Arguments sg_slots {L} s.
Arguments sg_queue {L} s.
Arguments sg_entries {L} s.
Arguments sg_stats {L} s.

Section State.
Context {L : Type} {HS : SList L} {HM : PgMem}.
Context {H : Type} {HD : Dynahash FgaAclCacheKey Z H}.
Variable use_asserts : bool.
Variable config : FgaConfig.
Variable max_connections : option (list ascii).
Variable MaxBackends : Z.

Definition state_struct_size : outcome Z :=
  let size := MAXALIGN (struct_size FgaState_fields) in
  c ← fga_channel_shmem_size config max_connections;
  size ← add_size size (MAXALIGN c);
  l2 ← fga_cache_shmem_base_size config;
  size ← add_size size (MAXALIGN l2);
  s ← fga_stats_shmem_size MaxBackends;
  add_size size (MAXALIGN s).

(** Offsets from the state struct. *)
Record state_layout : Type := MkStateLayout {
  sl_channel : Z;
  sl_cache : Z;
  sl_stats : Z;
  sl_end : Z;
}.

Definition layout_state : outcome state_layout :=
  let ptr := MAXALIGN (struct_size FgaState_fields) in
  let channel := ptr in
  c ← fga_channel_shmem_size config max_connections;
  let ptr := ptr + MAXALIGN c in
  let cache := ptr in
  l2 ← fga_cache_shmem_base_size config;
  let ptr := ptr + MAXALIGN l2 in
  let stats := ptr in
  s ← fga_stats_shmem_size MaxBackends;
  let ptr := ptr + MAXALIGN s in
  mret (MkStateLayout channel cache stats ptr).

(** [pg_strong_random]: the eight random bytes, [None] on failure. *)
Definition _generate_hash_seed (random : option Z) : outcome Z :=
  match random with
  | Some seed => Done (u64 seed)
  | None => Error (PgError "ERRCODE_INTERNAL_ERROR" "failed to generate hash seed")
  end.

Definition _initialize_state (random : option Z) (mem : segment L) : outcome (FgaState L) :=
  seed ← _generate_hash_seed random;
  _ ← layout_state;
  channel ← fga_channel_shmem_init use_asserts config max_connections (sg_head mem)
              (sg_slots mem) (sg_queue mem);
  cache ← fga_cache_shmem_init config (sg_entries mem);
  mret (MkState 0 None seed channel (1%nat, 2%nat) cache 3
          (fga_stats_shmem_init MaxBackends (sg_stats mem))).

(** What [RequestAddinShmemSpace] and [RequestNamedLWLockTranche] are given. *)
Definition fga_shmem_request (hash_estimate_size : Z -> Z -> Z) : outcome (Z * (string * nat)) :=
  size ← state_struct_size;
  size ← add_size size (MAXALIGN (fga_cache_shmem_hash_size hash_estimate_size config));
  mret (size, (FGA_LWLOCK_TRANCHE_NAME, FGA_LWLOCK_TRANCHE_NUM)).

(** A process at startup: the segment ([None] until a process has created it),
    and the process's own L1 cache and L2 table pointer. *)
Record process_env : Type := MkProcessEnv {
  pe_state : option (FgaState L);
  pe_l1 : option (list FgaL1Set);
  pe_table : option H;
}.

(** [ShmemInitStruct] finds the segment or creates it from [mem]; everything
    runs under [AddinShmemInitLock]. *)
Definition fga_shmem_startup (random : option Z) (mem : segment L)
  : CM process_env unit := fun env =>
  match state_struct_size with
  | Error e => (Error e, env)
  | Undefined u => (Undefined u, env)
  | Done size =>
      match (match pe_state env with
             | Some st => Done st
             | None => _initialize_state random mem
             end) with
      | Error e => (Error e, env)
      | Undefined u => (Undefined u, env)
      | Done st =>
          match fga_cache_shmem_each_startup
                  (MkEnv (pe_l1 env) (MkL2State (Some (st_cache st)) (pe_table env)) (st_stats st)) with
          | (Done _, ce) =>
              (Done tt, MkProcessEnv (Some st) (ce_l1 ce) (l2_slot_table (ce_l2 ce)))
          | (Error e, _) => (Error e, MkProcessEnv (Some st) (pe_l1 env) (pe_table env))
          | (Undefined u, _) => (Undefined u, MkProcessEnv (Some st) (pe_l1 env) (pe_table env))
          end
      end
  end.
End State.

(** ** init.c: the hook chain

    A hook is NULL, the hook another module installed, or ours.  The effect of
    a hook is the list of the functions it runs. *)
Inductive hook : Type := HookNull | HookOther (n : nat) | HookFga.

#[export] Instance hook_eq_dec : EqDecision hook.
Proof. solve_decision. Defined.

Inductive hook_call : Type := CallOther (n : nat) | CallFga.

Record module_state : Type := MkModule {
  shmem_request_hook : hook;
  shmem_startup_hook : hook;
  prev_shmem_request_hook : hook;
  prev_shmem_startup_hook : hook;
  guc_defined : list guc_def;
  bgw_registered : bool;
}.

Definition run_prev (h : hook) : list hook_call :=
  match h with HookNull => [] | HookOther n => [CallOther n] | HookFga => [CallFga] end.
Definition fga_shmem_request_hook (m : module_state) : list hook_call :=
  run_prev (prev_shmem_request_hook m) ++ [CallFga].
Definition fga_shmem_startup_hook (m : module_state) : list hook_call :=
  run_prev (prev_shmem_startup_hook m) ++ [CallFga].

(** What PostgreSQL runs when it calls the hook. *)
Definition run_request_hook (m : module_state) : list hook_call :=
  match shmem_request_hook m with
  | HookFga => fga_shmem_request_hook m
  | h => run_prev h
  end.
Definition run_startup_hook (m : module_state) : list hook_call :=
  match shmem_startup_hook m with
  | HookFga => fga_shmem_startup_hook m
  | h => run_prev h
  end.

Definition _PG_init (preloading : bool) (getenv : string -> option (list ascii))
  : CM module_state unit := fun m =>
  if negb preloading then
    (Error (PgError "ERRCODE_OBJECT_NOT_IN_PREREQUISITE_STATE"
       "postfga must be loaded via shared_preload_libraries"), m)
  else
    (Done tt, MkModule HookFga HookFga (shmem_request_hook m) (shmem_startup_hook m)
       (guc_defined m ++ fga_guc_init getenv) true).

Definition _PG_fini : CM module_state unit := fun m =>
  (Done tt, MkModule (prev_shmem_request_hook m) (prev_shmem_startup_hook m)
     (prev_shmem_request_hook m) (prev_shmem_startup_hook m) (guc_defined m) (bgw_registered m)).

(** ** Properties *)
Section StateSpec.
Context {L : Type} {HS : SList L} {HSL : SListLaws L} {HM : PgMem} {HML : PgMemLaws}.
Context {H : Type} {HD : Dynahash FgaAclCacheKey Z H} {HDL : DynahashLaws FgaAclCacheKey Z H}.
Variable use_asserts : bool.
Variable config : FgaConfig.
Variable mc : option (list ascii).
Variable MaxBackends n : Z.

Hypothesis Hcache : 1 <= cache_size config <= 1024.
Hypothesis Hslots : max_slots config <= 16384.
Hypothesis Hn : compute_slot_size config mc = Done n.
Hypothesis Hbackends : 0 <= MaxBackends < 2 ^ 20.

Lemma cache_base_size :
  fga_cache_shmem_base_size config = Done (24 + 64 * (cache_size config * 16384)).
Proof.
  unfold fga_cache_shmem_base_size. rewrite l2_capacity_mb, entry_size by done.
  assert (Hh : l2_header_size = 24) by reflexivity. rewrite Hh.
  rewrite mul_size_done by lia. unfold mbind, outcome_bind. by rewrite add_size_done by lia.
Qed.

Lemma stats_size : exists s, fga_stats_shmem_size MaxBackends = Done s /\ 0 <= s < 2 ^ 40.
Proof.
  unfold fga_stats_shmem_size.
  assert (Hh : 0 <= nth 7 (struct_offsets FgaStats_fields) 0 < 1000) by (by vm_compute).
  assert (Hs : 0 <= struct_size FgaBackendStats_fields < 1000) by (by vm_compute).
  set (h := nth 7 _ _) in *. set (b := struct_size _) in *.
  rewrite mul_size_done by nia. unfold mbind, outcome_bind.
  rewrite add_size_done by nia. eexists. split; [done|]. nia.
Qed.

Lemma channel_size_bound : exists c, fga_channel_shmem_size config mc = Done c /\ 0 <= c < 2 ^ 40.
Proof.
  destruct (shmem_size_sum config mc n Hslots Hn) as (Hs & _ & _ & Hp & Hq).
  pose proof (compute_slot_size_range config mc n Hslots Hn) as Hr.
  destruct (pow2_ceil_small n Hr) as (k & Hk & Hpk & _ & Hlt).
  eexists. split; [exact Hs|].
  set (p := pool_header + _) in *. set (q := queue_header + _) in *.
  pose proof (maxalign_ge p Hp). pose proof (maxalign_ge q Hq).
  assert (Hc : struct_size FgaChannel_fields = 40) by reflexivity. rewrite Hc.
  pose proof (maxalign_ge 40 ltac:(lia)).
  assert (Hph : pool_header = 8) by reflexivity. assert (Hqh : queue_header = 6) by reflexivity.
  assert (Hss : struct_size FgaChannelSlot_fields = 744) by reflexivity.
  unfold p, q in *. rewrite Hph, Hss, Hqh in *. lia.
Qed.

(** The segment holds its parts one after the other. *)
Lemma state_layout_fits :
  exists sl c l2 s, layout_state config mc MaxBackends = Done sl /\
    fga_channel_shmem_size config mc = Done c /\ fga_cache_shmem_base_size config = Done l2 /\
    fga_stats_shmem_size MaxBackends = Done s /\
    struct_size FgaState_fields <= sl_channel sl /\ sl_channel sl + c <= sl_cache sl /\
    sl_cache sl + l2 <= sl_stats sl /\ sl_stats sl + s <= sl_end sl /\
    (8 | sl_channel sl) /\ (8 | sl_cache sl) /\ (8 | sl_stats sl) /\
    state_struct_size config mc MaxBackends = Done (sl_end sl).
Proof.
  destruct channel_size_bound as (c & Hc & Hcb). destruct stats_size as (s & Hs & Hsb).
  pose proof cache_base_size as Hl2. set (l2 := 24 + _) in *.
  assert (Hl2b : 0 <= l2 < 2 ^ 40) by (unfold l2; lia).
  assert (Hst : struct_size FgaState_fields = 48) by reflexivity.
  pose proof (maxalign_ge c ltac:(lia)). pose proof (maxalign_ge s ltac:(lia)).
  pose proof (maxalign_ge l2 ltac:(lia)). pose proof (maxalign_ge 48 ltac:(lia)).
  pose proof (maxalign_aligned c). pose proof (maxalign_aligned l2).
  pose proof (maxalign_aligned 48).
  unfold layout_state, state_struct_size. rewrite Hc, Hl2, Hs, Hst. unfold mbind, outcome_bind.
  rewrite add_size_done by lia. rewrite add_size_done by lia. rewrite add_size_done by lia.
  eexists _, c, l2, s. split; [reflexivity|]. cbn. split_and!; try done; try lia.
  - by apply Z.divide_add_r.
  - by repeat apply Z.divide_add_r.
Qed.

(** The memory the first process finds. *)
Definition segment_ok (mem : segment L) : Prop :=
  length (sg_slots mem) = Z.to_nat n /\
  length (q_values (sg_queue mem)) = Z.to_nat (pow2_ceil n) /\
  length (sg_entries mem) = Z.to_nat (l2_capacity_from_config config).

Lemma initialize_state_spec seed mem :
  segment_ok mem ->
  exists st k, _initialize_state use_asserts config mc MaxBackends (Some seed) mem = Done st /\
    st_bgw_latch st = None /\ hash_seed st = u64 seed /\
    chan_repr k (st_channel st) (rev (seq 0 (Z.to_nat n))) [] /\
    length (pool_slots (ch_pool (st_channel st))) = Z.to_nat n /\
    l2_entries (st_cache st) = clear_valid <$> sg_entries mem /\
    l2_capacity (st_cache st) = cache_size config * 16384 /\
    backends (st_stats st) = replicate (Z.to_nat MaxBackends) zero_backend_stats.
Proof.
  intros (Hsl & Hq & He).
  destruct state_layout_fits as (sl & _ & _ & _ & Hlay & _).
  destruct (channel_initialised_spec use_asserts config mc n (sg_head mem) (sg_slots mem) (sg_queue mem)
    Hslots Hn Hsl Hq) as (ch & k & Hch & Hrange & _ & _ & Hrep & Hslots' & _).
  unfold _initialize_state, _generate_hash_seed. unfold mbind, outcome_bind.
  rewrite Hlay, Hch. unfold fga_cache_shmem_init.
  rewrite l2_capacity_mb in * by done. rewrite u32_small by lia.
  pose proof (clear_loop_spec [] (sg_entries mem)) as Hcl. cbn in Hcl. rewrite He in Hcl.
  rewrite Hcl. unfold mbind, outcome_bind, mret, outcome_ret.
  eexists _, k. split; [reflexivity|]. cbn. split_and!; try done.
  by rewrite Hslots', length_replicate.
Qed.
End StateSpec.

Section Startup.
Context {L : Type} {HS : SList L} {HSL : SListLaws L} {HM : PgMem} {HML : PgMemLaws}.
Context {H : Type} {HD : Dynahash FgaAclCacheKey Z H} {HDL : DynahashLaws FgaAclCacheKey Z H}.
Variable use_asserts : bool.

(** C21. The shared segment: for every configuration the settings allow, the
    state struct, the channel, the L2 cache with its entry array and the
    statistics follow each other aligned and without overlap, and end exactly at
    the size the segment is created with; the space requested at load time is
    that size and the estimate of the L2 hash table. *)
Theorem shared_segment_fits config mc MaxBackends n hash_estimate_size :
  1 <= cache_size config <= 1024 -> max_slots config <= 16384 ->
  compute_slot_size config mc = Done n -> 0 <= MaxBackends < 2 ^ 20 ->
  (forall a b, 0 <= hash_estimate_size a b < 2 ^ 50) ->
  exists sl c l2 s size, layout_state config mc MaxBackends = Done sl /\
    fga_channel_shmem_size config mc = Done c /\ fga_cache_shmem_base_size config = Done l2 /\
    fga_stats_shmem_size MaxBackends = Done s /\
    struct_size FgaState_fields <= sl_channel sl /\ sl_channel sl + c <= sl_cache sl /\
    sl_cache sl + l2 <= sl_stats sl /\ sl_stats sl + s <= sl_end sl /\
    (8 | sl_channel sl) /\ (8 | sl_cache sl) /\ (8 | sl_stats sl) /\
    state_struct_size config mc MaxBackends = Done (sl_end sl) /\
    fga_shmem_request config mc MaxBackends hash_estimate_size
      = Done (size, (FGA_LWLOCK_TRANCHE_NAME, FGA_LWLOCK_TRANCHE_NUM)) /\
    sl_end sl + fga_cache_shmem_hash_size hash_estimate_size config <= size.
Proof.
  intros Hc Hm Hn Hb Hh.
  destruct (state_layout_fits config mc MaxBackends n Hc Hm Hn Hb)
    as (sl & c & l2 & s & Hl & H1 & H2 & H3 & H4 & H5 & H6 & H7 & H8 & H9 & H10 & Hs).
  pose proof (Hh (l2_hash_size (l2_capacity_from_config config)) (struct_size FgaL2AclSlot_fields)) as He.
  set (e := hash_estimate_size _ _) in He. pose proof (maxalign_ge e ltac:(lia)).
  destruct (channel_size_bound config mc n Hm Hn) as (c' & Hc' & Hcb).
  destruct (stats_size MaxBackends Hb) as (s' & Hs' & Hsb).
  rewrite H1 in Hc'. injection Hc' as <-. rewrite H3 in Hs'. injection Hs' as <-.
  assert (Hend : sl_end sl < 2 ^ 50).
  { unfold layout_state in Hl. rewrite H1, H2, H3 in Hl. unfold mbind, outcome_bind in Hl.
    rewrite (cache_base_size config Hc) in H2. injection H2 as <-. injection Hl as <-. cbn.
    set (l2 := 24 + _).
    pose proof (maxalign_ge c ltac:(lia)). pose proof (maxalign_ge s ltac:(lia)).
    pose proof (maxalign_ge l2 ltac:(unfold l2; lia)). pose proof (maxalign_ge 48 ltac:(lia)).
    assert (Hst : struct_size FgaState_fields = 48) by reflexivity. rewrite Hst. unfold l2 in *. lia. }
  exists sl, c, l2, s, (sl_end sl + MAXALIGN e). split_and!; try done.
  - unfold fga_shmem_request. rewrite Hs. unfold mbind, outcome_bind.
    change (fga_cache_shmem_hash_size hash_estimate_size config) with e.
    rewrite add_size_done; [done|..]; [|lia|lia].
    assert (0 <= struct_size FgaState_fields) by done.
    assert (0 <= l2) by (rewrite (cache_base_size config Hc) in H2; injection H2 as <-; lia). lia.
  - change (fga_cache_shmem_hash_size hash_estimate_size config) with e. lia.
Qed.

End Startup.

(** The hook chain: loading outside the preload phase is refused and changes
    nothing; loading in it keeps the hooks of the modules loaded before (they
    run first, then ours), defines the settings and registers the worker; and
    unloading puts the previous hooks back. *)
Theorem hooks_keep_the_chain m getenv :
  shmem_request_hook m <> HookFga -> shmem_startup_hook m <> HookFga ->
  (exists err, _PG_init false getenv m = (Error err, m)) /\
  exists m1 m2, _PG_init true getenv m = (Done tt, m1) /\
    run_request_hook m1 = run_request_hook m ++ [CallFga] /\
    run_startup_hook m1 = run_startup_hook m ++ [CallFga] /\
    guc_defined m1 = guc_defined m ++ fga_guc_init getenv /\ bgw_registered m1 = true /\
    _PG_fini m1 = (Done tt, m2) /\
    run_request_hook m2 = run_request_hook m /\ run_startup_hook m2 = run_startup_hook m.
Proof.
  destruct m as [r s pr ps g b]. cbn. intros H1 H2. split; [by eexists|].
  exists (MkModule HookFga HookFga r s (g ++ fga_guc_init getenv) true),
    (MkModule r s r s (g ++ fga_guc_init getenv) true).
  unfold run_request_hook, run_startup_hook, fga_shmem_request_hook, fga_shmem_startup_hook. cbn.
  by destruct r, s.
Qed.

(** ** Witnesses *)
Definition sample_segment : segment linked :=
  MkSegment (Linked None ∅) (replicate (Z.to_nat 1024) empty_slot)
    (MkQueue 0 0 0 (replicate (Z.to_nat (pow2_ceil 1024)) 0))
    (replicate (Z.to_nat (l2_capacity_from_config boot_config)) sample_l2_entry) 
    (fga_stats_shmem_init 0 (MkStats 0 0 0 0 0 0 0 [])).

Lemma shared_segment_fits_witness :
  exists sl, layout_state boot_config (Some (str "100")) 130 = Done sl /\
    state_struct_size boot_config (Some (str "100")) 130 = Done (sl_end sl).
Proof.
  destruct (shared_segment_fits boot_config (Some (str "100")) 130 1024 (fun a b => 4096))
    as (sl & c & l2 & s & size & H1 & _ & _ & _ & _ & _ & _ & _ & _ & _ & _ & H2 & _).
  - cbn. lia.
  - cbn. lia.
  - reflexivity.
  - lia.
  - intros a b. lia.
  - exists sl. split; [exact H1|exact H2].
Defined.


Lemma hooks_keep_the_chain_witness :
  run_request_hook (_PG_init true no_env (MkModule (HookOther 7) HookNull HookNull HookNull [] false)).2
    = [CallOther 7; CallFga].
Proof.
  destruct (hooks_keep_the_chain (MkModule (HookOther 7) HookNull HookNull HookNull [] false) no_env
    ltac:(discriminate) ltac:(discriminate)) as [_ (m1 & m2 & H1 & H2 & _)].
  rewrite H1. exact H2.
Defined.
