(* ===== verification/Fdw.v ===== *)
(** * The foreign data wrapper: [src/fdw/]

    The validator of the options, the merged options of a foreign table, the
    planner and executor callbacks (the executor returns two demonstration rows
    per table), and the tables an IMPORT FOREIGN SCHEMA creates. *)
From S2P Require Import Prelude Platform Types.

(** ** fdw.h *)
Inductive FgaFdwTableKind : Type :=
  | FGA_FDW_TABLE_KIND_UNKNOWN
  | FGA_FDW_TABLE_KIND_ACL
  | FGA_FDW_TABLE_KIND_TUPLE
  | FGA_FDW_TABLE_KIND_STORE.

#[export] Instance table_kind_eq_dec : EqDecision FgaFdwTableKind.
Proof. solve_decision. Defined.

Definition FGA_FDW_TABLE_KIND_NAME : list ascii := str "kind".
Definition FGA_FDW_TABLE_KIND_ACL_NAME : list ascii := str "acl".
Definition FGA_FDW_TABLE_KIND_TUPLE_NAME : list ascii := str "tuple".
Definition FGA_FDW_TABLE_KIND_STORE_NAME : list ascii := str "store".

Record FgaFdwTableOptions : Type := MkOptions {
  opt_kind : FgaFdwTableKind;
  opt_endpoint : option (list ascii);
  opt_store_id : option (list ascii);
  opt_auth_model_id : option (list ascii);
}.

(** One option of a DDL statement; a value that is not given is [None]. *)
Record DefElem : Type := MkDef { defname : list ascii; defvalue : option (list ascii) }.

Definition defGetString (d : DefElem) : outcome (list ascii) :=
  match defvalue d with
  | Some v => Done v
  | None => Error (PgError "ERRCODE_SYNTAX_ERROR" "%s requires a parameter")
  end.

Definition named (d : DefElem) (name : list ascii) : bool := bool_decide (defname d = name).

(** ** validator.c *)
Definition invalid_option (msg : string) : pg_error :=
  PgError "ERRCODE_FDW_INVALID_OPTION_NAME" msg.

Fixpoint server_options_loop (endpoint_seen : bool) (options : list DefElem) : outcome bool :=
  match options with
  | [] => Done endpoint_seen
  | d :: rest =>
      if named d (str "endpoint") then _ ← defGetString d; server_options_loop true rest
      else if named d (str "store_id") then _ ← defGetString d; server_options_loop endpoint_seen rest
      else if named d (str "auth_model_id")
      then _ ← defGetString d; server_options_loop endpoint_seen rest
      else Error (invalid_option "invalid option for SERVER")
  end.

Definition fga_validate_server_options (options : list DefElem) : outcome unit :=
  endpoint_seen ← server_options_loop false options;
  if (endpoint_seen : bool) then Done tt
  else Error (PgError "ERRCODE_FDW_OPTION_NAME_NOT_FOUND" "option endpoint is required for SERVER").

Fixpoint fga_validate_user_mapping_options (options : list DefElem) : outcome unit :=
  match options with
  | [] => Done tt
  | d :: rest =>
      if named d (str "bearer_token")
      then _ ← defGetString d; fga_validate_user_mapping_options rest
      else Error (invalid_option "invalid option for USER MAPPING")
  end.

Definition valid_kind (v : list ascii) : bool :=
  bool_decide (v = FGA_FDW_TABLE_KIND_ACL_NAME) || bool_decide (v = FGA_FDW_TABLE_KIND_STORE_NAME)
  || bool_decide (v = FGA_FDW_TABLE_KIND_TUPLE_NAME).

Fixpoint table_options_loop (kind_seen : bool) (options : list DefElem) : outcome bool :=
  match options with
  | [] => Done kind_seen
  | d :: rest =>
      if named d FGA_FDW_TABLE_KIND_NAME then
        v ← defGetString d;
        if valid_kind v then table_options_loop true rest
        else Error (PgError "ERRCODE_FDW_INVALID_ATTRIBUTE_VALUE" "invalid value for option kind")
      else if named d (str "store_id") then _ ← defGetString d; table_options_loop kind_seen rest
      else if named d (str "auth_model_id") then _ ← defGetString d; table_options_loop kind_seen rest
      else Error (invalid_option "invalid option for FOREIGN TABLE")
  end.

Definition fga_validate_table_options (options : list DefElem) : outcome unit :=
  kind_seen ← table_options_loop false options;
  if (kind_seen : bool) then Done tt
  else Error (PgError "ERRCODE_FDW_OPTION_NAME_NOT_FOUND" "option kind is required for FOREIGN TABLE").

Inductive catalog : Type :=
  | ForeignServerRelationId | UserMappingRelationId | ForeignTableRelationId
  | ForeignDataWrapperRelationId | OtherRelationId (oid : Z).

Definition fga_fdw_validator (options : list DefElem) (c : catalog) : outcome unit :=
  match c with
  | ForeignServerRelationId => fga_validate_server_options options
  | UserMappingRelationId => fga_validate_user_mapping_options options
  | ForeignTableRelationId => fga_validate_table_options options
  | ForeignDataWrapperRelationId => Done tt
  | OtherRelationId _ => Error (PgError "ERRCODE_FDW_ERROR" "fga_fdw_validator: unexpected catalog OID %u")
  end.

(** ** options.c *)
Definition is_blank (s : option (list ascii)) : bool :=
  match s with
  | None => true
  | Some [] => true
  | Some (c :: _) => bool_decide (c = NUL)
  end.

Section FdwOptions.
(** PostgreSQL's comparison without regard to case; 0 means equal. *)
Variable pg_strcasecmp : list ascii -> list ascii -> Z.

Definition parse_table_kind (val : list ascii) : FgaFdwTableKind :=
  if pg_strcasecmp val FGA_FDW_TABLE_KIND_ACL_NAME =? 0 then FGA_FDW_TABLE_KIND_ACL
  else if pg_strcasecmp val FGA_FDW_TABLE_KIND_TUPLE_NAME =? 0 then FGA_FDW_TABLE_KIND_TUPLE
  else if pg_strcasecmp val FGA_FDW_TABLE_KIND_STORE_NAME =? 0 then FGA_FDW_TABLE_KIND_STORE
  else FGA_FDW_TABLE_KIND_UNKNOWN.

Definition set_kind (o : FgaFdwTableOptions) (k : FgaFdwTableKind) : FgaFdwTableOptions :=
  MkOptions k (opt_endpoint o) (opt_store_id o) (opt_auth_model_id o).

(** The tests both loops share. *)
Definition common_option (d : DefElem) (o : FgaFdwTableOptions) : outcome FgaFdwTableOptions :=
  if named d (str "endpoint") then
    v ← defGetString d; Done (MkOptions (opt_kind o) (Some v) (opt_store_id o) (opt_auth_model_id o))
  else if named d (str "store_id") then
    v ← defGetString d; Done (MkOptions (opt_kind o) (opt_endpoint o) (Some v) (opt_auth_model_id o))
  else if named d (str "auth_model_id") then
    v ← defGetString d; Done (MkOptions (opt_kind o) (opt_endpoint o) (opt_store_id o) (Some v))
  else Done o.

Fixpoint read_server_options (options : list DefElem) (o : FgaFdwTableOptions)
  : outcome FgaFdwTableOptions :=
  match options with
  | [] => Done o
  | d :: rest => o ← common_option d o; read_server_options rest o
  end.

Fixpoint read_table_options (options : list DefElem) (o : FgaFdwTableOptions)
  : outcome FgaFdwTableOptions :=
  match options with
  | [] => Done o
  | d :: rest =>
      o ← (if named d FGA_FDW_TABLE_KIND_NAME
           then v ← defGetString d; Done (set_kind o (parse_table_kind v))
           else common_option d o);
      read_table_options rest o
  end.

Definition fga_get_table_options (server table : list DefElem) : outcome FgaFdwTableOptions :=
  o ← read_server_options server (MkOptions FGA_FDW_TABLE_KIND_UNKNOWN None None None);
  o ← read_table_options table o;
  if decide (opt_kind o = FGA_FDW_TABLE_KIND_UNKNOWN) then
    Error (PgError "ERRCODE_FDW_OPTION_NAME_NOT_FOUND" "option kind is required")
  else if is_blank (opt_endpoint o) then
    Error (PgError "ERRCODE_FDW_OPTION_NAME_NOT_FOUND" "option endpoint is required")
  else if (bool_decide (opt_kind o = FGA_FDW_TABLE_KIND_ACL)
           || bool_decide (opt_kind o = FGA_FDW_TABLE_KIND_TUPLE)) && is_blank (opt_store_id o) then
    Error (PgError "ERRCODE_FDW_OPTION_NAME_NOT_FOUND" "option store_id is required")
  else Done o.

(** ** plan.c

    [restricted]: the table has a restriction clause.  The result is the
    estimated number of rows. *)
Definition fgaGetForeignRelSize (server table : list DefElem) (restricted : bool) : outcome Z :=
  opts ← fga_get_table_options server table;
  match opt_kind opts with
  | FGA_FDW_TABLE_KIND_ACL =>
      if restricted then Done 10000
      else Error (PgError "ERRCODE_INTERNAL_ERROR" "full scan not allowed for fga_tuple")
  | FGA_FDW_TABLE_KIND_TUPLE | FGA_FDW_TABLE_KIND_STORE => Done 10000
  | FGA_FDW_TABLE_KIND_UNKNOWN => Done 100
  end.
End FdwOptions.

(** The single path: its rows, startup cost and total cost. *)
Definition fgaGetForeignPaths (baserel_rows : Z) : Z * Z * Z := (baserel_rows, 0, baserel_rows).

(** [extract_actual_clauses] is the planner's; the node's lists of expressions
    and private data are empty. *)
Section Plan.
Context {Clause Expr TargetEntry Plan : Type}.
Variable extract_actual_clauses : list Clause -> bool -> list Expr.

Record ForeignScan : Type := MkForeignScan {
  fs_targetlist : list TargetEntry;
  fs_qual : list Expr;
  fs_scanrelid : Z;
  fs_outer_plan : option Plan;
}.

Definition fgaGetForeignPlan (baserel_relid : Z) (tlist : list TargetEntry) (scan_clauses : list Clause)
    (outer_plan : option Plan) : ForeignScan :=
  MkForeignScan tlist (extract_actual_clauses scan_clauses false) baserel_relid outer_plan.
End Plan.

(** ** exec.c *)
Inductive Datum : Type :=
  | DZero | DText (s : string) | DBool (b : bool) | DTimestamp (t : Z).

#[export] Instance datum_eq_dec : EqDecision Datum.
Proof. solve_decision. Defined.

Record FgaFdwExecState : Type := MkExecState {
  ex_opts : FgaFdwTableOptions;
  ex_row : Z;
}.

(** The slot's arrays have one element per column; an empty slot is [None]. *)
Definition row : Type := list Datum * list bool.

(** [values[i] = d] *)
Definition set_value (i : nat) (d : Datum) (r : row) : outcome row :=
  if decide (i < length r.1)%nat then Done (<[i := d]> r.1, r.2) else Undefined OutOfBounds.

Fixpoint set_values (i : nat) (ds : list Datum) (r : row) : outcome row :=
  match ds with
  | [] => Done r
  | d :: rest => r ← set_value i d r; set_values (S i) rest r
  end.

Definition fgaBeginForeignScan (pg_strcasecmp : list ascii -> list ascii -> Z)
    (server table : list DefElem) : outcome FgaFdwExecState :=
  opts ← fga_get_table_options pg_strcasecmp server table; Done (MkExecState opts 0).

Definition fgaIterateForeignScan (natts : nat) (now : Z)
  : CM FgaFdwExecState (option row) := fun st =>
  if 2 <=? ex_row st then (Done None, st)
  else
    let r : row := (replicate natts DZero, replicate natts false) in
    let first := ex_row st =? 0 in
    let filled :=
      match opt_kind (ex_opts st) with
      | FGA_FDW_TABLE_KIND_TUPLE =>
          if (natts <? 5)%nat
          then Error (PgError "ERRCODE_INTERNAL_ERROR" "postfga_tuple must have at least 5 columns")
          else set_values 0
                 (if first
                  then [DText "doc"; DText "doc:1"; DText "user"; DText "user:1"; DText "viewer"]
                  else [DText "doc"; DText "doc:2"; DText "user"; DText "user:2"; DText "viewer"]) r
      | FGA_FDW_TABLE_KIND_ACL =>
          if (natts <? 7)%nat
          then Error (PgError "ERRCODE_INTERNAL_ERROR" "postfga_acl must have at least 7 columns")
          else set_values 0
                 (if first
                  then [DText "doc"; DText "doc:1"; DText "user"; DText "user:1"; DText "viewer";
                        DBool true; DTimestamp now]
                  else [DText "doc"; DText "doc:2"; DText "user"; DText "user:2"; DText "viewer";
                        DBool false; DTimestamp now]) r
      | FGA_FDW_TABLE_KIND_STORE =>
          if (natts <? 2)%nat
          then Error (PgError "ERRCODE_INTERNAL_ERROR" "postfga_store must have at least 2 columns")
          else set_values 0
                 (if first
                  then [DText "store:1"; DText "First Store"; DTimestamp now; DTimestamp now]
                  else [DText "store:2"; DText "Second Store"; DTimestamp now; DTimestamp now]) r
      | FGA_FDW_TABLE_KIND_UNKNOWN =>
          Error (PgError "ERRCODE_FDW_TABLE_NOT_FOUND" "postfga_fdw: unknown table kind")
      end in
    match filled with
    | Done r => (Done (Some r), MkExecState (ex_opts st) (ex_row st + 1))
    | Error e => (Error e, st)
    | Undefined u => (Undefined u, st)
    end.

Definition fgaReScanForeignScan (st : option FgaFdwExecState) : option FgaFdwExecState :=
  match st with Some st => Some (MkExecState (ex_opts st) 0) | None => None end.

(** [fdw_state] is NULL afterwards. *)
Definition fgaEndForeignScan (st : option FgaFdwExecState) : option FgaFdwExecState :=
  match st with None => None | Some _ => None end.

(** ** handler.c: IMPORT FOREIGN SCHEMA

    The statements are composed in a [StringInfo] that is reset between them;
    [cmds] is the list of the copies made so far. *)
Record import_state : Type := MkImport {
  si_data : list ascii;
  si_cmds : list (list ascii);
}.

Definition appendStringInfo (s : list ascii) : CM import_state unit :=
  cm_modify (fun st => MkImport (si_data st ++ s) (si_cmds st)).
Definition resetStringInfo : CM import_state unit := cm_modify (fun st => MkImport [] (si_cmds st)).
(** [cmds = lappend(cmds, pstrdup(buf.data))] *)
Definition lappend_copy : CM import_state unit :=
  cm_modify (fun st => MkImport (si_data st) (si_cmds st ++ [si_data st])).

(** One call per column. *)
Fixpoint append_columns (columns : list string) : CM import_state unit :=
  match columns with
  | [] => mret tt
  | c :: columns => _ ← appendStringInfo (str c); append_columns columns
  end.

Definition acl_columns : list string :=
  ["object_type text NOT NULL, "; "object_id text NOT NULL, "; "subject_type text NOT NULL, ";
   "subject_id text NOT NULL, "; "relation text NOT NULL, "; "allow bool NOT NULL, ";
   "evaluated_at timestamptz NOT NULL "]%string.
Definition store_columns : list string :=
  ["id text NOT NULL, "; "name text NOT NULL, "; "created_at timestamptz NOT NULL, ";
   "updated_at timestamptz NOT NULL "]%string.
Definition tuple_columns : list string :=
  ["object_type text NOT NULL, "; "object_id text NOT NULL, "; "subject_type text NOT NULL, ";
   "subject_id text NOT NULL, "; "relation text NOT NULL "]%string.

Section SchemaTables.
Variable quote_identifier : list ascii -> list ascii.

Definition table_head (local_schema : list ascii) (name : string) : list ascii :=
  str "CREATE FOREIGN TABLE IF NOT EXISTS " ++ quote_identifier local_schema ++ str "." ++
  quote_identifier (str name) ++ str " (".
Definition table_tail (server kind : list ascii) : list ascii :=
  str ") SERVER " ++ quote_identifier server ++ str " OPTIONS (kind '" ++ kind ++ str "');".

Definition fgaImportForeignSchema (local_schema server : list ascii) : CM import_state (list (list ascii)) :=
  _ ← appendStringInfo (table_head local_schema "fga_acl");
  _ ← append_columns acl_columns;
  _ ← appendStringInfo (table_tail server FGA_FDW_TABLE_KIND_ACL_NAME);
  _ ← lappend_copy;
  _ ← resetStringInfo;
  _ ← appendStringInfo (table_head local_schema "fga_store");
  _ ← append_columns store_columns;
  _ ← appendStringInfo (table_tail server FGA_FDW_TABLE_KIND_STORE_NAME);
  _ ← lappend_copy;
  _ ← resetStringInfo;
  _ ← appendStringInfo (table_head local_schema "fga_tuple");
  _ ← append_columns tuple_columns;
  _ ← appendStringInfo (table_tail server FGA_FDW_TABLE_KIND_TUPLE_NAME);
  _ ← lappend_copy;
  st ← cm_get;
  mret (si_cmds st).

(** The statement for one table. *)
Definition table_ddl (local_schema server : list ascii) (name : string) (columns : list string)
    (kind : list ascii) : list ascii :=
  str "CREATE FOREIGN TABLE IF NOT EXISTS " ++ quote_identifier local_schema ++ str "." ++
  quote_identifier (str name) ++ str " (" ++ concat (str <$> columns) ++
  str ") SERVER " ++ quote_identifier server ++ str " OPTIONS (kind '" ++ kind ++ str "');".
End SchemaTables.

(** ** schema.c: the same statements in a second function of that name *)
Definition schema_fgaImportForeignSchema (quote_identifier : list ascii -> list ascii)
    (local_schema server : list ascii) : CM import_state (list (list ascii)) :=
  _ ← appendStringInfo (table_head quote_identifier local_schema "fga_acl");
  _ ← append_columns ["object_type text NOT NULL, "; "object_id text NOT NULL, ";
        "subject_type text NOT NULL, "; "subject_id text NOT NULL, "; "relation text NOT NULL, ";
        "allow bool NOT NULL, "; "evaluated_at timestamptz NOT NULL "]%string;
  _ ← appendStringInfo (table_tail quote_identifier server FGA_FDW_TABLE_KIND_ACL_NAME);
  _ ← lappend_copy;
  _ ← resetStringInfo;
  _ ← appendStringInfo (table_head quote_identifier local_schema "fga_store");
  _ ← append_columns ["id text NOT NULL, "; "name text NOT NULL, ";
        "created_at timestamptz NOT NULL, "; "updated_at timestamptz NOT NULL "]%string;
  _ ← appendStringInfo (table_tail quote_identifier server FGA_FDW_TABLE_KIND_STORE_NAME);
  _ ← lappend_copy;
  _ ← resetStringInfo;
  _ ← appendStringInfo (table_head quote_identifier local_schema "fga_tuple");
  _ ← append_columns ["object_type text NOT NULL, "; "object_id text NOT NULL, ";
        "subject_type text NOT NULL, "; "subject_id text NOT NULL, "; "relation text NOT NULL "]%string;
  _ ← appendStringInfo (table_tail quote_identifier server FGA_FDW_TABLE_KIND_TUPLE_NAME);
  _ ← lappend_copy;
  st ← cm_get;
  mret (si_cmds st).

(** ** handler.c: the callbacks the wrapper registers *)
Section Handler.
Context {Clause Expr TargetEntry Plan : Type}.
Variable pg_strcasecmp : list ascii -> list ascii -> Z.
Variable quote_identifier : list ascii -> list ascii.
Variable extract_actual_clauses : list Clause -> bool -> list Expr.

Record FdwRoutine : Type := MkFdwRoutine {
  GetForeignRelSize : list DefElem -> list DefElem -> bool -> outcome Z;
  GetForeignPaths : Z -> Z * Z * Z;
  GetForeignPlan : Z -> list TargetEntry -> list Clause -> option Plan ->
    ForeignScan (Expr := Expr) (TargetEntry := TargetEntry) (Plan := Plan);
  BeginForeignScan : list DefElem -> list DefElem -> outcome FgaFdwExecState;
  IterateForeignScan : nat -> Z -> CM FgaFdwExecState (option row);
  ReScanForeignScan : option FgaFdwExecState -> option FgaFdwExecState;
  EndForeignScan : option FgaFdwExecState -> option FgaFdwExecState;
  ImportForeignSchema : list ascii -> list ascii -> CM import_state (list (list ascii));
}.

Definition fga_fdw_handler : FdwRoutine := {|
  GetForeignRelSize := fgaGetForeignRelSize pg_strcasecmp;
  GetForeignPaths := fgaGetForeignPaths;
  GetForeignPlan := fgaGetForeignPlan extract_actual_clauses;
  BeginForeignScan := fgaBeginForeignScan pg_strcasecmp;
  IterateForeignScan := fgaIterateForeignScan;
  ReScanForeignScan := fgaReScanForeignScan;
  EndForeignScan := fgaEndForeignScan;
  ImportForeignSchema := fgaImportForeignSchema quote_identifier;
|}.
End Handler.

(** ** Options that passed the validator *)

(** The value of the last option with this name, else [acc]. *)
Definition last_value (name : list ascii) (ds : list DefElem) (acc : option (list ascii))
  : option (list ascii) :=
  foldl (fun acc d => if named d name then defvalue d else acc) acc ds.

Definition kind_of_name (v : list ascii) : FgaFdwTableKind :=
  if bool_decide (v = FGA_FDW_TABLE_KIND_ACL_NAME) then FGA_FDW_TABLE_KIND_ACL
  else if bool_decide (v = FGA_FDW_TABLE_KIND_TUPLE_NAME) then FGA_FDW_TABLE_KIND_TUPLE
  else if bool_decide (v = FGA_FDW_TABLE_KIND_STORE_NAME) then FGA_FDW_TABLE_KIND_STORE
  else FGA_FDW_TABLE_KIND_UNKNOWN.

(** Each given option has a value, and the table's kinds are valid names. *)
Definition plain (allowed : list (list ascii)) (d : DefElem) : Prop :=
  is_Some (defvalue d) /\ defname d ∈ allowed /\
  (defname d = FGA_FDW_TABLE_KIND_NAME -> forall v, defvalue d = Some v -> valid_kind v = true).

Lemma named_true d n : named d n = true <-> defname d = n.
Proof. apply bool_decide_eq_true. Qed.
Lemma named_false d n : named d n = false <-> defname d <> n.
Proof. apply bool_decide_eq_false. Qed.

Definition server_names : list (list ascii) := [str "endpoint"; str "store_id"; str "auth_model_id"].
Definition table_names : list (list ascii) :=
  [FGA_FDW_TABLE_KIND_NAME; str "store_id"; str "auth_model_id"].

Lemma server_options_plain seen ds b :
  server_options_loop seen ds = Done b -> Forall (plain server_names) ds.
Proof.
  revert seen. induction ds as [|d ds IH]; intros seen; [by intros; apply Forall_nil|].
  cbn [server_options_loop]. unfold defGetString, mbind, outcome_bind.
  destruct (named d (str "endpoint")) eqn:E1; [apply named_true in E1|
  destruct (named d (str "store_id")) eqn:E2; [apply named_true in E2|
  destruct (named d (str "auth_model_id")) eqn:E3; [apply named_true in E3|done]]];
    (destruct (defvalue d) as [v|] eqn:Ev; [|done]); intros Hl; apply Forall_cons;
    (split; [|by eapply IH]); (split; [by exists v|]);
    (split; [unfold server_names; rewrite !elem_of_cons; tauto|]); intros Hk;
    rewrite Hk in *; discriminate.
Qed.

Lemma table_options_plain seen ds b :
  table_options_loop seen ds = Done b ->
  Forall (plain table_names) ds /\
  (b = true -> seen = true \/ exists d, d ∈ ds /\ defname d = FGA_FDW_TABLE_KIND_NAME).
Proof.
  revert seen. induction ds as [|d ds IH]; intros seen.
  { cbn. intros [= ->]. split; [apply Forall_nil; exact I|]. by left. }
  cbn [table_options_loop]. unfold defGetString, mbind, outcome_bind.
  destruct (named d FGA_FDW_TABLE_KIND_NAME) eqn:E1.
  - apply named_true in E1. destruct (defvalue d) as [v|] eqn:Ev; [|done].
    destruct (valid_kind v) eqn:Hv; [|done]. intros Hl. destruct (IH _ Hl) as [Hp _]. split.
    + apply Forall_cons. split; [|done]. split; [by exists v|].
      split; [unfold table_names; rewrite !elem_of_cons; tauto|]. congruence.
    + intros _. right. exists d. split; [by left|done].
  - apply named_false in E1.
    destruct (named d (str "store_id")) eqn:E2; [apply named_true in E2|
    destruct (named d (str "auth_model_id")) eqn:E3; [apply named_true in E3|done]];
      (destruct (defvalue d) as [v|] eqn:Ev; [|done]); intros Hl; destruct (IH _ Hl) as [Hp Hk];
      (split; [apply Forall_cons; split; [|done]; split; [by exists v|];
        split; [unfold table_names; rewrite !elem_of_cons; tauto|done]|]);
      intros Hb; destruct (Hk Hb) as [?|(d' & ? & ?)]; [by left| |by left|];
      right; exists d'; (split; [by right|done]).
Qed.

Section OptionsSpec.
Variable pg_strcasecmp : list ascii -> list ascii -> Z.
(** Equal names compare equal, different kind names do not. *)
Hypothesis strcasecmp_kinds : forall v w,
  valid_kind v = true -> valid_kind w = true -> (pg_strcasecmp v w = 0 <-> v = w).

Lemma parse_valid_kind v : valid_kind v = true ->
  parse_table_kind pg_strcasecmp v = kind_of_name v /\ kind_of_name v <> FGA_FDW_TABLE_KIND_UNKNOWN.
Proof.
  intros Hv. unfold parse_table_kind, kind_of_name.
  assert (Hc : forall w, valid_kind w = true -> (pg_strcasecmp v w =? 0) = bool_decide (v = w)).
  { intros w Hw. apply eq_true_iff_eq. rewrite Z.eqb_eq, bool_decide_eq_true.
    by apply strcasecmp_kinds. }
  rewrite !Hc by done. split; [done|].
  repeat case_bool_decide; try done. exfalso. unfold valid_kind in Hv.
  rewrite !bool_decide_eq_false_2 in Hv by done. done.
Qed.

Lemma common_option_plain allowed d o :
  plain allowed d ->
  common_option d o = Done (MkOptions (opt_kind o)
    (last_value (str "endpoint") [d] (opt_endpoint o))
    (last_value (str "store_id") [d] (opt_store_id o))
    (last_value (str "auth_model_id") [d] (opt_auth_model_id o))).
Proof.
  intros [[v Hv] _]. unfold common_option, last_value, defGetString. cbn [foldl]. rewrite Hv.
  destruct (named d (str "endpoint")) eqn:E1; [apply named_true in E1|
  destruct (named d (str "store_id")) eqn:E2; [apply named_true in E2|
  destruct (named d (str "auth_model_id")) eqn:E3; [apply named_true in E3|]]];
    unfold named in *; try rewrite E1 in *; try rewrite E2 in *; try rewrite E3 in *; by destruct o.
Qed.

Lemma read_server_plain ds o :
  Forall (plain server_names) ds ->
  read_server_options ds o = Done (MkOptions (opt_kind o)
    (last_value (str "endpoint") ds (opt_endpoint o))
    (last_value (str "store_id") ds (opt_store_id o))
    (last_value (str "auth_model_id") ds (opt_auth_model_id o))).
Proof.
  revert o. induction ds as [|d ds IH]; intros o Hp; [by destruct o|].
  apply Forall_cons in Hp as [Hd Hp]. cbn [read_server_options].
  rewrite (common_option_plain _ d o Hd). unfold mbind, outcome_bind. by rewrite (IH _ Hp).
Qed.

Lemma read_table_plain ds o :
  Forall (plain table_names) ds ->
  read_table_options pg_strcasecmp ds o = Done (MkOptions
    (match last_value FGA_FDW_TABLE_KIND_NAME ds None with
     | Some v => kind_of_name v | None => opt_kind o end)
    (opt_endpoint o)
    (last_value (str "store_id") ds (opt_store_id o))
    (last_value (str "auth_model_id") ds (opt_auth_model_id o))) /\
  (forall acc, (exists d, d ∈ ds /\ defname d = FGA_FDW_TABLE_KIND_NAME) \/ is_Some acc /\ valid_kind <$> acc = Some true ->
     exists v, last_value FGA_FDW_TABLE_KIND_NAME ds acc = Some v /\ valid_kind v = true).
Proof.
  assert (Hind : forall kacc o, Forall (plain table_names) ds ->
    read_table_options pg_strcasecmp ds (set_kind o (match kacc with Some v => kind_of_name v | None => opt_kind o end))
    = Done (MkOptions
    (match last_value FGA_FDW_TABLE_KIND_NAME ds kacc with
     | Some v => kind_of_name v | None => opt_kind o end)
    (opt_endpoint o)
    (last_value (str "store_id") ds (opt_store_id o))
    (last_value (str "auth_model_id") ds (opt_auth_model_id o)))).
  { clear o. induction ds as [|d ds IH]; intros kacc o Hp; [done|].
    apply Forall_cons in Hp as [Hd Hp]. cbn [read_table_options].
    destruct (named d FGA_FDW_TABLE_KIND_NAME) eqn:Ek.
    - pose proof Ek as Ek'. apply named_true in Ek'. destruct Hd as ([v Hv] & _ & Hk).
      unfold defGetString. rewrite Hv. unfold mbind, outcome_bind.
      specialize (Hk Ek' v Hv). rewrite (proj1 (parse_valid_kind v Hk)).
      specialize (IH (Some v) o Hp). etrans; [exact IH|].
      unfold last_value. cbn [foldl]. rewrite Ek, Hv. unfold named. by rewrite Ek'.
    - rewrite (common_option_plain _ d _ Hd). unfold mbind, outcome_bind.
      assert (Hne : last_value (str "endpoint") [d] (opt_endpoint o) = opt_endpoint o).
      { unfold last_value. cbn [foldl]. destruct (named d (str "endpoint")) eqn:E; [|done].
        apply named_true in E. destruct Hd as (_ & Hin & _). unfold table_names in Hin.
        rewrite E, !elem_of_cons in Hin.
        destruct Hin as [?|[?|[?|Hin]]]; [discriminate..|by apply elem_of_nil in Hin]. }
      cbn [set_kind opt_kind opt_endpoint opt_store_id opt_auth_model_id]. rewrite Hne.
      specialize (IH kacc (MkOptions (opt_kind o) (opt_endpoint o)
        (last_value (str "store_id") [d] (opt_store_id o))
        (last_value (str "auth_model_id") [d] (opt_auth_model_id o))) Hp).
      cbn [set_kind opt_kind opt_endpoint opt_store_id opt_auth_model_id] in IH. etrans; [exact IH|].
      unfold last_value. cbn [foldl]. by rewrite Ek. }
  intros Hp. split.
  - specialize (Hind None o Hp). cbn in Hind. by destruct o.
  - clear Hind. induction ds as [|d ds IH]; intros acc Hacc.
    + destruct Hacc as [(d & Hd & _)|[[v ->] Hv]]; [by apply elem_of_nil in Hd|].
      exists v. split; [done|]. by injection Hv.
    + apply Forall_cons in Hp as [Hd Hp]. unfold last_value. cbn [foldl].
      destruct (named d FGA_FDW_TABLE_KIND_NAME) eqn:Ek.
      * apply named_true in Ek. destruct Hd as ([v Hv] & _ & Hk). apply IH; [done|].
        right. rewrite Hv. split; [by exists v|]. cbn. by rewrite (Hk Ek v Hv).
      * apply IH; [done|]. apply named_false in Ek.
        destruct Hacc as [(d' & [->|Hd']%elem_of_cons & Hn)|?]; [done|left; by exists d'|by right].
Qed.
End OptionsSpec.

(** ** Scanning *)
Definition columns_needed (k : FgaFdwTableKind) : nat :=
  match k with
  | FGA_FDW_TABLE_KIND_ACL => 7
  | FGA_FDW_TABLE_KIND_TUPLE => 5
  | FGA_FDW_TABLE_KIND_STORE => 4
  | FGA_FDW_TABLE_KIND_UNKNOWN => 0
  end.

(** Filling from column [i] on. *)
Lemma set_values_spec ds pre rest nulls :
  (length ds <= length rest)%nat ->
  set_values (length pre) ds (pre ++ rest, nulls)
  = Done (pre ++ ds ++ drop (length ds) rest, nulls).
Proof.
  revert pre rest. induction ds as [|d ds IH]; intros pre rest Hl; [done|].
  destruct rest as [|x rest]; [cbn in Hl; lia|].
  cbn [set_values]. unfold set_value. cbn [fst snd].
  rewrite decide_True by (rewrite length_app; cbn; lia).
  unfold mbind, outcome_bind. rewrite insert_app_r_alt, Nat.sub_diag by lia. cbn [insert list_insert].
  specialize (IH (pre ++ [d]) rest ltac:(cbn in Hl; lia)).
  rewrite length_app, Nat.add_1_r, <- !app_assoc in IH. cbn in IH. cbn. by rewrite IH.
Qed.

Lemma set_values_fresh ds natts :
  (length ds <= natts)%nat ->
  set_values 0 ds (replicate natts DZero, replicate natts false)
  = Done (ds ++ replicate (natts - length ds) DZero, replicate natts false).
Proof.
  intros Hl. pose proof (set_values_spec ds [] (replicate natts DZero) (replicate natts false)) as H.
  cbn [length app] in H. rewrite H by (by rewrite length_replicate).
  by rewrite drop_replicate.
Qed.

(** The demonstration values of the two rows. *)
Definition demo_values (k : FgaFdwTableKind) (first : bool) (now : Z) : list Datum :=
  match k with
  | FGA_FDW_TABLE_KIND_ACL =>
      [DText "doc"; DText (if first then "doc:1" else "doc:2"); DText "user";
       DText (if first then "user:1" else "user:2"); DText "viewer"; DBool first; DTimestamp now]
  | FGA_FDW_TABLE_KIND_TUPLE =>
      [DText "doc"; DText (if first then "doc:1" else "doc:2"); DText "user";
       DText (if first then "user:1" else "user:2"); DText "viewer"]
  | FGA_FDW_TABLE_KIND_STORE =>
      [DText (if first then "store:1" else "store:2");
       DText (if first then "First Store" else "Second Store"); DTimestamp now; DTimestamp now]
  | FGA_FDW_TABLE_KIND_UNKNOWN => []
  end.

Lemma iterate_spec opts natts now n :
  opt_kind opts <> FGA_FDW_TABLE_KIND_UNKNOWN -> (columns_needed (opt_kind opts) <= natts)%nat ->
  n < 2 ->
  fgaIterateForeignScan natts now (MkExecState opts n) =
    (Done (Some (demo_values (opt_kind opts) (n =? 0) now ++
        replicate (natts - columns_needed (opt_kind opts)) DZero, replicate natts false)),
     MkExecState opts (n + 1)).
Proof.
  intros Hk Hc Hn. unfold fgaIterateForeignScan. cbn [ex_row ex_opts].
  rewrite (proj2 (Z.leb_gt 2 n)) by lia.
  destruct (opt_kind opts); try done; cbn [columns_needed] in *.
  - rewrite (proj2 (Nat.ltb_ge natts 7)) by lia. destruct (n =? 0); by rewrite set_values_fresh.
  - rewrite (proj2 (Nat.ltb_ge natts 5)) by lia. destruct (n =? 0); by rewrite set_values_fresh.
  - rewrite (proj2 (Nat.ltb_ge natts 2)) by lia. destruct (n =? 0); by rewrite set_values_fresh.
Qed.

Lemma validated_options_spec pg_strcasecmp server table :
  (forall v w, valid_kind v = true -> valid_kind w = true -> (pg_strcasecmp v w = 0 <-> v = w)) ->
  fga_fdw_validator server ForeignServerRelationId = Done tt ->
  fga_fdw_validator table ForeignTableRelationId = Done tt ->
  exists kind, last_value FGA_FDW_TABLE_KIND_NAME table None = Some kind /\
    kind_of_name kind <> FGA_FDW_TABLE_KIND_UNKNOWN /\
    let endpoint := last_value (str "endpoint") server None in
    let store := last_value (str "store_id") table (last_value (str "store_id") server None) in
    let model := last_value (str "auth_model_id") table (last_value (str "auth_model_id") server None) in
    fga_get_table_options pg_strcasecmp server table =
      (if is_blank endpoint then
         Error (PgError "ERRCODE_FDW_OPTION_NAME_NOT_FOUND" "option endpoint is required")
       else if negb (bool_decide (kind_of_name kind = FGA_FDW_TABLE_KIND_STORE)) && is_blank store then
         Error (PgError "ERRCODE_FDW_OPTION_NAME_NOT_FOUND" "option store_id is required")
       else Done (MkOptions (kind_of_name kind) endpoint store model)).
Proof.
  intros Hcmp Hs Ht. cbn [fga_fdw_validator] in Hs, Ht.
  unfold fga_validate_server_options, mbind, outcome_bind in Hs.
  destruct (server_options_loop false server) as [b1| |] eqn:E1; try done.
  unfold fga_validate_table_options, mbind, outcome_bind in Ht.
  destruct (table_options_loop false table) as [b2| |] eqn:E2; try done.
  destruct b2; [|done].
  pose proof (server_options_plain _ _ _ E1) as Hps.
  destruct (table_options_plain _ _ _ E2) as [Hpt Hkind].
  destruct (Hkind eq_refl) as [?|Hex]; [done|].
  destruct (read_table_plain pg_strcasecmp Hcmp table (MkOptions FGA_FDW_TABLE_KIND_UNKNOWN
    (last_value (str "endpoint") server None) (last_value (str "store_id") server None)
    (last_value (str "auth_model_id") server None)) Hpt) as [Hread Hk].
  destruct (Hk None (or_introl Hex)) as (kind & Hlast & Hvalid).
  destruct (parse_valid_kind pg_strcasecmp Hcmp kind Hvalid) as [_ Hne].
  exists kind. split; [done|]. split; [done|]. cbv zeta.
  unfold fga_get_table_options. rewrite (read_server_plain _ _ Hps). unfold mbind, outcome_bind.
  cbn [opt_kind opt_endpoint opt_store_id opt_auth_model_id]. rewrite Hread, Hlast.
  cbn [opt_kind opt_endpoint opt_store_id opt_auth_model_id].
  rewrite decide_False by done.
  destruct (is_blank (last_value (str "endpoint") server None)); [done|].
  by destruct (kind_of_name kind).
Qed.

(** Options that passed the validator: the table's kind is the last one
    given, the endpoint comes from the server, the store and the model from the
    table or else the server; the options are refused exactly when the endpoint
    is blank, or the kind needs a store and none is given. *)
Theorem validated_options_are_read pg_strcasecmp server table :
  (forall v w, valid_kind v = true -> valid_kind w = true -> (pg_strcasecmp v w = 0 <-> v = w)) ->
  fga_fdw_validator server ForeignServerRelationId = Done tt ->
  fga_fdw_validator table ForeignTableRelationId = Done tt ->
  exists kind, last_value FGA_FDW_TABLE_KIND_NAME table None = Some kind /\
    kind_of_name kind <> FGA_FDW_TABLE_KIND_UNKNOWN /\
    let endpoint := last_value (str "endpoint") server None in
    let store := last_value (str "store_id") table (last_value (str "store_id") server None) in
    let model := last_value (str "auth_model_id") table (last_value (str "auth_model_id") server None) in
    fga_get_table_options pg_strcasecmp server table =
      (if is_blank endpoint then
         Error (PgError "ERRCODE_FDW_OPTION_NAME_NOT_FOUND" "option endpoint is required")
       else if negb (bool_decide (kind_of_name kind = FGA_FDW_TABLE_KIND_STORE)) && is_blank store then
         Error (PgError "ERRCODE_FDW_OPTION_NAME_NOT_FOUND" "option store_id is required")
       else Done (MkOptions (kind_of_name kind) endpoint store model)).
Proof. apply validated_options_spec. Qed.

(** The executor asks for rows until it gets an empty slot; [times] are the
    clock readings of its calls. *)
Fixpoint run_scan (iterate : Z -> CM FgaFdwExecState (option row)) (times : list Z)
  : CM FgaFdwExecState (list row) := fun st =>
  match times with
  | [] => (Done [], st)
  | now :: times =>
      match iterate now st with
      | (Done None, st) => (Done [], st)
      | (Done (Some r), st) =>
          match run_scan iterate times st with
          | (Done rs, st) => (Done (r :: rs), st)
          | (Error e, st) => (Error e, st)
          | (Undefined u, st) => (Undefined u, st)
          end
      | (Error e, st) => (Error e, st)
      | (Undefined u, st) => (Undefined u, st)
      end
  end.

Lemma run_scan_two_rows opts natts t0 t1 t2 ts :
  opt_kind opts <> FGA_FDW_TABLE_KIND_UNKNOWN ->
  (columns_needed (opt_kind opts) <= natts)%nat ->
  let extra := replicate (natts - columns_needed (opt_kind opts)) DZero in
  run_scan (fgaIterateForeignScan natts) (t0 :: t1 :: t2 :: ts) (MkExecState opts 0) =
    (Done [(demo_values (opt_kind opts) true t0 ++ extra, replicate natts false);
           (demo_values (opt_kind opts) false t1 ++ extra, replicate natts false)],
     MkExecState opts 2).
Proof.
  intros Hk Hc extra. cbn [run_scan].
  rewrite (iterate_spec opts natts t0 0 Hk Hc) by lia.
  by rewrite (iterate_spec opts natts t1 (0 + 1) Hk Hc) by lia.
Qed.

(** A scan of a table with at least the columns of its kind returns the two
    demonstration rows and ends; columns beyond the known ones are zero and not
    null, and a rescan returns the rows again. *)
Theorem foreign_scan_returns_two_rows opts natts t0 t1 t2 ts :
  opt_kind opts <> FGA_FDW_TABLE_KIND_UNKNOWN ->
  (columns_needed (opt_kind opts) <= natts)%nat ->
  let extra := replicate (natts - columns_needed (opt_kind opts)) DZero in
  exists st,
    run_scan (fgaIterateForeignScan natts) (t0 :: t1 :: t2 :: ts) (MkExecState opts 0) =
      (Done [(demo_values (opt_kind opts) true t0 ++ extra, replicate natts false);
             (demo_values (opt_kind opts) false t1 ++ extra, replicate natts false)], st) /\
    (forall now, fgaIterateForeignScan natts now st = (Done None, st)) /\
    fgaReScanForeignScan (Some st) = Some (MkExecState opts 0).
Proof.
  intros Hk Hc extra. exists (MkExecState opts 2). split; [by apply run_scan_two_rows|done].
Qed.

(** The column check of store tables is too weak: with two or three columns
    it passes, and the executor writes beyond the slot's arrays. *)
Theorem store_scan_overflows opts natts now :
  opt_kind opts = FGA_FDW_TABLE_KIND_STORE -> natts = 2%nat \/ natts = 3%nat ->
  fgaIterateForeignScan natts now (MkExecState opts 0) = (Undefined OutOfBounds, MkExecState opts 0).
Proof.
  intros Hk [->| ->]; unfold fgaIterateForeignScan; cbn [ex_opts ex_row]; by rewrite Hk.
Qed.

(** The tables of an import: name, columns and kind. *)
Definition imported_tables : list (string * list string * list ascii) :=
  [("fga_acl"%string, acl_columns, FGA_FDW_TABLE_KIND_ACL_NAME);
   ("fga_store"%string, store_columns, FGA_FDW_TABLE_KIND_STORE_NAME);
   ("fga_tuple"%string, tuple_columns, FGA_FDW_TABLE_KIND_TUPLE_NAME)].

Lemma append_columns_spec columns st : append_columns columns st =
  (Done tt, MkImport (si_data st ++ concat (str <$> columns)) (si_cmds st)).
Proof.
  revert st. induction columns as [|c columns IH]; intros [data cmds].
  - cbn. by rewrite app_nil_r.
  - cbn [append_columns]. unfold mbind, cm_bind, appendStringInfo, cm_modify. rewrite IH. cbn.
    by rewrite <- app_assoc.
Qed.

(** The buffer holds one statement at a time. *)
Lemma import_statements quote_identifier local_schema server :
  (fgaImportForeignSchema quote_identifier local_schema server (MkImport [] [])).1 =
    Done ((fun '(tn, columns, kind) => table_ddl quote_identifier local_schema server tn columns kind)
      <$> imported_tables).
Proof.
  unfold fgaImportForeignSchema, mbind, cm_bind, appendStringInfo, resetStringInfo, lappend_copy, cm_modify.
  rewrite !append_columns_spec. cbn [si_data si_cmds fst cm_get mret cm_ret fmap list_fmap imported_tables].
  unfold table_ddl, table_head, table_tail. cbn [app]. by rewrite <- !app_assoc.
Qed.

(** The function of schema.c composes the same statements. *)
Lemma schema_statements quote_identifier local_schema server st :
  schema_fgaImportForeignSchema quote_identifier local_schema server st =
    fgaImportForeignSchema quote_identifier local_schema server st.
Proof.
  unfold schema_fgaImportForeignSchema, fgaImportForeignSchema, acl_columns, store_columns, tuple_columns.
  reflexivity.
Qed.


(** ** Witnesses *)
Definition exact_compare (a b : list ascii) : Z := if decide (a = b) then 0 else 1.
Definition sample_server : list DefElem :=
  [MkDef (str "endpoint") (Some (str "h:1")); MkDef (str "store_id") (Some (str "s1"))].
Definition sample_table_options : list DefElem :=
  [MkDef (str "kind") (Some (str "tuple")); MkDef (str "store_id") (Some (str "s2"))].
Definition sample_store_options : FgaFdwTableOptions :=
  MkOptions FGA_FDW_TABLE_KIND_STORE None None None.

Lemma exact_compare_kinds v w :
  valid_kind v = true -> valid_kind w = true -> (exact_compare v w = 0 <-> v = w).
Proof. intros _ _. unfold exact_compare. case_decide; split; done. Qed.

Lemma foreign_scan_returns_two_rows_witness :
  exists st, run_scan (fgaIterateForeignScan 5) [9; 10; 11] (MkExecState sample_store_options 0) =
    (Done [([DText "store:1"; DText "First Store"; DTimestamp 9; DTimestamp 9; DZero],
            [false; false; false; false; false]);
           ([DText "store:2"; DText "Second Store"; DTimestamp 10; DTimestamp 10; DZero],
            [false; false; false; false; false])], st).
Proof.
  destruct (foreign_scan_returns_two_rows sample_store_options 5 9 10 11 []
    ltac:(discriminate) ltac:(cbn; lia)) as (st & H & _).
  exists st. exact H.
Defined.

Lemma store_scan_overflows_witness :
  (fgaIterateForeignScan 3 0 (MkExecState sample_store_options 0)).1 = Undefined OutOfBounds.
Proof.
  pose proof (store_scan_overflows sample_store_options 3 0 eq_refl (or_intror eq_refl)) as H.
  rewrite H. reflexivity.
Defined.

Lemma validated_options_are_read_witness :
  fga_get_table_options exact_compare sample_server sample_table_options =
  Done (MkOptions FGA_FDW_TABLE_KIND_TUPLE (Some (str "h:1")) (Some (str "s2")) None).
Proof.
  destruct (validated_options_are_read exact_compare sample_server sample_table_options
    exact_compare_kinds eq_refl eq_refl) as (k & Hk & _ & H).
  injection Hk as <-. exact H.
Defined.

