(* ===== verification/Payload.v ===== *)
(** * Payloads: the typing of shared requests and responses

    The char arrays of [src/payload.h] are filled by the backends
    ([src/func_fga.c]) and by the worker ([src/client/], [src/bgw/]) and read
    as C strings by the other side.  A payload is well formed when every array
    keeps its declared size and its string ends inside it; every write of the
    program keeps that. *)
From stdpp Require Import relations.
From S2P Require Import Prelude Platform Types CacheKey CacheSpec CacheL1 CacheL2 Stats Cache.
From S2P Require Import SlotQueue SlotPool Channel SqlFuncs Config Client Processor.

#[local] Arguments strlcpy : simpl never.

(** An array of [n] bytes that holds a C string. *)
Definition c_array (n : nat) (buf : list ascii) : Prop :=
  length buf = n /\ (length (c_str buf) < n)%nat.

#[export] Instance c_array_dec n buf : Decision (c_array n buf).
Proof. unfold c_array. apply _. Defined.

Definition tuple_arrays (t : FgaTuple) : Prop :=
  c_array OBJECT_TYPE_MAX_LEN (object_type t) /\ c_array OBJECT_ID_MAX_LEN (object_id t) /\
  c_array SUBJECT_TYPE_MAX_LEN (subject_type t) /\ c_array SUBJECT_ID_MAX_LEN (subject_id t) /\
  c_array RELATION_MAX_LEN (relation t).

Definition request_body_wf (b : FgaRequestBody) : Prop :=
  match b with
  | ReqCheckTuple t | ReqWriteTuple t | ReqDeleteTuple t => tuple_arrays t
  | ReqCreateStore name => c_array OPENFGA_STORE_NAME_LEN name
  | ReqZero | ReqGetStore | ReqDeleteStore => True
  end.

Definition response_body_wf (b : FgaResponseBody) : Prop :=
  match b with
  | RespGetStore _ name => c_array OPENFGA_STORE_NAME_LEN name
  | RespCreateStore id name =>
      c_array OPENFGA_STORE_ID_LEN id /\ c_array OPENFGA_STORE_NAME_LEN name
  | _ => True
  end.

Record request_wf (r : FgaRequest) : Prop := {
  rq_id : 0 <= request_id r < 2 ^ 64;
  rq_type : 0 <= req_type r <= 8;
  rq_store : c_array OPENFGA_STORE_ID_LEN (req_store_id r);
  rq_model : c_array OPENFGA_MODEL_ID_LEN (req_model_id r);
  rq_body : request_body_wf (req_body r);
}.

Record response_wf (r : FgaResponse) : Prop := {
  rs_message : c_array FGA_RESPONSE_ERROR_MESSAGE_LEN (error_message r);
  rs_body : response_body_wf (resp_body r);
}.

Definition payload_wf (p : FgaPayload) : Prop := request_wf (request p) /\ response_wf (response p).

Create HintDb payload.
#[export] Hint Constructors request_wf response_wf : payload.
#[export] Hint Resolve rq_id rq_type rq_store rq_model rq_body rs_message rs_body : payload.

(** ** The copies *)
Lemma length_c_str buf : (length (c_str buf) <= length buf)%nat.
Proof. induction buf as [|b bs IH]; cbn; [lia|]. case_decide; cbn; lia. Qed.

Lemma c_str_stops buf i : buf !! i = Some NUL -> (length (c_str buf) <= i)%nat.
Proof.
  revert i. induction buf as [|b bs IH]; intros [|i] Hi; try done; cbn.
  - injection Hi as ->. by rewrite decide_True.
  - case_decide; cbn; [lia|]. specialize (IH i Hi). lia.
Qed.

Lemma c_array_zeros n : (0 < n)%nat -> c_array n (zeros n).
Proof. intros Hn. split; [apply length_replicate|]. rewrite c_str_zeros. done. Qed.

Lemma c_array_strlcpy n dst src : (0 < n)%nat -> length dst = n -> c_array n (strlcpy dst src n).
Proof.
  intros Hn Hl. split; [rewrite length_strlcpy; lia|].
  rewrite c_str_strlcpy by done. rewrite length_take. lia.
Qed.

(** The copy of a text argument stays inside the array it is made for. *)
Lemma write_text_array ua dst n src :
  (0 < n)%nat -> length dst = n -> exists dst', write_text ua dst n src = Done dst' /\ c_array n dst'.
Proof.
  intros Hn Hl. unfold write_text, c_assert. rewrite bool_decide_eq_true_2 by done.
  rewrite andb_false_r. unfold mbind, outcome_bind.
  set (len := if decide (n <= length src)%nat then (n - 1)%nat else length src).
  assert (Hlen : (len < n)%nat) by (unfold len; case_decide; lia).
  set (d := if decide (0 < len)%nat then _ else dst).
  assert (Hd : length d = n).
  { unfold d. case_decide; [|done]. rewrite length_app, length_take, length_drop.
    unfold len in *. case_decide; lia. }
  rewrite decide_True by lia. eexists. split; [reflexivity|]. split; [by rewrite length_insert|].
  eapply Nat.le_lt_trans; [|exact Hlen]. apply c_str_stops, list_lookup_insert_eq. lia.
Qed.

Lemma zero_tuple_arrays : tuple_arrays zero_tuple.
Proof. split_and!; apply c_array_zeros; unfold OBJECT_TYPE_MAX_LEN, OBJECT_ID_MAX_LEN,
  SUBJECT_TYPE_MAX_LEN, SUBJECT_ID_MAX_LEN, RELATION_MAX_LEN; lia. Qed.

Lemma body_tuple_arrays b : request_body_wf b -> tuple_arrays (body_tuple b).
Proof. destruct b; cbn; try done; intros _; apply zero_tuple_arrays. Qed.

(** Filling a well-formed tuple does not fail. *)
Lemma fill_tuple_arrays ua v t :
  tuple_arrays t -> exists t', fill_tuple ua v t = Done t' /\ tuple_arrays t'.
Proof.
  intros ([H1 _] & [H2 _] & [H3 _] & [H4 _] & [H5 _]). unfold fill_tuple.
  destruct (write_text_array ua _ OBJECT_TYPE_MAX_LEN (v_object_type v) ltac:(cbv; lia) H1) as (a & -> & ?).
  destruct (write_text_array ua _ OBJECT_ID_MAX_LEN (v_object_id v) ltac:(cbv; lia) H2) as (b & -> & ?).
  destruct (write_text_array ua _ SUBJECT_TYPE_MAX_LEN (v_subject_type v) ltac:(cbv; lia) H3) as (c & -> & ?).
  destruct (write_text_array ua _ SUBJECT_ID_MAX_LEN (v_subject_id v) ltac:(cbv; lia) H4) as (d & -> & ?).
  destruct (write_text_array ua _ RELATION_MAX_LEN (v_relation v) ltac:(cbv; lia) H5) as (e & -> & ?).
  eexists. split; [reflexivity|]. by split_and!.
Qed.

(** ** The writes

    The state of a slot is its payload; each constructor is one write of the
    program. *)
Inductive payload_write (ua : bool) (config : FgaConfig) : FgaPayload -> FgaPayload -> Prop :=
  | write_clear p :                                   (* fga_channel_acquire_slot *)
      payload_write ua config p zero_payload
  | write_number p L (c c' : FgaChannel L) id :
      next_request_id c = (Done id, c') ->
      payload_write ua config p (with_request p (with_request_id (request p) id))
  | write_type p t :                                  (* request.type = ... *)
      payload_write ua config p (with_request p (set_type t (request p)))
  | write_store p r :
      fill_request config (request p) = Done r ->
      payload_write ua config p (with_request p r)
  | write_tuple p args t body :                       (* fill_tuple *)
      fill_tuple ua args (body_tuple (req_body (request p))) = Done t ->
      body ∈ [ReqCheckTuple; ReqWriteTuple; ReqDeleteTuple] ->
      payload_write ua config p (with_request p (set_body (body t) (request p)))
  | write_store_name p name :                         (* fga_create_store *)
      payload_write ua config p
        (with_request p (set_body (ReqCreateStore
           (strlcpy (body_store_name (req_body (request p))) name OPENFGA_STORE_NAME_LEN)) (request p)))
  | write_store_id p sid :                            (* fga_delete_store *)
      payload_write ua config p
        (with_request p (MkRequest (request_id (request p)) (req_type (request p))
           (strlcpy (req_store_id (request p)) sid OPENFGA_STORE_ID_LEN)
           (req_model_id (request p)) (req_body (request p))))
  | write_reply p callback st resp :                  (* the client's callbacks *)
      payload_write ua config p (MkPayload (request p) (reply_update callback st resp p))
  | write_exception p msg :                           (* Processor::handleException *)
      payload_write ua config p (MkPayload (request p) (exception_response msg)).

(** *** Responses *)
Lemma set_status_wf st r : response_wf r -> response_wf (set_status st r).
Proof. intros [? ?]. by split. Qed.
Lemma set_allow_wf b r : response_wf r -> response_wf (set_allow b r).
Proof. intros [? ?]. by split. Qed.
Lemma set_success_wf b r : response_wf r -> response_wf (set_success b r).
Proof. intros [? ?]. by split. Qed.
Lemma set_error_wf msg r : response_wf r -> response_wf (set_error msg r).
Proof.
  intros [[Hm _] ?]. split; cbn [set_error error_message resp_body]; [|done].
  apply c_array_strlcpy; [cbv; lia|done].
Qed.
Lemma set_store_wf id name r : response_wf r -> response_wf (set_store id name r).
Proof.
  intros [Hm Hb]. unfold set_store, body_create_store.
  assert (Hz : length (zeros OPENFGA_STORE_ID_LEN) = OPENFGA_STORE_ID_LEN) by apply length_replicate.
  assert (Hz' : length (zeros OPENFGA_STORE_NAME_LEN) = OPENFGA_STORE_NAME_LEN) by apply length_replicate.
  destruct (resp_body r) as [| | | | |i n|]; split; cbn [error_message resp_body response_body_wf];
    try done; (split; apply c_array_strlcpy; try (cbv; lia); try done; apply Hb).
Qed.
#[export] Hint Resolve set_status_wf set_allow_wf set_success_wf set_error_wf set_store_wf : payload.

Lemma reply_update_wf callback st resp p :
  response_wf (response p) -> response_wf (reply_update callback st resp p).
Proof.
  intros Hr. unfold reply_update, failed, check_failed, batch_failed, batch_result.
  repeat case_match; auto 6 with payload.
Qed.

Lemma exception_response_wf msg : response_wf (exception_response msg).
Proof.
  unfold exception_response. cbv zeta. set (text := match msg with Some m => c_str m | None => [] end).
  assert (Hn : no_nul text) by (unfold text; destruct msg; [apply c_str_no_nul|apply no_nul_nil]).
  set (w := take (FGA_RESPONSE_ERROR_MESSAGE_LEN - 1) text).
  assert (Hw : (length w < FGA_RESPONSE_ERROR_MESSAGE_LEN)%nat).
  { unfold w. rewrite length_take. unfold FGA_RESPONSE_ERROR_MESSAGE_LEN. lia. }
  split; cbn [error_message resp_body]; [|done]. split.
  - unfold zeros. rewrite length_app, length_replicate. lia.
  - destruct (FGA_RESPONSE_ERROR_MESSAGE_LEN - length w)%nat eqn:E; [lia|].
    cbn [zeros replicate]. rewrite c_str_app_nul; [done|]. by apply no_nul_take.
Qed.

(** *** Requests *)
Lemma request_type_code_range t : 0 <= request_type_code t <= 8.
Proof. destruct t; cbn; lia. Qed.

Lemma next_request_id_range {L} (c c' : FgaChannel L) id :
  next_request_id c = (Done id, c') -> 0 <= id < 2 ^ 64.
Proof. intros [= <- _]. apply u64_range. Qed.

Lemma fill_request_wf config r r' : request_wf r -> fill_request config r = Done r' -> request_wf r'.
Proof.
  intros [? ? [Hs _] [Hm Hm'] ?]. unfold fill_request.
  destruct (store_id config) as [sid|]; [|done].
  destruct (c_str_empty _); [done|]. cbv zeta. cbn [req_model_id request_id req_type req_body req_store_id].
  assert (0 < OPENFGA_STORE_ID_LEN)%nat by (cbv; lia).
  assert (0 < OPENFGA_MODEL_ID_LEN)%nat by (cbv; lia).
  destruct (model_id config); unfold mret, outcome_ret; intros [= <-]; split;
    cbn [req_model_id request_id req_type req_body req_store_id]; try done; by apply c_array_strlcpy.
Qed.

Lemma store_name_array b :
  request_body_wf b -> length (body_store_name b) = OPENFGA_STORE_NAME_LEN.
Proof. destruct b; cbn; intros Hb; first [reflexivity|apply Hb]. Qed.

Lemma with_request_wf p r : payload_wf p -> request_wf r -> payload_wf (with_request p r).
Proof. by intros [_ ?] ?. Qed.

Lemma payload_write_wf ua config p p' :
  payload_wf p -> payload_write ua config p p' -> payload_wf p'.
Proof.
  intros Hp Hw. pose proof Hp as [[Hi Ht Hs Hm Hb] Hr].
  destruct Hw as [p|p L c c' id Hid|p t|p r Hf|p args t body Hf Hin|p name|p sid|p callback st resp|p msg].
  - split; split; cbn; try lia; try done; by apply c_array_zeros; cbv; lia.
  - apply with_request_wf; [done|]. split; try done. by eapply next_request_id_range.
  - apply with_request_wf; [done|]. split; try done. apply request_type_code_range.
  - apply with_request_wf; [done|]. by eapply fill_request_wf.
  - apply with_request_wf; [done|]. split; try done.
    destruct (fill_tuple_arrays ua args _ (body_tuple_arrays _ Hb)) as (t' & Hf' & Ht').
    rewrite Hf in Hf'. injection Hf' as <-.
    rewrite !elem_of_cons, elem_of_nil in Hin. by destruct Hin as [->|[->|[->|[]]]].
  - apply with_request_wf; [done|]. split; try done.
    apply c_array_strlcpy; [cbv; lia|by apply store_name_array].
  - apply with_request_wf; [done|]. split; try done.
    apply c_array_strlcpy; [cbv; lia|apply Hs].
  - split; [done|]. by apply reply_update_wf.
  - split; [done|]. apply exception_response_wf.
Qed.

(** C17. Payloads are well typed.  Whatever writes the backends and the worker make
    to a slot, in any order and with arguments, settings, replies and error texts
    of any length, the payload stays well formed: every char array keeps its
    size and the string in it ends inside it (so no reader runs past it), the
    request type is one of the enum and the request number fits its 64 bits; and
    filling in a request's tuple never writes out of bounds. *)
Theorem payloads_stay_well_formed ua config p :
  rtc (payload_write ua config) zero_payload p ->
  payload_wf p /\
  forall args, exists t, fill_tuple ua args (body_tuple (req_body (request p))) = Done t.
Proof.
  intros Hr. assert (Hp : payload_wf p).
  { remember zero_payload as p0 eqn:H0.
    assert (Hz : payload_wf p0) by (rewrite H0; exact (payload_write_wf ua config p0 _
      ltac:(rewrite H0; split; split; cbn; try lia; try done; apply c_array_zeros; cbv; lia)
      (write_clear ua config p0))).
    clear H0. induction Hr as [|x y z Hxy _ IH]; [done|]. apply IH. by eapply payload_write_wf. }
  split; [done|]. intros args. destruct Hp as [Hq _].
  destruct (fill_tuple_arrays ua args _ (body_tuple_arrays _ (rq_body _ Hq))) as (t & Ht & _). eauto.
Qed.

(** ** Witness *)
Lemma payloads_stay_well_formed_witness :
  payload_wf (MkPayload zero_request (exception_response (Some (replicate 300 "x"%char)))).
Proof.
  destruct (payloads_stay_well_formed false zero_config
    (MkPayload zero_request (exception_response (Some (replicate 300 "x"%char))))) as [H _].
  - apply rtc_once. apply (write_exception false zero_config zero_payload).
  - exact H.
Defined.
