(* ===== verification/EndToEnd.v ===== *)
(** * From the SQL function to the server and back

    The components composed: [fga_check] of a backend ([src/func_fga.c],
    [src/channel.c]), the worker that serves its slot ([src/bgw/], [src/client/])
    and a server that decides checks.  [SqlFuncs] states what the SQL functions
    need from the other side ([executes]); here the worker is shown to provide
    it, on the state in which the backend starts to wait. *)
From S2P Require Import Prelude Platform Types CacheKey CacheSpec CacheL1 CacheL2 Stats Cache.
From S2P Require Import SlotQueue SlotPool Channel SqlFuncs Config Client Processor Protocol.

Section Worker.
Context {L : Type} {HS : SList L} {HL : SListLaws L}.
Variable k : Z.
Variable config : Config.
Variable answers : rpc_call -> GrpcStatus * rpc_response.
Variable now : Z.
Variable procs : gmap Z bool.
Variable latch : bool.

(** Two turns of an idle worker with the replies of the server between them:
    what the others do to the channel while a backend waits. *)
Definition worker_round (c : FgaChannel L) : FgaChannel L :=
  match serve config answers 1 now (MkSystem (MkWorkerEnv c procs latch [] [] []) ∅) with
  | Done σ => we_channel (sys_worker σ)
  | Error _ | Undefined _ => c
  end.

(** ** One slot through the worker *)
Lemma begin_pending w free l i s :
  chan_repr k (we_channel w) free l -> chan_slot (we_channel w) i = Some s -> i ∉ free ->
  slot_state s = FGA_CHANNEL_SLOT_PENDING ->
  exists c', beginProcessing i w = (Done true, with_channel w c') /\ chan_repr k c' free l /\
    chan_slot c' i = Some (set_state s FGA_CHANNEL_SLOT_PROCESSING).
Proof.
  intros Hc Hs Hif Hst. unfold beginProcessing, mbind, cm_bind. rewrite (slot_of_spec w i s Hs).
  rewrite decide_True by done.
  destruct (write_state_spec k w free l i s FGA_CHANNEL_SLOT_PROCESSING Hc Hs Hif)
    as (c' & Hu & Hc' & Hs' & _).
  rewrite Hu. by exists c'.
Qed.

Lemma respond_waiting w free l i s b :
  chan_repr k (we_channel w) free l -> chan_slot (we_channel w) i = Some s -> i ∉ free ->
  slot_state s = FGA_CHANNEL_SLOT_PROCESSING -> we_procs w !! backend_pid s = Some b ->
  exists w', handleResponse i w = (Done tt, w') /\ chan_repr k (we_channel w') free l /\
    chan_slot (we_channel w') i = Some (set_state s FGA_CHANNEL_SLOT_DONE).
Proof.
  intros Hc Hs Hif Hst Hp. unfold handleResponse, mbind, cm_bind. rewrite (slot_of_spec w i s Hs).
  rewrite decide_False by (rewrite Hst; done).
  destruct (write_state_spec k w free l i s FGA_CHANNEL_SLOT_DONE Hc Hs Hif)
    as (c' & Hu & Hc' & Hs' & _).
  rewrite Hu.
  unfold wakeBackend, mbind, cm_bind, cm_get, cm_lift, fga_channel_wake_backend. cbn.
  unfold chan_slot in Hs'. rewrite Hs'. cbn. rewrite Hp. cbn. by eexists.
Qed.

(** A turn that finds slot [i] on the queue and nothing else. *)
Lemma turn_submits c free i s :
  chan_repr k c free [Z.of_nat i] -> chan_slot c i = Some s -> i ∉ free ->
  slot_state s = FGA_CHANNEL_SLOT_PENDING ->
  exists c1, execute config now (MkWorkerEnv c procs latch [] [] []) =
      (Done tt, MkWorkerEnv c1 procs latch [] (process config now i (payload s)) []) /\
    chan_repr k c1 free [] /\ chan_slot c1 i = Some (set_state s FGA_CHANNEL_SLOT_PROCESSING).
Proof.
  intros Hc Hs Hif Hst.
  destruct (chan_drain_spec k c free _ MAX_BATCH Hc ltac:(done)) as (c0 & Hd & Hc0 & Hsl).
  unfold execute, mbind, cm_bind at 1. set (w := MkWorkerEnv c _ _ _ _ _).
  rewrite (on_shared_eq _ w _ _ Hd).
  change (drop (Z.to_nat MAX_BATCH) [Z.of_nat i]) with (@nil Z) in Hc0.
  change (take (Z.to_nat MAX_BATCH) [Z.of_nat i]) with [Z.of_nat i].
  rewrite list_fmap_singleton, Nat2Z.id. unfold cm_bind. rewrite <- Hsl in Hs.
  destruct (begin_pending (with_channel w c0) free [] i s Hc0 Hs Hif Hst) as (c1 & Hb & Hc1 & Hs1).
  rewrite Hb, (slot_of_spec (with_channel (with_channel w c0) c1) i _ Hs1). by exists c1.
Qed.

(** A turn that finds slot [i] completed and an empty queue. *)
Lemma turn_answers w free i s b :
  chan_repr k (we_channel w) free [] -> completed_queue w = [i] ->
  chan_slot (we_channel w) i = Some s -> i ∉ free ->
  slot_state s = FGA_CHANNEL_SLOT_PROCESSING -> we_procs w !! backend_pid s = Some b ->
  exists w', execute config now w = (Done tt, w') /\ chan_repr k (we_channel w') free [] /\
    chan_slot (we_channel w') i = Some (set_state s FGA_CHANNEL_SLOT_DONE).
Proof.
  intros Hc Hq Hs Hif Hst Hp.
  destruct (chan_drain_spec k _ free _ MAX_BATCH Hc ltac:(done)) as (c0 & Hd & Hc0 & Hsl).
  unfold execute, mbind, cm_bind at 1. rewrite (on_shared_eq _ w _ _ Hd).
  change (drop (Z.to_nat MAX_BATCH) []) with (@nil Z) in Hc0.
  change (Z.to_nat <$> take (Z.to_nat MAX_BATCH) []) with (@nil nat).
  unfold cm_bind, mret, cm_ret, drainCompleted, mbind, cm_bind, cm_get.
  cbn [completed_queue with_channel]. rewrite Hq.
  unfold set_completed, cm_modify. cbn. rewrite <- Hsl in Hs.
  destruct (respond_waiting (MkWorkerEnv c0 (we_procs w) (we_latch w) [] (we_calls w) (we_log w))
    free [] i s b Hc0 Hs Hif Hst Hp) as (w' & Hr & Hc' & Hs').
  unfold mbind, cm_bind. rewrite Hr. by exists w'.
Qed.

(** The reply to the only call: its response is written, the slot completed. *)
Lemma reply_completes c free i s call :
  chan_repr k c free [] -> chan_slot c i = Some s -> callback_slots (call_callback call) = [i] ->
  reply_matches (call_callback call) (answers call).2 = true ->
  exists w, deliver 0 (answers call).1 (answers call).2 (MkWorkerEnv c procs latch [] [call] [])
      = (Done tt, w) /\
    chan_repr k (we_channel w) free [] /\ completed_queue w = [i] /\ we_procs w = procs /\
    we_calls w = [] /\
    chan_slot (we_channel w) i = Some (set_payload s (MkPayload (request (payload s))
      (reply_update (call_callback call) (answers call).1 (answers call).2 (payload s)))).
Proof.
  intros Hc Hs Hsl Hm. unfold deliver, mbind, cm_bind, cm_get, cm_modify. cbn.
  set (w1 := MkWorkerEnv c procs latch [] [] []).
  destruct (on_reply_spec (HL := worker_laws w1) (call_callback call) (answers call).1
    (answers call).2 w1) as (w & Hr & Hf & Hcq & Hv).
  - apply reply_frame_refl.
  - done.
  - rewrite Hsl. apply NoDup_singleton.
  - intros j. rewrite Hsl. intros ->%list_elem_of_singleton. exists (payload s).
    apply payloads_lookup. by exists s.
  - exists w. split; [exact Hr|]. split; [exact (frame_chan_repr k w1 w free [] Hf Hc)|]. cbn in Hcq, Hv.
    split; [by rewrite Hcq, Hsl|]. split; [apply (rf_procs _ _ Hf)|]. split; [apply (rf_calls _ _ Hf)|].
    specialize (Hv i). rewrite Hsl, bool_decide_eq_true_2 in Hv by by apply list_elem_of_singleton.
    assert (Hp : payloads w1 !! i = Some (payload s)) by (apply payloads_lookup; by exists s).
    rewrite Hp in Hv. cbn in Hv. apply payloads_lookup in Hv as (s' & Hs' & Hps).
    rewrite Hs'. pose proof (rf_slots _ _ Hf i) as Hsame. cbn in Hsame. rewrite Hs, Hs' in Hsame.
    destruct Hsame as (H1 & H2 & _), s as [? ? ?], s' as [? ? ?]. cbn in *. by subst.
Qed.

(** What the server's answer to the call of a request leaves in its slot. *)
Definition served_response (i : nat) (p : FgaPayload) : FgaResponse :=
  match process config now i p with
  | [call] => reply_update (call_callback call) (answers call).1 (answers call).2 p
  | _ => response p
  end.

(** The worker meets the contract of a waiting backend: its queued request is
    answered with the server's answer to exactly this request. *)
Lemma worker_round_answers c free i s b :
  (forall call, reply_matches (call_callback call) (answers call).2 = true) ->
  chan_repr k c free [Z.of_nat i] -> chan_slot c i = Some s -> i ∉ free ->
  slot_state s = FGA_CHANNEL_SLOT_PENDING -> procs !! backend_pid s = Some b ->
  served_type (req_type (request (payload s))) = true ->
  chan_repr k (worker_round c) free [] /\
  chan_slot (worker_round c) i = Some (MkSlot FGA_CHANNEL_SLOT_DONE (backend_pid s)
    (MkPayload (request (payload s)) (served_response i (payload s)))).
Proof.
  intros Hans Hc Hs Hif Hst Hp Hsv.
  destruct (turn_submits c free i s Hc Hs Hif Hst) as (c1 & He1 & Hc1 & Hs1).
  destruct (process_served config now i (payload s) Hsv) as (call & Hcall & Hcs & _).
  destruct (reply_completes c1 free i _ call Hc1 Hs1 Hcs (Hans call))
    as (w2 & Hd & Hc2 & Hq2 & Hp2 & Hca2 & Hs2).
  destruct (turn_answers w2 free i _ b Hc2 Hq2 Hs2 Hif eq_refl) as (w3 & He3 & Hc3 & Hs3).
  { by rewrite Hp2. }
  unfold worker_round, served_response. rewrite Hcall in He1 |- *.
  cbn [serve]. unfold serve_round. cbn [sys_step sys_worker]. rewrite He1.
  unfold mbind, outcome_bind. cbn [sys_worker we_calls length reply_all sys_step].
  cbn [lookup list_lookup]. rewrite Hans, Hd. cbn. rewrite He3. cbn.
  split; [done|]. rewrite Hs3. by destruct s.
Qed.
End Worker.

(** ** The decision *)

(** The texts of the SQL arguments hold no NUL byte. *)
Definition args_no_nul (v : TupleArgsView) : Prop :=
  no_nul (v_object_type v) /\ no_nul (v_object_id v) /\ no_nul (v_subject_type v) /\
  no_nul (v_subject_id v) /\ no_nul (v_relation v).

(** What a 64-byte member keeps of a name. *)
Definition cut (name : list ascii) : list ascii := take 63 name.

Lemma cut_padded n name : n = 64%nat -> cut (c_str name) = c_str (padded n (c_str name)).
Proof. intros ->. by rewrite c_str_padded by (lia || apply c_str_no_nul). Qed.

Definition args_key (v : TupleArgsView) : TupleKey :=
  MkTupleKey (cut (v_object_type v) ++ colon :: cut (v_object_id v))
    (cut (v_subject_type v) ++ colon :: cut (v_subject_id v)) (cut (v_relation v)).

Definition configured_name (s : option (list ascii)) : list ascii :=
  match s with Some s => cut (c_str s) | None => [] end.

Lemma args_tuple_key v : args_no_nul v -> fill_tuple_key (padded_tuple v) = args_key v.
Proof.
  intros (H1 & H2 & H3 & H4 & H5). unfold fill_tuple_key, typed_name, padded_tuple, args_key, cut.
  cbn [object_type object_id subject_type subject_id relation].
  unfold OBJECT_TYPE_MAX_LEN, OBJECT_ID_MAX_LEN, SUBJECT_TYPE_MAX_LEN, SUBJECT_ID_MAX_LEN,
    RELATION_MAX_LEN.
  by rewrite !c_str_padded by (done || lia).
Qed.

Lemma store_member_name config : c_str (SqlFuncs.store_member config) = configured_name (store_id config).
Proof.
  unfold SqlFuncs.store_member, configured_name, cut. destruct (store_id config); [|done].
  unfold OPENFGA_STORE_ID_LEN. rewrite c_str_padded by (lia || apply c_str_no_nul). done.
Qed.

Lemma model_member_name config : c_str (model_member config) = configured_name (model_id config).
Proof.
  unfold model_member, configured_name, cut. destruct (model_id config); [|apply c_str_zeros].
  unfold OPENFGA_MODEL_ID_LEN. rewrite c_str_padded by (lia || apply c_str_no_nul). done.
Qed.

Section EndToEnd.
Context {L : Type} {HS : SList L} {HL : SListLaws L}.
Context {H : Type} {HD : Dynahash FgaAclCacheKey Z H} {HX : XXHash}.
Variable use_asserts : bool.
Variable config : FgaConfig.
Variables MyProcPid MyProcNumber : Z.
Variable k : Z.
Variable worker_config : Config.
Variable worker_now : Z.
Variable procs : gmap Z bool.
Variable latch : bool.

Section AnyServer.
Variable answers : rpc_call -> GrpcStatus * rpc_response.
Hypothesis well_typed : forall call, reply_matches (call_callback call) (answers call).2 = true.

Abbreviation round := (worker_round worker_config answers worker_now procs latch) (only parsing).
Abbreviation response_to := (served_response worker_config answers worker_now) (only parsing).

(** The worker's round ends the wait of the backend whose request is the only
    one queued. *)
Lemma round_executes b i free R rest bb :
  1 <= k -> is_Some (bgw_latch (be_chan b)) -> env_wakes (be_chan b) = MkWake round None :: rest ->
  procs !! MyProcPid = Some bb -> served_type (req_type R) = true ->
  executes (H := H) use_asserts MyProcPid k
    (response_to i (MkPayload R zero_response))
    i b free [] R.
Proof.
  intros Hk Hl Hw Hp Hsv b' (Hl' & Hw' & _) (Hc & Hif & Hs).
  set (s := MkSlot _ _ _) in Hs.
  destruct (execute_first_wake use_asserts k MyProcPid i (be_chan b') free [] s (MkWake round None) rest
    Hc) as (c & Hc1 & Hs1 & Hx); try done.
  { cbn. pose proof (Z.pow_le_mono_r 2 1 k). lia. }
  { by left. }
  { by rewrite Hl'. }
  { by rewrite Hw'. }
  destruct (worker_round_answers k worker_config answers worker_now procs latch c
    free i s bb well_typed Hc1 Hs1 Hif eq_refl Hp Hsv) as [Hc2 Hs2].
  cbn [wk_others] in Hx. specialize (Hx _ Hs2 eq_refl).
  unfold SqlFuncs.execute, on_chan. rewrite Hx. by eexists _, free, [].
Qed.

(** The call the server gets for a change of the tuple of [args]. *)
Definition change_call (i : nat) (write : bool) (args : TupleArgsView) : rpc_call :=
  if write then
    MkCall (RpcWrite (MkWrite (configured_name (store_id config)) (configured_name (model_id config))
      (Some (str "ignore", [args_key args])) None)) (deadline worker_config worker_now) (OnWrite i)
  else
    MkCall (RpcWrite (MkWrite (configured_name (store_id config)) []
      None (Some (str "ignore", [args_key args])))) (deadline worker_config worker_now) (OnDelete i).

Definition change_type (write : bool) : FgaRequestType :=
  if write then FGA_REQUEST_WRITE_TUPLE else FGA_REQUEST_DELETE_TUPLE.
Definition change_body (write : bool) : FgaTuple -> FgaRequestBody :=
  if write then ReqWriteTuple else ReqDeleteTuple.

Lemma change_process i id write args :
  args_no_nul args ->
  process worker_config worker_now i
    (MkPayload (tuple_request config id (change_type write) (change_body write) args) zero_response)
  = [change_call i write args].
Proof.
  intros Hn. unfold change_call.
  rewrite <- args_tuple_key, <- model_member_name, <- store_member_name by done. by destruct write.
Qed.

Lemma change_response i id write args :
  args_no_nul args ->
  status (response_to i (MkPayload (tuple_request config id (change_type write) (change_body write) args)
    zero_response)) =
  if st_ok (answers (change_call i write args)).1 then FGA_RESPONSE_OK else FGA_RESPONSE_CLIENT_ERROR.
Proof.
  intros Hn. unfold served_response. rewrite change_process by done.
  destruct (answers _) as [[[] msg] resp]; by destruct write, resp.
Qed.

(** The call the server gets for a new store. *)
Definition store_call (i : nat) (name : list ascii) : rpc_call :=
  MkCall (RpcCreateStore (cut (c_str name))) (deadline worker_config worker_now) (OnCreateStore i).

Lemma store_response i id name :
  response_to i (MkPayload (store_request id name) zero_response) =
  reply_update (OnCreateStore i) (answers (store_call i name)).1 (answers (store_call i name)).2
    (MkPayload (store_request id name) zero_response).
Proof.
  unfold store_call. by rewrite (cut_padded OPENFGA_STORE_NAME_LEN).
Qed.

(** C9. A write or delete, end to end, with any server: with valid arguments, a
    configured store, an idle channel and the worker running, the server is
    asked to write (delete) exactly the tuple of the arguments in the configured
    store, duplicates (missing tuples) ignored; the function returns true when
    the server accepts and raises an error when the call fails, and the slot is
    free again.  A delete names no model.  A successful call leaves
    [PG_exception_stack] pointing into its frame. *)
Theorem tuple_changes_ask_the_server write fcinfo b args i free rest bb :
  1 <= k -> is_Some (bgw_latch (be_chan b)) -> env_wakes (be_chan b) = MkWake round None :: rest ->
  procs !! MyProcPid = Some bb ->
  read_tuple_args fcinfo = Done args -> args_no_nul args ->
  c_str_empty (store_id config) = false ->
  chan_repr k (env_channel (be_chan b)) (i :: free) [] ->
  let accepted := st_ok (answers (change_call i write args)).1 in
  exists b' free' l',
    (if write then fga_write_tuple use_asserts config MyProcPid fcinfo b
     else fga_delete_tuple (H := H) use_asserts config MyProcPid fcinfo b) =
      (if accepted then Done true
       else Error (PgError "ERRCODE_INTERNAL_ERROR"
         (if write then "postfga: write tuple failed - %s" else "postfga: delete tuple failed - %s")),
       b') /\
    chan_repr k (env_channel (be_chan b')) (i :: free') l' /\
    be_dead_frame b' = (if accepted then true else be_dead_frame b).
Proof.
  intros Hk Hl Hw Hp Hargs Hn Hst Hc accepted.
  set (id := u64 (ch_request_id (env_channel (be_chan b)) + 1)).
  set (R := tuple_request config id (change_type write) (change_body write) args).
  pose proof (change_response i id write args Hn) as Hresp. fold R accepted in Hresp.
  destruct (tuple_change_spec use_asserts config MyProcPid k _ (change_type write) (change_body write)
    (if write then "postfga: write tuple failed - %s" else "postfga: delete tuple failed - %s")
    b args i free [] Hst Hc ltac:(by apply (round_executes b i free R rest bb); try done; destruct write))
    as (b' & free' & l' & Hx & Hc' & Hd).
  fold id R in Hx, Hd. rewrite Hresp in Hx, Hd. exists b', free', l'.
  rewrite (write_tuple_change _ _ _ fcinfo args b Hargs), (delete_tuple_change _ _ _ fcinfo args b Hargs).
  split_and!; [|done|]; destruct write, accepted; done.
Qed.

(** What [fga_create_store] returns of the server's answer: id and name, each
    cut at 63 bytes. *)
Definition created (resp : rpc_response) : list ascii * list ascii :=
  match resp with
  | CreateStoreResponse id name => (cut (c_str id), cut (c_str name))
  | _ => ([], [])
  end.

Lemma created_text id name :
  created_store (resp_body (set_store id name (set_status FGA_RESPONSE_OK zero_response))) =
  Done (created (CreateStoreResponse id name)).
Proof.
  unfold created, cut. rewrite <- !(c_str_padded 64) by (lia || apply c_str_no_nul).
  by rewrite <- !(strlcpy_zeros 64) by lia.
Qed.

(** [fga_create_store], end to end, with any server: the server is asked to
    create a store of the given name (cut at 63 bytes), and the id and name it
    answers are what the function returns; a failed call raises an error.  The
    slot is free again. *)
Theorem fga_create_store_returns_store name b i free rest bb :
  1 <= k -> is_Some (bgw_latch (be_chan b)) -> env_wakes (be_chan b) = MkWake round None :: rest ->
  procs !! MyProcPid = Some bb ->
  chan_repr k (env_channel (be_chan b)) (i :: free) [] ->
  let answer := answers (store_call i name) in
  exists b' free' l',
    fga_create_store (H := H) use_asserts MyProcPid true (Some name) b =
      (if st_ok answer.1 then Done (created answer.2)
       else Error (PgError "ERRCODE_EXTERNAL_ROUTINE_EXCEPTION" "postfga: create store failed: %s"),
       b') /\
    chan_repr k (env_channel (be_chan b')) (i :: free') l'.
Proof.
  intros Hk Hl Hw Hp Hc answer. set (id := u64 (ch_request_id (env_channel (be_chan b)) + 1)).
  pose proof (store_response i id name) as Hresp.
  pose proof (well_typed (store_call i name)) as Hm. fold answer in Hresp, Hm.
  destruct (create_store_spec use_asserts MyProcPid k (response_to i (MkPayload (store_request id name)
    zero_response)) name (created answer.2) b i free [] Hc
    ltac:(by apply (round_executes b i free (store_request id name) rest bb)))
    as (b' & free' & l' & Hx & Hc').
  { rewrite Hresp. destruct answer as [[[] msg] []]; try done. intros _. apply created_text. }
  rewrite Hresp in Hx. exists b', free', l'. split; [|done]. rewrite Hx.
  by destruct answer as [[[] msg] []].
Qed.

(** The call the server gets for a store to delete. *)
Definition delete_call (i : nat) (sid : list ascii) : rpc_call :=
  MkCall (RpcDeleteStore (cut (c_str sid))) (deadline worker_config worker_now) (OnDeleteStore i).

(** [fga_delete_store], end to end, with any server: the server is asked to
    delete the store of the given id (cut at 63 bytes); the function returns when
    the server accepts and raises an error when the call fails.  The slot is
    free again. *)
Theorem fga_delete_store_asks_the_server sid b i free rest bb :
  1 <= k -> is_Some (bgw_latch (be_chan b)) -> env_wakes (be_chan b) = MkWake round None :: rest ->
  procs !! MyProcPid = Some bb ->
  chan_repr k (env_channel (be_chan b)) (i :: free) [] ->
  exists b' free' l',
    fga_delete_store (H := H) use_asserts MyProcPid (Some sid) b =
      (if st_ok (answers (delete_call i sid)).1 then Done tt
       else Error (PgError "ERRCODE_EXTERNAL_ROUTINE_EXCEPTION" "postfga: delete store failed: %s"),
       b') /\
    chan_repr k (env_channel (be_chan b')) (i :: free') l'.
Proof.
  intros Hk Hl Hw Hp Hc. set (id := u64 (ch_request_id (env_channel (be_chan b)) + 1)).
  assert (Hresp : response_to i (MkPayload (delete_store_request id sid) zero_response) =
    reply_update (OnDeleteStore i) (answers (delete_call i sid)).1 (answers (delete_call i sid)).2
      (MkPayload (delete_store_request id sid) zero_response)).
  { unfold delete_call. by rewrite (cut_padded OPENFGA_STORE_ID_LEN). }
  destruct (delete_store_spec use_asserts MyProcPid k (response_to i (MkPayload (delete_store_request id sid)
    zero_response)) sid b i free [] Hc
    ltac:(by apply (round_executes b i free (delete_store_request id sid) rest bb)))
    as (b' & free' & l' & Hx & Hc').
  rewrite Hresp in Hx. exists b', free', l'. split; [|done]. rewrite Hx.
  by destruct (answers _) as [[[] msg] []].
Qed.

(** The store functions, end to end, with any server: [fga_create_store]
    asks for a store of the given name and returns the id and name the server
    answers; [fga_delete_store] asks to delete the store of the given id; names
    and ids are cut at 63 bytes, a failed call raises an error, and the slot is
    free again. *)
Theorem store_functions_ask_the_server name sid b i free rest bb :
  1 <= k -> is_Some (bgw_latch (be_chan b)) -> env_wakes (be_chan b) = MkWake round None :: rest ->
  procs !! MyProcPid = Some bb ->
  chan_repr k (env_channel (be_chan b)) (i :: free) [] ->
  let refused msg := PgError "ERRCODE_EXTERNAL_ROUTINE_EXCEPTION" msg in
  (exists b' free' l',
    fga_create_store (H := H) use_asserts MyProcPid true (Some name) b =
      (if st_ok (answers (store_call i name)).1 then Done (created (answers (store_call i name)).2)
       else Error (refused "postfga: create store failed: %s"), b') /\
    chan_repr k (env_channel (be_chan b')) (i :: free') l') /\
  (exists b' free' l',
    fga_delete_store (H := H) use_asserts MyProcPid (Some sid) b =
      (if st_ok (answers (delete_call i sid)).1 then Done tt
       else Error (refused "postfga: delete store failed: %s"), b') /\
    chan_repr k (env_channel (be_chan b')) (i :: free') l').
Proof.
  intros Hk Hl Hw Hp Hc refused. split.
  - by apply (fga_create_store_returns_store name b i free rest bb).
  - by apply (fga_delete_store_asks_the_server sid b i free rest bb).
Qed.
End AnyServer.

Section Decision.
Variable decides : list ascii -> list ascii -> TupleKey -> bool.

Abbreviation round :=
  (worker_round worker_config (deciding_server decides) worker_now procs latch) (only parsing).

(** The response the worker leaves for a check of this backend. *)
Lemma check_response i id args :
  args_no_nul args ->
  served_response worker_config (deciding_server decides) worker_now i
    (MkPayload (tuple_request config id FGA_REQUEST_CHECK ReqCheckTuple args) zero_response) =
  set_allow (decides (configured_name (store_id config)) (configured_name (model_id config))
    (args_key args)) zero_response.
Proof.
  intros Hn. unfold served_response, process, make_request_variant. cbn.
  unfold variant_store_id, variant_model_id. cbn.
  by rewrite args_tuple_key, store_member_name, model_member_name.
Qed.

(** C8. A check, end to end: with valid arguments, no cached decision, a
    configured store, an idle channel and the worker running, [fga_check]
    returns what the server decides for the configured store and model and the
    tuple of the arguments (each name cut at 63 bytes), and the slot is free
    again.  Slot, queue, worker turns, gRPC call, callback and wake-up are those
    of the program. *)
Theorem fga_check_returns_decision stack_key now fcinfo b args key ce i free rest bb :
  1 <= k -> is_Some (bgw_latch (be_chan b)) -> env_wakes (be_chan b) = MkWake round None :: rest ->
  procs !! MyProcPid = Some bb ->
  read_tuple_args fcinfo = Done args -> args_no_nul args ->
  build_cache_key use_asserts config stack_key args = Done key ->
  fga_cache_lookup MyProcNumber config key now (be_cache b) = (Done None, ce) ->
  c_str_empty (store_id config) = false ->
  chan_repr k (env_channel (be_chan b)) (i :: free) [] ->
  exists b' free' l',
    fga_check use_asserts config MyProcPid MyProcNumber stack_key now fcinfo b =
      (Done (decides (configured_name (store_id config)) (configured_name (model_id config))
         (args_key args)), b') /\
    chan_repr k (env_channel (be_chan b')) (i :: free') l'.
Proof.
  intros Hk Hl Hw Hp Hargs Hn Hkey Hmiss Hst Hc.
  set (R := tuple_request config (u64 (ch_request_id (env_channel (be_chan b)) + 1))
    FGA_REQUEST_CHECK ReqCheckTuple args).
  destruct (fga_check_spec use_asserts config MyProcPid MyProcNumber k
    (served_response worker_config (deciding_server decides) worker_now i (MkPayload R zero_response))
    stack_key now fcinfo b args key ce i free [] Hargs Hkey Hmiss Hst Hc) as (b' & free' & l' & Hx & Hc' & _).
  - by apply (round_executes _ (deciding_server_matches decides) _ i free R rest bb).
  - exists b', free', l'. split; [|done]. rewrite Hx. unfold R. by rewrite check_response.
Qed.
End Decision.
End EndToEnd.

(** ** Witness: a server that grants only ann's friend bob *)
Definition bob_reads : list ascii -> list ascii -> TupleKey -> bool :=
  fun store _ key => bool_decide (store = str "store") && bool_decide (tk_user key = str "user:bob").

Definition worker_wake : wake linked :=
  MkWake (worker_round client_config_sample (deciding_server bob_reads) 0 {[42 := false]} false) None.

Lemma fga_check_returns_decision_witness :
  exists b', fga_check (HX := example_hash) true sql_config 42 0 inhabitant 0 sql_args
    (sql_backend sample_channel [worker_wake]) = (Done true, b').
Proof.
  assert (Hkey : exists key, build_cache_key (H := example_hash) true sql_config inhabitant
    sql_view = Done key) by (eexists; vm_compute; reflexivity).
  destruct Hkey as [key Hkey].
  assert (Hn : args_no_nul sql_view) by decide_now.
  destruct (fga_check_returns_decision (HX := example_hash) true sql_config 42 0 2 client_config_sample
    0 {[42 := false]} false bob_reads inhabitant 0 sql_args (sql_backend sample_channel [worker_wake])
    sql_view key sql_env 0 [1%nat] [] false ltac:(lia) ltac:(by eexists) eq_refl eq_refl eq_refl Hn Hkey
    eq_refl eq_refl sample_channel_repr) as (b' & free' & l' & Hr & _).
  exists b'. exact Hr.
Defined.

(** A server that refuses every write and creates the store [01H]. *)
Definition strict_server (call : rpc_call) : GrpcStatus * rpc_response :=
  match call_callback call with
  | OnWrite _ | OnDelete _ => (MkStatus false (str "no such type"), WriteResponse)
  | OnCreateStore _ => (MkStatus true [], CreateStoreResponse (str "01H") (str "docs"))
  | OnDeleteStore _ => (MkStatus true [], DeleteStoreResponse)
  | OnCheck _ => (MkStatus true [], CheckResponse false)
  | OnBatchCheck _ => (MkStatus true [], BatchCheckResponse ∅)
  end.

Lemma strict_server_matches call : reply_matches (call_callback call) (strict_server call).2 = true.
Proof. unfold strict_server. by destruct (call_callback call). Qed.

Definition strict_backend : backend linked sample_table := sql_backend sample_channel
  [MkWake (worker_round client_config_sample strict_server 0 {[42 := false]} false) None].

Lemma tuple_changes_ask_the_server_witness :
  exists b', fga_write_tuple true sql_config 42 sql_args strict_backend =
    (Error (PgError "ERRCODE_INTERNAL_ERROR" "postfga: write tuple failed - %s"), b').
Proof.
  destruct (tuple_changes_ask_the_server true sql_config 42 2 client_config_sample 0 {[42 := false]}
    false strict_server strict_server_matches true sql_args strict_backend sql_view 0 [1%nat] [] false
    ltac:(lia) ltac:(by eexists) eq_refl eq_refl eq_refl ltac:(decide_now) eq_refl sample_channel_repr)
    as (b' & free' & l' & Hr & _).
  exists b'. exact Hr.
Defined.

Lemma store_functions_ask_the_server_witness :
  (exists b', fga_create_store true 42 true (Some (str "docs")) strict_backend =
    (Done (str "01H", str "docs"), b')) /\
  (exists b', fga_delete_store true 42 (Some (str "01H")) strict_backend = (Done tt, b')).
Proof.
  destruct (store_functions_ask_the_server true 42 2 client_config_sample 0 {[42 := false]} false
    strict_server strict_server_matches (str "docs") (str "01H") strict_backend 0 [1%nat] [] false
    ltac:(lia) ltac:(by eexists) eq_refl eq_refl sample_channel_repr)
    as [(b1 & _ & _ & Hr1 & _) (b2 & _ & _ & Hr2 & _)].
  split; [exists b1; exact Hr1|exists b2; exact Hr2].
Defined.
