(* ===== verification/Calls.v ===== *)
(** * The SQL functions as sequences of steps of the system

    [Protocol] runs the backends by labels.  Here a call of a SQL function
    ([src/func_fga.c], [src/channel.c]) among running processes is shown to be
    such a sequence: the backend takes a slot, queues it, waits while the others
    take turns, reads the answer and returns the slot.  What the others do
    between two wake-ups of the wait loop is any run of labels that are not the
    backend's own, and every way a call can end is covered. *)
From S2P Require Import Prelude Platform Types CacheKey CacheSpec CacheL1 CacheL2 Stats Cache.
From S2P Require Import SlotQueue SlotPool Channel SqlFuncs Config Client Processor Protocol.
From S2P Require Import Frames Service Ledger.

(** The process a label is a step of; the worker and the server have none. *)
Definition label_pid (lab : label) : option Z :=
  match lab with
  | LAcquire pid _ _ _ _ | LEnqueue pid | LPoll pid | LInterrupt pid | LRelease pid | LExit pid => Some pid
  | LWorker _ | LReply _ _ _ => None
  end.

Definition by_others (pid : Z) (labs : list label) : Prop :=
  Forall (fun lab => label_pid lab <> Some pid) labs.

(** ** Runs of the system *)
Section Runs.
Context {L : Type} {HS : SList L}.
Variable config : Config.

Abbreviation chan_of σ := (we_channel (sys_worker σ)) (only parsing).

Lemma sys_run_app labs1 labs2 (σ : system L) :
  sys_run config (labs1 ++ labs2) σ = (σ1 ← sys_run config labs1 σ; sys_run config labs2 σ1).
Proof.
  revert σ. induction labs1 as [|lab labs1 IH]; intros σ; [done|]. cbn [app sys_run].
  destruct (sys_step config lab σ); [|done..]. apply IH.
Qed.

Lemma sys_run_trace labs (σ σ' : system L) :
  sys_run config labs σ = Done σ' -> exists evs, sys_trace config labs σ = Done (evs, σ').
Proof.
  revert σ. induction labs as [|lab labs IH]; intros σ; cbn; [intros [= <-]; by exists []|].
  destruct (sys_step config lab σ) as [σ1| |]; [|done..]. intros (evs & Ht)%IH.
  exists (observe lab σ σ1 ++ evs). unfold mbind, outcome_bind. by rewrite Ht.
Qed.

Lemma sys_trace_run labs (σ σ' : system L) evs :
  sys_trace config labs σ = Done (evs, σ') -> sys_run config labs σ = Done σ'.
Proof.
  revert σ evs. induction labs as [|lab labs IH]; intros σ evs; cbn; [by intros [= _ <-]|].
  destruct (sys_step config lab σ) as [σ1| |]; [|done..]. unfold mbind, outcome_bind.
  destruct (sys_trace config labs σ1) as [[evs1 σ2]| |] eqn:Ht; [|done..]. cbn. intros [= _ <-].
  by eapply IH.
Qed.

Lemma sys_trace_app labs1 labs2 (σ σ1 σ2 : system L) evs1 evs2 :
  sys_trace config labs1 σ = Done (evs1, σ1) -> sys_trace config labs2 σ1 = Done (evs2, σ2) ->
  sys_trace config (labs1 ++ labs2) σ = Done (evs1 ++ evs2, σ2).
Proof.
  revert σ evs1. induction labs1 as [|lab labs1 IH]; intros σ evs1; cbn; [by intros [= <- <-]|].
  destruct (sys_step config lab σ) as [σ'| |]; [|done..]. unfold mbind, outcome_bind.
  destruct (sys_trace config labs1 σ') as [[evs σ'']| |] eqn:Ht; [|done..]. cbn. intros [= <- <-] H2.
  rewrite (IH σ' evs Ht H2). cbn. by rewrite app_assoc.
Qed.

(** A process is only touched by its own labels. *)
Lemma sys_step_others pid lab (σ σ' : system L) :
  label_pid lab <> Some pid -> sys_step config lab σ = Done σ' ->
  sys_backends σ' !! pid = sys_backends σ !! pid.
Proof.
  intros Hp. destruct lab; cbn in Hp; cbn; repeat case_match; intros [= <-]; cbn;
    rewrite ?lookup_insert_ne, ?lookup_delete_ne by congruence; done.
Qed.

Lemma observe_others pid lab (σ σ' : system L) ev :
  label_pid lab <> Some pid -> ev ∈ observe lab σ σ' -> forall req, ev <> EvAsk pid req.
Proof.
  intros Hp Hin req ->. destruct lab; cbn in Hp, Hin; repeat case_match;
    try (by apply elem_of_nil in Hin); apply list_elem_of_singleton in Hin; congruence.
Qed.

Lemma sys_run_others pid labs (σ σ' : system L) :
  by_others pid labs -> sys_run config labs σ = Done σ' ->
  sys_backends σ' !! pid = sys_backends σ !! pid.
Proof.
  intros Hl. revert σ. induction Hl as [|lab labs Hp _ IH]; intros σ; cbn; [by intros [= <-]|].
  destruct (sys_step config lab σ) as [σ1| |] eqn:Hs; [|done..]. intros Hr.
  rewrite (IH σ1 Hr). by eapply sys_step_others.
Qed.

Lemma sys_trace_others pid labs (σ σ' : system L) evs req :
  by_others pid labs -> sys_trace config labs σ = Done (evs, σ') -> EvAsk pid req ∉ evs.
Proof.
  intros Hl. revert σ evs. induction Hl as [|lab labs Hp _ IH]; intros σ evs; cbn;
    [intros [= <- _]; apply not_elem_of_nil|].
  destruct (sys_step config lab σ) as [σ1| |]; [|done..]. unfold mbind, outcome_bind.
  destruct (sys_trace config labs σ1) as [[evs1 σ2]| |] eqn:Ht; [|done..]. cbn. intros [= <- ->].
  rewrite elem_of_app. intros [Hin|Hin]; [by apply (observe_others _ _ _ _ _ Hp Hin req)|by eapply IH].
Qed.
End Runs.

(** ** The wait among running processes *)
Record turn : Type := MkTurn {
  turn_labels : list label;            (* what the others do before the latch is set *)
  turn_interrupt : option pg_error;    (* the error CHECK_FOR_INTERRUPTS raises *)
}.

Inductive wait_end : Type := WaitAnswered | WaitInterrupted (err : pg_error) | WaitBlocked.

Section Wait.
Context {L : Type} {HS : SList L} {HL : SListLaws L}.
Variable k : Z.
Variable config : Config.
Variable pid : Z.
Abbreviation chan_of σ := (we_channel (sys_worker σ)) (only parsing).

(** What a run of the others makes of the channel that the backend has left. *)
Definition others_effect (labs : list label) (σ : system L) (c : FgaChannel L) : FgaChannel L :=
  match sys_run config labs (MkSystem (with_channel (sys_worker σ) c) (sys_backends σ)) with
  | Done σ' => chan_of σ'
  | _ => c
  end.

Lemma others_effect_run labs σ σ' :
  sys_run config labs σ = Done σ' -> others_effect labs σ (chan_of σ) = chan_of σ'.
Proof.
  intros Hr. unfold others_effect.
  replace (MkSystem _ _) with σ by (by destruct σ as [[] ?]). by rewrite Hr.
Qed.

(** The wake-ups of the turns, from the state in which the backend waits. *)
Fixpoint wakes_of (turns : list turn) (σ : system L) : list (wake L) :=
  match turns with
  | [] => []
  | t :: ts =>
      MkWake (others_effect (turn_labels t) σ) (turn_interrupt t) ::
      match sys_run config (turn_labels t) σ with Done σ' => wakes_of ts σ' | _ => [] end
  end.

Definition slot_done_at (i : nat) (σ : system L) : bool :=
  bool_decide (slot_state <$> chan_slot (chan_of σ) i = Some FGA_CHANNEL_SLOT_DONE).

(** The steps of the others while the backend waits, and why the wait ends. *)
Fixpoint wait_walk (i : nat) (turns : list turn) (σ : system L) : list label * wait_end :=
  if slot_done_at i σ then ([], WaitAnswered)
  else match turns with
       | [] => ([], WaitBlocked)
       | t :: ts =>
           match turn_interrupt t, sys_run config (turn_labels t) σ with
           | Some err, _ => (turn_labels t, WaitInterrupted err)
           | None, Done σ' =>
               let '(labs, en) := wait_walk i ts σ' in (turn_labels t ++ labs, en)
           | None, _ => ([], WaitBlocked)
           end
       end.

Definition wait_result (en : wait_end) : outcome FgaChannelSlotState :=
  match en with
  | WaitAnswered => Done FGA_CHANNEL_SLOT_DONE
  | WaitInterrupted err => Error err
  | WaitBlocked => Undefined WaitsForever
  end.

(** A waiting backend's slot is in flight or answered. *)
Lemma waiting_slot σ i :
  sys_inv k σ -> sys_backends σ !! pid = Some (Waiting, i) ->
  exists s, chan_slot (chan_of σ) i = Some s /\
    if slot_done_at i σ then slot_state s = FGA_CHANNEL_SLOT_DONE else in_flight s.
Proof.
  intros (R & free & l & Hinv) HB. unfold slot_done_at.
  destruct (backend_role k _ _ _ _ _ _ _ _ _ _ _ Hinv HB) as (r & Hr & Hph).
  destruct (inv_slot k _ _ _ _ _ _ _ _ i r Hinv Hr) as (s & Hs & Hok & _).
  exists s. rewrite Hs. split; [done|]. unfold in_flight.
  destruct r as [|?|? st|?|?|?|?]; try done; cbn in Hok; destruct Hok as [Hst _]; cbn;
    rewrite !Hst; case_bool_decide; try done; destruct st; cbn in *; auto; done.
Qed.

Lemma wakes_length turns σ : sys_inv k σ -> length (wakes_of turns σ) = length turns.
Proof.
  revert σ. induction turns as [|t ts IH]; intros σ Hi; cbn; [done|].
  destruct (sys_run_inv k config (turn_labels t) σ Hi) as (σ1 & -> & Hi1). by rewrite IH.
Qed.

Lemma wait_walk_runs i turns σ e fuel :
  sys_inv k σ -> sys_backends σ !! pid = Some (Waiting, i) -> env_channel e = chan_of σ ->
  env_wakes e = wakes_of turns σ -> Forall (fun t => by_others pid (turn_labels t)) turns ->
  (length turns < fuel)%nat ->
  let '(labs, en) := wait_walk i turns σ in
  exists σ' ws, sys_run config labs σ = Done σ' /\ sys_inv k σ' /\ by_others pid labs /\
    sys_backends σ' !! pid = Some (Waiting, i) /\
    wait_loop fuel i e = (wait_result en, MkChanEnv (chan_of σ') (bgw_latch e) ws) /\
    (en = WaitAnswered -> slot_done_at i σ' = true).
Proof.
  revert σ e fuel. induction turns as [|t ts IH]; intros σ e fuel Hi HB Hc Hw Hts Hf;
    (destruct fuel as [|fuel]; [cbn in Hf; lia|]);
    destruct (waiting_slot σ i Hi HB) as (s & Hs & Hst); cbn [wait_walk];
    destruct (slot_done_at i σ) eqn:Hdone;
    try (exists σ, (env_wakes e); split_and!; try done; [by constructor|];
         rewrite (wait_loop_unfold fuel i e s) by (by rewrite Hc); rewrite Hst; rewrite <- Hc; by destruct e).
  - exists σ, []. split_and!; try done; [by constructor|].
    rewrite (wait_loop_in_flight fuel i e s) by (by rewrite ?Hc). unfold cm_bind, wait_latch.
    rewrite Hw, <- Hc. cbn. by destruct e; cbn in *; subst.
  - apply Forall_cons in Hts as [Ht Hts]. cbn [wakes_of] in Hw.
    destruct (sys_run_inv k config (turn_labels t) σ Hi) as (σ1 & Hr1 & Hi1).
    assert (HB1 : sys_backends σ1 !! pid = Some (Waiting, i)) by (by rewrite (sys_run_others _ _ _ _ _ Ht Hr1)).
    rewrite Hr1 in Hw.
    assert (Hstep : wait_loop (S fuel) i e = match turn_interrupt t with
      | Some err => (Error err, MkChanEnv (chan_of σ1) (bgw_latch e) (wakes_of ts σ1))
      | None => wait_loop fuel i (MkChanEnv (chan_of σ1) (bgw_latch e) (wakes_of ts σ1))
      end).
    { rewrite (wait_loop_in_flight fuel i e s) by (by rewrite ?Hc). unfold cm_bind, wait_latch.
      rewrite Hw. cbn [wk_others wk_interrupt]. rewrite Hc, (others_effect_run _ σ σ1 Hr1).
      by destruct (turn_interrupt t). }
    rewrite Hr1, Hstep. destruct (turn_interrupt t) as [err|].
    + exists σ1, (wakes_of ts σ1). split_and!; try done.
    + cbn in Hf. specialize (IH σ1 (MkChanEnv (chan_of σ1) (bgw_latch e) (wakes_of ts σ1)) fuel Hi1 HB1
        eq_refl eq_refl Hts ltac:(lia)). destruct (wait_walk i ts σ1) as [labs en].
      destruct IH as (σ' & ws & Hr & Hi' & Hl & HB' & Hwl & Hd). exists σ', ws.
      split; [rewrite sys_run_app, Hr1; exact Hr|]. split_and!; try done. by apply Forall_app.
Qed.
End Wait.

(** ** From the full slot to the end of the wait *)
Section Execute.
Context {L : Type} {HS : SList L} {HL : SListLaws L}.
Variable use_asserts : bool.
Variable k : Z.
Variable config : Config.
Variable pid : Z.
Abbreviation chan_of σ := (we_channel (sys_worker σ)) (only parsing).

(** [fga_channel_execute_slot] is the queueing, the wake-up of the worker and
    the wait. *)
Lemma execute_is_enqueue i e ok c s lt :
  enqueue_slot i (env_channel e) = (Done ok, c) -> bgw_latch e = Some lt ->
  chan_slot c i = Some s -> backend_pid s = pid ->
  fga_channel_execute_slot use_asserts pid i e =
    if ok then
      match pg_try (wait_loop (S (length (env_wakes e))) i) (on_channel (wait_catch i))
              (MkChanEnv c (Some true) (env_wakes e)) with
      | (Done FGA_CHANNEL_SLOT_CANCELED, e2) =>
          cm_bind _ _ (fun _ => ereport "ERRCODE_INTERNAL_ERROR" "postfga: request was canceled")
            (on_channel (fga_channel_release_slot i)) e2
      | (Done _, e2) => (Done tt, e2)
      | (Error err, e2) => (Error err, e2)
      | (Undefined u, e2) => (Undefined u, e2)
      end
    else (Error (PgError "ERRCODE_INTERNAL_ERROR" "postfga: failed to enqueue channel slot"),
          MkChanEnv c (bgw_latch e) (env_wakes e)).
Proof.
  intros He Hl Hs Hp. unfold enqueue_slot, mbind, cm_bind, mret, cm_ret in He.
  set (wait := pg_try _ _ _). unfold fga_channel_execute_slot, mbind, cm_bind, on_channel.
  destruct e as [c0 l0 ws]. cbn [env_channel bgw_latch env_wakes] in *. subst l0.
  destruct (lock_queue c0) as [[[]| |] c1]; try done. cbn [env_channel bgw_latch env_wakes] in *.
  destruct (on_queue _ c1) as [[[]| |] c2]; try done; cbn [negb unlock_queue env_channel] in *.
  - injection He as <- <-. unfold fga_wake_bgw, wait_response, mbind, cm_bind, on_channel.
    cbn [env_channel bgw_latch env_wakes unlock_queue]. rewrite (chan_read_slot _ i s Hs), Hp, Z.eqb_refl.
    unfold c_assert, cm_lift, cm_get. rewrite andb_false_r. cbn [env_wakes].
    match goal with |- context [pg_try ?m ?h ?e] => change (pg_try m h e) with wait end.
    destruct wait as [[[]| |] e2]; done.
  - cbn [unlock_queue env_channel] in *. unfold unlock_queue in *.
    destruct (fga_channel_release_slot i _) as [[[]| |] c3]; try done. by injection He as <- <-.
Qed.

Lemma owning_slot σ i : sys_inv k σ -> sys_backends σ !! pid = Some (Owning, i) ->
  exists s free l, chan_repr k (chan_of σ) free l /\ chan_slot (chan_of σ) i = Some s /\
    backend_pid s = pid /\ Z.of_nat i < 65536 /\ i ∉ free.
Proof.
  intros (R & free & l & Hinv) HB.
  destruct (backend_role k _ _ _ _ _ _ _ _ _ _ _ Hinv HB) as (r & Hr & Hph).
  destruct (inv_slot k _ _ _ _ _ _ _ _ i r Hinv Hr) as (s & Hs & Hok & _ & Hlt).
  exists s, free, l. destruct r; try done. injection Hph as ->.
  split_and!; try done; [apply Hinv|apply Hok|by eapply role_not_free].
Qed.

Definition enqueue_wakes (turns : list turn) (σ : system L) : list (wake L) :=
  match sys_step config (LEnqueue pid) σ with Done σ2 => wakes_of config turns σ2 | _ => [] end.

Lemma enqueue_walks turns σ e i :
  sys_inv k σ -> sys_backends σ !! pid = Some (Owning, i) -> env_channel e = chan_of σ ->
  is_Some (bgw_latch e) -> env_wakes e = enqueue_wakes turns σ ->
  exists σ2, sys_step config (LEnqueue pid) σ = Done σ2 /\ sys_inv k σ2 /\
    ((sys_backends σ2 !! pid = None /\ exists lt ws, fga_channel_execute_slot use_asserts pid i e =
       (Error (PgError "ERRCODE_INTERNAL_ERROR" "postfga: failed to enqueue channel slot"),
        MkChanEnv (chan_of σ2) lt ws)) \/
     sys_backends σ2 !! pid = Some (Waiting, i) /\ fga_channel_execute_slot use_asserts pid i e =
       match pg_try (wait_loop (S (length (wakes_of config turns σ2))) i) (on_channel (wait_catch i))
               (MkChanEnv (chan_of σ2) (Some true) (wakes_of config turns σ2)) with
       | (Done FGA_CHANNEL_SLOT_CANCELED, e2) =>
           cm_bind _ _ (fun _ => ereport "ERRCODE_INTERNAL_ERROR" "postfga: request was canceled")
             (on_channel (fga_channel_release_slot i)) e2
       | (Done _, e2) => (Done tt, e2)
       | (Error err, e2) => (Error err, e2)
       | (Undefined u, e2) => (Undefined u, e2)
       end).
Proof.
  intros Hi HB Hc [lt Hl] Hw. destruct (owning_slot σ i Hi HB) as (s & free & l & Hr & Hs & Hp & Hlt & Hif).
  destruct (enqueue_slot_spec k _ free l i s Hr Hs Hlt Hif) as (c & ok & He & _ & Hs' & _).
  destruct (sys_step_inv k config (LEnqueue pid) σ Hi) as (σ2 & Hst & Hi2).
  exists σ2. split; [done|]. split; [done|].
  unfold enqueue_wakes in Hw. rewrite Hst in Hw.
  cbn in Hst. rewrite HB in Hst. unfold run_channel in Hst. rewrite (on_shared_eq _ _ _ _ He) in Hst.
  rewrite <- Hc in He.
  assert (Hx : backend_pid (if ok then s else set_state s FGA_CHANNEL_SLOT_EMPTY) = pid) by (by destruct ok).
  rewrite (execute_is_enqueue i e ok c _ lt He Hl Hs' Hx), Hw.
  destruct ok; injection Hst as <-; cbn; [right|left].
  - split; [by rewrite lookup_insert_eq|done].
  - split; [by rewrite lookup_delete_eq|]. by eexists _, _.
Qed.

(** The error handler of the wait runs through. *)
Lemma interrupt_runs σ i : sys_inv k σ -> sys_backends σ !! pid = Some (Waiting, i) ->
  exists c, wait_catch i (chan_of σ) = (Done tt, c) /\
    let σ' := MkSystem (with_channel (sys_worker σ) c) (delete pid (sys_backends σ)) in
    sys_step config (LInterrupt pid) σ = Done σ' /\ sys_inv k σ'.
Proof.
  intros Hi HB. destruct (sys_step_inv k config (LInterrupt pid) σ Hi) as (σ' & Hst & Hi').
  destruct (waiting_slot k pid σ i Hi HB) as (s & Hs & Hst0). destruct Hi as (R & free & l & Hinv).
  destruct (backend_role k _ _ _ _ _ _ _ _ _ _ _ Hinv HB) as (r & Hr & Hph).
  assert (Hif : i ∉ free) by (eapply role_not_free; [done..|]; by intros ->).
  destruct (wait_catch_spec k (chan_of σ) free l i s (pi_chan _ _ _ _ _ _ _ _ _ Hinv) Hs Hif)
    as (c & s' & Hc & _).
  1,2: unfold in_flight in Hst0; destruct (slot_done_at i σ); destruct (slot_state s); naive_solver.
  exists c. split; [done|]. cbn in *. rewrite HB in *. unfold run_channel in *.
  rewrite (on_shared_eq _ _ _ _ Hc) in *. by injection Hst as <-.
Qed.

(** The wait of [fga_channel_execute_slot], by the reason for its end. *)
Lemma execute_walks turns σ e i :
  sys_inv k σ -> sys_backends σ !! pid = Some (Owning, i) -> env_channel e = chan_of σ ->
  is_Some (bgw_latch e) -> env_wakes e = enqueue_wakes turns σ ->
  Forall (fun t => by_others pid (turn_labels t)) turns ->
  exists σ2, sys_step config (LEnqueue pid) σ = Done σ2 /\ sys_inv k σ2 /\
    ((sys_backends σ2 !! pid = None /\ exists lt ws, fga_channel_execute_slot use_asserts pid i e =
       (Error (PgError "ERRCODE_INTERNAL_ERROR" "postfga: failed to enqueue channel slot"),
        MkChanEnv (chan_of σ2) lt ws)) \/
     sys_backends σ2 !! pid = Some (Waiting, i) /\
     let '(labs, en) := wait_walk config i turns σ2 in
     exists σ3 lt ws, sys_run config labs σ2 = Done σ3 /\ sys_inv k σ3 /\ by_others pid labs /\
       sys_backends σ3 !! pid = Some (Waiting, i) /\
       match en with
       | WaitAnswered => slot_done_at i σ3 = true /\
           fga_channel_execute_slot use_asserts pid i e = (Done tt, MkChanEnv (chan_of σ3) lt ws)
       | WaitInterrupted err => exists σ4, sys_step config (LInterrupt pid) σ3 = Done σ4 /\
           sys_inv k σ4 /\ sys_backends σ4 !! pid = None /\
           fga_channel_execute_slot use_asserts pid i e = (Error err, MkChanEnv (chan_of σ4) lt ws)
       | WaitBlocked =>
           fga_channel_execute_slot use_asserts pid i e = (Undefined WaitsForever, MkChanEnv (chan_of σ3) lt ws)
       end).
Proof.
  intros Hi HB Hc Hl Hw Hts.
  destruct (enqueue_walks turns σ e i Hi HB Hc Hl Hw) as (σ2 & Hst & Hi2 & [Hfull|[HB2 Hx]]);
    exists σ2; (split; [done|]; split; [done|]); [by left|right; split; [done|]].
  pose proof (wait_walk_runs k config pid i turns σ2 (MkChanEnv (chan_of σ2) (Some true) (wakes_of config turns σ2))
    (S (length (wakes_of config turns σ2))) Hi2 HB2 eq_refl eq_refl Hts
    ltac:(rewrite (wakes_length k config) by done; lia)) as Hwalk.
  destruct (wait_walk config i turns σ2) as [labs en].
  destruct Hwalk as (σ3 & ws & Hr & Hi3 & Hlabs & HB3 & Hwl & Hd).
  unfold pg_try in Hx. rewrite Hwl in Hx. cbn [bgw_latch] in Hx.
  exists σ3, (Some true), ws. split_and!; try done. destruct en as [|err|]; cbn [wait_result] in Hx.
  - split; [by apply Hd|done].
  - destruct (interrupt_runs σ3 i Hi3 HB3) as (c & Hcatch & Hstep & Hi4). eexists. split; [exact Hstep|].
    split; [exact Hi4|]. cbn. split; [apply lookup_delete_eq|]. rewrite Hx. unfold on_channel. cbn.
    by rewrite Hcatch.
  - done.
Qed.
End Execute.

(** ** The prologue of the SQL functions *)
Section Prologue.
Context {L : Type} {HS : SList L} {HL : SListLaws L}.
Context {H : Type} {HD : Dynahash FgaAclCacheKey Z H} {HX : XXHash}.
Variable use_asserts : bool.
Variable config : FgaConfig.
Variable pid : Z.
Variable k : Z.
Abbreviation channel_of b := (env_channel (be_chan b)) (only parsing).

Definition with_chan (b : backend L H) (c : FgaChannel L) : backend L H :=
  MkBackend (MkChanEnv c (bgw_latch (be_chan b)) (env_wakes (be_chan b))) (be_cache b)
    (be_dead_frame b) (be_notices b).

Definition put_slot (c : FgaChannel L) (i : nat) (s : FgaChannelSlot) : FgaChannel L :=
  MkChannel (pool_lock c) (queue_lock c) (ch_request_id c)
    (MkPool (pool_head (ch_pool c)) (<[i := s]> (pool_slots (ch_pool c)))) (ch_queue c).

Lemma put_slot_twice c i s s' : put_slot (put_slot c i s) i s' = put_slot c i s'.
Proof. unfold put_slot. cbn. by rewrite list_insert_insert_eq. Qed.

Lemma put_slot_here c i s s' : chan_slot c i = Some s -> chan_slot (put_slot c i s') i = Some s'.
Proof. intros Hs. apply list_lookup_insert_eq. by eapply lookup_lt_Some. Qed.

Lemma update_slot_put (c : FgaChannel L) i f s :
  chan_slot c i = Some s -> on_pool (update_slot i f) c = (Done tt, put_slot c i (f s)).
Proof. intros Hs. unfold on_pool. by rewrite (update_slot_spec _ i f s Hs). Qed.

Lemma modify_request_put (b : backend L H) i f s :
  chan_slot (channel_of b) i = Some s ->
  modify_request (H := H) i f b = (Done tt, with_chan b (put_slot (channel_of b) i
    (set_payload s (with_request (payload s) (f (request (payload s))))))).
Proof. intros Hs. unfold modify_request, on_chan, on_channel. by rewrite (update_slot_put _ i _ s Hs). Qed.

Lemma slot_payload_same (b : backend L H) i s :
  chan_slot (channel_of b) i = Some s -> slot_payload (H := H) i b = (Done (payload s), b).
Proof.
  intros Hs. unfold slot_payload, mbind, cm_bind, on_chan, on_channel.
  rewrite (chan_read_slot _ i s Hs). by destruct b as [[] ? ? ?].
Qed.

(** What a SQL function writes into its new slot, before the rest of its body. *)
Definition preparation : Type := forall A, nat -> CM (backend L H) A -> CM (backend L H) A.

(** The fields of a request, written one after the other, are the request the
    label writes at once. *)
Definition prepares (prep : preparation) (t : FgaRequestType) (store model : list ascii)
    (body : FgaRequestBody) : Prop :=
  forall (b : backend L H) i free l, chan_repr k (channel_of b) (i :: free) l ->
    exists b1 c, acquire pid b = (Done i, b1) /\
      start pid (request_type_code t) store model body (channel_of b) = (Done i, c) /\
      forall A (rest : CM (backend L H) A), prep A i rest b1 = rest (with_chan b c).

(** The slot a function acquires, and the request the label writes into it. *)
Lemma acquire_fresh (b : backend L H) i free l :
  chan_repr k (channel_of b) (i :: free) l ->
  exists c1 s1, acquire pid b = (Done i, with_chan b c1) /\ chan_slot c1 i = Some s1 /\
    payload s1 = MkPayload (with_request_id zero_request (u64 (ch_request_id (channel_of b) + 1))) zero_response /\
    forall type store model body, start pid type store model body (channel_of b) =
      (Done i, put_slot c1 i (set_payload s1
         (MkPayload (MkRequest (request_id (request (payload s1))) type store model body)
            (response (payload s1))))).
Proof.
  intros Hc. destruct (chan_acquire_spec k _ i free l pid Hc) as (c1 & Ha & _ & Hs1 & _).
  eexists c1, _. split; [unfold acquire, on_chan, on_channel; by rewrite Ha|]. split; [exact Hs1|].
  split; [done|]. intros type store model body. unfold start, mbind, cm_bind. rewrite Ha. unfold fill_slot.
  by rewrite (update_slot_put _ i _ _ Hs1).
Qed.

Definition prepare_tuple (t : FgaRequestType) (body : FgaTuple -> FgaRequestBody) (args : TupleArgsView)
  : preparation := fun A i rest =>
  _ ← modify_request i (set_type t); _ ← fill use_asserts config i args body; rest.

Lemma prepare_tuple_spec t body args : c_str_empty (store_id config) = false ->
  prepares (prepare_tuple t body args) t (SqlFuncs.store_member config) (model_member config)
    (body (padded_tuple args)).
Proof.
  intros Hst b i free l Hc. destruct (acquire_fresh b i free l Hc) as (c1 & s1 & Ha & Hs1 & Hp & Hstart).
  eexists _, _. split; [exact Ha|]. split; [apply Hstart|]. intros A rest. unfold prepare_tuple, mbind, cm_bind.
  rewrite (modify_request_put (with_chan b c1) i _ _ Hs1). cbn [be_chan env_channel with_chan].
  unfold fill, mbind, cm_bind.
  erewrite slot_payload_same by (eapply put_slot_here; exact Hs1).
  rewrite Hp. cbn [payload request set_payload with_request with_request_id set_type].
  unfold cm_lift. unfold set_type at 1, zero_request. cbn [request_id req_store_id req_model_id req_body].
  rewrite fill_request_spec by done.
  erewrite modify_request_put by (eapply put_slot_here; exact Hs1).
  cbn [be_chan env_channel with_chan req_body body_tuple]. rewrite fill_tuple_zeros.
  erewrite modify_request_put by (eapply put_slot_here, put_slot_here; exact Hs1).
  cbn [be_chan env_channel with_chan]. rewrite !put_slot_twice. done.
Qed.

Definition prepare_store (t : FgaRequestType) (f : FgaRequest -> FgaRequest) : preparation := fun A i rest =>
  _ ← modify_request i (set_type t); _ ← modify_request i f; rest.

Lemma prepare_store_spec t f store model body :
  (forall id, f (set_type t (with_request_id zero_request id)) =
    MkRequest id (request_type_code t) store model body) ->
  prepares (prepare_store t f) t store model body.
Proof.
  intros Hf b i free l Hc. destruct (acquire_fresh b i free l Hc) as (c1 & s1 & Ha & Hs1 & Hp & Hstart).
  eexists _, _. split; [exact Ha|]. split; [apply Hstart|]. intros A rest. unfold prepare_store, mbind, cm_bind.
  rewrite (modify_request_put (with_chan b c1) i _ _ Hs1). cbn [be_chan env_channel with_chan].
  erewrite modify_request_put by (eapply put_slot_here; exact Hs1).
  cbn [be_chan env_channel with_chan payload request set_payload with_request]. rewrite put_slot_twice.
  rewrite Hp. cbn [request]. by rewrite Hf.
Qed.
End Prologue.

(** ** A call as a run of the system *)
Inductive call_end : Type := CallExhausted | CallQueueFull | CallWaited (en : wait_end).

Section Call.
Context {L : Type} {HS : SList L} {HL : SListLaws L}.
Variable use_asserts : bool.
Variable k : Z.
Variable config : Config.
Variable pid : Z.
Variable type : Z.
Variables store model : list ascii.
Variable body : FgaRequestBody.
Abbreviation chan_of σ := (we_channel (sys_worker σ)) (only parsing).

Definition acquire_label : label := LAcquire pid type store model body.

Definition wait_labels (en : wait_end) : list label :=
  match en with
  | WaitAnswered => [LPoll pid; LRelease pid]
  | WaitInterrupted _ => [LInterrupt pid]
  | WaitBlocked => []
  end.

(** The labels of a call that the others' turns accompany, and how it ends. *)
Definition enqueue_walk (turns : list turn) (σ : system L) (i : nat) : list label * call_end :=
  match sys_step config (LEnqueue pid) σ with
  | Done σ2 =>
      match sys_backends σ2 !! pid with
      | Some _ =>
          let '(labs, en) := wait_walk config i turns σ2 in
          (LEnqueue pid :: labs ++ wait_labels en, CallWaited en)
      | None => ([LEnqueue pid], CallQueueFull)
      end
  | _ => ([], CallQueueFull)
  end.

Definition call_walk (turns : list turn) (σ : system L) : list label * call_end :=
  match sys_step config acquire_label σ with
  | Done σ1 =>
      match sys_backends σ1 !! pid with
      | Some (_, i) => let '(labs, en) := enqueue_walk turns σ1 i in (acquire_label :: labs, en)
      | None => ([acquire_label], CallExhausted)
      end
  | _ => ([], CallExhausted)
  end.

Definition call_wakes (turns : list turn) (σ : system L) : list (wake L) :=
  match sys_step config acquire_label σ with Done σ1 => enqueue_wakes config pid turns σ1 | _ => [] end.

(** The backend with slot [i] may have the answer read and return the slot. *)
Lemma answered_release σ i :
  sys_inv k σ -> sys_backends σ !! pid = Some (Waiting, i) -> slot_done_at i σ = true ->
  exists s σ', chan_slot (chan_of σ) i = Some s /\ sys_inv k σ' /\ sys_backends σ' !! pid = None /\
    fga_channel_release_slot i (chan_of σ) = (Done tt, chan_of σ') /\
    sys_trace config [LPoll pid; LRelease pid] σ =
      Done ([EvTake pid (request (payload s)) (response (payload s))], σ').
Proof.
  intros Hi HB Hd. destruct (waiting_slot k pid σ i Hi HB) as (s & Hs & Hst). rewrite Hd in Hst.
  assert (Hp : sys_step config (LPoll pid) σ =
    Done (MkSystem (sys_worker σ) (<[pid := (Reading, i)]> (sys_backends σ)))).
  { cbn. by rewrite HB, Hs, Hst. }
  destruct (sys_step_inv k config (LPoll pid) σ Hi) as (σ1 & Hp1 & Hi1).
  rewrite Hp in Hp1. injection Hp1 as <-.
  destruct (sys_step_inv k config (LRelease pid) _ Hi1) as (σ2 & Hr & Hi2).
  exists s, σ2. split; [done|]. split; [done|].
  assert (Hrel : exists c, fga_channel_release_slot i (chan_of σ) = (Done tt, c) /\
    σ2 = MkSystem (with_channel (sys_worker σ) c) (delete pid (<[pid := (Reading, i)]> (sys_backends σ)))).
  { destruct Hi as (R & free & l & Hinv).
    destruct (backend_role k _ _ _ _ _ _ _ _ _ _ _ Hinv HB) as (r & Hri & Hph).
    assert (Hif : i ∉ free) by (eapply role_not_free; [done..|]; by intros ->).
    destruct (chan_release_spec k _ i free l s (pi_chan _ _ _ _ _ _ _ _ _ Hinv) Hs Hif) as (c & Hc & _).
    exists c. split; [done|]. cbn in Hr. rewrite lookup_insert_eq in Hr. unfold run_channel in Hr. cbn in Hr.
    rewrite (on_shared_eq _ _ _ _ Hc) in Hr. by injection Hr as <-. }
  destruct Hrel as (c & Hc & ->). split; [apply lookup_delete_eq|]. split; [done|].
  cbn [sys_trace]. rewrite Hp. unfold mbind, outcome_bind. rewrite Hr. cbn [fst snd app].
  unfold observe. cbn [sys_backends]. rewrite lookup_insert_eq. unfold slot_read. cbn [sys_worker]. by rewrite Hs.
Qed.

(** What a call ran through, from the environment [e] of its backend: the
    events of its process, and what its operations on the channel returned.
    [c'] is the channel it leaves. *)
Definition asked_request (e : chan_env L) : FgaRequest :=
  MkRequest (u64 (ch_request_id (env_channel e) + 1)) type store model body.

Definition full_slot (i : nat) (e : chan_env L) (c : FgaChannel L) : Prop :=
  (exists free l, chan_repr k (env_channel e) (i :: free) l) /\
  start pid type store model body (env_channel e) = (Done i, c).

Definition call_ran (e : chan_env L) (c' : FgaChannel L) (evs : list event) (en : call_end) : Prop :=
  match en with
  | CallExhausted => evs = [] /\ c' = env_channel e /\ fga_channel_acquire_slot pid c' =
      (Error (PgError "ERRCODE_OUT_OF_MEMORY" "channel slot pool exhausted"), c')
  | CallQueueFull => evs = [EvAsk pid (asked_request e)] /\ exists i c lt ws, full_slot i e c /\
      fga_channel_execute_slot use_asserts pid i (MkChanEnv c (bgw_latch e) (env_wakes e)) =
        (Error (PgError "ERRCODE_INTERNAL_ERROR" "postfga: failed to enqueue channel slot"), MkChanEnv c' lt ws)
  | CallWaited en => exists i c c3 lt ws evs', full_slot i e c /\ (forall req, EvAsk pid req ∉ evs') /\
      fga_channel_execute_slot use_asserts pid i (MkChanEnv c (bgw_latch e) (env_wakes e)) =
        (match en with
         | WaitAnswered => Done tt
         | WaitInterrupted err => Error err
         | WaitBlocked => Undefined WaitsForever
         end, MkChanEnv c3 lt ws) /\
      match en with
      | WaitAnswered => exists s, chan_slot c3 i = Some s /\
          fga_channel_release_slot i c3 = (Done tt, c') /\
          evs = EvAsk pid (asked_request e) :: evs' ++ [EvTake pid (request (payload s)) (response (payload s))]
      | _ => c3 = c' /\ evs = EvAsk pid (asked_request e) :: evs'
      end
  end.

Lemma acquire_walks σ :
  sys_inv k σ -> is_Some (we_procs (sys_worker σ) !! pid) -> sys_backends σ !! pid = None ->
  served_type type = true ->
  exists σ1, sys_step config acquire_label σ = Done σ1 /\ sys_inv k σ1 /\
   ((σ1 = σ /\ fga_channel_acquire_slot pid (chan_of σ) =
       (Error (PgError "ERRCODE_OUT_OF_MEMORY" "channel slot pool exhausted"), chan_of σ)) \/
    exists i free l, chan_repr k (chan_of σ) (i :: free) l /\
      start pid type store model body (chan_of σ) = (Done i, chan_of σ1) /\
      sys_backends σ1 !! pid = Some (Owning, i) /\
      observe acquire_label σ σ1 =
        [EvAsk pid (MkRequest (u64 (ch_request_id (chan_of σ) + 1)) type store model body)]).
Proof.
  intros Hi Hp HB Ht. destruct (sys_step_inv k config acquire_label σ Hi) as (σ1 & Hst & Hi1).
  exists σ1. split; [done|]. split; [done|]. destruct Hi as (R & [|i free] & l & Hinv);
    pose proof (pi_chan _ _ _ _ _ _ _ _ _ Hinv) as Hc; cbn in Hst;
    rewrite decide_True in Hst by done; unfold run_channel in Hst.
  - left. pose proof (chan_acquire_exhausted k _ l pid Hc) as Ha.
    rewrite (on_shared_eq _ _ (Error (PgError "ERRCODE_OUT_OF_MEMORY" "channel slot pool exhausted"))
      (chan_of σ)) in Hst by (unfold start, mbind, cm_bind; by rewrite Ha).
    injection Hst as <-. split; [by destruct σ as [[] ?]|done].
  - right. destruct (start_full k _ i free l pid type store model body Hc) as (c & Hs & Hc' & Hsl & _).
    rewrite (on_shared_eq _ _ _ _ Hs) in Hst. injection Hst as <-.
    exists i, free, l. split; [done|]. split; [done|]. cbn [sys_backends]. split; [apply lookup_insert_eq|].
    cbn. rewrite HB, lookup_insert_eq. unfold slot_read. cbn. by rewrite Hsl.
Qed.

Lemma trace_step lab labs σ σ1 evs σ' :
  sys_step config lab σ = Done σ1 -> sys_trace config labs σ1 = Done (evs, σ') ->
  sys_trace config (lab :: labs) σ = Done (observe lab σ σ1 ++ evs, σ').
Proof. intros Hs Ht. cbn [sys_trace]. rewrite Hs. unfold mbind, outcome_bind. by rewrite Ht. Qed.

Lemma call_walks turns σ e :
  sys_inv k σ -> is_Some (we_procs (sys_worker σ) !! pid) -> sys_backends σ !! pid = None ->
  served_type type = true -> env_channel e = chan_of σ -> is_Some (bgw_latch e) ->
  env_wakes e = call_wakes turns σ -> Forall (fun t => by_others pid (turn_labels t)) turns ->
  let '(labs, en) := call_walk turns σ in
  exists evs σ', sys_trace config labs σ = Done (evs, σ') /\ sys_inv k σ' /\ call_ran e (chan_of σ') evs en.
Proof.
  intros Hi Hp HB Ht Hc Hl Hw Hts.
  destruct (acquire_walks σ Hi Hp HB Ht) as (σ1 & Hst & Hi1 & [[-> Ha]|(i & free & l & Hr & Hs & HB1 & Hev)]);
    unfold call_walk, call_wakes in *; rewrite Hst in *.
  { rewrite HB. eexists [], σ. rewrite (trace_step _ [] σ σ [] σ Hst eq_refl). cbn. rewrite HB.
    by split_and!. }
  rewrite HB1. unfold enqueue_walk. rewrite <- Hc in Hr, Hs, Hev.
  assert (Hf : full_slot i e (chan_of σ1)) by (split; [by exists free, l|done]).
  destruct (execute_walks use_asserts k config pid turns σ1 (MkChanEnv (chan_of σ1) (bgw_latch e) (env_wakes e)) i
    Hi1 HB1 eq_refl Hl Hw Hts) as (σ2 & Hst2 & Hi2 & [(HB2 & lt & ws & Hx)|(HB2 & Hwalk)]); rewrite Hst2, HB2.
  { exists [EvAsk pid (asked_request e)], σ2.
    rewrite (trace_step _ _ σ σ1 _ σ2 Hst (trace_step _ [] σ1 σ2 [] σ2 Hst2 eq_refl)), Hev.
    split; [done|]. split; [done|]. split; [done|]. by exists i, (chan_of σ1), lt, ws. }
  destruct (wait_walk config i turns σ2) as [labs en].
  destruct Hwalk as (σ3 & lt & ws & Hrun & Hi3 & Hlabs & HB3 & Hend).
  destruct (sys_run_trace config labs σ2 σ3 Hrun) as (evs & Htr).
  pose proof (sys_trace_others config pid labs σ2 σ3 evs) as Hno.
  assert (Hfin : forall labs' evs' σ', sys_trace config labs' σ3 = Done (evs', σ') ->
    sys_trace config (acquire_label :: LEnqueue pid :: labs ++ labs') σ =
      Done (EvAsk pid (asked_request e) :: evs ++ evs', σ')).
  { intros labs' evs' σ' Ht'. rewrite (trace_step _ _ σ σ1 _ σ' Hst
      (trace_step _ _ σ1 σ2 _ σ' Hst2 (sys_trace_app config _ _ _ _ _ _ _ Htr Ht'))), Hev. done. }
  destruct en as [|err|].
  - destruct Hend as [Hd Hx].
    destruct (answered_release σ3 i Hi3 HB3 Hd) as (s & σ4 & Hsl & Hi4 & _ & Hrel & Ht4).
    eexists _, σ4. split; [exact (Hfin _ _ _ Ht4)|]. split; [done|].
    exists i, (chan_of σ1), (chan_of σ3), lt, ws, evs. split_and!; try done; [by intros; apply Hno|by exists s].
  - destruct Hend as (σ4 & Hst4 & Hi4 & _ & Hx).
    eexists _, σ4. split; [exact (Hfin _ _ _ (trace_step _ [] σ3 σ4 [] σ4 Hst4 eq_refl))|]. split; [done|].
    exists i, (chan_of σ1), (chan_of σ4), lt, ws, evs. split_and!; try done; [by intros; apply Hno|by rewrite app_nil_r].
  - eexists _, σ3. split; [exact (Hfin [] [] σ3 eq_refl)|]. split; [done|].
    exists i, (chan_of σ1), (chan_of σ3), lt, ws, evs. split_and!; try done; [by intros; apply Hno|by rewrite app_nil_r].
Qed.
End Call.

(** ** The SQL functions *)

(** The answer a call read, by the events of its run. *)
Definition answered_call (pid : Z) (req : FgaRequest) (evs : list event) (req' : FgaRequest)
    (resp : FgaResponse) : Prop :=
  exists evs', evs = EvAsk pid req :: evs' ++ [EvTake pid req' resp] /\ (forall r, EvAsk pid r ∉ evs').

(** What a call returns that makes [value] of an answer. *)
Definition call_returns {A} (value : FgaResponse -> outcome A) (pid : Z) (req : FgaRequest)
    (evs : list event) (en : call_end) (r : outcome A) : Prop :=
  match en with
  | CallExhausted => r = Error (PgError "ERRCODE_OUT_OF_MEMORY" "channel slot pool exhausted")
  | CallQueueFull => r = Error (PgError "ERRCODE_INTERNAL_ERROR" "postfga: failed to enqueue channel slot")
  | CallWaited (WaitInterrupted err) => r = Error err
  | CallWaited WaitBlocked => r = Undefined WaitsForever
  | CallWaited WaitAnswered => exists req' resp, answered_call pid req evs req' resp /\ r = value resp
  end.

Section Sql.
Context {L : Type} {HS : SList L} {HL : SListLaws L}.
Context {H : Type} {HD : Dynahash FgaAclCacheKey Z H} {HX : XXHash}.
Variable use_asserts : bool.
Variable config : FgaConfig.
Variables pid MyProcNumber : Z.
Variable k : Z.
Abbreviation channel_of b := (env_channel (be_chan b)) (only parsing).
Abbreviation ran t body args := (call_ran use_asserts k pid (request_type_code t) (SqlFuncs.store_member config)
  (model_member config) (body (padded_tuple args))) (only parsing).

Definition check_value (resp : FgaResponse) : outcome bool :=
  if decide (status resp = FGA_RESPONSE_OK) then Done (body_allow (resp_body resp))
  else Undefined UninitializedRead.

(** Up to the end of the wait all functions do the same. *)
Lemma prologue_ran prep t store model body (b : backend L H) i c r lt c3 ws :
  prepares pid k prep t store model body ->
  full_slot k pid (request_type_code t) store model body i (be_chan b) c ->
  fga_channel_execute_slot use_asserts pid i (MkChanEnv c (bgw_latch (be_chan b)) (env_wakes (be_chan b))) =
    (r, MkChanEnv c3 lt ws) ->
  exists b1, acquire pid b = (Done i, b1) /\
    forall A (rest : CM (backend L H) A),
      prep A i (_ ← SqlFuncs.execute use_asserts pid i; rest) b1 =
      let b3 := MkBackend (MkChanEnv c3 lt ws) (be_cache b) (be_dead_frame b) (be_notices b) in
      match r with
      | Done _ => rest b3
      | Error e => (Error e, b3)
      | Undefined u => (Undefined u, b3)
      end.
Proof.
  intros Hprep [(free & l & Hc) Hs] Hx.
  destruct (Hprep b i free l Hc) as (b1 & c0 & Ha & Hs' & Hrest).
  rewrite Hs in Hs'. injection Hs' as <-. exists b1. split; [done|]. intros A rest.
  rewrite Hrest. unfold mbind, cm_bind, SqlFuncs.execute, on_chan.
  cbn [with_chan be_chan]. rewrite Hx. by destruct r.
Qed.

Lemma fga_check_ran stack_key now fcinfo (b : backend L H) args key ce c' evs en :
  read_tuple_args fcinfo = Done args ->
  build_cache_key use_asserts config stack_key args = Done key ->
  fga_cache_lookup MyProcNumber config key now (be_cache b) = (Done None, ce) ->
  c_str_empty (store_id config) = false ->
  ran FGA_REQUEST_CHECK ReqCheckTuple args (be_chan b) c' evs en ->
  exists r b', fga_check use_asserts config pid MyProcNumber stack_key now fcinfo b = (r, b') /\
    channel_of b' = c' /\ be_cache b' = ce /\
    call_returns check_value pid (tuple_request config (u64 (ch_request_id (channel_of b) + 1))
      FGA_REQUEST_CHECK ReqCheckTuple args) evs en r.
Proof.
  intros Hargs Hkey Hmiss Hst Hran.
  unfold fga_check, mbind at 1, cm_bind at 1, cm_lift at 1. rewrite Hargs.
  unfold mbind at 1, cm_bind at 1, cm_lift at 1. rewrite Hkey.
  unfold mbind at 1, cm_bind at 1, on_cache_env at 1. rewrite Hmiss.
  set (b0 := MkBackend (be_chan b) ce (be_dead_frame b) (be_notices b)).
  pose proof (prepare_tuple_spec (H := H) use_asserts config pid k FGA_REQUEST_CHECK ReqCheckTuple args Hst) as Hprep.
  unfold prepare_tuple in Hprep.
  unfold mbind at 1, cm_bind at 1. destruct en as [| |en].
  - destruct Hran as (-> & -> & Ha). unfold acquire, on_chan, on_channel. cbn [be_chan b0]. rewrite Ha.
    eexists _, _. by split_and!.
  - destruct Hran as (-> & i & c & lt & ws & Hf & Hx).
    destruct (prologue_ran _ _ _ _ _ b0 i c _ lt c' ws Hprep Hf Hx) as (b1 & Ha & Hrest).
    rewrite Ha, Hrest. eexists _, _. by split_and!.
  - destruct Hran as (i & c & c3 & lt & ws & evs' & Hf & Hno & Hx & Hend).
    destruct (prologue_ran _ _ _ _ _ b0 i c _ lt c3 ws Hprep Hf Hx) as (b1 & Ha & Hrest).
    rewrite Ha, Hrest. destruct en as [|err|].
    + destruct Hend as (s & Hs & Hrel & ->). cbv zeta. set (b3 := MkBackend _ _ _ _).
      unfold mbind, cm_bind. rewrite (slot_payload_same b3 i s Hs).
      unfold release, on_chan, on_channel, info, mret, cm_ret, cm_lift, check_value.
      destruct (decide (status (response (payload s)) = FGA_RESPONSE_OK)) as [Hok|Hok];
        cbn [be_chan b3 env_channel]; rewrite Hrel; eexists _, _; (split; [reflexivity|]);
        (split; [done|]); (split; [done|]); exists (request (payload s)), (response (payload s));
        (split; [by exists evs'|]); by rewrite ?decide_True, ?decide_False by done.
    + destruct Hend as [-> ->]. eexists _, _. by split_and!.
    + destruct Hend as [-> ->]. eexists _, _. by split_and!.
Qed.

(** A computation that neither waits forever nor on a lock of its own. *)
Definition ends {A} (r : outcome A) : Prop :=
  match r with
  | Undefined WaitsForever | Undefined SelfDeadlock => False
  | _ => True
  end.

Lemma release_ends slot (b : backend L H) : pool_lock (channel_of b) = None -> ends (release (H := H) slot b).1.
Proof.
  intros Hl. unfold release, on_chan, on_channel, fga_channel_release_slot, mbind, cm_bind, lock_pool. rewrite Hl.
  unfold on_pool, release_slot, mbind, cm_bind, update_slot. cbn. by destruct (pool_slots _ !! slot).
Qed.

(** ** The functions that run inside PG_TRY *)
Definition call_function {A} (prep : preparation) (finish : nat -> FgaPayload -> CM (backend L H) A)
  : CM (backend L H) A :=
  slot ← acquire pid;
  pg_try
    (prep A slot (_ ← SqlFuncs.execute use_asserts pid slot; p ← slot_payload slot; finish slot p))
    (release slot).

(** The rest of the body makes [value] of the answer, and returns the slot when
    there is one. *)
Definition finishes {A} (finish : nat -> FgaPayload -> CM (backend L H) A) (value : FgaResponse -> outcome A)
  : Prop :=
  forall slot p b, finish slot p b =
    match value (response p) with
    | Done a => (_ ← release slot; return_inside_try a) b
    | Error e => (Error e, b)
    | Undefined u => (Undefined u, b)
    end.

Section Function.
Context {A : Type}.
Variable prep : preparation (L := L) (H := H).
Variable t : FgaRequestType.
Variables store model : list ascii.
Variable body : FgaRequestBody.
Hypothesis Hprep : prepares pid k prep t store model body.
Variable finish : nat -> FgaPayload -> CM (backend L H) A.
Variable value : FgaResponse -> outcome A.
Hypothesis Hfin : finishes finish value.
Abbreviation ran := (call_ran use_asserts k pid (request_type_code t) store model body) (only parsing).

(** A call whose wait is answered; the other ends release the slot twice, which
    no label does. *)
Lemma call_function_ran (b : backend L H) c' evs :
  ran (be_chan b) c' evs (CallWaited WaitAnswered) ->
  exists r b', call_function prep finish b = (r, b') /\
    ((forall u, r <> Undefined u) -> channel_of b' = c') /\
    call_returns value pid (MkRequest (u64 (ch_request_id (channel_of b) + 1)) (request_type_code t) store model body)
      evs (CallWaited WaitAnswered) r.
Proof.
  intros (i & c & c3 & lt & ws & evs' & Hf & Hno & Hx & s & Hs & Hrel & ->).
  destruct (prologue_ran prep t store model body b i c _ lt c3 ws Hprep Hf Hx) as (b1 & Ha & Hrest).
  unfold call_function, mbind at 1, cm_bind at 1. rewrite Ha. unfold pg_try. rewrite Hrest. cbv zeta.
  set (b3 := MkBackend _ _ _ _). unfold mbind at 1, cm_bind at 1. rewrite (slot_payload_same b3 i s Hs), Hfin.
  assert (Hr : release i b3 = (Done tt, with_chan b3 c')).
  { unfold release, on_chan, on_channel. cbn [be_chan b3 env_channel]. by rewrite Hrel. }
  exists (value (response (payload s))).
  assert (Hans : call_returns value pid
    (MkRequest (u64 (ch_request_id (channel_of b) + 1)) (request_type_code t) store model body)
    (EvAsk pid (asked_request (request_type_code t) store model body (be_chan b)) :: evs' ++
      [EvTake pid (request (payload s)) (response (payload s))]) (CallWaited WaitAnswered)
    (value (response (payload s)))).
  { exists (request (payload s)), (response (payload s)). split; [by exists evs'|done]. }
  destruct (value (response (payload s))) as [a|e|u].
  - unfold mbind, cm_bind. rewrite Hr. unfold return_inside_try. by eexists.
  - rewrite Hr. by eexists.
  - eexists. split; [reflexivity|]. split; [|exact Hans]. intros Hu. by destruct (Hu u).
Qed.

(** Only an answered call returns. *)
Lemma call_function_done (b : backend L H) c' evs en a :
  ran (be_chan b) c' evs en -> (call_function prep finish b).1 = Done a -> en = CallWaited WaitAnswered.
Proof.
  intros Hran. unfold call_function, mbind at 1, cm_bind at 1. destruct en as [| |en].
  - destruct Hran as (-> & -> & Ha). unfold acquire, on_chan, on_channel. by rewrite Ha.
  - destruct Hran as (-> & i & c & lt & ws & Hf & Hx).
    destruct (prologue_ran prep t store model body b i c _ lt c' ws Hprep Hf Hx) as (b1 & -> & Hrest).
    unfold pg_try. rewrite Hrest. cbv zeta. by repeat case_match.
  - destruct Hran as (i & c & c3 & lt & ws & evs' & Hf & _ & Hx & _).
    destruct (prologue_ran prep t store model body b i c _ lt c3 ws Hprep Hf Hx) as (b1 & -> & Hrest).
    destruct en; [done|..]; unfold pg_try; rewrite Hrest; cbv zeta; [|done]. by repeat case_match.
Qed.

(** A call whose wait ends does so itself, on its error paths too. *)
Lemma call_function_ends (b : backend L H) c' evs en :
  ran (be_chan b) c' evs en -> pool_lock c' = None -> en <> CallWaited WaitBlocked ->
  (forall resp, ends (value resp)) -> ends (call_function prep finish b).1.
Proof.
  intros Hran Hl Hen Hv.
  assert (Hcatch : forall e lt ws, let b3 := MkBackend (MkChanEnv c' lt ws) (be_cache b) (be_dead_frame b) (be_notices b) in
    forall slot, ends (A := A) (match release (H := H) slot b3 with
      | (Done _, s') => (Error e, s') | (Error e', s') => (Error e', s') | (Undefined u, s') => (Undefined u, s') end).1).
  { intros e lt ws b3 slot. pose proof (release_ends slot b3 Hl) as Hr. by destruct (release slot b3) as [[]]. }
  destruct en as [| |en].
  - destruct Hran as (-> & -> & Ha). unfold call_function, mbind at 1, cm_bind at 1, acquire, on_chan, on_channel.
    by rewrite Ha.
  - destruct Hran as (-> & i & c & lt & ws & Hf & Hx).
    destruct (prologue_ran prep t store model body b i c _ lt c' ws Hprep Hf Hx) as (b1 & Ha & Hrest).
    unfold call_function, mbind at 1, cm_bind at 1. rewrite Ha. unfold pg_try. rewrite Hrest. apply Hcatch.
  - destruct en as [|err|]; [| |done].
    + destruct (call_function_ran b c' evs Hran) as (r & b' & -> & _ & req & resp & _ & ->). apply Hv.
    + destruct Hran as (i & c & c3 & lt & ws & evs' & Hf & _ & Hx & -> & _).
      destruct (prologue_ran prep t store model body b i c _ lt c' ws Hprep Hf Hx) as (b1 & Ha & Hrest).
      unfold call_function, mbind at 1, cm_bind at 1. rewrite Ha. unfold pg_try. rewrite Hrest. apply Hcatch.
Qed.
End Function.

Definition change_value (msg : string) (resp : FgaResponse) : outcome bool :=
  if decide (status resp = FGA_RESPONSE_OK) then Done true else Error (PgError "ERRCODE_INTERNAL_ERROR" msg).

Lemma tuple_change_function t body msg args : exists finish, finishes finish (change_value msg) /\
  tuple_change use_asserts config pid t body msg args =
    call_function (prepare_tuple use_asserts config t body args) finish.
Proof.
  eexists. split; [|reflexivity]. intros slot p b. unfold change_value. by case_decide.
Qed.

Definition refused (msg : string) : pg_error := PgError "ERRCODE_EXTERNAL_ROUTINE_EXCEPTION" msg.

Definition create_value (composite_result : bool) (resp : FgaResponse) : outcome (list ascii * list ascii) :=
  if decide (status resp <> FGA_RESPONSE_OK) then Error (refused "postfga: create store failed: %s")
  else if negb composite_result then
    Error (PgError "ERRCODE_FEATURE_NOT_SUPPORTED"
      "function returning record called in context that cannot accept type record")
  else created_store (resp_body resp).

Lemma create_store_function composite_result name : exists prep finish,
  prepares pid k prep FGA_REQUEST_CREATE_STORE (zeros OPENFGA_STORE_ID_LEN) (zeros OPENFGA_MODEL_ID_LEN)
    (ReqCreateStore (padded OPENFGA_STORE_NAME_LEN (c_str name))) /\
  finishes finish (create_value composite_result) /\
  fga_create_store use_asserts pid composite_result (Some name) = call_function prep finish.
Proof.
  eexists (prepare_store FGA_REQUEST_CREATE_STORE (fun r => set_body (ReqCreateStore
    (strlcpy (body_store_name (req_body r)) name OPENFGA_STORE_NAME_LEN)) r)), _.
  split; [|split; [|reflexivity]].
  - apply prepare_store_spec. intros id. by rewrite <- strlcpy_zeros by (unfold OPENFGA_STORE_NAME_LEN; lia).
  - intros slot p b. unfold create_value. case_decide; [done|]. destruct composite_result; cbn [negb]; [|done].
    by destruct (created_store _) as [v| |].
Qed.

Definition delete_value (resp : FgaResponse) : outcome unit :=
  if decide (status resp <> FGA_RESPONSE_OK) then Error (refused "postfga: delete store failed: %s") else Done tt.

Lemma delete_store_function sid : exists prep finish,
  prepares pid k prep FGA_REQUEST_DELETE_STORE (padded OPENFGA_STORE_ID_LEN (c_str sid))
    (zeros OPENFGA_MODEL_ID_LEN) ReqZero /\
  finishes finish delete_value /\
  fga_delete_store use_asserts pid (Some sid) = call_function prep finish.
Proof.
  eexists (prepare_store FGA_REQUEST_DELETE_STORE (fun r => MkRequest (request_id r) (req_type r)
    (strlcpy (req_store_id r) sid OPENFGA_STORE_ID_LEN) (req_model_id r) (req_body r))), _.
  split; [|split; [|reflexivity]].
  - apply prepare_store_spec. intros id. by rewrite <- strlcpy_zeros by (unfold OPENFGA_STORE_ID_LEN; lia).
  - intros slot p b. unfold delete_value. by case_decide.
Qed.
End Sql.
