(* ===== verification/Fairness.v ===== *)
(** * No request starves under a fair schedule

    The requests a worker turn takes from the queue are the oldest fifty
    ([MAX_BATCH] of [src/bgw/processor.cpp]), and every gRPC call has a deadline,
    so each comes to a reply.  From these two facts about the schedule alone,
    a waiting backend is answered after a number of rounds that its place in
    the queue bounds, whatever the other backends ask, cancel or leave behind
    in between.  Here the worker turns in every round; [Wakeup] says when the
    latch makes it do so. *)
From S2P Require Import Prelude Platform Types SlotQueue SlotPool Channel Config Client Processor.
From S2P Require Import Protocol Frames Service Ledger Calls.

(** ** The way of one slot through the pipeline *)
Section Way.
Context {L : Type} {HS : SList L} {HL : SListLaws L}.
Variable k : Z.
Variable config : Config.
Abbreviation proto_inv := (proto_inv k [] [] []) (only parsing).
Abbreviation sys_inv := (sys_inv (L := L) k) (only parsing).
Abbreviation chan_of σ := (we_channel (sys_worker σ)) (only parsing).

(** What a step of the others means for slot [i]: a turn of the worker takes
    fifty numbers from the front of the queue and hands back what is completed;
    any other step adds other numbers behind, or completes a call. *)
Inductive passes (i : nat) (l : list Z) (w : worker_env L) : bool -> list Z -> worker_env L -> Prop :=
  | PassTurn new l' w' : l' = drop 50 l -> completed_queue w' = [] -> we_calls w' = we_calls w ++ new ->
      (forall call j, call ∈ new -> j ∈ callback_slots (call_callback call) -> Z.of_nat j ∈ take 50 l) ->
      passes i l w true l' w'
  | PassQuiet tail l' w' : l' = l ++ tail -> Z.of_nat i ∉ tail -> we_calls w' = we_calls w ->
      completed_queue w' = completed_queue w -> passes i l w false l' w'
  | PassReply n call l' w' : l' = l -> we_calls w !! n = Some call -> we_calls w' = delete n (we_calls w) ->
      completed_queue w' = completed_queue w ++ callback_slots (call_callback call) ->
      passes i l w false l' w'.

Definition is_turn (lab : label) : bool := match lab with LWorker _ => true | _ => false end.

Lemma call_from_slots now slots (c : FgaChannel L) call j :
  call_from config now slots c call -> j ∈ callback_slots (call_callback call) -> j ∈ slots.
Proof.
  intros [i s call' Hi _ Hin|items call' Hb Hsub _] Hj.
  - unfold process in Hin. destruct (make_request_variant _); cbn in Hin;
      try (by apply elem_of_nil in Hin); apply list_elem_of_singleton in Hin as ->;
      by apply list_elem_of_singleton in Hj as ->.
  - destruct items as [|first items]; [done|]. injection Hb as <-. by eapply elem_of_sublist.
Qed.

Lemma acquire_same_queue pid : keeps same_queue (fga_channel_acquire_slot (L := L) pid).
Proof.
  unfold fga_channel_acquire_slot. apply keeps_bind; [apply _|apply lock_pool_same_queue|intros _].
  apply keeps_bind; [apply _|apply on_pool_same_queue|intros o].
  apply keeps_bind; [apply _|by intros c|intros _].
  destruct o as [i|]; [|apply keeps_ereport, _].
  apply keeps_bind; [apply _|apply on_pool_same_queue|intros _].
  apply keeps_bind; [apply _|apply on_pool_same_queue|intros _].
  apply keeps_bind; [apply _|by intros c|intros id].
  apply keeps_bind; [apply _|apply on_pool_same_queue|intros _]. apply keeps_ret, _.
Qed.

Lemma start_same_queue pid type store model body : keeps same_queue (start (L := L) pid type store model body).
Proof.
  unfold start. apply keeps_bind; [apply _|apply acquire_same_queue|intros i].
  apply keeps_bind; [apply _|apply on_pool_same_queue|intros _]. apply keeps_ret, _.
Qed.

Lemma run_channel_same {A} (m : CM (FgaChannel L) A) w r w' :
  keeps same_queue m -> run_channel m w = (r, w') ->
  ch_queue (we_channel w') = ch_queue (we_channel w) /\ we_calls w' = we_calls w /\
  completed_queue w' = completed_queue w.
Proof.
  intros Hm. unfold run_channel, on_shared. specialize (Hm (we_channel w)).
  destruct (m (we_channel w)) as [[] c]; intros [= _ <-]; by split_and!.
Qed.

Section Step.
Variable pid : Z.
Variable i : nat.
Variables σ σ' : system L.
Variable lab : label.
Variables (R R' : gmap nat role) (free free' : list nat) (l l' : list Z).
Hypothesis Hinv : proto_inv R free l (sys_backends σ) (sys_worker σ).
Hypothesis Hinv' : proto_inv R' free' l' (sys_backends σ') (sys_worker σ').
Hypothesis HB : sys_backends σ !! pid = Some (Waiting, i).

Lemma same_queue_contents : ch_queue (chan_of σ') = ch_queue (chan_of σ) -> l' = l.
Proof.
  intros Hq. pose proof (cr_queue _ _ _ _ (pi_chan _ _ _ _ _ _ _ _ _ Hinv')) as Hr.
  rewrite Hq in Hr. exact (queue_repr_fun k _ _ _ Hr (cr_queue _ _ _ _ (pi_chan _ _ _ _ _ _ _ _ _ Hinv))).
Qed.

Lemma quiet_passes : ch_queue (chan_of σ') = ch_queue (chan_of σ) ->
  we_calls (sys_worker σ') = we_calls (sys_worker σ) ->
  completed_queue (sys_worker σ') = completed_queue (sys_worker σ) ->
  passes i l (sys_worker σ) false l' (sys_worker σ').
Proof.
  intros Hq%same_queue_contents Hca Hco. apply (PassQuiet _ _ _ []); try done; [by rewrite app_nil_r|].
  apply not_elem_of_nil.
Qed.

(** A backend that takes its slot, polls, gives up or ends. *)
Lemma backend_passes {A} (m : CM (FgaChannel L) A) r w' B' :
  keeps same_queue m -> run_channel m (sys_worker σ) = (r, w') -> MkSystem w' B' = σ' ->
  passes i l (sys_worker σ) false l' (sys_worker σ').
Proof.
  intros Hm Hrun Heq. destruct (run_channel_same m _ r w' Hm Hrun) as (Hq & Hca & Hco).
  apply quiet_passes; by rewrite <- Heq.
Qed.

Lemma enqueue_passes p : sys_step config (LEnqueue p) σ = Done σ' ->
  passes i l (sys_worker σ) false l' (sys_worker σ').
Proof.
  cbn. destruct (sys_backends σ !! p) as [[[] j]|] eqn:HBp; try (intros [= Heq]; apply quiet_passes; by rewrite <- Heq).
  destruct (backend_role k _ _ _ _ _ _ _ _ _ _ _ Hinv HBp) as (r & Hr & Hph).
  destruct (backend_role k _ _ _ _ _ _ _ _ _ _ _ Hinv HB) as (ri & Hri & Hphi).
  destruct (inv_slot k _ _ _ _ _ _ _ _ j r Hinv Hr) as (s & Hs & _ & _ & Hlt).
  assert (Hji : j <> i) by (intros ->; congruence).
  assert (Hjf : j ∉ free) by (eapply (role_not_free k); [exact Hinv|exact Hr|by intros ->]).
  destruct (enqueue_slot_spec k _ free l j s (pi_chan _ _ _ _ _ _ _ _ _ Hinv) Hs Hlt Hjf)
    as (c & ok & He & Hc & _).
  unfold run_channel. rewrite (on_shared_eq _ _ _ _ He).
  assert (Hl : l' = (if ok then l ++ [Z.of_nat j] else l) -> we_calls (sys_worker σ') = we_calls (sys_worker σ) ->
    completed_queue (sys_worker σ') = completed_queue (sys_worker σ) ->
    passes i l (sys_worker σ) false l' (sys_worker σ')).
  { intros -> Hca Hco. apply (PassQuiet _ _ _ (if ok then [Z.of_nat j] else [])); try done.
    - destruct ok; [done|by rewrite app_nil_r].
    - destruct ok; [|apply not_elem_of_nil]. rewrite list_elem_of_singleton. lia. }
  destruct ok; intros [= Heq]; apply Hl; rewrite <- ?Heq; try done;
    pose proof (pi_chan _ _ _ _ _ _ _ _ _ Hinv') as Hc'; rewrite <- Heq in Hc';
    exact (chan_repr_fun k _ _ _ _ _ Hc' Hc).
Qed.

Lemma turn_passes now : sys_step config (LWorker now) σ = Done σ' ->
  passes i l (sys_worker σ) true l' (sys_worker σ').
Proof.
  destruct (sys_execute_spec k config now R free l _ _ Hinv) as (w' & R1 & free1 & He & Hinv1 & _).
  cbn. rewrite He. intros [= Heq]. pose proof (pi_chan _ _ _ _ _ _ _ _ _ Hinv') as Hc'.
  rewrite <- Heq in Hc'. rewrite <- Heq. cbn in *.
  destruct (chan_drain_spec k _ free l MAX_BATCH (pi_chan _ _ _ _ _ _ _ _ _ Hinv) ltac:(done)) as (c0 & Hdr & _).
  destruct (execute_frame config now _ _ _ _ Hdr He) as (_ & Hq & new & Hca & Hnew).
  apply (PassTurn _ _ _ new); try done.
  - exact (chan_repr_fun k _ _ _ _ _ Hc' (pi_chan _ _ _ _ _ _ _ _ _ Hinv1)).
  - intros call j Hcall Hj. pose proof (call_from_slots _ _ _ _ _ (Hnew call Hcall) Hj) as Hin.
    change (Z.to_nat MAX_BATCH) with 50%nat in Hin. apply list_elem_of_fmap in Hin as (x & -> & Hx).
    rewrite Z2Nat.id; [done|]. apply (pi_nonneg _ _ _ _ _ _ _ _ _ Hinv).
    rewrite <- (take_drop 50 l), elem_of_app. by left.
Qed.

Lemma reply_passes n st resp : sys_step config (LReply n st resp) σ = Done σ' ->
  passes i l (sys_worker σ) false l' (sys_worker σ').
Proof.
  cbn. destruct (we_calls (sys_worker σ) !! n) as [call|] eqn:Hn; [|intros [= Heq]; apply quiet_passes; by rewrite <- Heq].
  destruct (reply_matches _ _) eqn:Hm; [|intros [= Heq]; apply quiet_passes; by rewrite <- Heq].
  destruct (deliver_spec k n st resp R free l _ _ call Hinv Hn Hm) as (w' & R1 & Hd & Hinv1 & Hca & Hco & Hfr & _).
  rewrite Hd. intros [= Heq]. apply (PassReply _ _ _ n call); rewrite <- ?Heq; try done.
  apply same_queue_contents. rewrite <- Heq. exact (rf_queue _ _ Hfr).
Qed.

Lemma step_passes : label_pid lab <> Some pid -> sys_step config lab σ = Done σ' ->
  passes i l (sys_worker σ) (is_turn lab) l' (sys_worker σ').
Proof.
  intros Hp Hs. destruct lab; cbn [is_turn]; [|by eapply enqueue_passes|..|by eapply turn_passes|by eapply reply_passes];
    cbn in Hs; repeat case_match; try done; try (injection Hs as Hs; apply quiet_passes; by rewrite <- Hs);
    injection Hs as Hs; (eapply backend_passes; [|eassumption|exact Hs]);
    auto using start_same_queue, release_same_queue, wait_catch_same_queue.
Qed.
End Step.

(** Slot [i] needs at most [n] more rounds: fifty numbers leave the queue per
    round, a call takes [f] of the rounds, and a completed slot is handed back
    in the next one. *)
Record due (i f n : nat) (l : list Z) (w : worker_env L) : Prop := {
  due_queue p : l !! p = Some (Z.of_nat i) -> (p + 100 < 50 * n)%nat;
  due_flight : i ∈ inflight w -> (f <= n)%nat;
  due_completed : i ∈ completed_queue w -> (1 <= n)%nat;
}.

Lemma inflight_app (w w' : worker_env L) new : we_calls w' = we_calls w ++ new ->
  inflight w' = inflight w ++ concat (callback_slots ∘ call_callback <$> new).
Proof. unfold inflight. intros ->. by rewrite fmap_app, concat_app. Qed.

Lemma in_calls i (calls : list rpc_call) : i ∈ concat (callback_slots ∘ call_callback <$> calls) <->
  exists call, call ∈ calls /\ i ∈ callback_slots (call_callback call).
Proof.
  rewrite list_elem_of_In, in_concat. setoid_rewrite <- list_elem_of_In. split.
  - intros (slots & (call & -> & Hc)%list_elem_of_fmap & Hi). by exists call.
  - intros (call & Hc & Hi). eexists. split; [|exact Hi].
    exact (list_elem_of_fmap_2 (callback_slots ∘ call_callback) _ _ Hc).
Qed.

Lemma passes_in_flight i l w b l' w' : passes i l w b l' w' -> i ∈ inflight w' ->
  i ∈ inflight w \/ (b = true /\ Z.of_nat i ∈ take 50 l).
Proof.
  intros Hp Hi. unfold inflight in *. apply in_calls in Hi as (call & Hc & Hi). rewrite in_calls.
  destruct Hp as [new l' w' _ _ Hca Hnew|tail l' w' _ _ Hca _|n c l' w' _ Hn Hca _].
  - rewrite Hca in Hc. apply elem_of_app in Hc as [Hc|Hc]; [left; by exists call|right].
    split; [done|]. by eapply Hnew.
  - rewrite Hca in Hc. left. by exists call.
  - rewrite Hca in Hc. left. exists call. split; [|done]. by eapply elem_of_sublist, sublist_delete.
Qed.

Lemma passes_completed i l w b l' w' : passes i l w b l' w' -> i ∈ completed_queue w' ->
  b = false /\ (i ∈ completed_queue w \/ i ∈ inflight w).
Proof.
  intros Hp Hi. destruct Hp as [new l' w' _ Hco|tail l' w' _ _ _ Hco|n c l' w' _ Hn _ Hco]; rewrite Hco in Hi.
  - by apply elem_of_nil in Hi.
  - split; [done|by left].
  - split; [done|]. apply elem_of_app in Hi as [Hi|Hi]; [by left|right].
    unfold inflight. apply in_calls. exists c. split; [by eapply list_elem_of_lookup_2|done].
Qed.

Lemma passes_queue i l w b l' w' p : passes i l w b l' w' -> l' !! p = Some (Z.of_nat i) ->
  l !! (if b then 50 + p else p)%nat = Some (Z.of_nat i).
Proof.
  intros Hp Hi. destruct Hp as [new l' w' ->|tail l' w' -> Ht|n c l' w' ->]; [by rewrite lookup_drop in Hi| |done].
  apply lookup_app_Some in Hi as [Hi|[_ Hi]]; [done|]. destruct Ht. by eapply list_elem_of_lookup_2.
Qed.

Lemma passes_take_queued i l : Z.of_nat i ∈ take 50 l ->
  exists p, (p < 50)%nat /\ l !! p = Some (Z.of_nat i).
Proof.
  intros (p & Hp)%list_elem_of_lookup. exists p. apply lookup_take_Some in Hp as [Hp Hlt]. by split.
Qed.

(** No step of the others brings the slot back. *)
Lemma due_keeps i f n l w b l' w' :
  (1 <= f <= 2)%nat -> passes i l w b l' w' -> due i f n l w -> due i f n l' w'.
Proof.
  intros Hf Hp [Hq Hfl Hc]. split.
  - intros p Hi. apply (passes_queue _ _ _ _ _ _ _ Hp) in Hi. apply Hq in Hi. destruct b; lia.
  - intros Hi. destruct (passes_in_flight _ _ _ _ _ _ Hp Hi) as [Hi'|[_ Ht]]; [by apply Hfl|].
    apply passes_take_queued in Ht as (p & Hlt & Hi'). apply Hq in Hi'. lia.
  - intros Hi. destruct (passes_completed _ _ _ _ _ _ Hp Hi) as [_ [Hi'|Hi']]; [by apply Hc|].
    apply Hfl in Hi'. lia.
Qed.

(** A turn of the worker brings it a round forward, calls apart. *)
Lemma due_turn i n l w l' w' : passes i l w true l' w' -> due i 2 (S n) l w -> due i 1 n l' w'.
Proof.
  intros Hp [Hq Hfl Hc]. split.
  - intros p Hi. apply (passes_queue _ _ _ _ _ _ _ Hp) in Hi. apply Hq in Hi. lia.
  - intros Hi. destruct (passes_in_flight _ _ _ _ _ _ Hp Hi) as [Hi'|[_ Ht]]; [apply Hfl in Hi'; lia|].
    apply passes_take_queued in Ht as (p & Hlt & Hi'). apply Hq in Hi'. lia.
  - intros Hi. by destruct (passes_completed _ _ _ _ _ _ Hp Hi).
Qed.

(** ** Rounds *)
Variable pid : Z.
Variable i : nat.

(** What the rest of the system does while [pid] waits: in any order, with at
    least one turn of the worker, and so long that the calls that were in
    flight at the beginning have come to their replies. *)
Definition fair_round (labs : list label) (σ : system L) : Prop :=
  by_others pid labs /\ (exists now, LWorker now ∈ labs) /\
  forall σ', sys_run config labs σ = Done σ' ->
    forall call, call ∈ we_calls (sys_worker σ) -> call ∉ we_calls (sys_worker σ').

Fixpoint fair_rounds (rounds : list (list label)) (σ : system L) : Prop :=
  match rounds with
  | [] => True
  | labs :: rounds' => fair_round labs σ /\
      forall σ', sys_run config labs σ = Done σ' -> fair_rounds rounds' σ'
  end.

Definition waits (σ : system L) : Prop := sys_backends σ !! pid = Some (Waiting, i).
Definition slot_due (f n : nat) (σ : system L) : Prop := waits σ /\
  exists R free l, proto_inv R free l (sys_backends σ) (sys_worker σ) /\ due i f n l (sys_worker σ).

Lemma slot_due_step f n lab σ : (1 <= f <= 2)%nat -> slot_due f n σ -> label_pid lab <> Some pid ->
  exists σ', sys_step config lab σ = Done σ' /\ slot_due f n σ' /\
    (is_turn lab = true -> f = 2%nat -> (0 < n)%nat -> slot_due 1 (pred n) σ') /\
    (n = 2%nat -> forall call, call ∈ we_calls (sys_worker σ') -> i ∈ callback_slots (call_callback call) ->
       call ∈ we_calls (sys_worker σ)).
Proof.
  intros Hf (HB & R & free & l & Hinv & Hdue) Hp.
  destruct (sys_step_inv k config lab σ) as (σ' & Hs & R' & free' & l' & Hinv'); [by exists R, free, l|].
  pose proof (step_passes pid i σ σ' lab R R' free free' l l' Hinv Hinv' HB Hp Hs) as Hpass.
  assert (HB' : waits σ') by (unfold waits; by rewrite (sys_step_others config pid lab σ σ' Hp Hs)).
  exists σ'. split; [done|]. split; [|split].
  - split; [done|]. exists R', free', l'. split; [done|]. by eapply due_keeps.
  - intros Hturn -> Hn. rewrite Hturn in Hpass. split; [done|]. exists R', free', l'. split; [done|].
    destruct n as [|n]; [lia|]. by eapply due_turn.
  - intros -> call Hc Hi. destruct Hpass as [new l' w' _ _ Hca Hnew|tail l' w' _ _ Hca _|m c l' w' _ _ Hca _];
      rewrite Hca in Hc.
    + apply elem_of_app in Hc as [Hc|Hc]; [done|].
      destruct (passes_take_queued i l (Hnew call i Hc Hi)) as (p & _ & Hlk). apply (due_queue _ _ _ _ _ Hdue) in Hlk. lia.
    + done.
    + by eapply elem_of_sublist, sublist_delete.
Qed.

Lemma slot_due_run f n labs σ : (1 <= f <= 2)%nat -> slot_due f n σ -> by_others pid labs ->
  exists σ', sys_run config labs σ = Done σ' /\ slot_due f n σ' /\
    (n = 2%nat -> forall call, call ∈ we_calls (sys_worker σ') -> i ∈ callback_slots (call_callback call) ->
       call ∈ we_calls (sys_worker σ)).
Proof.
  intros Hf Hdue Hl. revert σ Hdue. induction Hl as [|lab labs Hp _ IH]; intros σ Hdue; [by exists σ|].
  destruct (slot_due_step f n lab σ Hf Hdue Hp) as (σ1 & Hs & Hdue1 & _ & Hk1).
  destruct (IH σ1 Hdue1) as (σ' & Hr & Hdue' & Hk). exists σ'. cbn [sys_run]. rewrite Hs. split; [exact Hr|].
  split; [done|]. intros Hn call Hc Hi. apply Hk1; [done| |done]. by apply Hk.
Qed.

(** A fair round brings the slot a round forward. *)
Lemma fair_round_due n labs σ : slot_due 2 (S n) σ -> fair_round labs σ ->
  exists σ', sys_run config labs σ = Done σ' /\ slot_due 2 n σ'.
Proof.
  intros Hdue (Hl & [now Hin] & Hcalls).
  destruct (slot_due_run 2 (S n) labs σ ltac:(lia) Hdue Hl) as (σ' & Hr & Hdue' & Hk).
  exists σ'. split; [done|]. specialize (Hcalls σ' Hr).
  apply list_elem_of_split in Hin as (l1 & l2 & ->). unfold by_others in Hl.
  rewrite Forall_app, Forall_cons in Hl. destruct Hl as (Hl1 & Hlw & Hl2).
  destruct (slot_due_run 2 (S n) l1 σ ltac:(lia) Hdue Hl1) as (σ1 & Hr1 & Hdue1 & _).
  destruct (slot_due_step 2 (S n) (LWorker now) σ1 ltac:(lia) Hdue1 Hlw) as (σ2 & Hs & _ & Hturn & _).
  specialize (Hturn eq_refl eq_refl ltac:(lia)). cbn [pred] in Hturn.
  destruct (slot_due_run 1 n l2 σ2 ltac:(lia) Hturn Hl2) as (σ3 & Hr3 & (HB & R & free & l & Hinv & [Hq Hfl Hc]) & _).
  rewrite sys_run_app, Hr1 in Hr. cbn [mbind outcome_bind sys_run] in Hr. rewrite Hs in Hr. cbn [mbind outcome_bind] in Hr. rewrite Hr3 in Hr. injection Hr as ->.
  split; [done|]. exists R, free, l. split; [done|]. split; [done| |done]. intros Hi. specialize (Hfl Hi).
  destruct (decide (n = 1%nat)) as [->|]; [|lia]. unfold inflight in Hi. apply in_calls in Hi as (call & Hcall & Hi).
  by destruct (Hcalls call (Hk eq_refl call Hcall Hi)).
Qed.

Lemma fair_rounds_due n rounds σ : slot_due 2 n σ -> fair_rounds rounds σ ->
  exists σ', sys_run config (concat rounds) σ = Done σ' /\ slot_due 2 (n - length rounds) σ'.
Proof.
  revert n σ. induction rounds as [|labs rounds IH]; intros n σ Hdue Hfair.
  { exists σ. split; [done|]. by rewrite Nat.sub_0_r. }
  destruct Hfair as [Hf Hrest].
  assert (Hone : exists σ1, sys_run config labs σ = Done σ1 /\ slot_due 2 (pred n) σ1).
  { destruct n as [|n]; [|by apply fair_round_due]. destruct Hf as [Hl _].
    destruct (slot_due_run 2 0 labs σ ltac:(lia) Hdue Hl) as (σ1 & Hr & Hdue1 & _). by exists σ1. }
  destruct Hone as (σ1 & Hr1 & Hdue1). destruct (IH (pred n) σ1 Hdue1 (Hrest σ1 Hr1)) as (σ' & Hr & Hdue').
  exists σ'. cbn [concat]. rewrite sys_run_app, Hr1. split; [exact Hr|].
  cbn [length]. by replace (n - S (length rounds))%nat with (pred n - length rounds)%nat by lia.
Qed.

(** What is due after no more rounds is done. *)
Lemma slot_due_done f σ : (1 <= f)%nat -> slot_due f 0 σ -> slot_done_at i σ = true.
Proof.
  intros Hf (HB & R & free & l & Hinv & [Hq Hfl Hc]).
  destruct (backend_role k _ _ _ _ _ _ _ _ _ _ _ Hinv HB) as (r & Hr & Hph).
  destruct (inv_slot k _ _ _ _ _ _ _ _ i r Hinv Hr) as (s & Hs & Hok & _).
  unfold slot_done_at. rewrite Hs. apply bool_decide_eq_true_2. cbn.
  destruct r as [|?|p st|p|?|?|?]; try done; cbn in Hok; destruct Hok as [Hst _]; [|by rewrite Hst].
  exfalso. assert (Hp : i ∈ pipeline l (sys_worker σ)).
  { rewrite (inv_pipeline k R free l _ _ i Hinv). eexists _, _. by split. }
  unfold pipeline in Hp. rewrite !elem_of_app in Hp. destruct Hp as [Hp|[Hp|Hp]].
  - apply list_elem_of_fmap in Hp as (x & Hx & Hin). pose proof (pi_nonneg _ _ _ _ _ _ _ _ _ Hinv x Hin).
    apply list_elem_of_lookup in Hin as [p' Hin]. replace x with (Z.of_nat i) in Hin by lia.
    apply Hq in Hin. lia.
  - apply Hfl in Hp. lia.
  - apply Hc in Hp. lia.
Qed.

(** A request that waits is at most as many rounds away as its place says. *)
Lemma waiting_due σ : sys_inv σ -> waits σ ->
  slot_due 2 (Z.to_nat (queue_size (ch_queue (chan_of σ)) / 50) + 3) σ.
Proof.
  intros (R & free & l & Hinv) HB. split; [done|]. exists R, free, l. split; [done|].
  rewrite (repr_queue_size (cr_queue _ _ _ _ (pi_chan _ _ _ _ _ _ _ _ _ Hinv))).
  assert (Hd : (Z.to_nat (Z.of_nat (length l) / 50) = length l / 50)%nat).
  { change 50 with (Z.of_nat 50). by rewrite <- Nat2Z.inj_div, Nat2Z.id. }
  rewrite Hd. split; [|lia..]. intros p Hp%lookup_lt_Some.
  pose proof (Nat.div_mod_eq (length l) 50). pose proof (Nat.mod_upper_bound (length l) 50 ltac:(lia)). lia.
Qed.

Lemma queue_rounds_nonneg σ : sys_inv σ -> 0 <= queue_size (ch_queue (chan_of σ)) / 50.
Proof.
  intros (R & free & l & Hinv).
  rewrite (repr_queue_size (cr_queue _ _ _ _ (pi_chan _ _ _ _ _ _ _ _ _ Hinv))). apply Z.div_pos; lia.
Qed.

Lemma fair_rounds_done rounds σ : sys_inv σ -> waits σ -> fair_rounds rounds σ ->
  queue_size (ch_queue (chan_of σ)) / 50 + 3 <= Z.of_nat (length rounds) ->
  exists σ', sys_run config (concat rounds) σ = Done σ' /\ sys_inv σ' /\ waits σ' /\ slot_done_at i σ' = true.
Proof.
  intros Hi HB Hfair Hn. pose proof (waiting_due σ Hi HB) as Hdue.
  destruct (fair_rounds_due _ rounds σ Hdue Hfair) as (σ' & Hr & Hdue'). exists σ'. split; [done|].
  pose proof (queue_rounds_nonneg σ Hi).
  replace (_ - length rounds)%nat with 0%nat in Hdue' by lia.
  split; [|split; [apply Hdue'|by eapply slot_due_done; [|exact Hdue']; lia]].
  destruct Hdue' as (_ & R & free & l & Hinv & _). by exists R, free, l.
Qed.

(** ** The wait of a call *)

(** With as many fair turns as it is rounds away, a wait ends with the answer,
    or with an interrupt that one of the turns raises. *)
Lemma fair_wait_ends n turns σ :
  slot_due 2 n σ -> fair_rounds (turn_labels <$> turns) σ -> (n <= length turns)%nat ->
  match (wait_walk config i turns σ).2 with
  | WaitAnswered => True
  | WaitInterrupted err => exists tn, tn ∈ turns /\ turn_interrupt tn = Some err
  | WaitBlocked => False
  end.
Proof.
  revert n σ. induction turns as [|tn turns IH]; intros n σ Hdue Hfair Hn; cbn [wait_walk].
  - cbn in Hn. replace n with 0%nat in Hdue by lia. by rewrite (slot_due_done 2 σ ltac:(lia) Hdue).
  - destruct (slot_done_at i σ) eqn:Hd; [done|]. destruct Hfair as [Hf Hrest].
    destruct n as [|n]; [by rewrite (slot_due_done 2 σ ltac:(lia) Hdue) in Hd|].
    destruct (fair_round_due n (turn_labels tn) σ Hdue Hf) as (σ1 & Hr & Hdue1).
    destruct (turn_interrupt tn) as [err|] eqn:Hint; cbn; [exists tn; split; [by left|done]|].
    rewrite Hr. specialize (IH n σ1 Hdue1 (Hrest σ1 Hr) ltac:(cbn in Hn; lia)).
    destruct (wait_walk config i turns σ1) as [labs en]. cbn in *. destruct en as [|err|]; [done| |done].
    destruct IH as (tn' & Hin & Hi). exists tn'. split; [by right|done].
Qed.

(** The rounds that are enough for the request of [pid] in [σ]. *)
Definition enough_rounds (σ : system L) (n : nat) : Prop :=
  queue_size (ch_queue (chan_of σ)) / 50 + 3 <= Z.of_nat n.

Lemma waiting_due_within σ n : sys_inv σ -> waits σ -> enough_rounds σ n ->
  exists m, slot_due 2 m σ /\ (m <= n)%nat.
Proof.
  intros Hi HB Hn. pose proof (queue_rounds_nonneg σ Hi). unfold enough_rounds in Hn.
  eexists. split; [by apply waiting_due|]. lia.
Qed.

(** No request starves under a fair schedule.  From any state the processes
    reach, take rounds in which, in any order, the worker has at least one turn
    and the calls that were in flight when the round began come to their
    replies, while the other backends ask, are interrupted or die as they like.
    A waiting request is answered after one round per fifty queued requests and
    three more: the bound depends on the queue as it is now, not on what others
    add to it. *)
Theorem no_request_starves before rounds (σ0 σ : system L) :
  initial_system k σ0 -> sys_run config before σ0 = Done σ -> waits σ ->
  fair_rounds rounds σ -> enough_rounds σ (length rounds) ->
  exists σ', sys_run config (concat rounds) σ = Done σ' /\ waits σ' /\ slot_done_at i σ' = true.
Proof.
  intros H0 Hrun HB Hfair Hn. destruct (sys_run_inv k config before σ0 (initial_inv k σ0 H0)) as (σ1 & Hr1 & Hi).
  rewrite Hrun in Hr1. injection Hr1 as <-.
  destruct (fair_rounds_done rounds σ Hi HB Hfair Hn) as (σ' & Hr & _ & HB' & Hd). by exists σ'.
Qed.
End Way.

(** ** Two backends, one of which comes and goes *)
Definition busy_rounds : list (list label) :=
  [[check_label 12; LEnqueue 12; LWorker 0];
   [LReply 0 (MkStatus true []) (BatchCheckResponse ∅); LWorker 1; LInterrupt 12];
   [LExit 12; LWorker 2]].

(** One concrete round, and the state it leaves. *)
Ltac fair_now :=
  split;
    [split; [repeat constructor; vm_compute; discriminate|];
     split; [eexists; repeat first [left; reflexivity | right]|];
     let σ := fresh in let Hr := fresh in
     intros σ Hr; vm_compute in Hr; injection Hr as <-; intros call Hin
    |let σ := fresh in let Hr := fresh in intros σ Hr; vm_compute in Hr; injection Hr as <-].

Lemma busy_rounds_fair σ : sys_run client_config_sample [check_label 11; LEnqueue 11] sample_system = Done σ ->
  fair_rounds client_config_sample 11 busy_rounds σ.
Proof.
  intros Hr. vm_compute in Hr. injection Hr as <-. unfold busy_rounds. cbn [fair_rounds].
  fair_now; [by apply elem_of_nil in Hin|]. fair_now; [apply not_elem_of_nil|].
  fair_now; [by apply elem_of_nil in Hin|]. exact I.
Qed.

Lemma no_request_starves_witness :
  exists σ σ', sys_run client_config_sample [check_label 11; LEnqueue 11] sample_system = Done σ /\
    sys_run client_config_sample (concat busy_rounds) σ = Done σ' /\ slot_done_at 0 σ' = true.
Proof.
  destruct (sys_run_inv 2 client_config_sample [check_label 11; LEnqueue 11] sample_system
    (initial_inv 2 sample_system sample_initial)) as (σ & Hrun & _).
  destruct (no_request_starves 2 client_config_sample 11 0 [check_label 11; LEnqueue 11] busy_rounds
    sample_system σ sample_initial Hrun) as (σ' & Hr & _ & Hd).
  - vm_compute in Hrun. injection Hrun as <-. reflexivity.
  - exact (busy_rounds_fair σ Hrun).
  - vm_compute in Hrun. injection Hrun as <-. vm_compute. discriminate.
  - exists σ, σ'. split; [exact Hrun|]. split; [exact Hr|exact Hd].
Defined.
