(* ===== verification/Capacity.v ===== *)
(** * Room in the request queue

    The queue of an initialised channel ([src/channel_shmem.c]) has the least
    power of two that is not smaller than the number of slots as its capacity,
    and holds one number less than that ([src/channel_slot_queue.c]).  The
    invariant of [Protocol] says that a queued number is a slot of its own, so
    the number of slots alone decides whether a backend that owns a slot can
    ever find the queue full. *)
From S2P Require Import Prelude Platform Types SlotQueue SlotPool Channel ChannelShmem Config Client Processor.
From S2P Require Import Protocol Frames Service Ledger Calls.

Section Capacity.
Context {L : Type} {HS : SList L} {HL : SListLaws L}.
Variable k : Z.
Variable config : Config.
Abbreviation proto_inv := (proto_inv k [] [] []) (only parsing).
Abbreviation sys_inv := (sys_inv (L := L) k) (only parsing).
Abbreviation chan_of σ := (we_channel (sys_worker σ)) (only parsing).

Definition slot_count (c : FgaChannel L) : nat := length (pool_slots (ch_pool c)).

(** ** No step adds or removes a slot *)
Definition same_slots (c c' : FgaChannel L) : Prop := slot_count c' = slot_count c.

#[local] Instance same_slots_preorder : PreOrder same_slots.
Proof. split; [by intros c|intros a b c H1 H2; unfold same_slots in *; congruence]. Qed.

Lemma same_domain {A} (l l' : list A) : (forall i, is_Some (l' !! i) <-> is_Some (l !! i)) -> length l' = length l.
Proof.
  intros Hi. apply Nat.le_antisymm; apply Nat.nlt_ge; intros Hlt;
    apply lookup_lt_is_Some_2, Hi, lookup_lt_is_Some_1 in Hlt; lia.
Qed.

Lemma calm_same_slots D c c' : calm D c c' -> same_slots c c'.
Proof.
  intros [Hp _ _]. apply same_domain. intros i. specialize (Hp i). unfold chan_slot in Hp.
  by destruct (_ !! i), (_ !! i).
Qed.

Lemma calm_keeps_slots {A} (m : CM (FgaChannel L) A) : keeps (calm (fun _ => False)) m -> keeps same_slots m.
Proof. intros Hm c. eapply calm_same_slots, Hm. Qed.

Lemma update_same_slots i f : keeps same_slots (on_pool (L := L) (update_slot i f)).
Proof.
  intros c. unfold on_pool, update_slot. destruct (_ !! i); [|by destruct c].
  unfold same_slots, slot_count. cbn. by rewrite length_insert.
Qed.

Lemma pop_same_slots : keeps same_slots (on_pool (L := L) acquire_slot).
Proof.
  intros c. unfold on_pool, acquire_slot. destruct (slist_is_empty _); [by destruct c|].
  destruct (slist_pop_head_node _) as [[i l]|]; [|by destruct c].
  unfold cm_bind, update_slot. cbn. destruct (_ !! i); [|by destruct c].
  unfold same_slots, slot_count. cbn. by rewrite length_insert.
Qed.

Lemma acquire_same_slots pid : keeps same_slots (fga_channel_acquire_slot (L := L) pid).
Proof.
  unfold fga_channel_acquire_slot.
  apply keeps_bind; [apply _|intros c; unfold lock_pool; by destruct (pool_lock c)|intros _].
  apply keeps_bind; [apply _|apply pop_same_slots|intros o].
  apply keeps_bind; [apply _|by intros c|intros _].
  destruct o as [i|]; [|apply keeps_ereport, _].
  do 2 (apply keeps_bind; [apply _|apply update_same_slots|intros _]).
  apply keeps_bind; [apply _|by intros c|intros id].
  apply keeps_bind; [apply _|apply update_same_slots|intros _]. apply keeps_ret, _.
Qed.

Lemma start_same_slots pid type store model body : keeps same_slots (start (L := L) pid type store model body).
Proof.
  unfold start. apply keeps_bind; [apply _|apply acquire_same_slots|intros i].
  apply keeps_bind; [apply _|apply update_same_slots|intros _]. apply keeps_ret, _.
Qed.

Lemma run_same_slots {A} (m : CM (FgaChannel L) A) w r w' :
  keeps same_slots m -> run_channel m w = (r, w') -> same_slots (we_channel w) (we_channel w').
Proof.
  intros Hm. unfold run_channel, on_shared. specialize (Hm (we_channel w)).
  by destruct (m (we_channel w)) as [[] c]; intros [= _ <-].
Qed.

Lemma worker_same_slots now σ σ' : sys_inv σ -> sys_step config (LWorker now) σ = Done σ' ->
  same_slots (chan_of σ) (chan_of σ').
Proof.
  intros (R & free & l & Hinv).
  destruct (sys_execute_spec k config now R free l _ _ Hinv) as (w' & R1 & free1 & He & _).
  destruct (chan_drain_spec k _ free l MAX_BATCH (pi_chan _ _ _ _ _ _ _ _ _ Hinv) ltac:(done)) as (c0 & Hdr & _).
  cbn. rewrite He. intros [= <-].
  destruct (execute_frame config now _ _ _ _ Hdr He) as [Hc _]. by eapply calm_same_slots.
Qed.

Lemma reply_same_slots n st resp σ σ' : sys_inv σ -> sys_step config (LReply n st resp) σ = Done σ' ->
  same_slots (chan_of σ) (chan_of σ').
Proof.
  intros (R & free & l & Hinv). cbn. destruct (_ !! n) as [call|] eqn:Hn; [|by intros [= <-]].
  destruct (reply_matches _ _) eqn:Hm; [|by intros [= <-]].
  destruct (deliver_spec k n st resp R free l _ _ call Hinv Hn Hm) as (w' & R1 & Hd & _ & _ & _ & Hfr & _).
  rewrite Hd. intros [= <-]. apply same_domain. intros i. pose proof (rf_slots _ _ Hfr i) as Hsl.
  unfold chan_slot in Hsl. cbn. by destruct (_ !! i), (_ !! i).
Qed.

Lemma step_same_slots lab σ σ' : sys_inv σ -> sys_step config lab σ = Done σ' ->
  same_slots (chan_of σ) (chan_of σ').
Proof.
  intros Hi Hs. destruct lab; [..|by eapply worker_same_slots|by eapply reply_same_slots];
    cbn in Hs; repeat case_match; try done; injection Hs as <-; try done; cbn;
    (eapply run_same_slots; [|eassumption]);
    auto using start_same_slots, calm_keeps_slots, enqueue_slot_calm, fga_release_calm, wait_catch_calm.
Qed.

Lemma run_keeps_slots labs σ σ' : sys_inv σ -> sys_run config labs σ = Done σ' ->
  sys_inv σ' /\ same_slots (chan_of σ) (chan_of σ').
Proof.
  revert σ. induction labs as [|lab labs IH]; intros σ Hi; cbn [sys_run]; [by intros [= <-]|].
  destruct (sys_step_inv k config lab σ Hi) as (σ1 & Hs & Hi1). rewrite Hs.
  intros Hr. destruct (IH σ1 Hi1 Hr) as [Hi' Hsame]. split; [done|].
  etransitivity; [by eapply step_same_slots|exact Hsame].
Qed.

(** ** An owned slot is not queued *)
Lemma owned_leaves_room R free l σ pid i :
  proto_inv R free l (sys_backends σ) (sys_worker σ) -> sys_backends σ !! pid = Some (Owning, i) ->
  (length l < slot_count (chan_of σ))%nat.
Proof.
  intros Hinv HB. destruct (backend_role k _ _ _ _ _ _ _ _ _ _ _ Hinv HB) as (r & Hr & Hph).
  assert (Hn : NoDup (i :: (Z.to_nat <$> l))).
  { apply NoDup_cons. split; [|apply Hinv]. intros Hin.
    apply (pi_queued _ _ _ _ _ _ _ _ _ Hinv) in Hin as (r' & Hr' & Hst). rewrite Hr in Hr'.
    injection Hr' as <-. by destruct r. }
  assert (Hsub : i :: (Z.to_nat <$> l) ⊆ seq 0 (slot_count (chan_of σ))).
  { intros j Hj. apply elem_of_seq. split; [lia|]. apply (pi_dom _ _ _ _ _ _ _ _ _ Hinv).
    apply elem_of_cons in Hj as [->|Hj]; [by eexists|].
    apply (pi_queued _ _ _ _ _ _ _ _ _ Hinv) in Hj as (r' & Hr' & _). by eexists. }
  pose proof (submseteq_length _ _ (NoDup_submseteq _ _ Hn Hsub)) as Hlen.
  rewrite length_seq in Hlen. cbn in Hlen. rewrite length_fmap in Hlen. lia.
Qed.

(** Whether a slot goes into the queue depends on its contents alone. *)
Lemma owned_slot_enqueued R free l σ pid i :
  proto_inv R free l (sys_backends σ) (sys_worker σ) -> sys_backends σ !! pid = Some (Owning, i) ->
  exists σ', sys_step config (LEnqueue pid) σ = Done σ' /\ we_procs (sys_worker σ') = we_procs (sys_worker σ) /\
    if (Z.of_nat (length l) <? 2 ^ k - 1)
    then sys_backends σ' = <[pid := (Waiting, i)]> (sys_backends σ) /\
         chan_repr k (chan_of σ') free (l ++ [Z.of_nat i]) /\ we_latch (sys_worker σ') = true
    else sys_backends σ' = delete pid (sys_backends σ) /\ chan_repr k (chan_of σ') (i :: free) l.
Proof.
  intros Hinv HB. destruct (backend_role k _ _ _ _ _ _ _ _ _ _ _ Hinv HB) as (r & Hr & Hph).
  destruct (inv_slot k _ _ _ _ _ _ _ _ i r Hinv Hr) as (s & Hs & _ & _ & Hlt).
  assert (Hif : i ∉ free) by (eapply (role_not_free k); [exact Hinv|exact Hr|by intros ->]).
  pose proof (pi_chan _ _ _ _ _ _ _ _ _ Hinv) as Hc.
  destruct (enqueue_slot_spec k _ free l i s Hc Hs Hlt Hif) as (c & ok & He & Hc' & _).
  assert (ok = (Z.of_nat (length l) <? 2 ^ k - 1)) as <-.
  { destruct (chan_enqueue_spec k _ free l i Hc Hlt) as (c1 & ok' & He1 & _ & _ & _ & <-).
    unfold enqueue_slot, mbind, cm_bind, lock_queue in He. rewrite (cr_queue_lock _ _ _ _ Hc), He1 in He.
    destruct ok'; cbn [negb] in He; unfold unlock_queue in He; [by injection He as <- _|].
    destruct (fga_channel_release_slot i _) as [[]]; try done. by injection He as <- _. }
  cbn. rewrite HB. unfold run_channel. rewrite (on_shared_eq _ _ _ _ He).
  destruct ok; eexists; (split; [reflexivity|]); by split.
Qed.

(** With fewer slots than the queue has places, no request is turned away. *)
Lemma owned_is_queued σ pid i :
  sys_inv σ -> Z.of_nat (slot_count (chan_of σ)) < 2 ^ k -> sys_backends σ !! pid = Some (Owning, i) ->
  exists σ', sys_step config (LEnqueue pid) σ = Done σ' /\ sys_backends σ' !! pid = Some (Waiting, i).
Proof.
  intros (R & free & l & Hinv) Hn HB. pose proof (owned_leaves_room R free l σ pid i Hinv HB) as Hroom.
  destruct (owned_slot_enqueued R free l σ pid i Hinv HB) as (σ' & Hs & _ & Hq).
  rewrite (proj2 (Z.ltb_lt _ _)) in Hq by lia. destruct Hq as [HB' _].
  exists σ'. split; [done|]. by rewrite HB', lookup_insert_eq.
Qed.

(** ** Filling the queue *)

(** A backend asks a check and goes to wait. *)
Definition ask (pid : Z) : list label :=
  [LAcquire pid (request_type_code FGA_REQUEST_CHECK) [] [] (ReqCheckTuple zero_tuple); LEnqueue pid].

Lemma free_slot_acquired R i free l σ pid type store model body :
  proto_inv R (i :: free) l (sys_backends σ) (sys_worker σ) ->
  is_Some (we_procs (sys_worker σ) !! pid) -> sys_backends σ !! pid = None -> served_type type = true ->
  exists σ', sys_step config (LAcquire pid type store model body) σ = Done σ' /\
    we_procs (sys_worker σ') = we_procs (sys_worker σ) /\
    sys_backends σ' = <[pid := (Owning, i)]> (sys_backends σ) /\ chan_repr k (chan_of σ') free l.
Proof.
  intros Hinv Hp HB Ht.
  destruct (start_spec k (chan_of σ) free l i pid type store model body (pi_chan _ _ _ _ _ _ _ _ _ Hinv))
    as (c & s & Hst & Hc & _).
  cbn. rewrite decide_True by done. unfold run_channel. rewrite (on_shared_eq _ _ _ _ Hst).
  eexists. split; [reflexivity|]. by split_and!.
Qed.

(** A state in which some backends have yet to ask. *)
Record to_ask (pids : list Z) (σ : system L) (free l : nat) : Prop := {
  ta_inv : exists R fs qs, proto_inv R fs qs (sys_backends σ) (sys_worker σ) /\
    length fs = free /\ length qs = l;
  ta_alive pid : pid ∈ pids -> is_Some (we_procs (sys_worker σ) !! pid);
  ta_idle pid : pid ∈ pids -> sys_backends σ !! pid = None;
  ta_nodup : NoDup pids;
}.

(** The invariant with the representation a step is known to leave. *)
Lemma inv_at σ free l : sys_inv σ -> chan_repr k (chan_of σ) free l ->
  exists R, proto_inv R free l (sys_backends σ) (sys_worker σ).
Proof.
  intros (R & free' & l' & Hinv) Hc. exists R. pose proof (pi_chan _ _ _ _ _ _ _ _ _ Hinv) as Hc'.
  by rewrite <- (chan_repr_fun k _ _ _ _ _ Hc' Hc), <- (pool_repr_fun _ _ _ (cr_pool _ _ _ _ Hc') (cr_pool _ _ _ _ Hc)).
Qed.

Lemma inv_step R free l lab σ σ' : proto_inv R free l (sys_backends σ) (sys_worker σ) ->
  sys_step config lab σ = Done σ' -> sys_inv σ'.
Proof.
  intros Hinv Hs. destruct (sys_step_inv k config lab σ) as (σ1 & Hs1 & Hi1); [by exists R, free, l|].
  rewrite Hs in Hs1. by injection Hs1 as <-.
Qed.

Lemma ask_acquires pid pids σ free l : to_ask (pid :: pids) σ (S free) l ->
  exists σ1 i, sys_step config (LAcquire pid (request_type_code FGA_REQUEST_CHECK) [] [] (ReqCheckTuple zero_tuple)) σ
      = Done σ1 /\ sys_backends σ1 !! pid = Some (Owning, i) /\ we_procs (sys_worker σ1) = we_procs (sys_worker σ) /\
    sys_backends σ1 = <[pid := (Owning, i)]> (sys_backends σ) /\
    exists R fs qs, proto_inv R fs qs (sys_backends σ1) (sys_worker σ1) /\ length fs = free /\ length qs = l.
Proof.
  intros [(R & [|i fs] & qs & Hinv & Hf & <-) Ha Hidle _]; [done|]. injection Hf as <-.
  destruct (free_slot_acquired R i fs qs σ pid (request_type_code FGA_REQUEST_CHECK) [] [] (ReqCheckTuple zero_tuple)
    Hinv (Ha pid ltac:(by left)) (Hidle pid ltac:(by left)) eq_refl) as (σ1 & Hs & Hp & HB & Hc).
  destruct (inv_at σ1 fs qs (inv_step _ _ _ _ _ _ Hinv Hs) Hc) as [R1 Hinv1].
  exists σ1, i. split; [done|]. split; [by rewrite HB, lookup_insert_eq|]. split_and!; try done.
  by exists R1, fs, qs.
Qed.

Lemma ask_queues pid pids σ free l : to_ask (pid :: pids) σ (S free) l -> Z.of_nat l < 2 ^ k - 1 ->
  exists σ', sys_run config (ask pid) σ = Done σ' /\ to_ask pids σ' free (S l).
Proof.
  intros Hta Hl. destruct (ask_acquires pid pids σ free l Hta) as (σ1 & i & Hs1 & HB1 & Hp1 & HBs & R & fs & qs & Hinv & Hf & Hq).
  destruct (owned_slot_enqueued R fs qs σ1 pid i Hinv HB1) as (σ2 & Hs2 & Hp2 & Hend).
  rewrite (proj2 (Z.ltb_lt _ _)) in Hend by lia. destruct Hend as (HB2 & Hc2 & _).
  destruct (inv_at σ2 _ _ (inv_step _ _ _ _ _ _ Hinv Hs2) Hc2) as [R2 Hinv2].
  exists σ2. unfold ask. cbn [sys_run]. rewrite Hs1. cbn [mbind outcome_bind]. rewrite Hs2. split; [done|].
  destruct Hta as [_ Ha Hidle [Hne Hnd]%NoDup_cons]. split; [|intros p Hin..|done].
  - exists R2, fs, (qs ++ [Z.of_nat i]). split; [done|]. split; [done|]. rewrite length_app. cbn. lia.
  - rewrite Hp2, Hp1. apply Ha. by right.
  - assert (p <> pid) by (by intros ->). rewrite HB2, HBs, !lookup_insert_ne by done. apply Hidle. by right.
Qed.

Lemma asks_fill pids pid σ free l :
  to_ask (pids ++ [pid]) σ (length pids + S free) l -> Z.of_nat (l + length pids) <= 2 ^ k - 1 ->
  exists σ', sys_run config (concat (ask <$> pids)) σ = Done σ' /\ to_ask [pid] σ' (S free) (l + length pids).
Proof.
  revert σ l. induction pids as [|p pids IH]; intros σ l Hta Hl.
  { exists σ. split; [done|]. cbn. by rewrite Nat.add_0_r. }
  cbn [length app] in *. destruct (ask_queues p (pids ++ [pid]) σ (length pids + S free) l Hta ltac:(lia)) as (σ1 & Hr & Hta1).
  destruct (IH σ1 (S l) Hta1 ltac:(lia)) as (σ' & Hr' & Hta').
  exists σ'. cbn [fmap list_fmap concat]. unfold ask in *. cbn [app sys_run] in *.
  destruct (sys_step config _ σ) as [σa| |]; try done. cbn [mbind outcome_bind] in *.
  destruct (sys_step config _ σa) as [σb| |]; try done. cbn [mbind outcome_bind] in *. injection Hr as ->.
  split; [exact Hr'|]. by replace (l + S (length pids))%nat with (S l + length pids)%nat by lia.
Qed.

(** The backend that comes when the queue is full is turned away. *)
Lemma full_turns_away pid σ free l : to_ask [pid] σ (S free) l -> 2 ^ k - 1 <= Z.of_nat l ->
  exists σ1 i σ', sys_run config (removelast (ask pid)) σ = Done σ1 /\ sys_backends σ1 !! pid = Some (Owning, i) /\
    sys_step config (LEnqueue pid) σ1 = Done σ' /\ sys_backends σ' !! pid = None.
Proof.
  intros Hta Hl. destruct (ask_acquires pid [] σ free l Hta) as (σ1 & i & Hs1 & HB1 & _ & _ & R & fs & qs & Hinv & _ & Hq).
  destruct (owned_slot_enqueued R fs qs σ1 pid i Hinv HB1) as (σ2 & Hs2 & _ & HB2).
  rewrite (proj2 (Z.ltb_ge _ _)) in HB2 by lia. destruct HB2 as [HB2 _]. exists σ1, i, σ2. cbn [removelast ask sys_run]. rewrite Hs1.
  split; [done|]. split; [done|]. split; [done|]. by rewrite HB2, lookup_delete_eq.
Qed.
End Capacity.

(** ** The initialised channel *)
Section Startup.
Context {L : Type} {HS : SList L} {HL : SListLaws L}.
Context {HM : PgMem} {HML : PgMemLaws}.
Variable config : Config.

(** The system when the postmaster has set up the channel and started the
    processes. *)
Definition startup (procs : gmap Z bool) (c : FgaChannel L) : system L :=
  MkSystem (MkWorkerEnv c procs false [] [] []) ∅.

Lemma startup_initial k n c procs :
  chan_repr k c (rev (seq 0 n)) [] -> slot_count c = n -> initial_system k (startup procs c).
Proof.
  intros Hc Hn. exists (rev (seq 0 n)). split; [done|]. split; [|done].
  intros i. unfold slot_count in Hn. cbn. rewrite Hn. rewrite list_elem_of_In, <- in_rev, in_seq. lia.
Qed.

(** What a backend that owns a slot in [σ] meets at the queue. *)
Definition queued_in (σ : system L) (pid : Z) (i : nat) : Prop :=
  exists σ', sys_step config (LEnqueue pid) σ = Done σ' /\ sys_backends σ' !! pid = Some (Waiting, i).
Definition turned_away_in (σ : system L) (pid : Z) : Prop :=
  exists σ', sys_step config (LEnqueue pid) σ = Done σ' /\ sys_backends σ' !! pid = None.

End Startup.

(** ** Three slots, and two *)
Definition slots_config (n : Z) : FgaConfig := MkConfig None None None false false 0 0 n 0.
Definition raw_slots (n : nat) : list FgaChannelSlot := replicate n (set_pid empty_slot 5).
Definition raw_queue (n : nat) : FgaChannelSlotQueue := MkQueue 9 9 9 (replicate n 7).
Definition two_procs : gmap Z bool := {[11 := false; 12 := false]}.

