(* ===== verification/Wakeup.v ===== *)
(** * When the worker turns again

    In [Protocol] the worker may take a turn at any time, which is right for
    safety.  The loop of [src/bgw/worker.cpp] turns only when its latch is set,
    resets the latch first, and takes at most fifty requests per turn
    ([src/bgw/processor.cpp]); the latch is set when a backend has queued a
    request ([fga_wake_bgw]) and when a call completes ([enqueueCompleted]).
    Nothing sets it for the requests that a turn has left in the queue.  Here
    runs are driven by the latch: the work that is left is taken up after all,
    as long as a turn that leaves requests behind has made a call; it is not,
    when all fifty requests of a turn have been given up. *)
From S2P Require Import Prelude Platform Types SlotQueue SlotPool Channel ChannelShmem Config Client Processor.
From S2P Require Import Protocol Frames Service Ledger Calls Fairness Capacity Worker.

Section Latch.
Context {L : Type} {HS : SList L} {HL : SListLaws L}.
Variable k : Z.
Variable config : Config.
Abbreviation proto_inv := (proto_inv k [] [] []) (only parsing).
Abbreviation sys_inv := (sys_inv (L := L) k) (only parsing).
Abbreviation chan_of σ := (we_channel (sys_worker σ)) (only parsing).

(** ** Runs driven by the latch *)
Definition latch_off (σ : system L) : system L := MkSystem (set_latch false (sys_worker σ)) (sys_backends σ).

(** A turn of the worker needs the latch and resets it. *)
Definition latch_step (lab : label) (σ : system L) : outcome (system L) :=
  match lab with
  | LWorker _ => if we_latch (sys_worker σ) then sys_step config lab (latch_off σ) else Done σ
  | _ => sys_step config lab σ
  end.

Fixpoint latch_run (labs : list label) (σ : system L) : outcome (system L) :=
  match labs with
  | [] => Done σ
  | lab :: labs' => σ' ← latch_step lab σ; latch_run labs' σ'
  end.

(** This is what the worker's loop does when [WaitLatch] returns without a
    signal and with a processor. *)
Lemma process_turn_is_latch_step hw cfg t (b : bgw L) σ σ' :
  bw_env b = sys_worker σ -> we_latch (bw_env b) = true -> bw_processor b = Some config ->
  reload_requested b = false -> tn_others t (bw_env b) = bw_env b -> tn_signals t = [] ->
  tn_interrupt t = None -> tn_latch_set t = true ->
  latch_step (LWorker (tn_now t)) σ = Done σ' ->
  process_turn hw cfg t b = (Done tt, with_env b (sys_worker σ')).
Proof.
  intros He Hl Hp Hr Ho Hs Hi Ht. unfold latch_step, process_turn.
  rewrite Ho, Hs, Hi, Ht, <- He, Hl. cbn [foldl negb with_env reload_requested]. rewrite Hr.
  cbn [bw_processor bw_env with_env]. rewrite Hp. unfold latch_off. rewrite <- He. cbn.
  destruct (execute config (tn_now t) _) as [[[]| |] w]; intros [= <-]. by destruct b.
Qed.

(** The latch is not part of the invariants. *)
Lemma latch_off_inv R free l σ : proto_inv R free l (sys_backends σ) (sys_worker σ) ->
  proto_inv R free l (sys_backends (latch_off σ)) (sys_worker (latch_off σ)).
Proof. intros [? ? ? ? ? ? ? ? ? ? ? ? ?]. by split. Qed.

Lemma latch_off_sys_inv σ : sys_inv σ -> sys_inv (latch_off σ).
Proof. intros (R & free & l & Hinv). exists R, free, l. by apply latch_off_inv. Qed.

(** A step driven by the latch is a step of the system, or none. *)
Lemma latch_step_cases lab σ :
  latch_step lab σ = sys_step config lab σ \/ latch_step lab σ = sys_step config lab (latch_off σ) \/
  latch_step lab σ = Done σ.
Proof. destruct lab; cbn [latch_step]; auto. destruct (we_latch _); auto. Qed.

Lemma latch_step_inv lab σ : sys_inv σ -> exists σ', latch_step lab σ = Done σ' /\ sys_inv σ'.
Proof.
  intros Hi. destruct (latch_step_cases lab σ) as [-> |[-> | ->]].
  - by apply sys_step_inv.
  - by apply sys_step_inv, latch_off_sys_inv.
  - by exists σ.
Qed.

(** ** What the steps do to the latch *)

(** Neither a call nor a completed request comes or goes, and the latch is at
    most set, where a request is queued. *)
Record same_work (queues : bool) (w w' : worker_env L) : Prop := {
  sw_calls : we_calls w' = we_calls w;
  sw_completed : completed_queue w' = completed_queue w;
  sw_latch : we_latch w' = we_latch w \/ (queues = true /\ we_latch w' = true);
  sw_queue : queues = false -> ch_queue (we_channel w') = ch_queue (we_channel w);
}.

Lemma same_work_refl queues w : same_work queues w w.
Proof. split; auto. Qed.

Lemma run_channel_same_work {A} queues (m : CM (FgaChannel L) A) w r w' :
  (queues = false -> keeps same_queue m) -> run_channel m w = (r, w') -> same_work queues w w'.
Proof.
  intros Hm Hr. split; [..|intros Hq; by eapply run_channel_same; [by apply Hm|]]; revert Hr;
    unfold run_channel, on_shared; destruct (m (we_channel w)) as [[] c]; intros [= _ <-]; auto.
Qed.

Definition is_work (lab : label) : bool := match lab with LWorker _ | LReply _ _ _ => true | _ => false end.
Definition is_enqueue (lab : label) : bool := match lab with LEnqueue _ => true | _ => false end.

Lemma others_same_work lab σ σ' : is_work lab = false -> sys_step config lab σ = Done σ' ->
  same_work (is_enqueue lab) (sys_worker σ) (sys_worker σ').
Proof.
  intros Hw Hs. destruct (is_enqueue lab) eqn:He; destruct lab; try done; cbn in Hs; repeat case_match; try done;
    injection Hs as <-; cbn; try apply same_work_refl; try (by split; auto);
    match goal with H : run_channel _ _ = _ |- _ => eapply (run_channel_same_work true) in H as Hq; [|done] end;
    try done; try (by destruct Hq; split; auto);
    (eapply run_channel_same_work; [|eassumption]); intros _;
    auto using start_same_queue, release_same_queue, wait_catch_same_queue.
Qed.

(** A callback that completes a request sets the latch. *)
Definition completes_with_latch (w w' : worker_env L) : Prop :=
  (completed_queue w' = completed_queue w /\ we_latch w' = we_latch w) \/ we_latch w' = true.

#[local] Instance completes_preorder : PreOrder completes_with_latch.
Proof.
  split; [by left|]. intros a b c [[H1 H2]|H1] [[H3 H4]|H3]; unfold completes_with_latch; auto; [left|right]; split_and?; congruence.
Qed.

Lemma on_shared_completes {A} (m : CM (FgaChannel L) A) : keeps completes_with_latch (on_shared m).
Proof. intros w. unfold on_shared. destruct (m (we_channel w)). by left. Qed.

Lemma answer_completes i f : keeps completes_with_latch (answer (S := worker_env L) i f).
Proof.
  unfold answer. apply keeps_bind; [apply _|apply on_shared_completes|intros _ w]. by right.
Qed.

Lemma batch_reply_completes result slots : keeps completes_with_latch (batch_reply_loop (S := worker_env L) result slots).
Proof.
  induction slots as [|i slots IH]; cbn [batch_reply_loop]; [apply keeps_ret, _|].
  apply keeps_bind; [apply _| |intros p].
  - apply keeps_bind; [apply _|apply on_shared_completes|intros s; apply keeps_ret, _].
  - apply keeps_bind; [apply _|apply answer_completes|intros _; exact IH].
Qed.

Lemma batch_failure_completes st slots : keeps completes_with_latch (batch_failure_loop (S := worker_env L) st slots).
Proof.
  induction slots as [|i slots IH]; cbn [batch_failure_loop]; [apply keeps_ret, _|].
  apply keeps_bind; [apply _|apply answer_completes|intros _; exact IH].
Qed.

Lemma on_reply_completes c st resp : keeps completes_with_latch (on_reply (S := worker_env L) c st resp).
Proof.
  destruct c, resp; try (apply keeps_lift, _); try apply answer_completes.
  unfold on_reply, on_batch_reply. destruct (st_ok st); [apply batch_reply_completes|apply batch_failure_completes].
Qed.

(** A turn leaves the latch as the reset has left it. *)
Definition same_latch (w w' : worker_env L) : Prop := we_latch w' = we_latch w.

#[local] Instance same_latch_preorder : PreOrder same_latch.
Proof. split; [done|]. intros a b c H1 H2. unfold same_latch in *. congruence. Qed.

Lemma on_shared_latch {A} (m : CM (FgaChannel L) A) : keeps same_latch (on_shared m).
Proof. intros w. unfold on_shared. by destruct (m (we_channel w)). Qed.

Lemma slot_of_latch i : keeps same_latch (slot_of i).
Proof. apply on_shared_latch. Qed.

Lemma warning_latch msg : keeps same_latch (warning (L := L) msg).
Proof. by intros w. Qed.

Lemma begin_latch i : keeps same_latch (beginProcessing (L := L) i).
Proof.
  unfold beginProcessing. apply keeps_bind; [apply _|apply slot_of_latch|intros s]. case_decide.
  - apply keeps_bind; [apply _|apply on_shared_latch|intros _; apply keeps_ret, _].
  - apply keeps_bind; [apply _| |intros _; apply keeps_ret, _].
    case_decide; [apply on_shared_latch|apply warning_latch].
Qed.

Lemma begin_all_latch slots : keeps same_latch (begin_all (L := L) slots).
Proof.
  induction slots as [|i slots IH]; cbn [begin_all]; [apply keeps_ret, _|].
  apply keeps_bind; [apply _|apply begin_latch|intros ok]. apply keeps_bind; [apply _|exact IH|intros items].
  destruct ok; [|apply keeps_ret, _]. apply keeps_bind; [apply _|apply slot_of_latch|intros s; apply keeps_ret, _].
Qed.

Lemma wake_latch i : keeps same_latch (wakeBackend (L := L) i).
Proof.
  unfold wakeBackend. apply keeps_bind; [apply _|apply keeps_get, _|intros w].
  apply keeps_bind; [apply _|apply keeps_lift, _|intros woken]. apply keeps_bind; [apply _|by intros v|intros _].
  destruct (negb _); [apply on_shared_latch|apply keeps_ret, _].
Qed.

Lemma handle_all_latch slots : keeps same_latch (handle_all (L := L) slots).
Proof.
  induction slots as [|i slots IH]; cbn [handle_all]; [apply keeps_ret, _|].
  apply keeps_bind; [apply _| |intros _; exact IH]. unfold handleResponse.
  apply keeps_bind; [apply _|apply slot_of_latch|intros s]. case_decide; [apply on_shared_latch|].
  apply keeps_bind; [apply _|apply on_shared_latch|intros _; apply wake_latch].
Qed.

Lemma execute_latch now : keeps same_latch (execute (L := L) config now).
Proof.
  intros w. rewrite execute_take_on. revert w.
  change (keeps same_latch (slots ← on_shared (fga_channel_drain_slots MAX_BATCH);
    _ ← take_on (L := L) config now (Z.to_nat <$> slots); drainCompleted)).
  apply keeps_bind; [apply _|apply on_shared_latch|intros slots]. apply keeps_bind; [apply _| |intros _].
  - unfold take_on. destruct (Z.to_nat <$> slots) as [|i [|j l]]; [apply keeps_ret, _|..].
    + apply keeps_bind; [apply _|apply begin_latch|intros ok]. destruct ok; [|apply keeps_ret, _].
      apply keeps_bind; [apply _|apply slot_of_latch|intros s]. by intros w.
    + apply keeps_bind; [apply _|apply begin_all_latch|intros items]. destruct items; [apply keeps_ret, _|].
      apply keeps_bind; [apply _|apply keeps_lift, _|intros calls]. by intros w.
  - unfold drainCompleted. apply keeps_bind; [apply _|apply keeps_get, _|intros w].
    destruct (completed_queue w) as [|i l]; [apply keeps_ret, _|].
    apply keeps_bind; [apply _|by intros v|intros _; apply handle_all_latch].
Qed.

(** Every call is about some request. *)
Lemma call_from_has_slot now slots (c : FgaChannel L) call :
  call_from config now slots c call -> callback_slots (call_callback call) <> [].
Proof.
  intros [i s call' _ _ Hin|items call' Hb _ _].
  - unfold Client.process in Hin. destruct (make_request_variant _); cbn in Hin;
      try (by apply elem_of_nil in Hin); by apply list_elem_of_singleton in Hin as ->.
  - destruct items as [|first items]; [done|]. by injection Hb as <-.
Qed.

(** ** The invariant of the latch *)
Record latch_inv (σ : system L) : Prop := {
  li_completed : completed_queue (sys_worker σ) <> [] -> we_latch (sys_worker σ) = true;
  li_calls call : call ∈ we_calls (sys_worker σ) -> callback_slots (call_callback call) <> [];
}.

(** A turn: what it makes of calls, completed requests and the latch. *)
Lemma turn_step now R free l σ :
  proto_inv R free l (sys_backends σ) (sys_worker σ) -> we_latch (sys_worker σ) = true ->
  exists σ' R' free' new, latch_step (LWorker now) σ = Done σ' /\
    proto_inv R' free' (drop 50 l) (sys_backends σ') (sys_worker σ') /\
    we_latch (sys_worker σ') = false /\ completed_queue (sys_worker σ') = [] /\
    we_calls (sys_worker σ') = we_calls (sys_worker σ) ++ new /\
    (forall call, call ∈ new -> callback_slots (call_callback call) <> []) /\
    covers new (wanted_slots (sys_worker σ) (Z.to_nat <$> take 50 l)) /\
    (wanted_slots (sys_worker σ) (Z.to_nat <$> take 50 l) = [] -> new = []).
Proof.
  intros Hinv Hl. pose proof (latch_off_inv _ _ _ _ Hinv) as Hinv0.
  destruct (sys_execute_spec k config now R free l _ _ Hinv0)
    as (w' & R' & free' & He & Hinv' & Hco & _ & new & Hca & Hcov & Hnil).
  destruct (chan_drain_spec k _ free l MAX_BATCH (pi_chan _ _ _ _ _ _ _ _ _ Hinv0) ltac:(done)) as (c0 & Hdr & _).
  destruct (execute_frame config now _ _ _ _ Hdr He) as (_ & _ & new' & Hca' & Hfrom).
  assert (new' = new) as -> by (rewrite Hca in Hca'; by apply app_inv_head in Hca').
  eexists (MkSystem w' (sys_backends σ)), R', free', new. cbn [latch_step]. rewrite Hl. cbn [sys_step].
  rewrite He. split; [done|]. split; [exact Hinv'|].
  split; [exact (keeps_done _ _ _ _ _ (execute_latch now) He)|]. split_and!; try done.
  intros call Hc. eapply call_from_has_slot. by apply Hfrom.
Qed.

(** A reply: it takes a call away and sets the latch, or nothing happens. *)
Lemma reply_step_latch n st resp R free l σ :
  proto_inv R free l (sys_backends σ) (sys_worker σ) -> latch_inv σ ->
  exists σ' R', latch_step (LReply n st resp) σ = Done σ' /\
    proto_inv R' free l (sys_backends σ') (sys_worker σ') /\
    (σ' = σ \/ (we_latch (sys_worker σ') = true /\ we_calls (sys_worker σ') = delete n (we_calls (sys_worker σ)))).
Proof.
  intros Hinv [_ Hli]. cbn [latch_step sys_step].
  destruct (we_calls (sys_worker σ) !! n) as [call|] eqn:Hn; [|exists σ, R; by split_and!; [| |left]].
  destruct (reply_matches _ _) eqn:Hm; [|exists σ, R; by split_and!; [| |left]].
  destruct (deliver_spec k n st resp R free l _ _ call Hinv Hn Hm) as (w' & R' & Hd & Hinv' & Hca & Hco & _).
  rewrite Hd. exists (MkSystem w' (sys_backends σ)), R'. split; [done|]. split; [done|]. right. split; [|done].
  pose proof Hd as Hk. unfold deliver, mbind, cm_bind, cm_get, cm_modify in Hk. rewrite Hn in Hk. cbn in Hk.
  pose proof (keeps_done _ _ _ _ _ (on_reply_completes _ _ _) Hk) as [[Hc _]|Hlt]; [|done]. cbn in Hc.
  rewrite Hco in Hc. apply (f_equal length) in Hc. rewrite length_app in Hc.
  pose proof (Hli call (list_elem_of_lookup_2 _ _ _ Hn)). by destruct (callback_slots _); [|cbn in Hc; lia].
Qed.

Lemma latch_step_latch_inv lab σ σ' : sys_inv σ -> latch_inv σ -> latch_step lab σ = Done σ' -> latch_inv σ'.
Proof.
  intros (R & free & l & Hinv) Hli Hs. destruct (is_work lab) eqn:Hw.
  - destruct lab; try done.
    + destruct (we_latch (sys_worker σ)) eqn:Hlt; [|cbn [latch_step] in Hs; rewrite Hlt in Hs; by injection Hs as <-].
      destruct (turn_step now R free l σ Hinv Hlt) as (σ1 & R1 & free1 & new & Hs1 & _ & _ & Hco & Hca & Hnew & _).
      rewrite Hs in Hs1. injection Hs1 as <-. split; [by rewrite Hco|]. intros call. rewrite Hca, elem_of_app.
      intros [Hc|Hc]; [by apply Hli|by apply Hnew].
    + destruct (reply_step_latch n st resp R free l σ Hinv Hli) as (σ1 & R1 & Hs1 & _ & Hcase).
      rewrite Hs in Hs1. injection Hs1 as <-. destruct Hcase as [->|[Hlt Hca]]; [done|]. split; [done|].
      intros call. rewrite Hca. intros Hc. apply Hli. by eapply elem_of_sublist, sublist_delete.
  - assert (Hs' : sys_step config lab σ = Done σ') by by destruct lab.
    destruct (others_same_work lab σ σ' Hw Hs') as [Hca Hco Hlt _]. destruct Hli as [H1 H2]. split.
    + rewrite Hco. intros Hne. specialize (H1 Hne). destruct Hlt as [->|[_ ?]]; done.
    + by rewrite Hca.
Qed.

(** ** Stranded requests *)

(** Requests are queued, and nothing will set the latch for them. *)
Record stranded (σ : system L) : Prop := {
  st_latch : we_latch (sys_worker σ) = false;
  st_calls : we_calls (sys_worker σ) = [];
  st_completed : completed_queue (sys_worker σ) = [];
  st_queue : queue_is_empty (ch_queue (chan_of σ)) = false;
}.

(** The backends of these requests have given them up. *)
Definition given_up (σ : system L) (vs : list Z) : Prop :=
  forall v, v ∈ vs -> slot_state <$> chan_slot (chan_of σ) (Z.to_nat v) = Some FGA_CHANNEL_SLOT_CANCELED.

Lemma given_up_wanted σ vs : given_up σ vs <-> wanted_slots (sys_worker σ) (Z.to_nat <$> vs) = [].
Proof.
  unfold given_up, wanted_slots. induction vs as [|v vs IH]; cbn.
  { split; [done|]. by intros _ v Hv%elem_of_nil. }
  setoid_rewrite elem_of_cons. unfold wanted at 1. case_bool_decide as Hc; cbn.
  - rewrite <- IH. split; [by intros H v' Hv'; apply H; right|]. intros H v' [-> |Hv']; [done|by apply H].
  - split; [|done]. intros H. destruct Hc. apply H. by left.
Qed.

Lemma queue_left R free l σ : proto_inv R free l (sys_backends σ) (sys_worker σ) ->
  queue_is_empty (ch_queue (chan_of σ)) = false <-> l <> [].
Proof.
  intros Hinv. rewrite (repr_is_empty (cr_queue _ _ _ _ (pi_chan _ _ _ _ _ _ _ _ _ Hinv))).
  by rewrite bool_decide_eq_false.
Qed.

Lemma drop_left {A} n (l : list A) : drop n l <> [] <-> (n < length l)%nat.
Proof.
  rewrite <- Nat.nle_gt. split; intros Hn H; apply Hn; [by apply drop_ge|].
  apply (f_equal length) in H. rewrite length_drop in H. cbn in H. lia.
Qed.

(** A turn strands requests exactly when more than fifty are queued, the oldest
    fifty are all given up, and no call is in flight. *)
Lemma turn_strands now R free l σ :
  proto_inv R free l (sys_backends σ) (sys_worker σ) -> we_latch (sys_worker σ) = true ->
  exists σ', latch_step (LWorker now) σ = Done σ' /\
    (stranded σ' <-> (50 < length l)%nat /\ given_up σ (take 50 l) /\ we_calls (sys_worker σ) = []).
Proof.
  intros Hinv Hl.
  destruct (turn_step now R free l σ Hinv Hl)
    as (σ' & R' & free' & new & Hs & Hinv' & Hlt & Hco & Hca & _ & Hcov & Hnil).
  exists σ'. split; [done|]. rewrite given_up_wanted, <- drop_left, <- (queue_left _ _ _ _ Hinv'). split.
  - intros [_ H2 _ H4]. rewrite Hca in H2. apply app_nil in H2 as [H2 ->]. split_and!; try done.
    apply Permutation_nil. by rewrite <- Hcov.
  - intros (H4 & Hw & H2). split; try done. by rewrite Hca, H2, (Hnil Hw).
Qed.

(** Only a turn strands requests. *)
Lemma others_do_not_strand lab σ σ' : sys_inv σ -> latch_inv σ -> is_turn lab = false ->
  latch_step lab σ = Done σ' -> stranded σ' -> stranded σ.
Proof.
  intros (R & free & l & Hinv) Hli Ht Hs [H1 H2 H3 H4]. destruct (is_work lab) eqn:Hw.
  - destruct lab; try done. destruct (reply_step_latch n st resp R free l σ Hinv Hli) as (σ1 & R1 & Hs1 & _ & Hcase).
    rewrite Hs in Hs1. injection Hs1 as <-. destruct Hcase as [->|[Hlt _]]; [by split|congruence].
  - assert (Hs' : sys_step config lab σ = Done σ') by by destruct lab.
    destruct (others_same_work lab σ σ' Hw Hs') as [Hca Hco [Hlt|[_ Hlt]] Hq]; [|congruence].
    rewrite Hca in H2. rewrite Hco in H3. rewrite Hlt in H1. split; try done.
    destruct (is_enqueue lab) eqn:He; [|by rewrite <- Hq]. destruct lab; try done. clear Hq Hca Hco Hw.
    cbn in Hs'. destruct (sys_backends σ !! pid) as [[[] i]|] eqn:HB; try (by injection Hs' as <-).
    destruct (owned_slot_enqueued k config R free l σ pid i Hinv HB) as (σ1 & Hs1 & _ & Hq). cbn in Hs1.
    rewrite HB, Hs' in Hs1. injection Hs1 as <-.
    destruct (Z.of_nat (length l) <? 2 ^ k - 1) eqn:Hroom.
    + destruct Hq as (_ & _ & Hset). congruence.
    + destruct Hq as [_ Hc]. apply (queue_left _ _ _ _ Hinv).
      rewrite (repr_is_empty (cr_queue _ _ _ _ Hc)) in H4. by apply bool_decide_eq_false in H4.
Qed.

(** Stranded requests wait until a backend queues another one. *)
Lemma stranded_stays lab σ σ' : stranded σ -> is_enqueue lab = false -> latch_step lab σ = Done σ' -> stranded σ'.
Proof.
  intros [H1 H2 H3 H4] He Hs. destruct (is_work lab) eqn:Hw.
  - destruct lab; try done; cbn [latch_step] in Hs; [rewrite H1 in Hs|cbn in Hs; rewrite H2 in Hs];
      by injection Hs as <-.
  - assert (Hs' : sys_step config lab σ = Done σ') by by destruct lab.
    destruct (others_same_work lab σ σ' Hw Hs') as [Hca Hco [Hlt|[Hf _]] Hq]; [|congruence].
    split; [by rewrite Hlt|by rewrite Hca|by rewrite Hco|by rewrite Hq].
Qed.

(** ** The way of a request when the latch drives the worker *)
Section Way.
Variable pid : Z.
Variable i : nat.
Abbreviation slot_due := (slot_due (L := L) k pid i) (only parsing).
Abbreviation waits := (waits (L := L) pid i) (only parsing).

Lemma latch_off_due f n σ : slot_due f n σ -> slot_due f n (latch_off σ).
Proof.
  intros (HB & R & free & l & Hinv & Hdue). split; [done|]. exists R, free, l.
  split; [by apply latch_off_inv|]. by destruct Hdue; split.
Qed.

Lemma latch_step_due f n lab σ : (1 <= f <= 2)%nat -> slot_due f n σ -> label_pid lab <> Some pid ->
  exists σ', latch_step lab σ = Done σ' /\ slot_due f n σ' /\
    (is_turn lab = true -> we_latch (sys_worker σ) = true -> f = 2%nat -> (0 < n)%nat -> slot_due 1 (pred n) σ') /\
    (n = 2%nat -> forall call, call ∈ we_calls (sys_worker σ') -> i ∈ callback_slots (call_callback call) ->
       call ∈ we_calls (sys_worker σ)).
Proof.
  intros Hf Hdue Hp. destruct (is_turn lab) eqn:Ht.
  - destruct lab; try done. cbn [latch_step]. destruct (we_latch (sys_worker σ)) eqn:Hl.
    + destruct (slot_due_step k config pid i f n (LWorker now) (latch_off σ) Hf (latch_off_due f n σ Hdue) Hp)
        as (σ' & Hs & Hdue' & Hturn & Hk).
      exists σ'. split; [exact Hs|]. split; [done|]. split; [intros _ _; by apply Hturn|exact Hk].
    + exists σ. by split_and!.
  - destruct (slot_due_step k config pid i f n lab σ Hf Hdue Hp) as (σ' & Hs & Hdue' & _ & Hk).
    exists σ'. split; [by destruct lab|]. by split_and!.
Qed.

Lemma latch_run_app labs1 labs2 σ : latch_run (labs1 ++ labs2) σ = (σ1 ← latch_run labs1 σ; latch_run labs2 σ1).
Proof.
  revert σ. induction labs1 as [|lab labs1 IH]; intros σ; [done|]. cbn [app latch_run].
  destruct (latch_step lab σ); [|done..]. apply IH.
Qed.

Lemma latch_run_due f n labs σ : (1 <= f <= 2)%nat -> slot_due f n σ -> by_others pid labs ->
  exists σ', latch_run labs σ = Done σ' /\ slot_due f n σ' /\
    (n = 2%nat -> forall call, call ∈ we_calls (sys_worker σ') -> i ∈ callback_slots (call_callback call) ->
       call ∈ we_calls (sys_worker σ)).
Proof.
  intros Hf Hdue Hl. revert σ Hdue. induction Hl as [|lab labs Hp _ IH]; intros σ Hdue; [by exists σ|].
  destruct (latch_step_due f n lab σ Hf Hdue Hp) as (σ1 & Hs & Hdue1 & _ & Hk1).
  destruct (IH σ1 Hdue1) as (σ' & Hr & Hdue' & Hk). exists σ'. cbn [latch_run]. rewrite Hs. split; [exact Hr|].
  split; [done|]. intros Hn call Hc Hi. apply Hk1; [done| |done]. by apply Hk.
Qed.

(** A turn of the worker that the latch lets through. *)
Definition has_turn (labs : list label) (σ : system L) : Prop :=
  exists l1 now l2 σ1, labs = l1 ++ LWorker now :: l2 /\ latch_run l1 σ = Done σ1 /\ we_latch (sys_worker σ1) = true.

Lemma turn_due n labs σ : slot_due 2 (S n) σ -> by_others pid labs -> has_turn labs σ ->
  exists σ', latch_run labs σ = Done σ' /\ slot_due 1 n σ'.
Proof.
  intros Hdue Hl (l1 & now & l2 & σ1 & -> & Hr1 & Hlt).
  unfold by_others in Hl. rewrite Forall_app, Forall_cons in Hl. destruct Hl as (Hl1 & Hlw & Hl2).
  destruct (latch_run_due 2 (S n) l1 σ ltac:(lia) Hdue Hl1) as (σ1' & Hr1' & Hdue1 & _).
  rewrite Hr1 in Hr1'. injection Hr1' as <-.
  destruct (latch_step_due 2 (S n) (LWorker now) σ1 ltac:(lia) Hdue1 Hlw) as (σ2 & Hs & _ & Hturn & _).
  specialize (Hturn eq_refl Hlt eq_refl ltac:(lia)).
  destruct (latch_run_due 1 n l2 σ2 ltac:(lia) Hturn Hl2) as (σ3 & Hr3 & Hdue3 & _).
  exists σ3. split; [|done]. rewrite latch_run_app, Hr1. cbn [mbind outcome_bind latch_run]. rewrite Hs. exact Hr3.
Qed.

Lemma has_turn_cons lab labs σ σ1 : latch_step lab σ = Done σ1 -> has_turn labs σ1 -> has_turn (lab :: labs) σ.
Proof.
  intros Hs (l1 & now & l2 & σ2 & -> & Hr & Hlt). exists (lab :: l1), now, l2, σ2.
  split; [done|]. split; [|done]. cbn [latch_run]. by rewrite Hs.
Qed.

Lemma has_turn_app labs1 labs2 σ : has_turn labs1 σ -> has_turn (labs1 ++ labs2) σ.
Proof.
  intros (l1 & now & l2 & σ1 & -> & Hr). exists l1, now, (l2 ++ labs2), σ1. by rewrite <- app_assoc.
Qed.

Lemma has_turn_after labs1 labs2 σ σ1 : latch_run labs1 σ = Done σ1 -> has_turn labs2 σ1 -> has_turn (labs1 ++ labs2) σ.
Proof.
  revert σ. induction labs1 as [|lab labs1 IH]; intros σ; cbn; [by intros [= ->]|].
  destruct (latch_step lab σ) as [σ0| |] eqn:Hs; [|done..]. intros Hr Ht. by eapply has_turn_cons; [|eapply IH].
Qed.

(** A set latch stays set until a turn. *)
Lemma set_latch_turns labs σ : sys_inv σ -> latch_inv σ -> we_latch (sys_worker σ) = true ->
  has_turn labs σ \/ exists σ', latch_run labs σ = Done σ' /\ we_latch (sys_worker σ') = true /\
    forall now, LWorker now ∉ labs.
Proof.
  revert σ. induction labs as [|lab labs IH]; intros σ Hi Hli Hlt.
  { right. exists σ. split_and!; try done. intros now. apply not_elem_of_nil. }
  destruct (is_turn lab) eqn:Ht; [destruct lab; try done; left; by exists [], now, labs, σ|].
  destruct (latch_step_inv lab σ Hi) as (σ1 & Hs & Hi1). pose proof (latch_step_latch_inv lab σ σ1 Hi Hli Hs) as Hli1.
  assert (Hlt1 : we_latch (sys_worker σ1) = true).
  { destruct (is_work lab) eqn:Hw.
    - destruct lab; try done. destruct Hi as (R & free & l & Hinv).
      destruct (reply_step_latch n st resp R free l σ Hinv Hli) as (σ1' & _ & Hs' & _ & [->|[? _]]); congruence.
    - assert (Hs' : sys_step config lab σ = Done σ1) by by destruct lab.
      destruct (others_same_work lab σ σ1 Hw Hs') as [_ _ [->|[_ ?]] _]; done. }
  destruct (IH σ1 Hi1 Hli1 Hlt1) as [Hturn|(σ' & Hr & Hlt' & Hn)]; [left; by eapply has_turn_cons|].
  right. exists σ'. cbn [latch_run]. rewrite Hs. split_and!; try done.
  intros now [<-|Hin]%elem_of_cons; [done|by apply (Hn now)].
Qed.

(** Without a turn, a run keeps the calls or sets the latch. *)
Lemma calls_kept labs σ : sys_inv σ -> latch_inv σ ->
  has_turn labs σ \/ exists σ', latch_run labs σ = Done σ' /\
    (we_latch (sys_worker σ') = true \/ we_calls (sys_worker σ') = we_calls (sys_worker σ)).
Proof.
  revert σ. induction labs as [|lab labs IH]; intros σ Hi Hli; [right; exists σ; auto|].
  destruct (we_latch (sys_worker σ)) eqn:Hlt.
  { destruct (set_latch_turns (lab :: labs) σ Hi Hli Hlt) as [?|(σ' & Hr & Hl' & _)]; [by left|right; exists σ'; auto]. }
  destruct (latch_step_inv lab σ Hi) as (σ1 & Hs & Hi1). pose proof (latch_step_latch_inv lab σ σ1 Hi Hli Hs) as Hli1.
  assert (Hcase : we_latch (sys_worker σ1) = true \/ we_calls (sys_worker σ1) = we_calls (sys_worker σ)).
  { destruct (is_work lab) eqn:Hw.
    - destruct lab; try done; [cbn [latch_step] in Hs; rewrite Hlt in Hs; injection Hs as <-; by right|].
      destruct Hi as (R & free & l & Hinv).
      destruct (reply_step_latch n st resp R free l σ Hinv Hli) as (σ1' & _ & Hs' & _ & Hc).
      rewrite Hs in Hs'. injection Hs' as <-. destruct Hc as [->|[? _]]; auto.
    - assert (Hs' : sys_step config lab σ = Done σ1) by by destruct lab.
      right. apply (others_same_work lab σ σ1 Hw Hs'). }
  cbn [latch_run]. rewrite Hs. destruct Hcase as [Hlt1|Hca].
  - destruct (set_latch_turns labs σ1 Hi1 Hli1 Hlt1) as [?|(σ' & Hr & Hl' & _)];
      [left; by eapply has_turn_cons|right; exists σ'; auto].
  - destruct (IH σ1 Hi1 Hli1) as [?|(σ' & Hr & Hc)]; [left; by eapply has_turn_cons|].
    right. exists σ'. split; [done|]. rewrite <- Hca. exact Hc.
Qed.

(** ** Rounds *)

(** A round in which every process does what its latch and its calls ask for: a
    worker whose latch is set at the beginning turns, and the calls in flight at
    the beginning come to their replies. *)
Definition latch_fair (labs : list label) (σ : system L) : Prop :=
  by_others pid labs /\ (we_latch (sys_worker σ) = true -> exists now, LWorker now ∈ labs) /\
  forall σ', latch_run labs σ = Done σ' ->
    forall call, call ∈ we_calls (sys_worker σ) -> call ∉ we_calls (sys_worker σ').

Fixpoint latch_rounds (rounds : list (list label)) (σ : system L) : Prop :=
  match rounds with
  | [] => True
  | labs :: rounds' => latch_fair labs σ /\ forall σ', latch_run labs σ = Done σ' -> latch_rounds rounds' σ'
  end.

Lemma latch_run_inv labs σ : sys_inv σ -> latch_inv σ ->
  exists σ', latch_run labs σ = Done σ' /\ sys_inv σ' /\ latch_inv σ'.
Proof.
  revert σ. induction labs as [|lab labs IH]; intros σ Hi Hli; [by exists σ|]. cbn [latch_run].
  destruct (latch_step_inv lab σ Hi) as (σ1 & Hs & Hi1). rewrite Hs. apply IH; [done|].
  exact (latch_step_latch_inv lab σ σ1 Hi Hli Hs).
Qed.

Lemma latch_rounds_others rounds σ : sys_inv σ -> latch_inv σ -> latch_rounds rounds σ -> by_others pid (concat rounds).
Proof.
  revert σ. induction rounds as [|labs rounds IH]; intros σ Hi Hli; [constructor|]. intros [[Hl _] Hrest].
  destruct (latch_run_inv labs σ Hi Hli) as (σ1 & Hr & Hi1 & Hli1). cbn [concat].
  apply Forall_app. split; [done|]. by apply (IH σ1), Hrest.
Qed.

Lemma fair_latch_turns labs σ : sys_inv σ -> latch_inv σ -> we_latch (sys_worker σ) = true ->
  latch_fair labs σ -> has_turn labs σ.
Proof.
  intros Hi Hli Hlt (_ & Hturn & _). destruct (Hturn Hlt) as [now Hin].
  destruct (set_latch_turns labs σ Hi Hli Hlt) as [?|(σ' & _ & _ & Hno)]; [done|]. by destruct (Hno now).
Qed.

(** Two rounds have a turn, when something will wake the worker. *)
Lemma two_rounds_turn labs1 labs2 σ σ1 : sys_inv σ -> latch_inv σ ->
  we_latch (sys_worker σ) = true \/ we_calls (sys_worker σ) <> [] ->
  latch_fair labs1 σ -> latch_run labs1 σ = Done σ1 -> latch_fair labs2 σ1 -> has_turn (labs1 ++ labs2) σ.
Proof.
  intros Hi Hli Hawake Hf1 Hr1 Hf2. destruct (we_latch (sys_worker σ)) eqn:Hlt.
  { by apply has_turn_app, fair_latch_turns. }
  destruct Hawake as [|Hca]; [done|]. destruct (calls_kept labs1 σ Hi Hli) as [Ht|(σ1' & Hr1' & Hc)];
    [by apply has_turn_app|].
  rewrite Hr1 in Hr1'. injection Hr1' as <-. destruct Hc as [Hlt1|Hsame].
  - destruct (latch_run_inv labs1 σ Hi Hli) as (σ1' & Hr1' & Hi1 & Hli1). rewrite Hr1 in Hr1'. injection Hr1' as <-.
    eapply has_turn_after; [exact Hr1|]. by apply fair_latch_turns.
  - destruct Hf1 as (_ & _ & Hgone). destruct (we_calls (sys_worker σ)) as [|call calls] eqn:Hcs; [done|].
    destruct (Hgone σ1 Hr1 call ltac:(by left)). rewrite Hsame. by left.
Qed.

(** They bring the slot a round of [Fairness] forward. *)
Lemma two_rounds_due n labs1 labs2 σ σ1 : sys_inv σ -> latch_inv σ -> slot_due 2 (S n) σ ->
  we_latch (sys_worker σ) = true \/ we_calls (sys_worker σ) <> [] ->
  latch_fair labs1 σ -> latch_run labs1 σ = Done σ1 -> latch_fair labs2 σ1 ->
  exists σ2, latch_run labs2 σ1 = Done σ2 /\ slot_due 2 n σ2.
Proof.
  intros Hi Hli Hdue Hawake Hf1 Hr1 Hf2.
  pose proof (two_rounds_turn labs1 labs2 σ σ1 Hi Hli Hawake Hf1 Hr1 Hf2) as Hturn.
  destruct Hf1 as (Hl1 & _ & Hgone). destruct Hf2 as (Hl2 & _).
  destruct (turn_due n (labs1 ++ labs2) σ Hdue ltac:(by apply Forall_app) Hturn)
    as (σ2 & Hr & (HB & R & free & l & Hinv & [Hq Hfl Hc])).
  rewrite latch_run_app, Hr1 in Hr. exists σ2. split; [exact Hr|]. split; [done|]. exists R, free, l.
  split; [done|]. split; [done| |done]. intros Hin. specialize (Hfl Hin).
  destruct (decide (n = 1%nat)) as [->|]; [|lia]. exfalso.
  unfold inflight in Hin. apply in_calls in Hin as (call & Hcall & Hin).
  destruct (latch_run_due 2 2 labs1 σ ltac:(lia) Hdue Hl1) as (σ1' & Hr1' & Hdue1 & Hk1).
  rewrite Hr1 in Hr1'. injection Hr1' as <-.
  destruct (latch_run_due 2 2 labs2 σ1 ltac:(lia) Hdue1 Hl2) as (σ2' & Hr2' & _ & Hk2).
  cbn [mbind outcome_bind] in Hr. rewrite Hr in Hr2'. injection Hr2' as <-.
  specialize (Hk2 eq_refl call Hcall Hin). exact (Hgone σ1 Hr1 call (Hk1 eq_refl call Hk2 Hin) Hk2).
Qed.

(** A waiting slot is answered or in the pipeline. *)
Lemma waiting_cases R free l σ : proto_inv R free l (sys_backends σ) (sys_worker σ) -> waits σ ->
  if slot_done_at i σ then i ∉ pipeline l (sys_worker σ) else i ∈ pipeline l (sys_worker σ).
Proof.
  intros Hinv HB. destruct (backend_role k _ _ _ _ _ _ _ _ _ _ _ Hinv HB) as (r & Hr & Hph).
  destruct (inv_slot k _ _ _ _ _ _ _ _ i r Hinv Hr) as (s & Hs & Hok & _).
  unfold slot_done_at. rewrite Hs. cbn. pose proof (inv_pipeline k R free l _ _ i Hinv) as Hp.
  destruct r as [|?|p st|p|?|?|?]; try done; cbn in Hok; destruct Hok as [Hst _]; rewrite Hst.
  - rewrite bool_decide_eq_false_2 by (by destruct st). apply Hp. eexists _, _. by split.
  - rewrite bool_decide_eq_true_2 by done. rewrite Hp. intros (r & st & Hr' & Hrs). rewrite Hr in Hr'.
    by injection Hr' as <-.
Qed.

Lemma answered_due σ : sys_inv σ -> waits σ -> slot_done_at i σ = true -> slot_due 2 0 σ.
Proof.
  intros (R & free & l & Hinv) HB Hd. pose proof (waiting_cases R free l σ Hinv HB) as Hp. rewrite Hd in Hp.
  unfold pipeline in Hp. rewrite !elem_of_app in Hp. split; [done|]. exists R, free, l. split; [done|].
  split; [|intros Hin; destruct Hp; auto..]. intros p Hin. destruct Hp. left.
  apply list_elem_of_fmap. exists (Z.of_nat i). split; [lia|by eapply list_elem_of_lookup_2].
Qed.

(** A waiting slot that nothing will wake the worker for is stranded. *)
Lemma waiting_stranded σ : sys_inv σ -> latch_inv σ -> waits σ -> slot_done_at i σ = false ->
  we_latch (sys_worker σ) = false -> we_calls (sys_worker σ) = [] -> stranded σ.
Proof.
  intros (R & free & l & Hinv) [Hco _] HB Hd Hlt Hca. pose proof (waiting_cases R free l σ Hinv HB) as Hp.
  rewrite Hd in Hp. assert (Hc : completed_queue (sys_worker σ) = []).
  { destruct (completed_queue (sys_worker σ)); [done|]. rewrite Hco in Hlt by done. done. }
  split; try done. apply (queue_left _ _ _ _ Hinv). intros ->.
  unfold pipeline, inflight in Hp. rewrite Hca, Hc in Hp. by apply elem_of_nil in Hp.
Qed.

(** The rounds at whose beginning the system is stranded. *)
Definition strands (rounds : list (list label)) (σ : system L) : Prop :=
  exists pre post σ', rounds = pre ++ post /\ latch_run (concat pre) σ = Done σ' /\ stranded σ'.

Lemma latch_rounds_due n rounds σ : sys_inv σ -> latch_inv σ -> slot_due 2 n σ -> latch_rounds rounds σ ->
  (2 * n <= length rounds)%nat ->
  exists σ', latch_run (concat rounds) σ = Done σ' /\ waits σ' /\ (slot_done_at i σ' = true \/ strands rounds σ).
Proof.
  revert rounds σ. induction n as [|n IH]; intros rounds σ Hi Hli Hdue Hrounds Hn;
    pose proof (latch_rounds_others rounds σ Hi Hli Hrounds) as Hl.
  { destruct (latch_run_due 2 0 _ σ ltac:(lia) Hdue Hl) as (σ' & Hr & Hdue' & _). exists σ'.
    split; [done|]. split; [apply Hdue'|left]. by eapply (slot_due_done k pid i 2); [lia|]. }
  destruct (slot_done_at i σ) eqn:Hd.
  { pose proof (answered_due σ Hi (proj1 Hdue) Hd) as Hdue0.
    destruct (latch_run_due 2 0 _ σ ltac:(lia) Hdue0 Hl) as (σ' & Hr & Hdue' & _). exists σ'.
    split; [done|]. split; [apply Hdue'|left]. by eapply (slot_due_done k pid i 2); [lia|]. }
  destruct rounds as [|labs1 [|labs2 rounds]]; [cbn in Hn; lia..|].
  destruct (we_latch (sys_worker σ)) eqn:Hlt; [|destruct (we_calls (sys_worker σ)) as [|call calls] eqn:Hca].
  2:{ destruct (latch_run_due 2 (S n) _ σ ltac:(lia) Hdue Hl) as (σ' & Hr & Hdue' & _). exists σ'.
    split; [done|]. split; [apply Hdue'|right]. exists [], (labs1 :: labs2 :: rounds), σ.
    split; [done|]. split; [done|]. by apply waiting_stranded; [..|apply Hdue| | |]. }
  all: assert (Hawake : we_latch (sys_worker σ) = true \/ we_calls (sys_worker σ) <> [])
    by (rewrite ?Hlt, ?Hca; auto).
  all: destruct Hrounds as [Hf1 Hrounds]; destruct (latch_run_inv labs1 σ Hi Hli) as (σ1 & Hr1 & Hi1 & Hli1);
    destruct (Hrounds σ1 Hr1) as [Hf2 Hrounds2];
    destruct (two_rounds_due n labs1 labs2 σ σ1 Hi Hli Hdue Hawake Hf1 Hr1 Hf2) as (σ2 & Hr2 & Hdue2);
    destruct (latch_run_inv labs2 σ1 Hi1 Hli1) as (σ2' & Hr2' & Hi2 & Hli2);
    rewrite Hr2 in Hr2'; injection Hr2' as <-;
    destruct (IH rounds σ2 Hi2 Hli2 Hdue2 (Hrounds2 σ2 Hr2) ltac:(cbn in Hn; lia)) as (σ' & Hr & HB & Hend);
    exists σ'; cbn [concat];
    (split; [rewrite !latch_run_app, Hr1; cbn [mbind outcome_bind]; rewrite latch_run_app, Hr2; exact Hr|]);
    (split; [done|]); (destruct Hend as [Hend|(pre & post & σ'' & -> & Hpre & Hst)]; [by left|right]);
    exists (labs1 :: labs2 :: pre), post, σ''; (split; [done|]); (split; [|done]); cbn [concat];
    rewrite latch_run_app, Hr1; cbn [mbind outcome_bind]; rewrite latch_run_app, Hr2; exact Hpre.
Qed.

Lemma initial_latch_inv σ : initial_system k σ -> latch_inv σ.
Proof.
  intros (free & _ & _ & Hca & Hco & _). split; [by rewrite Hco|].
  intros call. rewrite Hca. by intros Hc%elem_of_nil.
Qed.

Lemma reached before σ0 σ : initial_system k σ0 -> latch_run before σ0 = Done σ -> sys_inv σ /\ latch_inv σ.
Proof.
  intros H0 Hrun.
  destruct (latch_run_inv before σ0 (initial_inv k σ0 H0) (initial_latch_inv σ0 H0)) as (σ1 & Hr & Hi & Hli).
  rewrite Hrun in Hr. by injection Hr as <-.
Qed.

End Way.

(** A return of [WaitLatch] with the latch set and nothing else to do: no signal,
    no interrupt, a processor. *)
Definition plain_turn (t : turn L) (b : bgw L) (σ : system L) : Prop :=
  bw_env b = sys_worker σ /\ bw_processor b = Some config /\ reload_requested b = false /\
  tn_others t (bw_env b) = bw_env b /\ tn_signals t = [] /\ tn_interrupt t = None /\ tn_latch_set t = true.

(** C36. A turn on requests that were given up strands those behind them.  In
    the runs driven by the latch, a turn of the worker's loop leaves requests
    stranded exactly when more than fifty are queued, the backends of the oldest
    fifty have all given up, and no call is in flight; no other step strands
    requests; and stranded requests stay so, whatever happens, until a backend
    queues another one. *)
Theorem given_up_batch_strands_requests before (σ0 σ : system L) :
  initial_system k σ0 -> latch_run before σ0 = Done σ ->
  (forall t b hw cfg, plain_turn t b σ -> we_latch (sys_worker σ) = true ->
     exists free l w', chan_repr k (chan_of σ) free l /\
       process_turn hw cfg t b = (Done tt, with_env b w') /\
       latch_step (LWorker (tn_now t)) σ = Done (MkSystem w' (sys_backends σ)) /\
       (stranded (MkSystem w' (sys_backends σ)) <->
        (50 < length l)%nat /\ given_up σ (take 50 l) /\ we_calls (sys_worker σ) = [])) /\
  (forall lab σ', is_turn lab = false -> latch_step lab σ = Done σ' -> stranded σ' -> stranded σ) /\
  (forall labs σ', stranded σ -> Forall (fun lab => is_enqueue lab = false) labs -> latch_run labs σ = Done σ' ->
     stranded σ').
Proof.
  intros H0 Hrun. destruct (reached before σ0 σ H0 Hrun) as [Hi Hli]. split_and!.
  - intros t b hw cfg (He & Hp & Hr & Ho & Hs & Hint & Ht) Hlt. destruct Hi as (R & free & l & Hinv).
    destruct (turn_strands (tn_now t) R free l σ Hinv Hlt) as (σ' & Hst & Hiff).
    assert (Hσ' : MkSystem (sys_worker σ') (sys_backends σ) = σ').
    { cbn [latch_step] in Hst. rewrite Hlt in Hst. cbn in Hst. repeat case_match; try done. by injection Hst as <-. }
    exists free, l, (sys_worker σ'). rewrite Hσ'. split; [apply Hinv|]. split; [|by split].
    apply (process_turn_is_latch_step hw cfg t b σ σ'); try done. by rewrite He.
  - intros lab σ' Ht Hs. by apply (others_do_not_strand lab).
  - intros labs σ' Hst Hl. clear H0 Hrun Hi Hli. revert σ Hst. induction Hl as [|lab labs He _ IH]; intros σ Hst; cbn;
      [by intros [= <-]|]. destruct (latch_step lab σ) as [σ1| |] eqn:Hs; [|done..].
    cbn. apply IH. by eapply stranded_stays.
Qed.
End Latch.

(** ** Two backends, served *)
Definition served_rounds : list (list label) :=
  [[check_label 12; LEnqueue 12; LWorker 0];
   [LReply 0 (MkStatus true []) (BatchCheckResponse ∅); LInterrupt 12; LWorker 1]; []; []; []; []].

(** One concrete round of the latch, and the state it leaves. *)
Ltac latch_now :=
  split;
    [split; [repeat constructor; vm_compute; discriminate|];
     split; [intros _; eexists; repeat first [left; reflexivity | right]|];
     let σ := fresh in let Hr := fresh in
     intros σ Hr; vm_compute in Hr; injection Hr as <-; intros call Hin
    |let σ := fresh in let Hr := fresh in intros σ Hr; vm_compute in Hr; injection Hr as <-].
Ltac idle_now :=
  split;
    [split; [constructor|]; split; [vm_compute; discriminate|];
     intros ? [= <-] call Hin; vm_compute in Hin; by apply elem_of_nil in Hin
    |intros ? [= <-]].

Lemma served_rounds_fair σ :
  latch_run client_config_sample [check_label 11; LEnqueue 11] sample_system = Done σ ->
  latch_rounds client_config_sample 11 served_rounds σ.
Proof.
  intros Hr. vm_compute in Hr. injection Hr as <-. unfold served_rounds. cbn [latch_rounds].
  latch_now; [by apply elem_of_nil in Hin|]. latch_now; [apply not_elem_of_nil|].
  do 4 idle_now. exact I.
Qed.


(** ** Fifty backends give up, and one waits *)
Definition crowd_channel : FgaChannel linked :=
  match fga_channel_shmem_init false (slots_config 60) None (Linked None ∅) (raw_slots 60) (raw_queue 64) with
  | Done c => c
  | _ => sample_channel
  end.
Definition crowd_pids : list Z := seqZ 1 51.
Definition crowd_start : system linked := startup (list_to_map ((fun p => (p, false)) <$> crowd_pids)) crowd_channel.
Definition crowd_labels : list label := concat (ask <$> crowd_pids) ++ (LInterrupt <$> seqZ 1 50).
Definition crowd : system linked :=
  match latch_run client_config_sample crowd_labels crowd_start with Done σ => σ | _ => crowd_start end.

Lemma crowd_initial : initial_system 6 crowd_start.
Proof.
  destruct (channel_initialised_spec false (slots_config 60) None 60 (Linked None ∅) (raw_slots 60) (raw_queue 64)
    ltac:(vm_compute; discriminate) eq_refl ltac:(vm_compute; reflexivity) ltac:(vm_compute; reflexivity))
    as (c & k & Hc & _ & Hk & _ & Hrepr & Hps & _).
  assert (k = 6) as ->.
  { change (2 ^ 6 = 2 ^ k) in Hk. destruct (Z.lt_ge_cases k 0); [by rewrite (Z.pow_neg_r 2 k) in Hk|].
    symmetry. apply (Z.pow_inj_r 2); [lia..|done]. }
  assert (crowd_channel = c) as Hcc by (unfold crowd_channel; by rewrite Hc).
  unfold crowd_start. rewrite Hcc. apply (startup_initial 6 60); [exact Hrepr|].
  unfold slot_count. by rewrite Hps, length_replicate.
Qed.

Lemma crowd_run : latch_run client_config_sample crowd_labels crowd_start = Done crowd.
Proof. vm_compute. reflexivity. Qed.

Definition crowd_turn : turn linked := MkTurn (fun w => w) [] true None zero_config 0.
Definition crowd_worker : bgw linked :=
  MkBgw (sys_worker crowd) (Some client_config_sample) [] false false true zero_config.

(** The numbers of the next turn. *)
Definition next_batch (σ : system linked) : list Z :=
  match fga_channel_drain_slots MAX_BATCH (we_channel (sys_worker σ)) with (Done vs, _) => vs | _ => [] end.
Definition crowd_batch : list Z := next_batch crowd.

Lemma drained_batch k (σ : system linked) free l : chan_repr k (we_channel (sys_worker σ)) free l ->
  next_batch σ = take 50 l.
Proof.
  intros Hc. unfold next_batch. by destruct (chan_drain_spec k _ free l MAX_BATCH Hc ltac:(done)) as (c & -> & _).
Qed.

Lemma crowd_batch_given_up : given_up crowd crowd_batch.
Proof.
  assert (Hall : forallb (fun v => bool_decide (slot_state <$> chan_slot (we_channel (sys_worker crowd)) (Z.to_nat v)
    = Some FGA_CHANNEL_SLOT_CANCELED)) crowd_batch = true) by (vm_compute; reflexivity).
  intros v Hv. rewrite forallb_forall in Hall. apply list_elem_of_In, Hall, bool_decide_eq_true_1 in Hv. exact Hv.
Qed.

Lemma given_up_batch_strands_requests_witness :
  exists w', process_turn 1 client_config_sample crowd_turn crowd_worker = (Done tt, with_env crowd_worker w') /\
    stranded (MkSystem w' (sys_backends crowd)) /\
    sys_backends crowd !! 51 = Some (Waiting, 9%nat).
Proof.
  destruct (given_up_batch_strands_requests 6 client_config_sample crowd_labels crowd_start crowd crowd_initial crowd_run)
    as [Hturn _].
  destruct (Hturn crowd_turn crowd_worker 1 client_config_sample) as (free & l & w' & Hc & Hp & _ & Hiff).
  - split_and!; reflexivity.
  - vm_compute. reflexivity.
  - exists w'. split; [exact Hp|]. split; [|vm_compute; reflexivity]. apply Hiff.
    pose proof (repr_queue_size (cr_queue _ _ _ _ Hc)) as Hlen.
    assert (Hq : queue_size (ch_queue (we_channel (sys_worker crowd))) = 51) by (vm_compute; reflexivity).
    rewrite Hq in Hlen. split; [lia|]. split; [|vm_compute; reflexivity].
    rewrite <- (drained_batch 6 crowd free l Hc). exact crowd_batch_given_up.
Defined.
