(* ===== verification/Concurrent.v ===== *)
(** * SQL functions among running processes

    The composition of the whole request path: the SQL functions of the
    backends ([SqlFuncs]) as runs of the system ([Calls]), the system as a
    question-answer service ([Ledger], [Refinement]), and the server.  The
    theorems are about what a SQL function returns while other backends ask,
    are interrupted or die and the worker batches their requests; an interrupted
    backend leaves its slot as [Protocol] says. *)
From S2P Require Import Prelude Platform Types CacheKey CacheSpec CacheL1 CacheL2 Stats Cache.
From S2P Require Import SlotQueue SlotPool Channel SqlFuncs ColdCache Config Client Processor Protocol.
From S2P Require Import Frames Service Ledger Refinement Effects EndToEnd Calls Fairness Capacity.

Section Concurrent.
Context {L : Type} {HS : SList L} {HL : SListLaws L}.
Context {H : Type} {HD : Dynahash FgaAclCacheKey Z H} {HX : XXHash}.
Variable use_asserts : bool.
Variable k : Z.
Variable worker_config : Config.
Variable config : FgaConfig.         (* the settings of the backends *)
Abbreviation chan_of σ := (we_channel (sys_worker σ)) (only parsing).
Abbreviation store := (SqlFuncs.store_member config) (only parsing).
Abbreviation model := (model_member config) (only parsing).

(** ** A process about to call *)
Section Caller.
Variable pid : Z.
Variable t : FgaRequestType.
Variables req_store req_model : list ascii.
Variable body : FgaRequestBody.
Variable turns : list turn.

(** The labels of the call that the turns of the others accompany. *)
Definition function_walk (σ : system L) : list label * call_end :=
  call_walk worker_config pid (request_type_code t) req_store req_model body turns σ.

(** The process is idle in [σ], shares its memory, and is woken as the turns
    of the others say. *)
Record call_ready (σ : system L) (b : backend L H) : Prop := {
  rd_alive : is_Some (we_procs (sys_worker σ) !! pid);
  rd_idle : sys_backends σ !! pid = None;
  rd_channel : env_channel (be_chan b) = chan_of σ;
  rd_latch : is_Some (bgw_latch (be_chan b));
  rd_wakes : env_wakes (be_chan b) =
    call_wakes worker_config pid (request_type_code t) req_store req_model body turns σ;
  rd_others : Forall (fun tn => by_others pid (turn_labels tn)) turns;
}.

Definition function_request (σ : system L) : FgaRequest :=
  MkRequest (u64 (ch_request_id (chan_of σ) + 1)) (request_type_code t) req_store req_model body.

Lemma function_walks σ b :
  sys_inv k σ -> call_ready σ b -> served_type (request_type_code t) = true ->
  let '(labs, en) := function_walk σ in
  exists evs σ', sys_trace worker_config labs σ = Done (evs, σ') /\ sys_inv k σ' /\
    call_ran use_asserts k pid (request_type_code t) req_store req_model body
      (be_chan b) (chan_of σ') evs en.
Proof. intros Hi [] Ht. by apply call_walks. Qed.

(** A function of the PG_TRY kind that returned has read the answer to its
    request. *)
Lemma returned_walks {A} prep finish (value : FgaResponse -> outcome A) σ b a :
  sys_inv k σ -> call_ready σ b -> served_type (request_type_code t) = true ->
  prepares (H := H) pid k prep t req_store req_model body -> finishes finish value ->
  (call_function use_asserts pid prep finish b).1 = Done a ->
  exists labs evs σ' req resp, function_walk σ = (labs, CallWaited WaitAnswered) /\
    sys_trace worker_config labs σ = Done (evs, σ') /\ value resp = Done a /\
    answered_call pid (function_request σ) evs req resp.
Proof.
  intros Hi Hrd Ht Hprep Hfin Hx. pose proof (function_walks σ b Hi Hrd Ht) as Hw.
  destruct (function_walk σ) as [labs en]. destruct Hw as (evs & σ' & Htr & _ & Hran).
  pose proof (call_function_done _ _ _ _ _ _ _ _ Hprep _ b _ _ _ a Hran Hx) as ->.
  destruct (call_function_ran _ _ _ _ _ _ _ _ Hprep _ value Hfin b _ _ Hran)
    as (r & b' & Hr & _ & req & resp & Hans & ->). rewrite Hr in Hx.
  exists labs, evs, σ', req, resp. split_and!; try done. unfold function_request.
  by rewrite <- (rd_channel _ _ Hrd).
Qed.
End Caller.

(** The calls that carry the tuple of their arguments. *)
Definition sql_walk (pid : Z) (t : FgaRequestType) (body : FgaTuple -> FgaRequestBody) (args : TupleArgsView)
    (turns : list turn) (σ : system L) : list label * call_end :=
  function_walk pid t store model (body (padded_tuple args)) turns σ.
Definition ready (pid : Z) (t : FgaRequestType) (body : FgaTuple -> FgaRequestBody) (args : TupleArgsView)
    (turns : list turn) (σ : system L) (b : backend L H) : Prop :=
  call_ready pid t store model (body (padded_tuple args)) turns σ b.
Definition sql_request (t : FgaRequestType) (body : FgaTuple -> FgaRequestBody) (args : TupleArgsView)
    (σ : system L) : FgaRequest :=
  tuple_request config (u64 (ch_request_id (chan_of σ) + 1)) t body args.

(** A check with valid arguments that the cache does not answer. *)
Record uncached_check (MyProcNumber : Z) (stack_key : FgaAclCacheKey) (now : Z) (fcinfo : list text)
    (args : TupleArgsView) (b : backend L H) : Prop := {
  uc_args : read_tuple_args fcinfo = Done args;
  uc_miss : exists key ce, build_cache_key use_asserts config stack_key args = Done key /\
    fga_cache_lookup MyProcNumber config key now (be_cache b) = (Done None, ce);
  uc_store : c_str_empty (store_id config) = false;
}.


(** With the cache the SQL functions leave, no check is answered from it. *)
Lemma cold_uncached {HDL : DynahashLaws FgaAclCacheKey Z H} n MyProcNumber stack_key now fcinfo args key
    (b : backend L H) :
  cold n (be_cache b) -> -1 <= MyProcNumber < Z.of_nat n -> read_tuple_args fcinfo = Done args ->
  build_cache_key use_asserts config stack_key args = Done key -> c_str_empty (store_id config) = false ->
  uncached_check MyProcNumber stack_key now fcinfo args b.
Proof.
  intros Hc Hn Hargs Hkey Hst. split; [done| |done].
  destruct (cold_lookup n MyProcNumber config key now (be_cache b) Hc Hn) as (ce & Hl & _). by exists key, ce.
Qed.

Lemma check_walks MyProcNumber stack_key now fcinfo pid args turns σ b :
  sys_inv k σ -> ready pid FGA_REQUEST_CHECK ReqCheckTuple args turns σ b ->
  uncached_check MyProcNumber stack_key now fcinfo args b ->
  let '(labs, en) := sql_walk pid FGA_REQUEST_CHECK ReqCheckTuple args turns σ in
  exists evs σ' r b', sys_trace worker_config labs σ = Done (evs, σ') /\ sys_inv k σ' /\
    fga_check use_asserts config pid MyProcNumber stack_key now fcinfo b = (r, b') /\
    env_channel (be_chan b') = chan_of σ' /\
    call_returns check_value pid (sql_request FGA_REQUEST_CHECK ReqCheckTuple args σ) evs en r.
Proof.
  intros Hi Hrd [Hargs (key & ce & Hkey & Hmiss) Hst].
  pose proof (function_walks _ _ _ _ _ _ σ b Hi Hrd eq_refl) as Hw. unfold sql_walk.
  destruct (function_walk _ _ _ _ _ _ σ) as [labs en]. destruct Hw as (evs & σ' & Ht & Hi' & Hran).
  destruct (fga_check_ran use_asserts config pid MyProcNumber k stack_key now fcinfo b args key ce _ evs en
    Hargs Hkey Hmiss Hst Hran) as (r & b' & Hx & Hc & _ & Hret).
  exists evs, σ', r, b'. split_and!; try done. unfold sql_request. by rewrite <- (rd_channel _ _ _ _ _ _ _ _ Hrd).
Qed.

Lemma sys_inv_run labs σ σ' : sys_inv k σ -> sys_run worker_config labs σ = Done σ' -> sys_inv k σ'.
Proof.
  intros Hi Hr. destruct (sys_run_inv k worker_config labs σ Hi) as (σ1 & Hr1 & Hi1).
  rewrite Hr in Hr1. by injection Hr1 as <-.
Qed.

(** C6. A call of [fga_check] among running processes is a run of the system.
    From any state the system reaches, with valid arguments, no cached decision
    and a configured store: whatever the others do between the wake-ups of the
    wait loop, and whether the pool is exhausted, the queue full, the wait
    interrupted, answered or endless, the function leaves the channel exactly
    as the labels of the call and of the others' turns leave it, and returns
    what the events of this run say. *)
Theorem fga_check_runs_the_protocol MyProcNumber stack_key now fcinfo pid args turns before σ0 σ b :
  initial_system k σ0 -> sys_run worker_config before σ0 = Done σ ->
  ready pid FGA_REQUEST_CHECK ReqCheckTuple args turns σ b ->
  uncached_check MyProcNumber stack_key now fcinfo args b ->
  let '(labs, en) := sql_walk pid FGA_REQUEST_CHECK ReqCheckTuple args turns σ in
  exists evs σ' r b', sys_trace worker_config labs σ = Done (evs, σ') /\
    fga_check use_asserts config pid MyProcNumber stack_key now fcinfo b = (r, b') /\
    env_channel (be_chan b') = chan_of σ' /\
    call_returns check_value pid (sql_request FGA_REQUEST_CHECK ReqCheckTuple args σ) evs en r.
Proof.
  intros H0 Hrun Hrd Huc.
  pose proof (sys_inv_run _ _ _ (initial_inv k σ0 H0) Hrun) as Hi.
  pose proof (check_walks MyProcNumber stack_key now fcinfo pid args turns σ b Hi Hrd Huc) as Hw.
  destruct (sql_walk _ _ _ _ _ σ) as [labs en]. destruct Hw as (evs & σ' & r & b' & Ht & _ & Hx & Hc & Hret).
  by exists evs, σ', r, b'.
Qed.

(** ** What concurrent calls return *)

(** The events of runs one after the other are those of a run of the service. *)
Lemma runs_service {S} P (serves : S -> _ -> _ -> _ -> S -> Prop) s before labs σ0 σ evs σ' :
  batches_read serves -> initial_system k σ0 -> 0 <= ch_request_id (chan_of σ0) ->
  ch_request_id (chan_of σ0) + Z.of_nat (length (before ++ labs)) < 2 ^ 64 ->
  labs_ok worker_config P serves (before ++ labs) σ0 s ->
  sys_run worker_config before σ0 = Done σ -> sys_trace worker_config labs σ = Done (evs, σ') ->
  exists evs0 v, sys_trace worker_config before σ0 = Done (evs0, σ) /\
    service_run (answered_by worker_config P serves) (MkService ∅ [] s) (evs0 ++ evs) v.
Proof.
  intros Hb H0 Hid Hlen Hok Hrun Ht.
  destruct (system_runs_service k worker_config P serves _ σ0 s Hb H0 Hid Hlen Hok) as (all & σ1 & v & Hall & Hr).
  destruct (sys_run_trace worker_config before σ0 σ Hrun) as (evs0 & Ht0).
  rewrite (sys_trace_app worker_config _ _ _ _ _ _ _ Ht0 Ht) in Hall. injection Hall as <- _. by exists evs0, v.
Qed.

Lemma check_value_granted d : check_value (granted_response d) = Done d.
Proof. done. Qed.

(** A call takes effect at one moment between its start and its end. *)
Lemma call_moment {S} P (serves : S -> _ -> _ -> _ -> S -> Prop) before labs σ0 σ evs σ' s sb sa pid req req' resp :
  batches_read serves -> initial_system k σ0 -> 0 <= ch_request_id (chan_of σ0) ->
  ch_request_id (chan_of σ0) + Z.of_nat (length (before ++ labs)) < 2 ^ 64 ->
  labs_end worker_config P serves before σ0 s sb -> sys_run worker_config before σ0 = Done σ ->
  labs_end worker_config P serves labs σ sb sa -> sys_trace worker_config labs σ = Done (evs, σ') ->
  answered_call pid req evs req' resp ->
  let goes := rtc (server_step (answered_by worker_config P serves)) in
  exists s1 s2, goes sb s1 /\ answered_by worker_config P serves s1 req resp s2 /\ goes s2 sa.
Proof.
  intros Hb H0 Hid Hlen Hok0 Hrun Hok Ht (evs' & -> & Hno) goes.
  destruct (sys_run_trace worker_config before σ0 σ Hrun) as (evs0 & Ht0).
  destruct (system_ends_service_twice k worker_config P serves before labs σ0 σ evs0 s sb sa Hb H0 Hid Hlen
    Hok0 Ht0 Hok) as (v0 & evs1 & σ1 & v & _ & <- & Ht1 & Hr & <-).
  rewrite Ht in Ht1. injection Ht1 as <- _.
  destruct (service_run_split _ _ [] _ _ _ Hr) as (u & u' & R1 & S1 & R2).
  pose proof (service_run_moment _ _ _ _ evs' pid req' resp [] R2 eq_refl Hno) as Hm.
  inversion S1 as [p rq Hn| | | |]; subst. cbn in Hm. rewrite lookup_insert_eq in Hm.
  destruct Hm as [-> (e2a & e2b & w & w' & _ & Hw & _ & Hans & Hw')].
  apply service_run_server in R1, Hw, Hw'. exists (sv_server w), (sv_server w').
  split; [by etransitivity|done].
Qed.


(** ** The store functions *)

(** The answer to the creation of a store. *)
Lemma create_answer {S} P (serves : S -> _ -> _ -> _ -> S -> Prop) s id name resp s' composite v :
  answered_by worker_config P serves s (store_request id name) resp s' ->
  create_value composite resp = Done v ->
  exists call st reply, serves s call st reply s' /\ call_request call = RpcCreateStore (cut (c_str name)) /\
    st_ok st = true /\ v = created reply.
Proof.
  intros (call & st & reply & [now i Hin _|now items i _ Hin _ Hall] & Hm & Hs & ->) Hv.
  - apply list_elem_of_singleton in Hin as ->. eexists _, st, reply. split; [exact Hs|]. split.
    + by rewrite (cut_padded OPENFGA_STORE_NAME_LEN).
    + destruct reply as [| | |rid rname|]; try done. revert Hv. unfold create_value.
      destruct st as [[] msg]; [|done]. cbn [reply_update call_callback st_ok]. rewrite decide_False by (by intros []).
      destruct composite; [|done]. cbn [negb]. rewrite created_text. by intros [= <-].
  - by destruct (Hall _ Hin).
Qed.

Lemma delete_answer {S} P (serves : S -> _ -> _ -> _ -> S -> Prop) s id sid resp s' v :
  answered_by worker_config P serves s (delete_store_request id sid) resp s' -> delete_value resp = Done v ->
  exists call st reply, serves s call st reply s' /\ call_request call = RpcDeleteStore (cut (c_str sid)) /\
    st_ok st = true.
Proof.
  intros (call & st & reply & [now i Hin _|now items i _ Hin _ Hall] & Hm & Hs & ->) Hv.
  - apply list_elem_of_singleton in Hin as ->. eexists _, st, reply. split; [exact Hs|]. split.
    + by rewrite (cut_padded OPENFGA_STORE_ID_LEN).
    + by destruct st as [[] msg], reply.
  - by destruct (Hall _ Hin).
Qed.

(** ** A change and a later check *)
Definition sql_change (write : bool) (pid : Z) (fcinfo : list text) : CM (backend L H) bool :=
  if write then fga_write_tuple use_asserts config pid fcinfo else fga_delete_tuple use_asserts config pid fcinfo.

Lemma sql_change_function write pid fcinfo args : read_tuple_args fcinfo = Done args ->
  exists finish msg, finishes (H := H) finish (change_value msg) /\ forall b, sql_change write pid fcinfo b =
    call_function use_asserts pid (prepare_tuple use_asserts config (change_type write) (change_body write) args) finish b.
Proof.
  intros Hargs.
  assert (Hmsg : exists msg, forall b, sql_change write pid fcinfo b = tuple_change use_asserts config pid
    (change_type write) (change_body write) msg args b).
  { unfold sql_change. destruct write; eexists; intros b; [by apply write_tuple_change|by apply delete_tuple_change]. }
  destruct Hmsg as [msg Heq].
  destruct (tuple_change_function (H := H) use_asserts config pid (change_type write) (change_body write) msg args)
    as (finish & Hfin & Hcall). exists finish, msg. split; [done|]. intros b. by rewrite Heq, Hcall.
Qed.

Lemma change_walks write fcinfo pid args turns σ b :
  sys_inv k σ -> ready pid (change_type write) (change_body write) args turns σ b ->
  read_tuple_args fcinfo = Done args -> c_str_empty (store_id config) = false ->
  (sql_change write pid fcinfo b).1 = Done true ->
  exists labs evs σ' req resp, sql_walk pid (change_type write) (change_body write) args turns σ =
      (labs, CallWaited WaitAnswered) /\
    sys_trace worker_config labs σ = Done (evs, σ') /\ status resp = FGA_RESPONSE_OK /\
    answered_call pid (sql_request (change_type write) (change_body write) args σ) evs req resp.
Proof.
  intros Hi Hrd Hargs Hst Hx.
  destruct (sql_change_function write pid fcinfo args Hargs) as (finish & msg & Hfin & Heq). rewrite Heq in Hx.
  destruct (returned_walks _ _ _ _ _ _ _ _ _ σ b true Hi Hrd ltac:(by destruct write)
    (prepare_tuple_spec use_asserts config pid k _ _ args Hst) Hfin Hx)
    as (labs & evs & σ' & req & resp & Hw & Ht & Hv & Hans).
  exists labs, evs, σ', req, resp. split_and!; try done. unfold change_value in Hv. by case_decide.
Qed.

(** The answer to a write or deletion. *)
Lemma change_answered {S} P (serves : S -> _ -> _ -> _ -> S -> Prop) s id write args resp s' :
  answered_by worker_config P serves s (tuple_request config id (change_type write) (change_body write) args) resp s' ->
  args_no_nul args -> status resp = FGA_RESPONSE_OK ->
  exists call st reply, serves s call st reply s' /\
    call_request call = call_request (change_call config worker_config 0 0 write args) /\ st_ok st = true.
Proof.
  intros (call & st & reply & [now i Hin _|now items i _ Hin _ Hall] & Hm & Hs & ->) Hn Hok.
  - rewrite change_process in Hin by done. apply list_elem_of_singleton in Hin as ->.
    eexists _, st, reply. split; [exact Hs|]. split; [by destruct write|]. by destruct write, st as [[] msg], reply.
  - destruct (Hall _ Hin) as [Hc _]. by destruct write.
Qed.

Section Effect.
Context {S : Type}.
Variable P : FgaRequest -> Prop.
Variable serves : S -> rpc_call -> GrpcStatus -> rpc_response -> S -> Prop.
Variable before : list label.
Variables σ0 σ : system L.
Variable pid : Z.
Variable turns : list turn.
Variable b : backend L H.
Variables s sb sa : S.

(** At one moment between the start and the end of a call, the server has
    accepted a call of this request; [told] is what it answered. *)
Definition takes_effect (walk : list label * call_end) (request : rpc_request) (told : rpc_response -> Prop) : Prop :=
  let goes := rtc (server_step (answered_by worker_config P serves)) in
  ch_request_id (chan_of σ0) + Z.of_nat (length (before ++ walk.1)) < 2 ^ 64 ->
  labs_end worker_config P serves walk.1 σ sb sa ->
  exists s1 s2 call st reply, goes sb s1 /\ serves s1 call st reply s2 /\ goes s2 sa /\
    call_request call = request /\ st_ok st = true /\ told reply.

(** C10. SQL functions that change something, among running processes.  Whatever the
    other backends and the worker do meanwhile, when [fga_write_tuple],
    [fga_delete_tuple], [fga_create_store] or [fga_delete_store] returns, then at
    one moment between the start and the end of its call the server has accepted
    a call for exactly what the arguments and the configuration say (names cut
    at 63 bytes); [fga_create_store] returns the id and the name the server
    answered.  Interrupted backends release their slot once; when the handler of
    a change releases it twice, this fails, as [Hazards] shows. *)
Theorem sql_changes_take_effect :
  batches_read serves -> initial_system k σ0 -> 0 <= ch_request_id (chan_of σ0) ->
  sys_run worker_config before σ0 = Done σ -> labs_end worker_config P serves before σ0 s sb ->
  (forall write fcinfo args,
    ready pid (change_type write) (change_body write) args turns σ b ->
    read_tuple_args fcinfo = Done args -> args_no_nul args -> c_str_empty (store_id config) = false ->
    (sql_change write pid fcinfo b).1 = Done true ->
    takes_effect (sql_walk pid (change_type write) (change_body write) args turns σ)
      (call_request (change_call config worker_config 0 0 write args)) (fun _ => True)) /\
  (forall name composite v,
    let body := ReqCreateStore (padded OPENFGA_STORE_NAME_LEN (c_str name)) in
    call_ready pid FGA_REQUEST_CREATE_STORE (zeros OPENFGA_STORE_ID_LEN) (zeros OPENFGA_MODEL_ID_LEN) body turns σ b ->
    (fga_create_store use_asserts pid composite (Some name) b).1 = Done v ->
    takes_effect (function_walk pid FGA_REQUEST_CREATE_STORE (zeros OPENFGA_STORE_ID_LEN)
      (zeros OPENFGA_MODEL_ID_LEN) body turns σ)
      (RpcCreateStore (cut (c_str name))) (fun reply => v = created reply)) /\
  (forall sid,
    let store_id := padded OPENFGA_STORE_ID_LEN (c_str sid) in
    call_ready pid FGA_REQUEST_DELETE_STORE store_id (zeros OPENFGA_MODEL_ID_LEN) ReqZero turns σ b ->
    (fga_delete_store use_asserts pid (Some sid) b).1 = Done tt ->
    takes_effect (function_walk pid FGA_REQUEST_DELETE_STORE store_id (zeros OPENFGA_MODEL_ID_LEN) ReqZero turns σ)
      (RpcDeleteStore (cut (c_str sid))) (fun _ => True)).
Proof.
  intros Hb H0 Hid Hrun Hok0. pose proof (sys_inv_run _ _ _ (initial_inv k σ0 H0) Hrun) as Hi.
  pose proof (fun labs evs σ' req req' resp Ht Hans Hlen Hok =>
    call_moment P serves before labs σ0 σ evs σ' s sb sa pid req req' resp Hb H0 Hid Hlen Hok0 Hrun Hok Ht Hans)
    as Hmoment.
  unfold takes_effect. split_and!.
  - intros write fcinfo args Hrd Hargs Hn Hst Hx Hlen Hok.
    destruct (change_walks write fcinfo pid args turns σ b Hi Hrd Hargs Hst Hx)
      as (labs & evs & σ' & req & resp & Hw & Ht & Hv & Hans). rewrite Hw in *.
    destruct (Hmoment _ _ _ _ _ _ Ht Hans Hlen Hok) as (s1 & s2 & H1 & Ha & H2).
    destruct (change_answered P serves s1 _ write args resp s2 Ha Hn Hv) as (call & st & reply & Hs & Hc & Hok').
    by exists s1, s2, call, st, reply.
  - intros name composite v Hrd Hx Hlen Hok.
    destruct (create_store_function (H := H) use_asserts pid k composite name) as (prep & finish & Hprep & Hfin & Heq).
    rewrite Heq in Hx.
    destruct (returned_walks _ _ _ _ _ _ prep finish _ σ b v Hi Hrd eq_refl Hprep Hfin Hx)
      as (labs & evs & σ' & req & resp & Hw & Ht & Hv & Hans). rewrite Hw in *.
    destruct (Hmoment _ _ _ _ _ _ Ht Hans Hlen Hok) as (s1 & s2 & H1 & Ha & H2).
    destruct (create_answer P serves s1 _ name resp s2 composite v Ha Hv) as (call & st & reply & Hs & Hc & Hok' & ->).
    by exists s1, s2, call, st, reply.
  - intros sid Hrd Hx Hlen Hok.
    destruct (delete_store_function (H := H) use_asserts pid k sid) as (prep & finish & Hprep & Hfin & Heq).
    rewrite Heq in Hx.
    destruct (returned_walks _ _ _ _ _ _ prep finish _ σ b tt Hi Hrd eq_refl Hprep Hfin Hx)
      as (labs & evs & σ' & req & resp & Hw & Ht & Hv & Hans). rewrite Hw in *.
    destruct (Hmoment _ _ _ _ _ _ Ht Hans Hlen Hok) as (s1 & s2 & H1 & Ha & H2).
    destruct (delete_answer P serves s1 _ sid resp s2 tt Ha Hv) as (call & st & reply & Hs & Hc & Hok').
    by exists s1, s2, call, st, reply.
Qed.
End Effect.


(** ** Calls come to an end *)

(** Steps of the worker and the server only. *)
Definition served_labels (labs : list label) : Prop := Forall (fun lab => label_pid lab = None) labs.

Lemma served_by_others pid labs : served_labels labs -> by_others pid labs.
Proof. intros Hl. eapply Forall_impl; [exact Hl|]. by intros lab ->. Qed.

Lemma reply_all_labels answers n σ σ' :
  reply_all worker_config answers n σ = Done σ' ->
  exists labs, served_labels labs /\ sys_run worker_config labs σ = Done σ'.
Proof.
  revert σ. induction n as [|n IH]; intros σ; cbn [reply_all].
  - intros [= <-]. exists []. split; [constructor|done].
  - destruct (we_calls (sys_worker σ)) as [|call calls]; [intros [= <-]; exists []; split; [constructor|done]|].
    destruct (sys_step worker_config (LReply 0 _ _) σ) as [σ1| |] eqn:Hs; [|done..].
    intros (labs & Hl & Hr)%IH. exists (LReply 0 (answers call).1 (answers call).2 :: labs).
    split; [by apply Forall_cons|]. cbn [sys_run]. by rewrite Hs.
Qed.

Lemma serve_labels answers n now σ σ' :
  serve worker_config answers n now σ = Done σ' ->
  exists labs, served_labels labs /\ sys_run worker_config labs σ = Done σ'.
Proof.
  revert σ. induction n as [|n IH]; intros σ; cbn [serve].
  - intros Hs. exists [LWorker now]. split; [by repeat constructor|]. cbn [sys_run]. by rewrite Hs.
  - unfold serve_round. destruct (sys_step worker_config (LWorker now) σ) as [σ1| |] eqn:Hs; [|done..].
    unfold mbind, outcome_bind. destruct (reply_all _ _ _ σ1) as [σ2| |] eqn:Hra; [|done..].
    intros (labs2 & Hl2 & Hr2)%IH. apply reply_all_labels in Hra as (labs1 & Hl1 & Hr1).
    exists (LWorker now :: labs1 ++ labs2). split; [by apply Forall_cons; split; [|apply Forall_app]|].
    cbn [sys_run]. rewrite Hs. unfold mbind, outcome_bind. rewrite sys_run_app, Hr1. exact Hr2.
Qed.

Lemma wait_can_end (answers : rpc_call -> GrpcStatus * rpc_response) pid i σ :
  (forall call, reply_matches (call_callback call) (answers call).2 = true) ->
  sys_inv k σ -> sys_backends σ !! pid = Some (Waiting, i) ->
  exists labs, served_labels labs /\ (wait_walk worker_config i [MkTurn labs None] σ).2 = WaitAnswered.
Proof.
  intros Hans Hi HB. set (q := queue_size (ch_queue (chan_of σ))).
  destruct (serve_answers k worker_config answers (Z.to_nat q) 0 σ Hans Hi) as (σ' & Hs & _ & _ & _ & Hdone);
    [fold q; lia|].
  destruct (serve_labels _ _ _ _ _ Hs) as (labs & Hl & Hr). exists labs. split; [done|].
  cbn [wait_walk turn_interrupt turn_labels]. destruct (slot_done_at i σ); [done|]. rewrite Hr. cbn [wait_walk].
  destruct (Hdone pid i HB) as (s & Hsl & Hst).
  assert (slot_done_at i σ' = true) as -> by (apply bool_decide_eq_true_2; by rewrite Hsl, <- Hst).
  done.
Qed.

Lemma call_can_end (answers : rpc_call -> GrpcStatus * rpc_response) pid t body args σ :
  (forall call, reply_matches (call_callback call) (answers call).2 = true) ->
  sys_inv k σ -> is_Some (we_procs (sys_worker σ) !! pid) -> sys_backends σ !! pid = None ->
  served_type (request_type_code t) = true ->
  exists labs, served_labels labs /\
    (sql_walk pid t body args [MkTurn labs None] σ).2 ∈
      [CallExhausted; CallQueueFull; CallWaited WaitAnswered].
Proof.
  intros Hans Hi Hp HB Ht. unfold sql_walk, function_walk, call_walk.
  destruct (acquire_walks k worker_config pid (request_type_code t) store model (body (padded_tuple args)) σ
    Hi Hp HB Ht) as (σ1 & -> & Hi1 & [[-> _]|(i & free & l & _ & _ & HB1 & _)]).
  { rewrite HB. exists []. split; [constructor|by left]. }
  rewrite HB1. unfold enqueue_walk.
  destruct (sys_step_inv k worker_config (LEnqueue pid) σ1 Hi1) as (σ2 & Hst & Hi2). rewrite Hst.
  assert (HB2 : sys_backends σ2 !! pid = None \/ sys_backends σ2 !! pid = Some (Waiting, i)).
  { clear Hi2. cbn in Hst. rewrite HB1 in Hst. repeat case_match; try done; injection Hst as <-; cbn;
      rewrite ?lookup_insert_eq, ?lookup_delete_eq; auto. }
  destruct HB2 as [HB2|HB2].
  - rewrite HB2. exists []. split; [constructor|by right; left].
  - destruct (wait_can_end answers pid i σ2 Hans Hi2 HB2) as (labs & Hl & Hend). exists labs. split; [done|].
    rewrite HB2. destruct (wait_walk _ i _ σ2) as [ls en]. cbn in Hend. subst en. by right; right; left.
Qed.

(** ** Calls under fair turns *)
Section FairTurns.
Variable pid : Z.
Variable turns : list turn.
Variable σ : system L.

(** From the moment the request is queued, the turns of the others are fair
    rounds, as many as the queue before it asks for. *)
Definition fair_turns (t : FgaRequestType) (req_store req_model : list ascii) (body : FgaRequestBody) : Prop :=
  forall σ2 i, sys_run worker_config [acquire_label pid (request_type_code t) req_store req_model body; LEnqueue pid] σ
      = Done σ2 ->
    sys_backends σ2 !! pid = Some (Waiting, i) ->
    fair_rounds worker_config pid (turn_labels <$> turns) σ2 /\ enough_rounds σ2 (length turns).

(** How a call can end then: answered, interrupted by one of the turns, or
    without a slot or a place in the queue; it does not wait on. *)
Definition fair_end (en : call_end) : Prop :=
  match en with
  | CallWaited WaitAnswered => True
  | CallWaited (WaitInterrupted err) => exists tn, tn ∈ turns /\ turn_interrupt tn = Some err
  | CallWaited WaitBlocked => False
  | CallExhausted => (fga_channel_acquire_slot pid (chan_of σ)).1 =
      Error (PgError "ERRCODE_OUT_OF_MEMORY" "channel slot pool exhausted")
  | CallQueueFull => 2 ^ k <= Z.of_nat (slot_count (chan_of σ))
  end.

Lemma fair_walk t req_store req_model body b :
  sys_inv k σ -> call_ready pid t req_store req_model body turns σ b ->
  served_type (request_type_code t) = true -> fair_turns t req_store req_model body ->
  fair_end (function_walk pid t req_store req_model body turns σ).2.
Proof.
  intros Hi Hrd Ht Hfair. unfold function_walk, call_walk.
  destruct (acquire_walks k worker_config pid (request_type_code t) req_store req_model body σ
    Hi (rd_alive _ _ _ _ _ _ _ _ Hrd) (rd_idle _ _ _ _ _ _ _ _ Hrd) Ht)
    as (σ1 & Hst & Hi1 & [[-> Ha]|(i & free & l & _ & _ & HB1 & _)]); rewrite Hst.
  { rewrite (rd_idle _ _ _ _ _ _ _ _ Hrd). cbn. by rewrite Ha. }
  rewrite HB1. unfold enqueue_walk.
  destruct (sys_step_inv k worker_config (LEnqueue pid) σ1 Hi1) as (σ2 & Hst2 & Hi2). rewrite Hst2.
  destruct (sys_backends σ2 !! pid) as [[ph j]|] eqn:HB2.
  - assert (HW : sys_backends σ2 !! pid = Some (Waiting, i)).
    { clear Hi2. cbn in Hst2. rewrite HB1 in Hst2. repeat case_match; try done; injection Hst2 as <-; cbn in *;
        rewrite ?lookup_insert_eq, ?lookup_delete_eq in *; done. }
    destruct (Hfair σ2 i) as [Hf Hn]; [cbn [sys_run]; rewrite Hst; cbn [mbind outcome_bind]; by rewrite Hst2|done|].
    destruct (waiting_due_within k pid i σ2 (length turns) Hi2 HW Hn) as (m & Hdue & Hm).
    pose proof (fair_wait_ends k worker_config pid i m turns σ2 Hdue Hf Hm) as Hend.
    destruct (wait_walk worker_config i turns σ2) as [labs en] eqn:Hw. by destruct en.
  - cbn. apply Z.nlt_ge. intros Hlt. pose proof (step_same_slots k worker_config _ _ _ Hi Hst) as Hsame.
    destruct (owned_is_queued k worker_config σ1 pid i Hi1) as (σ2' & Hst2' & HB2'); [by rewrite Hsame|done|].
    rewrite Hst2 in Hst2'. injection Hst2' as <-. congruence.
Qed.

(** What the walk of a function of the PG_TRY kind means for its return. *)
Lemma fair_function_ends {A} t req_store req_model body prep finish (value : FgaResponse -> outcome A) b :
  sys_inv k σ -> call_ready pid t req_store req_model body turns σ b ->
  served_type (request_type_code t) = true -> fair_turns t req_store req_model body ->
  prepares (H := H) pid k prep t req_store req_model body -> finishes finish value ->
  (forall resp, ends (value resp)) -> ends (call_function use_asserts pid prep finish b).1.
Proof.
  intros Hi Hrd Ht Hfair Hprep Hfin Hv.
  pose proof (function_walks pid t req_store req_model body turns σ b Hi Hrd Ht) as Hw.
  pose proof (fair_walk t req_store req_model body b Hi Hrd Ht Hfair) as Hend.
  destruct (function_walk _ _ _ _ _ _ σ) as [labs en]. destruct Hw as (evs & σ' & _ & (R & free & l & Hinv) & Hran).
  eapply call_function_ends; [exact Hprep|exact Hfin|exact Hran| | |done].
  - exact (cr_pool_lock _ _ _ _ (pi_chan _ _ _ _ _ _ _ _ _ Hinv)).
  - by intros ->.
Qed.

(** C7. Every SQL function comes to an end under fair turns.  From any state the
    system reaches, let the turns that accompany a call be fair rounds, as many
    as the queue before its request asks for.  Then none of the five functions
    waits forever, neither in its wait nor for a lock in its error handling; and
    [fga_check] returns what it makes of an answer, or the error of an interrupt
    that came with a turn, of a pool without a free slot, or of a full queue,
    which needs as many slots as the queue has places (a power of two). *)
Theorem fair_calls_end before σ0 b :
  initial_system k σ0 -> sys_run worker_config before σ0 = Done σ ->
  (forall MyProcNumber stack_key now fcinfo args,
    ready pid FGA_REQUEST_CHECK ReqCheckTuple args turns σ b ->
    uncached_check MyProcNumber stack_key now fcinfo args b ->
    fair_turns FGA_REQUEST_CHECK store model (ReqCheckTuple (padded_tuple args)) ->
    let en := (sql_walk pid FGA_REQUEST_CHECK ReqCheckTuple args turns σ).2 in
    exists r b', fga_check use_asserts config pid MyProcNumber stack_key now fcinfo b = (r, b') /\ fair_end en /\
      match en with
      | CallWaited WaitAnswered => exists resp, r = check_value resp
      | CallWaited (WaitInterrupted err) => r = Error err
      | _ => exists err, r = Error err
      end) /\
  (forall write fcinfo args,
    ready pid (change_type write) (change_body write) args turns σ b ->
    read_tuple_args fcinfo = Done args -> c_str_empty (store_id config) = false ->
    fair_turns (change_type write) store model (change_body write (padded_tuple args)) ->
    ends (sql_change write pid fcinfo b).1) /\
  (forall name composite,
    let body := ReqCreateStore (padded OPENFGA_STORE_NAME_LEN (c_str name)) in
    call_ready pid FGA_REQUEST_CREATE_STORE (zeros OPENFGA_STORE_ID_LEN) (zeros OPENFGA_MODEL_ID_LEN) body turns σ b ->
    fair_turns FGA_REQUEST_CREATE_STORE (zeros OPENFGA_STORE_ID_LEN) (zeros OPENFGA_MODEL_ID_LEN) body ->
    ends (fga_create_store use_asserts pid composite (Some name) b).1) /\
  (forall sid,
    let store_id := padded OPENFGA_STORE_ID_LEN (c_str sid) in
    call_ready pid FGA_REQUEST_DELETE_STORE store_id (zeros OPENFGA_MODEL_ID_LEN) ReqZero turns σ b ->
    fair_turns FGA_REQUEST_DELETE_STORE store_id (zeros OPENFGA_MODEL_ID_LEN) ReqZero ->
    ends (fga_delete_store use_asserts pid (Some sid) b).1).
Proof.
  intros H0 Hrun. pose proof (sys_inv_run _ _ _ (initial_inv k σ0 H0) Hrun) as Hi. split_and!.
  - intros MyProcNumber stack_key now fcinfo args Hrd Huc Hfair en.
    pose proof (check_walks MyProcNumber stack_key now fcinfo pid args turns σ b Hi Hrd Huc) as Hw.
    pose proof (fair_walk _ _ _ _ b Hi Hrd eq_refl Hfair) as Hend. unfold en, sql_walk in *.
    destruct (function_walk _ _ _ _ _ _ σ) as [labs en']. destruct Hw as (evs & σ' & r & b' & _ & _ & Hx & _ & Hret).
    exists r, b'. split; [done|]. cbn in *. split; [done|]. destruct en' as [| |[|err|]]; cbn in Hret; naive_solver.
  - intros write fcinfo args Hrd Hargs Hst Hfair.
    destruct (sql_change_function write pid fcinfo args Hargs) as (finish & msg & Hfin & ->).
    eapply fair_function_ends; [done..|by destruct write|done|by apply prepare_tuple_spec|done|].
    intros resp. unfold change_value. by case_decide.
  - intros name composite body Hrd Hfair.
    destruct (create_store_function (H := H) use_asserts pid k composite name) as (prep & finish & Hprep & Hfin & ->).
    eapply fair_function_ends; try done. intros resp. unfold create_value. case_decide; [done|].
    destruct composite; [|done]. cbn. by destruct (resp_body resp).
  - intros sid store_id Hrd Hfair.
    destruct (delete_store_function (H := H) use_asserts pid k sid) as (prep & finish & Hprep & Hfin & ->).
    eapply fair_function_ends; try done. intros resp. unfold delete_value. by case_decide.
Qed.
End FairTurns.

(** Fair turns exist.  From any state the system reaches, whatever the other
    backends have queued, some steps of the worker and replies of the server of
    any well-typed kind bring the call of a live, idle backend to its end. *)
Theorem every_check_can_complete (answers : rpc_call -> GrpcStatus * rpc_response)
    MyProcNumber stack_key now fcinfo pid args before σ0 σ :
  (forall call, reply_matches (call_callback call) (answers call).2 = true) ->
  initial_system k σ0 -> sys_run worker_config before σ0 = Done σ ->
  is_Some (we_procs (sys_worker σ) !! pid) -> sys_backends σ !! pid = None ->
  exists labs, served_labels labs /\
    forall b, ready pid FGA_REQUEST_CHECK ReqCheckTuple args [MkTurn labs None] σ b ->
      uncached_check MyProcNumber stack_key now fcinfo args b ->
      exists r b', fga_check use_asserts config pid MyProcNumber stack_key now fcinfo b = (r, b') /\
        ((exists resp, r = check_value resp) \/ exists err, r = Error err).
Proof.
  intros Hans H0 Hrun Hp HB. pose proof (sys_inv_run _ _ _ (initial_inv k σ0 H0) Hrun) as Hi.
  destruct (call_can_end answers pid FGA_REQUEST_CHECK ReqCheckTuple args σ Hans Hi Hp HB eq_refl)
    as (labs & Hl & Hend).
  exists labs. split; [done|]. intros b Hrd Huc.
  pose proof (check_walks MyProcNumber stack_key now fcinfo pid args _ σ b Hi Hrd Huc) as Hw.
  destruct (sql_walk _ _ _ _ _ σ) as [ls en]. destruct Hw as (evs & σ' & r & b' & _ & _ & Hx & _ & Hret).
  exists r, b'. split; [done|]. cbn in Hend.
  rewrite !elem_of_cons, elem_of_nil in Hend. destruct Hend as [->|[->|[->|[]]]]; cbn in Hret; eauto.
  left. naive_solver.
Qed.
End Concurrent.

(** ** Two backends, one of them in SQL *)
Definition other_view : TupleArgsView :=
  MkTupleArgs (str "doc") (str "2") (str "user") (str "ann") (str "read") None.

Definition sql_label (t : FgaRequestType) (body : FgaTuple -> FgaRequestBody) (pid : Z)
    (args : TupleArgsView) : label :=
  acquire_label pid (request_type_code t) (SqlFuncs.store_member sql_config) (model_member sql_config)
    (body (padded_tuple args)).
Definition check_label_of : Z -> TupleArgsView -> label := sql_label FGA_REQUEST_CHECK ReqCheckTuple.

(** While backend 11 waits, backend 12 asks a check, and both are batched. *)
Definition batch_labels : list label := [check_label_of 12 other_view; LEnqueue 12; LWorker 0].
Definition batch_turn : turn :=
  MkTurn (batch_labels ++
    [serve_label (H := constant_server bob_reads) tt
       (after ([check_label_of 11 sql_view; LEnqueue 11] ++ batch_labels)) 0; LWorker 1]) None.

Definition check_of_11 (turns : list turn) : list label * call_end :=
  sql_walk client_config_sample sql_config 11 FGA_REQUEST_CHECK ReqCheckTuple sql_view turns sample_system.
Definition backend_11 (turns : list turn) : backend linked sample_table :=
  sql_backend sample_channel (call_wakes client_config_sample 11 (request_type_code FGA_REQUEST_CHECK)
    (SqlFuncs.store_member sql_config) (model_member sql_config) (ReqCheckTuple (padded_tuple sql_view))
    turns sample_system).

Definition batch_check_labels : list label :=
  [check_label_of 11 sql_view; LEnqueue 11] ++ turn_labels batch_turn ++ [LPoll 11; LRelease 11].

Lemma check_of_11_walk : check_of_11 [batch_turn] = (batch_check_labels, CallWaited WaitAnswered).
Proof. vm_compute. reflexivity. Qed.

Lemma batch_check_labels_ok :
  labs_ok client_config_sample (one_store (SqlFuncs.store_member sql_config) (model_member sql_config) (fun _ => True))
    (served_by (H := constant_server bob_reads)) batch_check_labels sample_system tt.
Proof.
  unfold batch_check_labels, batch_turn, batch_labels. cbn [app turn_labels]. do 9 lab_step. exact I.
Qed.

Lemma backend_11_ready turns : Forall (fun tn => by_others 11 (turn_labels tn)) turns ->
  ready (H := sample_table) client_config_sample sql_config 11 FGA_REQUEST_CHECK ReqCheckTuple sql_view turns
    sample_system (backend_11 turns).
Proof. intros Ht. split; try done; by eexists. Qed.

Lemma backend_11_uncached turns :
  uncached_check (HX := example_hash) true sql_config 0 inhabitant 0 sql_args sql_view (backend_11 turns).
Proof. split; [done| |done]. eexists _, sql_env. split; [vm_compute; reflexivity|reflexivity]. Qed.

Lemma batch_turn_others : Forall (fun tn => by_others 11 (turn_labels tn)) [batch_turn].
Proof. repeat constructor; vm_compute; discriminate. Qed.

Definition query_canceled : pg_error := PgError "ERRCODE_QUERY_CANCELED" "canceling statement due to user request".

Lemma fga_check_runs_the_protocol_witness :
  exists b', fga_check (HX := example_hash) true sql_config 11 0 inhabitant 0 sql_args
    (backend_11 [MkTurn [] (Some query_canceled)]) = (Error query_canceled, b').
Proof.
  pose proof (fga_check_runs_the_protocol (HX := example_hash) true 2 client_config_sample sql_config 0 inhabitant 0
    sql_args 11 sql_view [MkTurn [] (Some query_canceled)] [] sample_system sample_system
    (backend_11 [MkTurn [] (Some query_canceled)]) sample_initial eq_refl
    (backend_11_ready [MkTurn [] (Some query_canceled)] ltac:(repeat constructor))
    (backend_11_uncached [MkTurn [] (Some query_canceled)])) as Hw.
  assert (Hend : (check_of_11 [MkTurn [] (Some query_canceled)]).2 = CallWaited (WaitInterrupted query_canceled))
    by (vm_compute; reflexivity).
  unfold check_of_11 in Hend. destruct (sql_walk _ _ _ _ _ _ _ _) as [labs en]. cbn in Hend. subst en.
  destruct Hw as (evs & σ' & r & b' & _ & Hx & _ & ->). exists b'. exact Hx.
Defined.


Lemma every_check_can_complete_witness :
  exists labs r b', served_labels labs /\
    fga_check (HX := example_hash) true sql_config 11 0 inhabitant 0 sql_args (backend_11 [MkTurn labs None]) = (r, b') /\
    ((exists resp, r = check_value resp) \/ exists err, r = Error err).
Proof.
  destruct (every_check_can_complete (HX := example_hash) true 2 client_config_sample sql_config
    (deciding_server bob_reads) 0 inhabitant 0 sql_args 11 sql_view [] sample_system sample_system
    (deciding_server_matches bob_reads) sample_initial eq_refl ltac:(by eexists) eq_refl) as (labs & Hl & Hb).
  destruct (Hb (backend_11 [MkTurn labs None])) as (r & b' & Hx & Hr).
  - apply backend_11_ready. constructor; [by apply served_by_others|constructor].
  - apply backend_11_uncached.
  - exists labs, r, b'. split; [exact Hl|]. split; [exact Hx|exact Hr].
Defined.

(** Backend 12 asks, and is interrupted while its batch is answered. *)
Definition fair_sample : list turn :=
  [MkTurn [check_label_of 12 other_view; LEnqueue 12; LWorker 0] None;
   MkTurn [LReply 0 (MkStatus true []) (BatchCheckResponse ∅); LInterrupt 12; LWorker 1] None;
   MkTurn [LWorker 2] None].

Lemma fair_sample_fair : fair_turns client_config_sample 11 fair_sample sample_system FGA_REQUEST_CHECK
  (SqlFuncs.store_member sql_config) (model_member sql_config) (ReqCheckTuple (padded_tuple sql_view)).
Proof.
  intros σ2 i Hr HB. vm_compute in Hr. injection Hr as <-. clear HB.
  split; [|vm_compute; discriminate]. unfold fair_sample. cbn [fmap list_fmap turn_labels fair_rounds].
  fair_now; [by apply elem_of_nil in Hin|]. fair_now; [apply not_elem_of_nil|].
  fair_now; [by apply elem_of_nil in Hin|]. exact I.
Qed.

Lemma fair_calls_end_witness :
  exists resp b', fga_check (HX := example_hash) true sql_config 11 0 inhabitant 0 sql_args (backend_11 fair_sample) =
    (check_value resp, b').
Proof.
  destruct (fair_calls_end (HX := example_hash) true 2 client_config_sample sql_config 11 fair_sample sample_system
    [] sample_system (backend_11 fair_sample) sample_initial eq_refl) as [Hcheck _].
  destruct (Hcheck 0 inhabitant 0 sql_args sql_view) as (r & b' & Hx & _ & Hend).
  - apply backend_11_ready. repeat constructor; vm_compute; discriminate.
  - apply backend_11_uncached.
  - exact fair_sample_fair.
  - assert (Hen : (check_of_11 fair_sample).2 = CallWaited WaitAnswered) by (vm_compute; reflexivity).
    unfold check_of_11 in Hen. rewrite Hen in Hend. destruct Hend as [resp ->]. exists resp, b'. exact Hx.
Defined.

(** ** A write in SQL, and a check of another backend *)
Definition sql_key : TupleKey := args_key sql_view.

Definition write_prefix : list label := [sql_label FGA_REQUEST_WRITE_TUPLE ReqWriteTuple 11 sql_view; LEnqueue 11; LWorker 0].
Definition write_turn : turn := MkTurn [LWorker 0; serve_label [] (after write_prefix) 0; LWorker 1] None.
Definition write_run : list label := removelast write_prefix ++ turn_labels write_turn ++ [LPoll 11; LRelease 11].

(** In between, backend 12 creates a store. *)
Definition create_label : label :=
  acquire_label 12 (request_type_code FGA_REQUEST_CREATE_STORE) (zeros OPENFGA_STORE_ID_LEN)
    (zeros OPENFGA_MODEL_ID_LEN) (ReqCreateStore (padded OPENFGA_STORE_NAME_LEN (c_str (str "docs")))).
Definition between_prefix : list label := write_run ++ [create_label; LEnqueue 12; LWorker 2].
Definition between_run : list label :=
  [create_label; LEnqueue 12; LWorker 2; serve_label [sql_key] (after between_prefix) 0; LWorker 3; LPoll 12; LRelease 12].
Definition before_check : list label := write_run ++ between_run.

Definition later_prefix : list label := before_check ++ [check_label_of 12 sql_view; LEnqueue 12; LWorker 2].
Definition later_turn : turn := MkTurn [LWorker 2; serve_label [sql_key] (after later_prefix) 0; LWorker 3] None.
Definition later_run : list label :=
  [check_label_of 12 sql_view; LEnqueue 12] ++ turn_labels later_turn ++ [LPoll 12; LRelease 12].

Definition writer : backend linked sample_table :=
  sql_backend sample_channel (call_wakes client_config_sample 11 (request_type_code FGA_REQUEST_WRITE_TUPLE)
    (SqlFuncs.store_member sql_config) (model_member sql_config) (ReqWriteTuple (padded_tuple sql_view))
    [write_turn] sample_system).
Definition later_checker : backend linked sample_table :=
  sql_backend (we_channel (sys_worker (after before_check)))
    (call_wakes client_config_sample 12 (request_type_code FGA_REQUEST_CHECK)
      (SqlFuncs.store_member sql_config) (model_member sql_config) (ReqCheckTuple (padded_tuple sql_view))
      [later_turn] (after before_check)).

Lemma write_run_walk : sql_walk client_config_sample sql_config 11 (change_type true) (change_body true) sql_view
  [write_turn] sample_system = (write_run, CallWaited WaitAnswered).
Proof. vm_compute. reflexivity. Qed.

Lemma later_run_walk : sql_walk client_config_sample sql_config 12 FGA_REQUEST_CHECK ReqCheckTuple sql_view
  [later_turn] (after before_check) = (later_run, CallWaited WaitAnswered).
Proof. vm_compute. reflexivity. Qed.

Lemma write_then_check_ok :
  labs_ok client_config_sample (one_store (SqlFuncs.store_member sql_config) (model_member sql_config) not_deleting)
    served_by (write_run ++ between_run ++ later_run) sample_system [].
Proof.
  unfold write_run, between_run, later_run, write_prefix, write_turn, later_turn. cbn [removelast app turn_labels].
  do 21 lab_step. exact I.
Qed.


(** ** A store created in SQL *)
Definition create_turn : turn :=
  MkTurn [LWorker 0; LReply 0 (MkStatus true []) (CreateStoreResponse (str "s9") (str "docs")); LWorker 1] None.
Definition docs_body : FgaRequestBody := ReqCreateStore (padded OPENFGA_STORE_NAME_LEN (c_str (str "docs"))).
Definition creator : backend linked sample_table :=
  sql_backend sample_channel (call_wakes client_config_sample 11 (request_type_code FGA_REQUEST_CREATE_STORE)
    (zeros OPENFGA_STORE_ID_LEN) (zeros OPENFGA_MODEL_ID_LEN) docs_body [create_turn] sample_system).

Lemma sql_changes_take_effect_witness :
  exists log reply, log = [RpcCreateStore (str "docs")] /\
    (fga_create_store true 11 true (Some (str "docs")) creator).1 = Done (created reply).
Proof.
  destruct (sql_changes_take_effect (H := sample_table) true 2 client_config_sample sql_config
    (fun _ => True) logged [] sample_system sample_system 11 [create_turn] creator [] []
    (calls_answered client_config_sample
       (function_walk client_config_sample 11 FGA_REQUEST_CREATE_STORE (zeros OPENFGA_STORE_ID_LEN)
          (zeros OPENFGA_MODEL_ID_LEN) docs_body [create_turn] sample_system).1 sample_system)
    logged_batches sample_initial ltac:(decide_now) eq_refl eq_refl) as [_ [Hcreate _]].
  destruct (Hcreate (str "docs") true (str "s9", str "docs")) as (s1 & s2 & call & st & reply & _ & Hs & _ & Hc & _ & Hv).
  - split; [by eexists|exact eq_refl..|by eexists|exact eq_refl|]. repeat constructor; vm_compute; discriminate.
  - vm_compute. reflexivity.
  - decide_now.
  - exact (calls_answered_end client_config_sample _ sample_system []).
  - exists [call_request call], reply. rewrite Hc, <- Hv. split; vm_compute; reflexivity.
Defined.
