(* ===== verification/Hazards.v ===== *)
(** * What an interrupted change does to another backend

    [Protocol] lets an interrupted backend leave its slot as the handler of
    [wait_response] ([src/channel.c]) does, and that is all [fga_check] does.
    The handlers of the four other functions ([src/func_fga.c]) then release the
    slot once more, while its number is queued or a call for it is in flight.
    Here two backends run [fga_write_tuple] one after the other on the sample
    system, as the functions of [SqlFuncs] execute it. *)
From S2P Require Import Prelude Platform Types CacheKey CacheSpec CacheL1 CacheL2 Stats Cache.
From S2P Require Import SlotQueue SlotPool Channel SqlFuncs Config Client Processor Protocol.
From S2P Require Import Frames Service Ledger Refinement Effects EndToEnd Calls Fairness Capacity Concurrent.

Definition other_args : list text :=
  [Some (str "doc"); Some (str "2"); Some (str "user"); Some (str "ann"); Some (str "read")].

(** A process that calls [fga_write_tuple] in [σ] while the others take [turns]. *)
Definition writer_in (pid : Z) (args : TupleArgsView) (turns : list turn) (σ : system linked)
  : backend linked sample_table :=
  sql_backend (we_channel (sys_worker σ)) (call_wakes client_config_sample pid
    (request_type_code FGA_REQUEST_WRITE_TUPLE) (SqlFuncs.store_member sql_config) (model_member sql_config)
    (ReqWriteTuple (padded_tuple args)) turns σ).
Definition write_in (pid : Z) (fcinfo : list text) (b : backend linked sample_table)
  : outcome bool * backend linked sample_table :=
  fga_write_tuple true sql_config pid fcinfo b.

(** Backend 11 is interrupted when the worker has sent its write. *)
Definition canceled_turn : turn := MkTurn [LWorker 0] (Some query_canceled).
Definition in_flight_write : system linked :=
  after [sql_label FGA_REQUEST_WRITE_TUPLE ReqWriteTuple 11 sql_view; LEnqueue 11; LWorker 0].
Definition canceled_write : outcome bool * backend linked sample_table :=
  write_in 11 sql_args (writer_in 11 sql_view [canceled_turn] sample_system).
(** The system, with the channel as backend 11 leaves it. *)
Definition left_behind : system linked :=
  MkSystem (with_channel (sys_worker in_flight_write) (env_channel (be_chan canceled_write.2))) ∅.

(** Backend 12 writes; the server accepts the write of backend 11. *)
Definition accepting_turn : turn := MkTurn [LReply 0 (MkStatus true []) WriteResponse; LWorker 1] None.
Definition second_write : outcome bool * backend linked sample_table :=
  write_in 12 other_args (writer_in 12 other_view [accepting_turn] left_behind).
Definition second_labels : list label :=
  [sql_label FGA_REQUEST_WRITE_TUPLE ReqWriteTuple 12 other_view; LEnqueue 12] ++ turn_labels accepting_turn.

Definition write_of (args : TupleArgsView) : rpc_request :=
  call_request (change_call sql_config client_config_sample 0 0 true args).

(** C39. An interrupted write confirms the write of another backend.  Backend 11
    is interrupted while its write is at the server; the handler of
    [fga_write_tuple] puts the slot, which the call in flight refers to, into
    the freelist.  Backend 12 gets this slot for a write of its own.  When the
    server accepts the write of backend 11, the answer is put into the slot and
    handed to backend 12: its [fga_write_tuple] returns true while its own write
    has just been sent and the server has answered nothing about it. *)
Theorem interrupted_write_confirms_another :
  canceled_write.1 = Error query_canceled /\
  call_request <$> we_calls (sys_worker left_behind) = [write_of sql_view] /\
  second_write.1 = Done true /\
  exists σ, sys_run client_config_sample second_labels left_behind = Done σ /\
    call_request <$> we_calls (sys_worker σ) = [write_of other_view] /\ write_of other_view <> write_of sql_view.
Proof.
  split; [vm_compute; reflexivity|]. split; [vm_compute; reflexivity|]. split; [vm_compute; reflexivity|].
  eexists. split; [vm_compute; reflexivity|]. split; [vm_compute; reflexivity|]. vm_compute. discriminate.
Qed.
