(* ===== verification/Relation.v ===== *)
(** * The relation bitmap: [src/relation.c], [src/relation.h]

    A configuration string lists relation names; each gets a bit number.  The
    statements that look an entry up in a hash table are commented out in the
    source, so [entry] is read without having been assigned: the model stops
    there.  A [char*] is [None] when NULL and else the bytes before its NUL. *)
From S2P Require Import Prelude Platform Types.

Definition RELATION_BIT_NOT_FOUND : Z := 255.
Definition comma : ascii := ",".

(** One entry of the map the module describes. *)
Record RelationBitMapEntry : Type := MkRelationEntry {
  re_relation_name : list ascii;
  re_bit_index : Z;   (* uint8 *)
}.

(** The messages of the module. *)
Inductive relation_message : Type :=
  | InvalidNameForGet
  | InvalidNameForRegistration
  | BitIndexOutOfRange (bit_index : Z)
  | EmptyRelations
  | TooManyRelations (token : list ascii)
  | InitializedRelations (count : Z).

#[export] Instance relation_message_eq_dec : EqDecision relation_message.
Proof. solve_decision. Defined.

Definition RM (A : Type) : Type := CM (list relation_message) A.
Definition elog (m : relation_message) : RM unit := cm_modify (fun log => log ++ [m]).

(** ** The functions

    [started]: [fga_state_instance_] is set. *)
Section Relation.
Variable started : bool.

Definition state_cache : outcome unit := if started then Done tt else Undefined NullDeref.

Definition get_relation_bit_index (relation_name : option (list ascii)) : RM Z :=
  _ ← cm_lift state_cache;
  match relation_name with
  | None | Some [] => _ ← elog InvalidNameForGet; mret 0
  | Some _ => cm_lift (Undefined UninitializedRead)   (* if (entry) *)
  end.

Definition register_relation (relation_name : option (list ascii)) (bit_index : Z) : RM unit :=
  match relation_name with
  | None | Some [] => elog InvalidNameForRegistration
  | Some _ =>
      if 64 <=? bit_index then elog (BitIndexOutOfRange bit_index)
      else
        _ ← cm_lift state_cache;
        cm_lift (Undefined UninitializedRead)          (* if (entry) *)
  end.
End Relation.

(** [strtok_r] with the delimiter ",": the token and what is left of the
    string; the delimiter after the token is overwritten. *)
Fixpoint skip_commas (s : list ascii) : list ascii :=
  match s with
  | c :: s' => if decide (c = comma) then skip_commas s' else s
  | [] => []
  end.

Fixpoint span_token (s : list ascii) : list ascii * list ascii :=
  match s with
  | c :: s' => if decide (c = comma) then ([], s')
               else let '(t, r) := span_token s' in (c :: t, r)
  | [] => ([], [])
  end.

Definition strtok_r (s : list ascii) : option (list ascii * list ascii) :=
  match skip_commas s with
  | [] => None
  | s' => Some (span_token s')
  end.

(** [while ( *token == ' ' || *token == '\t') token++] *)
Fixpoint skip_blanks (token : list ascii) : list ascii :=
  match token with
  | c :: t => if decide (c = " "%char \/ c = "009"%char) then skip_blanks t else token
  | [] => []
  end.

(** The token loop, over the call that registers a name; each turn shortens
    the string, so its length is enough fuel. *)
Fixpoint relation_loop (register : option (list ascii) -> Z -> RM unit) (fuel : nat)
    (saveptr : list ascii) (bit_index : Z) : RM Z :=
  match strtok_r saveptr with
  | None => mret bit_index
  | Some (token, saveptr) =>
      match fuel with
      | O => cm_lift (Undefined OutOfFuel)
      | S fuel =>
          match skip_blanks token with
          | [] => relation_loop register fuel saveptr bit_index
          | token =>
              if 64 <=? bit_index then _ ← elog (TooManyRelations token); mret bit_index
              else
                _ ← register (Some token) bit_index;
                relation_loop register fuel saveptr (u8 (bit_index + 1))
          end
      end
  end.

Definition init_relation_bitmap (started : bool) (relations_str : option (list ascii)) : RM unit :=
  match relations_str with
  | None | Some [] => elog EmptyRelations
  | Some s =>
      count ← relation_loop (register_relation started) (length s) s 0;
      elog (InitializedRelations count)
  end.

(** ** What the parser means

    The names of a list: its comma-separated fields without leading blanks,
    except the blank ones. *)
Fixpoint split_commas (s : list ascii) : list (list ascii) :=
  match s with
  | [] => [[]]
  | c :: s =>
      if decide (c = comma) then [] :: split_commas s
      else match split_commas s with
           | f :: fs => (c :: f) :: fs
           | [] => [[c]]
           end
  end.

Definition relation_names (s : list ascii) : list (list ascii) :=
  filter (fun n => n <> []) (skip_blanks <$> split_commas s).

(** Registering names at consecutive numbers from [i] on. *)
Fixpoint register_from (register : option (list ascii) -> Z -> RM unit) (i : Z)
    (names : list (list ascii)) : RM unit :=
  match names with
  | [] => mret tt
  | n :: names => _ ← register (Some n) i; register_from register (i + 1) names
  end.

Lemma split_commas_nonnil s : split_commas s <> [].
Proof. destruct s as [|c s]; cbn; [done|]. repeat case_match; done. Qed.

Lemma names_comma s : relation_names (comma :: s) = relation_names s.
Proof. done. Qed.

Lemma names_skip_commas s : relation_names (skip_commas s) = relation_names s.
Proof.
  induction s as [|c s IH]; [done|]. cbn [skip_commas]. case_decide as Hc; [|done].
  by rewrite Hc, names_comma.
Qed.

Lemma span_split s t r :
  span_token s = (t, r) ->
  (split_commas s = t :: split_commas r \/ split_commas s = [t] /\ r = []) /\
  (length r + length t <= length s)%nat.
Proof.
  revert t r. induction s as [|c s IH]; intros t r; cbn; [intros [= <- <-]; auto|].
  case_decide as Hc; [intros [= <- <-]; cbn; split; [by left|lia]|].
  destruct (span_token s) as [t' r'] eqn:Hs. intros [= <- <-].
  destruct (IH t' r' eq_refl) as [[->|[-> ->]] Hl]; cbn; (split; [auto|lia]).
Qed.

Definition name_of (token : list ascii) : list (list ascii) :=
  match skip_blanks token with [] => [] | n => [n] end.

Lemma names_token t fs :
  filter (fun n => n <> []) (skip_blanks <$> t :: fs)
  = name_of t ++ filter (fun n => n <> []) (skip_blanks <$> fs).
Proof.
  csimpl. rewrite filter_cons. unfold name_of.
  by destruct (skip_blanks t).
Qed.

(** [strtok_r] walks over the fields. *)
Lemma strtok_none s : strtok_r s = None -> relation_names s = [].
Proof.
  unfold strtok_r. rewrite <- names_skip_commas. by destruct (skip_commas s).
Qed.

Lemma skip_commas_spec s :
  (length (skip_commas s) <= length s)%nat /\
  forall c s', skip_commas s = c :: s' -> c <> comma.
Proof.
  induction s as [|c s [IHl IH]]; [done|]. cbn. case_decide; cbn; split; try lia; [done|].
  by intros ?? [= <- _].
Qed.

Lemma strtok_some s t r :
  strtok_r s = Some (t, r) ->
  relation_names s = name_of t ++ relation_names r /\ (length r < length s)%nat.
Proof.
  unfold strtok_r. intros Hs. rewrite <- names_skip_commas.
  destruct (skip_commas_spec s) as [Hl Hc].
  destruct (skip_commas s) as [|c s'] eqn:Hk; [done|]. specialize (Hc c s' eq_refl).
  assert (Hst : span_token (c :: s') = (t, r)) by congruence.
  pose proof (span_split _ _ _ Hst) as [Hsp Hlen].
  split.
  - unfold relation_names.
    by destruct Hsp as [->|[-> ->]]; rewrite names_token.
  - assert (t <> []); [|destruct t; cbn in *; [done|lia]].
    cbn in Hst. rewrite decide_False in Hst by done.
    destruct (span_token s'); injection Hst as <- _. done.
Qed.

(** The rest of the loop at number [i]. *)
Lemma relation_loop_spec register fuel s i log :
  (length s <= fuel)%nat -> 0 <= i <= 64 ->
  relation_loop register fuel s i log =
  (let names := relation_names s in
   let room := Z.to_nat (64 - i) in
   _ ← register_from register i (take room names);
   match drop room names with
   | [] => mret (i + Z.of_nat (length names))
   | n :: _ => _ ← elog (TooManyRelations n); mret 64
   end) log.
Proof.
  revert s i log. induction fuel as [|fuel IH]; intros s i log Hf Hi; cbn [relation_loop].
  - destruct s; [|cbn in Hf; lia]. cbn. destruct (Z.to_nat _); cbn; by rewrite Z.add_0_r.
  - destruct (strtok_r s) as [[t r]|] eqn:Hs.
    2:{ rewrite (strtok_none s Hs). cbn. destruct (Z.to_nat _); cbn; by rewrite Z.add_0_r. }
    destruct (strtok_some s t r Hs) as [Hn Hl]. rewrite Hn. unfold name_of.
    destruct (skip_blanks t) as [|c n] eqn:Hb; [apply IH; lia|]. cbn [app].
    destruct (Z.leb_spec 64 i) as [Hmax|Hmax].
    { assert (i = 64) as -> by lia. done. }
    replace (Z.to_nat (64 - i)) with (S (Z.to_nat (64 - (i + 1)))) by lia.
    cbn [take drop register_from length]. unfold mbind, cm_bind.
    destruct (register (Some (c :: n)) i log) as [[[]| |] log'] eqn:Hr; [|done|done].
    rewrite u8_small by lia. rewrite IH by lia. cbv zeta. unfold mbind, cm_bind.
    destruct (register_from _ _ _ log') as [[[]| |] log'']; [|done|done].
    destruct (drop _ _); [|done]. unfold mret, cm_ret.
    by replace (i + 1 + Z.of_nat (length (relation_names r)))
      with (i + Z.of_nat (S (length (relation_names r)))) by lia.
Qed.

(** C31. The token loop of the relation list is the reference parser: it ends, and
    whatever registering does, it registers the comma-separated names without
    leading blanks, blank ones left out, at the numbers 0, 1, 2, ... in order;
    after 64 names it warns about the next one and stops. *)
Theorem relation_list_parsed register s log :
  relation_loop register (length s) s 0 log =
  (let names := relation_names s in
   _ ← register_from register 0 (take 64 names);
   match drop 64 names with
   | [] => mret (Z.of_nat (length names))
   | n :: _ => _ ← elog (TooManyRelations n); mret 64
   end) log.
Proof. by rewrite relation_loop_spec. Qed.

(** The hash table calls are commented out, so once shared memory is set up
    looking up or registering any name reads an unassigned pointer; a list
    initialises only if it holds no name, and then reports 0 relations.  Empty
    names are refused with a warning, numbers above 63 too. *)
Theorem relation_entry_uninitialised name log :
  name <> [] ->
  get_relation_bit_index true (Some name) log = (Undefined UninitializedRead, log) /\
  (forall i, 0 <= i < 64 ->
    register_relation true (Some name) i log = (Undefined UninitializedRead, log)) /\
  (forall i, 64 <= i ->
    register_relation true (Some name) i log = (Done tt, log ++ [BitIndexOutOfRange i])) /\
  get_relation_bit_index true (Some []) log = (Done 0, log ++ [InvalidNameForGet]) /\
  forall s, s <> [] ->
    init_relation_bitmap true (Some s) log =
      if decide (relation_names s = []) then (Done tt, log ++ [InitializedRelations 0])
      else (Undefined UninitializedRead, log).
Proof.
  intros Hn. destruct name as [|c name]; [done|]. split_and!; try done.
  - intros i Hi. cbn. by rewrite (proj2 (Z.leb_gt 64 i)) by lia.
  - intros i Hi. cbn. by rewrite (proj2 (Z.leb_le 64 i)) by lia.
  - intros s Hs. destruct s as [|x s]; [done|]. unfold init_relation_bitmap, mbind, cm_bind.
    rewrite relation_loop_spec by lia. cbv zeta.
    assert (Hne : forall n, n ∈ relation_names (x :: s) -> n <> []).
    { intros n [Hx _]%list_elem_of_filter. done. }
    destruct (relation_names (x :: s)) as [|n names]; [done|]. cbn.
    destruct n; [|done]. by destruct (Hne []); [left|].
Qed.

(** ** Witnesses *)
Example relation_names_example :
  relation_names (str "read, write,, ,edit ,delete") =
    [str "read"; str "write"; str "edit "; str "delete"].
Proof. reflexivity. Qed.

Lemma relation_entry_uninitialised_witness :
  get_relation_bit_index true (Some (str "read")) [] = (Undefined UninitializedRead, []) /\
  init_relation_bitmap true (Some (str " ,,")) [] = (Done tt, [InitializedRelations 0]).
Proof.
  destruct (relation_entry_uninitialised (str "read") [] ltac:(discriminate)) as (H1 & _ & _ & _ & H2).
  split; [exact H1|]. rewrite H2 by discriminate. reflexivity.
Defined.
