(* ===== verification/Util.v ===== *)
(** * The C++ utilities: [src/util/], [src/bgw/task_slot.hpp]

    The limiter of concurrent calls ([Counter] and its move-only guards), the
    blocking pool of asynchronous call slots, and the levels of the log
    function. *)
From S2P Require Import Prelude.

(** ** util/logger *)
Module Logger.
Inductive LogLevel : Type := Debug | Info | Warning | Error.

(** The severities of [elog.h] the function uses. *)
Inductive elevel : Type := DEBUG1 | LOG | WARNING | ERROR.

Definition to_pg_level (level : LogLevel) : elevel :=
  match level with
  | Debug => DEBUG1
  | Info => LOG
  | Warning => WARNING
  | Error => ERROR
  end.

(** [ereport] at ERROR unwinds the caller, the others send the message. *)
Definition log (level : LogLevel) (msg : list ascii) : CM (list (elevel * list ascii)) unit :=
  let elevel := to_pg_level level in
  match elevel with
  | ERROR => ereport "ERRCODE_INTERNAL_ERROR" "%s"
  | _ => cm_modify (fun sent => sent ++ [(elevel, c_str msg)])
  end.
End Logger.

(** ** util/counter *)
Module Counter.
Definition INT_MAX : Z := 2 ^ 31 - 1.

(** [std::counting_semaphore<INT_MAX>]: blocking, non-blocking (which may fail
    spuriously) and release, whose precondition is that the count stays within
    [max()]. *)
Definition sem_acquire (count : Z) : option Z := if 0 <? count then Some (count - 1) else None.
Definition sem_try_acquire (spurious : bool) (count : Z) : option Z :=
  if spurious then None else sem_acquire count.
Definition sem_release (count : Z) : outcome Z :=
  if count + 1 <=? INT_MAX then Done (count + 1) else Undefined IntOverflow.

Record Counter : Type := MkCounter { semaphore_ : Z; max_value_ : Z }.

(** [sem_]: the pointer to the counter's semaphore is not null. *)
Record Guard : Type := MkGuard { sem_ : bool; acquired_ : bool }.

#[export] Instance guard_eq_dec : EqDecision Guard.
Proof. solve_decision. Defined.

Definition counter_make (max_value : Z) : Counter :=
  MkCounter (if 0 <? max_value then max_value else INT_MAX) max_value.

(** [None]: the caller blocks. *)
Definition counter_acquire (c : Counter) : option (Guard * Counter) :=
  if max_value_ c <=? 0 then Some (MkGuard false true, c)
  else
    match sem_acquire (semaphore_ c) with
    | Some n => Some (MkGuard true true, MkCounter n (max_value_ c))
    | None => None
    end.

Definition counter_try_acquire (spurious : bool) (c : Counter) : Guard * Counter :=
  if max_value_ c <=? 0 then (MkGuard false true, c)
  else
    match sem_try_acquire spurious (semaphore_ c) with
    | Some n => (MkGuard true true, MkCounter n (max_value_ c))
    | None => (MkGuard false false, c)
    end.

Definition empty_guard : Guard := MkGuard false false.

(** [release]: the guard and the semaphore afterwards. *)
Definition guard_release (g : Guard) (c : Counter) : outcome (Guard * Counter) :=
  if sem_ g && acquired_ g then
    n ← sem_release (semaphore_ c); Done (empty_guard, MkCounter n (max_value_ c))
  else Done (empty_guard, c).

(** Move construction: the new guard and the moved-from one. *)
Definition guard_move (other : Guard) : Guard * Guard := (other, empty_guard).

(** ** A program with guards

    Guards are objects; an operation names the objects it works on. *)
Record program : Type := MkProgram { counter : Counter; guards : gmap nat Guard }.

Inductive guard_op : Type :=
  | OpDefault (i : nat)
  | OpAcquire (i : nat)
  | OpTryAcquire (spurious : bool) (i : nat)
  | OpMove (i other : nat)
  | OpAssign (i other : nat)
  | OpDestroy (i : nat).

(** The life of a C++ object: it is created once and used while it lives. *)
Definition create_guard (i : nat) (g : Guard) (c : Counter) (p : program) : outcome program :=
  match guards p !! i with
  | None => Done (MkProgram c (<[i := g]> (guards p)))
  | Some _ => Undefined UseAfterFree
  end.
Definition read_guard (i : nat) (p : program) : outcome Guard :=
  match guards p !! i with Some g => Done g | None => Undefined UseAfterFree end.

(** [*this = std::move(other)] *)
Definition guard_assign (i other : nat) (p : program) : outcome program :=
  g ← read_guard i p; o ← read_guard other p;
  if decide (i = other) then Done p
  else
    '(_, c) ← guard_release g (counter p);
    let '(g, o) := guard_move o in
    Done (MkProgram c (<[i := g]> (<[other := o]> (guards p)))).

Definition exec_op (op : guard_op) (p : program) : outcome program :=
  match op with
  | OpDefault i => create_guard i empty_guard (counter p) p
  | OpAcquire i =>
      match counter_acquire (counter p) with
      | Some (g, c) => create_guard i g c p
      | None => Undefined WaitsForever
      end
  | OpTryAcquire spurious i => let '(g, c) := counter_try_acquire spurious (counter p) in create_guard i g c p
  | OpMove i other =>
      o ← read_guard other p;
      let '(g, o) := guard_move o in
      create_guard i g (counter p) (MkProgram (counter p) (<[other := o]> (guards p)))
  | OpAssign i other => guard_assign i other p
  | OpDestroy i =>
      g ← read_guard i p;
      '(_, c) ← guard_release g (counter p);
      Done (MkProgram c (delete i (guards p)))
  end.

Fixpoint exec_ops (ops : list guard_op) (p : program) : outcome program :=
  match ops with
  | [] => Done p
  | op :: ops => p ← exec_op op p; exec_ops ops p
  end.

Definition start (max_value : Z) : program := MkProgram (counter_make max_value) ∅.

(** *** Permits *)
Definition holds (g : Guard) : bool := sem_ g && acquired_ g.
Definition holders (m : gmap nat Guard) : nat := size (filter (fun p => holds p.2 = true) m).

Lemma holders_create m i g :
  m !! i = None -> holders (<[i := g]> m) = (holders m + Nat.b2n (holds g))%nat.
Proof.
  intros Hi. unfold holders. destruct (holds g) eqn:Hg.
  - rewrite map_filter_insert_True by done.
    rewrite map_size_insert_None by (by apply map_lookup_filter_None; left). cbn. lia.
  - rewrite map_filter_insert_not' by (cbn; congruence). cbn. lia.
Qed.

Lemma holders_update m i g g' :
  m !! i = Some g ->
  (holders (<[i := g']> m) + Nat.b2n (holds g) = holders m + Nat.b2n (holds g'))%nat.
Proof.
  intros Hi. rewrite <- insert_delete_eq, holders_create by apply lookup_delete_eq.
  rewrite <- (insert_delete_id m i g Hi) at 2.
  rewrite holders_create by apply lookup_delete_eq. lia.
Qed.

Lemma holders_destroy m i g :
  m !! i = Some g -> (holders (delete i m) + Nat.b2n (holds g) = holders m)%nat.
Proof.
  intros Hi. rewrite <- (insert_delete_id m i g Hi) at 2.
  by rewrite holders_create by apply lookup_delete_eq.
Qed.

(** The permits are with the semaphore or with the guards that hold one. *)
Definition permits (max_value : Z) : Z := if 0 <? max_value then max_value else INT_MAX.
Record counted (max_value : Z) (p : program) : Prop := {
  cn_max : max_value_ (counter p) = max_value;
  cn_sum : semaphore_ (counter p) + Z.of_nat (holders (guards p)) = permits max_value;
  cn_nonneg : 0 <= semaphore_ (counter p);
  cn_unlimited i g : max_value <= 0 -> guards p !! i = Some g -> sem_ g = false;
}.
Section Counted.
Variable mv : Z.
Hypothesis Hmv : mv <= INT_MAX.

Lemma permits_bound : 0 < permits mv <= INT_MAX.
Proof. unfold permits, INT_MAX in *. destruct (Z.ltb_spec 0 mv); lia. Qed.

Lemma start_counted : counted mv (start mv).
Proof.
  pose proof permits_bound. split; cbn; fold (permits mv); [done|..]; try lia.
  - unfold holders. rewrite map_filter_empty, map_size_empty. lia.
  - done.
Qed.

(** What a step may be: an execution that keeps the count, an object used
    outside its life, or a caller that blocks because every permit is held. *)
Definition step_ok (r : outcome program) (p : program) : Prop :=
  match r with
  | Done p' => counted mv p'
  | Error _ => False
  | Undefined u => u = UseAfterFree \/ u = WaitsForever /\ 0 < mv /\ Z.of_nat (holders (guards p)) = mv
  end.

Lemma create_counted i g c p p0 :
  counted mv p -> max_value_ c = mv -> 0 <= semaphore_ c ->
  semaphore_ c + Z.b2z (holds g) = semaphore_ (counter p) ->
  (mv <= 0 -> sem_ g = false) -> step_ok (create_guard i g c p) p0.
Proof.
  intros [Hm Hs Hn Hu] Hc H0 Hsum Hg. unfold create_guard.
  destruct (guards p !! i) eqn:Hi; cbn; [by left|]. split; cbn; [done| |done|].
  - rewrite holders_create by done. rewrite <- Hs, <- Hsum. destruct (holds g); cbn; lia.
  - intros j g' Hl [[-> <-]|[_ Hj]]%lookup_insert_Some; [by apply Hg|by apply (Hu j)].
Qed.

Lemma release_counted p i g :
  counted mv p -> guards p !! i = Some g ->
  exists c, guard_release g (counter p) = Done (empty_guard, c) /\ max_value_ c = mv /\
    semaphore_ c = semaphore_ (counter p) + Z.b2z (holds g).
Proof.
  intros [Hm Hs Hn Hu] Hi. pose proof permits_bound. pose proof (holders_destroy _ _ _ Hi) as Hh.
  unfold guard_release. fold (holds g). destruct (holds g); cbn in Hh |- *.
  - unfold sem_release. rewrite (proj2 (Z.leb_le _ _)) by lia. eexists. by split_and!.
  - eexists. split_and!; [done|done|lia].
Qed.

Lemma acquire_counted p g c :
  counted mv p -> counter_acquire (counter p) = Some (g, c) ->
  max_value_ c = mv /\ 0 <= semaphore_ c /\
  semaphore_ c + Z.b2z (holds g) = semaphore_ (counter p) /\
  (mv <= 0 -> sem_ g = false) /\ acquired_ g = true.
Proof.
  intros [Hm Hs Hn Hu]. unfold counter_acquire, sem_acquire. rewrite Hm.
  destruct (Z.leb_spec mv 0) as [Hz|Hz].
  - intros [= <- <-]. cbn. split_and!; try done; lia.
  - destruct (Z.ltb_spec 0 (semaphore_ (counter p))); [|done].
    intros [= <- <-]. cbn. split_and!; try done; lia.
Qed.

(** A blocking call waits only when all permits are held. *)
Lemma acquire_blocks p :
  counted mv p -> counter_acquire (counter p) = None <->
    0 < mv /\ Z.of_nat (holders (guards p)) = mv.
Proof.
  intros [Hm Hs Hn Hu]. unfold counter_acquire, sem_acquire, permits in *. rewrite Hm.
  destruct (Z.leb_spec mv 0), (Z.ltb_spec 0 mv), (Z.ltb_spec 0 (semaphore_ (counter p)));
    split; try done; lia.
Qed.

Lemma try_acquire_cases spurious c :
  counter_try_acquire spurious c =
    match counter_acquire c with
    | Some r => if spurious && (0 <? max_value_ c) then (empty_guard, c) else r
    | None => (empty_guard, c)
    end.
Proof.
  unfold counter_try_acquire, counter_acquire, sem_try_acquire.
  rewrite Z.ltb_antisym. destruct (max_value_ c <=? 0); cbn; [by rewrite andb_false_r|].
  destruct spurious; cbn; by destruct (sem_acquire _).
Qed.

Lemma empty_fits p : counted mv p ->
  max_value_ (counter p) = mv /\ 0 <= semaphore_ (counter p) /\
  semaphore_ (counter p) + Z.b2z (holds empty_guard) = semaphore_ (counter p) /\
  (mv <= 0 -> sem_ empty_guard = false).
Proof. intros [? ? ? _]. cbn. split_and!; try done; lia. Qed.

Lemma move_counted p i g :
  counted mv p -> guards p !! i = Some g ->
  max_value_ (counter p) = mv /\
  semaphore_ (counter p) + Z.of_nat (holders (<[i := empty_guard]> (guards p)))
    + Z.b2z (holds g) = permits mv /\
  (mv <= 0 -> sem_ g = false) /\
  (forall j g', mv <= 0 -> <[i := empty_guard]> (guards p) !! j = Some g' -> sem_ g' = false).
Proof.
  intros [Hm Hs Hn Hu] Hi. pose proof (holders_update _ _ _ empty_guard Hi) as Hh.
  split_and!; [done| | |].
  - cbn in Hh. destruct (holds g); cbn in *; lia.
  - intros Hz. by apply (Hu i).
  - intros j g' Hz [[_ <-]|[_ Hj]]%lookup_insert_Some; [done|by apply (Hu j)].
Qed.

Lemma assign_counted i other p : counted mv p -> step_ok (guard_assign i other p) p.
Proof.
  intros Hp. unfold guard_assign, read_guard, mbind, outcome_bind.
  destruct (guards p !! i) as [g|] eqn:Hi; [|by left].
  destruct (guards p !! other) as [o|] eqn:Ho; [|by left].
  case_decide as Hne; [done|].
  destruct (release_counted p i g Hp Hi) as (c & -> & Hc & Hsem). cbn.
  destruct (move_counted p other o Hp Ho) as (Hm & Hs & Ho' & Hj).
  assert (Hi' : <[other := empty_guard]> (guards p) !! i = Some g) by (by rewrite lookup_insert_ne).
  pose proof (holders_update _ _ _ o Hi') as Hh. destruct Hp as [_ _ Hn _].
  split; cbn; [done| | |].
  - destruct (holds g), (holds o); cbn in *; lia.
  - destruct (holds g); cbn in *; lia.
  - intros j g' Hz [[_ <-]|[_ Hl]]%lookup_insert_Some; [by apply Ho'|by apply (Hj j)].
Qed.

Lemma exec_op_ok op p : counted mv p -> step_ok (exec_op op p) p.
Proof.
  intros Hp. destruct (empty_fits p Hp) as (E1 & E2 & E3 & E4).
  destruct op as [i|i|spurious i|i other|i other|i]; cbn [exec_op].
  - by apply create_counted.
  - destruct (counter_acquire (counter p)) as [[g c]|] eqn:Ha.
    + destruct (acquire_counted p g c Hp Ha) as (? & ? & ? & ? & _). by apply create_counted.
    + right. split; [done|]. by apply acquire_blocks.
  - rewrite try_acquire_cases. destruct (counter_acquire (counter p)) as [[g c]|] eqn:Ha.
    + destruct (acquire_counted p g c Hp Ha) as (? & ? & ? & ? & _).
      destruct (spurious && _); by apply create_counted.
    + by apply create_counted.
  - unfold read_guard, mbind, outcome_bind. destruct (guards p !! other) as [o|] eqn:Ho; [|by left].
    destruct (move_counted p other o Hp Ho) as (Hm & Hs & Ho' & Hj). cbn.
    unfold create_guard. cbn. destruct (_ !! i) eqn:Hi; [by left|]. split; cbn; [done| |apply Hp|].
    + rewrite holders_create by done. destruct (holds o); cbn in *; lia.
    + intros j g' Hz [[_ <-]|[_ Hl]]%lookup_insert_Some; [by apply Ho'|by apply (Hj j)].
  - by apply assign_counted.
  - unfold read_guard, mbind, outcome_bind. destruct (guards p !! i) as [g|] eqn:Hi; [|by left].
    destruct (release_counted p i g Hp Hi) as (c & -> & Hc & Hsem). cbn.
    pose proof (holders_destroy _ _ _ Hi) as Hh. destruct Hp as [Hm Hs Hn Hu].
    split; cbn; [done| | |].
    + destruct (holds g); cbn in *; lia.
    + destruct (holds g); cbn in *; lia.
    + intros j g' Hz [_ Hl]%lookup_delete_Some. by apply (Hu j).
Qed.

Lemma exec_ops_counted ops p :
  counted mv p ->
  match exec_ops ops p with
  | Done p' => counted mv p'
  | Error _ => False
  | Undefined u => u = UseAfterFree \/ u = WaitsForever /\ 0 < mv
  end.
Proof.
  revert p. induction ops as [|op ops IH]; intros p Hp; [done|]. cbn.
  unfold mbind, outcome_bind. pose proof (exec_op_ok op p Hp) as Hs.
  destruct (exec_op op p) as [p'| |u]; cbn in Hs; [by apply IH|done|].
  destruct Hs as [?|(? & ? & _)]; auto.
Qed.
End Counted.

End Counter.

(** ** bgw/task_slot.hpp *)
Module TaskSlots.
Record GrpcAsyncSlot : Type := MkSlot { slot_index : Z; slot_ptr : option nat }.
Definition fresh_slot : GrpcAsyncSlot := MkSlot 0 None.

(** A slot pointer is the number of the element; the back of [free_list_] is
    the last element of the list. *)
Record GrpcAsyncSlotPool : Type := MkPool {
  capacity_ : nat;
  slots_ : list GrpcAsyncSlot;
  free_list_ : list nat;
  in_use_ : Z;   (* size_t *)
}.

Fixpoint fill_loop (n i : nat) (p : GrpcAsyncSlotPool) : GrpcAsyncSlotPool :=
  match n with
  | O => p
  | S n => fill_loop n (S i)
      (MkPool (capacity_ p) (slots_ p ++ [fresh_slot]) (free_list_ p ++ [i]) (in_use_ p))
  end.
Definition task_pool_make (capacity : nat) : GrpcAsyncSlotPool :=
  fill_loop capacity 0 (MkPool capacity [] [] 0).

Definition pop_back {A} (l : list A) : option (list A * A) :=
  match rev l with [] => None | x :: r => Some (rev r, x) end.

(** [nullptr] when no slot is free. *)
Definition task_try_acquire (p : GrpcAsyncSlotPool) : option nat * GrpcAsyncSlotPool :=
  match pop_back (free_list_ p) with
  | None => (None, p)
  | Some (rest, s) =>
      (Some s, MkPool (capacity_ p) (<[s := fresh_slot]> (slots_ p)) rest (u64 (in_use_ p + 1)))
  end.

(** The blocking call waits while no slot is free: [None]. *)
Definition task_acquire (p : GrpcAsyncSlotPool) : option (nat * GrpcAsyncSlotPool) :=
  match pop_back (free_list_ p) with
  | None => None
  | Some (rest, s) =>
      Some (s, MkPool (capacity_ p) (<[s := fresh_slot]> (slots_ p)) rest (u64 (in_use_ p + 1)))
  end.

Definition task_release (slot : option nat) (p : GrpcAsyncSlotPool) : GrpcAsyncSlotPool :=
  match slot with
  | None => p
  | Some s => MkPool (capacity_ p) (slots_ p) (free_list_ p ++ [s]) (u64 (in_use_ p - 1))
  end.

Definition task_capacity (p : GrpcAsyncSlotPool) : nat := capacity_ p.
Definition task_in_use (p : GrpcAsyncSlotPool) : Z := in_use_ p.
(** *** Use of the pool

    [held]: the slots given out; a caller gives back a slot it holds. *)
Inductive task_step : GrpcAsyncSlotPool * list nat -> GrpcAsyncSlotPool * list nat -> Prop :=
  | task_step_try p p' s held :
      task_try_acquire p = (Some s, p') -> task_step (p, held) (p', s :: held)
  | task_step_wait p p' s held :
      task_acquire p = Some (s, p') -> task_step (p, held) (p', s :: held)
  | task_step_release p s held held' :
      held ≡ₚ s :: held' -> task_step (p, held) (task_release (Some s) p, held')
  | task_step_null p held : task_step (p, held) (task_release None p, held).

Record task_inv (cap : nat) (st : GrpcAsyncSlotPool * list nat) : Prop := {
  ti_slots : length (slots_ st.1) = cap;
  ti_split : free_list_ st.1 ++ st.2 ≡ₚ seq 0 cap;
  ti_in_use : in_use_ st.1 = Z.of_nat (length st.2);
}.

Lemma fill_loop_spec n i p :
  fill_loop n i p = MkPool (capacity_ p) (slots_ p ++ replicate n fresh_slot)
    (free_list_ p ++ seq i n) (in_use_ p).
Proof.
  revert i p. induction n as [|n IH]; intros i [c sl fr u]; cbn; [by rewrite !app_nil_r|].
  rewrite IH. cbn. by rewrite <- !app_assoc.
Qed.

Lemma task_pool_make_spec cap : task_pool_make cap = MkPool cap (replicate cap fresh_slot) (seq 0 cap) 0.
Proof. unfold task_pool_make. by rewrite fill_loop_spec. Qed.

Lemma pop_back_spec {A} (l : list A) :
  match pop_back l with None => l = [] | Some (l', x) => l = l' ++ [x] end.
Proof.
  unfold pop_back. destruct (rev l) as [|x r] eqn:Hr.
  - by rewrite <- (rev_involutive l), Hr.
  - rewrite <- (rev_involutive l), Hr. done.
Qed.

Lemma acquire_is_try p :
  task_acquire p = match task_try_acquire p with (Some s, p') => Some (s, p') | (None, _) => None end.
Proof. unfold task_acquire, task_try_acquire. by destruct (pop_back _) as [[]|]. Qed.

Section TaskPool.
Variable cap : nat.
Hypothesis Hcap : Z.of_nat cap < 2 ^ 64.

Lemma task_held_bound p held : task_inv cap (p, held) -> (length held <= cap)%nat.
Proof. intros [_ Hs _]. apply Permutation_length in Hs. rewrite length_app, length_seq in Hs. cbn in Hs. lia. Qed.

Lemma task_try_inv p held s p' :
  task_inv cap (p, held) -> task_try_acquire p = (Some s, p') ->
  task_inv cap (p', s :: held) /\ s ∉ held /\ slots_ p' !! s = Some fresh_slot /\
  exists rest, free_list_ p = rest ++ [s].
Proof.
  intros [Hl Hs Hu]. unfold task_try_acquire. pose proof (pop_back_spec (free_list_ p)) as Hp.
  destruct (pop_back _) as [[rest x]|]; [|done]. intros [= -> <-]. cbn in *. rewrite Hp in Hs.
  assert (Hs' : s :: rest ++ held ≡ₚ seq 0 cap).
  { rewrite <- Hs, <- app_assoc. apply Permutation_middle. }
  assert (Hlt : (s < cap)%nat).
  { assert (Hin : s ∈ seq 0 cap) by (rewrite <- Hs'; left). apply elem_of_seq in Hin. lia. }
  pose proof (Permutation_length Hs') as Hlen. cbn in Hlen. rewrite length_app, length_seq in Hlen.
  assert (Hnd : NoDup (s :: rest ++ held)) by (rewrite Hs'; apply NoDup_seq).
  apply NoDup_cons in Hnd as [Hni _]. split; [split; cbn|split_and!].
  - by rewrite length_insert.
  - by rewrite <- Permutation_middle.
  - rewrite Hu, u64_small by lia. lia.
  - intros Hin. apply Hni, elem_of_app. by right.
  - apply list_lookup_insert_eq. lia.
  - by exists rest.
Qed.

Lemma task_step_inv st st' : task_inv cap st -> task_step st st' -> task_inv cap st'.
Proof.
  intros Hi Hstep. destruct Hstep as [p p' s held Ht|p p' s held Ht|p s held held' Hh|p held].
  - by eapply task_try_inv.
  - rewrite acquire_is_try in Ht. destruct (task_try_acquire p) as [[x|] q] eqn:Hq; [|done].
    injection Ht as -> ->. by eapply task_try_inv.
  - pose proof (task_held_bound _ _ Hi) as Hb. destruct Hi as [Hl Hs Hu]. cbn in *.
    pose proof (Permutation_length Hh) as Hlen. cbn in Hlen. split; cbn; [done| |].
    + rewrite <- Hs, Hh, <- app_assoc. done.
    + rewrite Hu, u64_small by lia. lia.
  - done.
Qed.

Lemma task_try_none p held :
  task_inv cap (p, held) -> (task_try_acquire p).1 = None <-> length held = cap.
Proof.
  intros [_ Hs _]. apply Permutation_length in Hs. rewrite length_app, length_seq in Hs. cbn in Hs.
  unfold task_try_acquire. pose proof (pop_back_spec (free_list_ p)) as Hp.
  destruct (pop_back _) as [[rest x]|]; rewrite Hp in Hs; cbn in *.
  - rewrite length_app in Hs. cbn in Hs. split; [done|lia].
  - split; [|done]. intros _. lia.
Qed.
End TaskPool.

(** The pool of call slots: in any use where callers give back only slots
    they hold, the free and the held slots together are all the slots, once
    each, and the counter says how many are held; a slot is refused (or waited
    for) just when all are held, and a granted slot is held by nobody else and
    has been reset; a slot given back is the next one to be granted. *)
Theorem task_pool_exclusive cap p held :
  Z.of_nat cap < 2 ^ 64 -> rtc task_step (task_pool_make cap, []) (p, held) ->
  free_list_ p ++ held ≡ₚ seq 0 cap /\ task_in_use p = Z.of_nat (length held) /\
  ((task_try_acquire p).1 = None <-> length held = cap) /\
  (task_acquire p = None <-> length held = cap) /\
  (forall s p', task_acquire p = Some (s, p') -> s ∉ held /\ slots_ p' !! s = Some fresh_slot) /\
  (forall s, exists p', task_acquire (task_release (Some s) p) = Some (s, p')).
Proof.
  intros Hcap Hr. assert (Hi : task_inv cap (p, held)).
  { remember (task_pool_make cap, []) as st0 eqn:H0. remember (p, held) as st1 eqn:H1.
    assert (Hinit : task_inv cap st0).
    { rewrite H0, task_pool_make_spec. split; cbn; [apply length_replicate|by rewrite app_nil_r|done]. }
    clear H0 H1. induction Hr as [|x y z Hxy _ IH]; [done|]. apply IH. by eapply task_step_inv. }
  pose proof (task_try_none cap p held Hi) as Hnone. split_and!.
  - apply Hi.
  - apply Hi.
  - done.
  - rewrite <- Hnone, acquire_is_try. by destruct (task_try_acquire p) as [[s|] q].
  - intros s p' Ha. rewrite acquire_is_try in Ha.
    destruct (task_try_acquire p) as [[x|] q] eqn:Hq; [|done]. injection Ha as -> ->.
    by destruct (task_try_inv cap Hcap p held s p' Hi Hq) as (_ & ? & ? & _).
  - intros s. unfold task_acquire, task_release, pop_back. cbn. rewrite rev_app_distr. cbn. by eexists.
Qed.

(** Giving a slot back twice is not noticed: it is granted to two callers, and
    the counter falls below zero. *)
Example task_double_release :
  let p := task_release (Some 0%nat) (task_release (Some 0%nat) (task_try_acquire (task_pool_make 1)).2) in
  (task_try_acquire p).1 = Some 0%nat /\ (task_try_acquire (task_try_acquire p).2).1 = Some 0%nat /\
  task_in_use p = 18446744073709551615.
Proof. by vm_compute. Qed.

(** ** Witnesses *)
Lemma task_pool_exclusive_witness :
  exists p, task_in_use p = 1 /\ free_list_ p ++ [1%nat] ≡ₚ [0%nat; 1%nat].
Proof.
  exists (task_try_acquire (task_pool_make 2)).2.
  destruct (task_pool_exclusive 2 (task_try_acquire (task_pool_make 2)).2 [1%nat]) as (H1 & H2 & _).
  - reflexivity.
  - apply rtc_once. apply task_step_try. reflexivity.
  - split; [exact H2|exact H1].
Defined.
End TaskSlots.

